(* ===== verification/_CoqProject ===== *)
-Q . S2P
Prelude.v
DList.v
Bitmap.v
BuddyGeo.v
Buddy.v
ListView.v
Hashtable.v
InodeCache.v
Bcache.v
Vma.v
PageAlloc.v
Kmalloc.v
Paging.v
Mmap.v
Sched.v
Signal.v
Timer.v
Sync.v
IoQueue.v
Pipe.v
WaitExit.v
FileTable.v
