(* ===== verification/Prelude.v ===== *)
(** * MagicBox: a verification library for the MagicBox kernel

    MagicBox is a small monolithic kernel for 32-bit x86 machines: physical memory with
    a buddy allocator, demand paging with copy-on-write and swap, areas and mmap, tasks
    with a priority round-robin scheduler, semaphores and locks, signals, a clock with
    sleeps and alarms, pipes, a VFS with a cache of inodes and a cache of disk buffers,
    two file systems, drivers, and the Linux system calls on top.  This library models
    the parts that carry the kernel's own logic and proves what makes them correct.
    File names below are relative to the repository.

    ** How code becomes definitions

    A function of the kernel is a function here, with the state it touches as an
    argument and a result; an operation that can stop the kernel, follow a bad pointer
    or, in the model only, run out of fuel gives a value of [res].  [ASSERT] and [PANIC]
    are [Panic], a NULL or dangling pointer is [UB].  Machine integers are values of [Z]
    that the arithmetic wraps with [u8] ... [u32], [i8] ... [i32] where the C type does;
    addresses are values of [Z]; a struct is a record and objects that are shared
    through pointers live in a map from addresses ([gmap]), so that an update is seen
    through every pointer.  What an allocation answers (an address, or none), what a disk
    read yields and what other tasks do while the caller sleeps are arguments.

    The kernel is preemptive, but with interrupts off it is not: an interrupts-off
    stretch, and a region under a lock that nothing else takes, is one step.  System
    calls enter through interrupt gates, with interrupts off, and can lose the processor
    only where they block.  Where steps of several tasks interleave the model has an
    explicit step relation, and the theorem holds for every reachable state.

    ** The files

    - [Prelude]: outcomes, machine integers, tactics, maps and counting.
    - [DList] (lib/kernel/dlist.c): the intrusive lists, pointer by pointer; they refine
      functional lists, which is how [ListView] and the later files see them.
    - [Bitmap] (lib/kernel/bitmap.c; the pid pool of thread/thread.c).
    - [BuddyGeo], [Buddy] (mm/buddy.c): the geometry of blocks, and the allocator with
      its invariant: blocks partition the pool, free lists and counters agree with them,
      no two free buddies.
    - [Hashtable] (lib/kernel/hashtable.c): a table refines a finite map.
    - [InodeCache] (fs/inode.c): the cache of inodes and their users.
    - [Bcache] (device/block/ide_buffer.c): the buffer cache: hash table, LRU list, dirty
      lists and the disk behind it; the theorems are about what is logically on the
      disk.
    - [Vma] (mm/vma.c): the areas of an address space, their references to inodes
      through the interface [InodeRefs] that the cache implements.
    - [PageAlloc] (mm/memory.c): single frames with reference counts, runs, kernel pages
      in the direct map, and the window for high memory.
    - [Kmalloc] (mm/memory.c): the kernel heap, its block arenas and large runs, over the
      interface [SlabPages] that the pools of [PageAlloc] implement.
    - [Paging] (mm/memory.c, mm/swap.c): page tables, the page fault handler, fork and
      copy-on-write.
    - [Mmap] (mm/memory.c, fs/ext2/file.c): brk, mmap and munmap over areas, page tables
      and inode references together.
    - [Sched] (thread/thread.c): tasks, the ready list, block and unblock, the clock
      tick, yield and exit.
    - [Signal] (kernel/signal.c): sending, delivery, the user frame and its return,
      masks and actions.
    - [Timer] (device/timer.c): the sleep and alarm queues and the clock interrupt.
    - [Sync] (thread/sync.c): semaphores and locks, as steps of tasks that interleave.
    - [IoQueue] (device/ioqueue.c), [Pipe] (fs/pipe.c): ring buffers, and a reader
      and a writer of a pipe with tasks that close its ends.
    - [WaitExit] (userprog/wait_exit.c): exit and wait.
    - [FileTable] (fs/file_table.c, fs/file.c; close, dup2, fcntl and pipe of fs/fs.c and
      fs/pipe.c; the descriptors of fork, exec and exit in userprog/): descriptors, open
      files, and the counts between them, inodes and pipes.

    The kernel state of [Sched] is a part of the states of [Signal], [Timer], [Sync],
    [IoQueue], [Pipe], [WaitExit] and [FileTable], so that a wake-up in one of these is
    the [thread_unblock] of the scheduler with all it does.

    ** What the theorems show

    - Memory: the buddy allocator hands out disjoint aligned blocks, fails only when no
      run is free, and coalesces; kmalloc blocks are zeroed, disjoint and live until kfree; after
      fork and copy-on-write no process sees another's writes; a fault gives the page
      its area promises; brk, mmap and munmap change exactly the range they name.
    - Files: the hash table is a map; an inode in use has one object, its users are
      counted, and it is never discarded; the buffer cache reads back what was written,
      also after write-back and eviction, and sync makes the disk agree; descriptors,
      open files, inodes and pipe ends are counted exactly over any sequence of calls.
    - Tasks: the scheduler's invariant over every sequence of operations, who runs next,
      and that every ready task runs; a lock excludes, its queue loses no waiter; a pipe
      is a byte stream; exit and wait lose no child and no wake-up; sleeps and alarms
      fire at their tick; a signal frame restores the interrupted state.
    - Where the code does not do what it means to, a lemma evaluates the definitions on
      the state that shows it ([bitmap_scan_overruns], [fork_drops_swapped_pages],
      [sigkill_can_be_ignored], [file_open_shares_slot] and others).

    ** Bounds and fuel

    Loops over a list are structural.  Loops of the C code that have no such measure
    take fuel, and the theorem about the operation is that the fuel its definition gives
    is enough: the traversals of [DList] are given the length of the list, the search of
    the buddy allocator the number of orders, the pick of the scheduler two passes (one
    refill gives a ready task with ticks), munmap and the kernel window the number of
    pages.  Counters carry the bounds that keep them from wrapping as hypotheses (fewer
    than 2^32 descriptors, users of an inode, cached inodes), which every machine of 4 GB
    meets; where a counter may wrap the wrap-around is in the definition.

    ** Not modelled

    Assembly, descriptor tables, port I/O, DMA and screen memory (boot, kernel/kernel.s,
    kernel/interrupt.c, kernel/init.c, most of device/): hardware.  The register and stack
    switch of [switch_to], stack frames of new tasks and the ELF loader (thread/,
    userprog/process.c, exec.c).  The two-level layout of page tables and the TLB: page
    tables are maps from (process, page) to entries.  Swapping out and in (mm/swap.c);
    sys_mprotect; the calls of kmalloc outside [Kmalloc], whose answers are arguments.  The file systems
    (fs/ext2, fs/sifs) apart from the mmap method of ext2; path walk, mount and
    poll (fs/fs.c, fs/namei.c, fs/poll.c).  The terminal and the keyboard.  The system call
    tables (glue/), the libraries (lib/) and the user programs (prog/). *)

From Stdlib Require Export ZArith Lia.
From stdpp Require Export base numbers option gmap list.

#[export] Set Default Goal Selector "!".

Declare Scope mbox_scope.
Delimit Scope mbox_scope with mbox.
#[global] Open Scope Z_scope.

(** ** Outcomes

    [Ok]    : the operation returned;
    [Panic] : an [ASSERT] or a [PANIC] of the kernel fired ([panic_spin] never
              returns);
    [UB]    : the C program has no defined behaviour here (a NULL or dangling
              pointer is dereferenced, an array is accessed out of bounds);
    [Fuel]  : the bound given to the translation of a loop was used up. *)
Inductive res (A : Type) : Type :=
  | Ok (a : A)
  | Panic
  | UB
  | Fuel.
Arguments Ok {A} a.
Arguments Panic {A}.
Arguments UB {A}.
Arguments Fuel {A}.

#[global] Instance res_ret : MRet res := fun A a => Ok a.
#[global] Instance res_bind : MBind res :=
  fun A B f m => match m with Ok a => f a | Panic => Panic | UB => UB | Fuel => Fuel end.
#[global] Instance res_fmap : FMap res :=
  fun A B f m => match m with Ok a => Ok (f a) | Panic => Panic | UB => UB | Fuel => Fuel end.

(** [ASSERT(c)] of [include/magicbox/debug.h] (the build never sets NDEBUG). *)
Definition assert_ (c : bool) : res unit := if c then Ok tt else Panic.

(** A memory read that the C program may only perform on an object. *)
Definition deref {A} (o : option A) : res A :=
  match o with Some a => Ok a | None => UB end.

Definition is_ok {A} (m : res A) : bool :=
  match m with Ok _ => true | _ => false end.

(** ** Machine integers *)
Definition u8 (x : Z) : Z := x mod 2 ^ 8.
Definition u16 (x : Z) : Z := x mod 2 ^ 16.
Definition u32 (x : Z) : Z := x mod 2 ^ 32.
Definition signed (w x : Z) : Z :=
  let r := x mod 2 ^ w in if r <? 2 ^ (w - 1) then r else r - 2 ^ w.
Definition i8 (x : Z) : Z := signed 8 x.
Definition i16 (x : Z) : Z := signed 16 x.
Definition i32 (x : Z) : Z := signed 32 x.

Definition is_u8 (x : Z) : Prop := 0 <= x < 2 ^ 8.
Definition is_u32 (x : Z) : Prop := 0 <= x < 2 ^ 32.

(** [PG_SIZE] of include/arch/global.h *)
Definition PG_SIZE : Z := 4096.

(** ** Tactics *)

(** Case analysis on the tests of a translated [if]. *)
Ltac bdestr :=
  match goal with
  | |- context [?a =? ?b] => destruct (Z.eqb_spec a b)
  | |- context [?a <? ?b] => destruct (Z.ltb_spec a b)
  | |- context [?a <=? ?b] => destruct (Z.leb_spec a b)
  | H : context [?a =? ?b] |- _ => destruct (Z.eqb_spec a b)
  | H : context [?a <? ?b] |- _ => destruct (Z.ltb_spec a b)
  | H : context [?a <=? ?b] |- _ => destruct (Z.leb_spec a b)
  end.

(** Run the monadic bind forwards when its head is known. *)
Ltac ok_simpl := cbn [mbind res_bind mret res_ret deref assert_ fmap res_fmap is_ok] in *.

(** Decompose [m ≫= f = Ok b] hypotheses. *)
Lemma bind_ok {A B} (m : res A) (f : A -> res B) b :
  (m ≫= f) = Ok b <-> exists a, m = Ok a /\ f a = Ok b.
Proof. destruct m; cbn; naive_solver. Qed.

Lemma assert_ok c u : assert_ c = Ok u <-> c = true.
Proof. destruct c, u; cbn; naive_solver. Qed.

Lemma deref_ok {A} (o : option A) a : deref o = Ok a <-> o = Some a.
Proof. destruct o; cbn; naive_solver. Qed.

Ltac inv_ok :=
  repeat match goal with
  | H : (_ ≫= _) = Ok _ |- _ => apply bind_ok in H; destruct H as (? & ? & H)
  | H : assert_ _ = Ok _ |- _ => apply assert_ok in H
  | H : deref _ = Ok _ |- _ => apply deref_ok in H
  | H : Ok _ = Ok _ |- _ => injection H as H; subst
  | H : mret _ = Ok _ |- _ => cbn in H
  | H : Panic = Ok _ |- _ => discriminate H
  | H : UB = Ok _ |- _ => discriminate H
  | H : Fuel = Ok _ |- _ => discriminate H
  end.

Create HintDb mbox.

(** ** Integer lemmas *)
Lemma u32_small x : 0 <= x < 2 ^ 32 -> u32 x = x.
Proof. apply Z.mod_small. Qed.

Lemma u32_range x : 0 <= u32 x < 2 ^ 32.
Proof. apply Z.mod_pos_bound. lia. Qed.

Lemma u8_small x : 0 <= x < 2 ^ 8 -> u8 x = x.
Proof. apply Z.mod_small. Qed.

Lemma u8_range x : 0 <= u8 x < 2 ^ 8.
Proof. apply Z.mod_pos_bound. lia. Qed.

Lemma signed_small w x :
  0 < w -> - 2 ^ (w - 1) <= x < 2 ^ (w - 1) -> signed w x = x.
Proof.
  intros Hw Hx. unfold signed.
  assert (Hp : 2 ^ w = 2 * 2 ^ (w - 1)).
  { rewrite <- Z.pow_succ_r by lia. f_equal. lia. }
  destruct (Z.neg_nonneg_cases x) as [Hn | Hn].
  - rewrite <- (Z.mod_add x 1), Z.mod_small by lia. bdestr; lia.
  - rewrite Z.mod_small by lia. bdestr; lia.
Qed.

Lemma i32_small x : - 2 ^ 31 <= x < 2 ^ 31 -> i32 x = x.
Proof. intros H. apply signed_small; [lia | exact H]. Qed.

#[export] Hint Rewrite u32_small using lia : mbox.
#[export] Hint Resolve u32_range u8_range : mbox.

(** ** List lemmas *)
Lemma filter_ne_id (l : list Z) e : e ∉ l -> filter (fun x => x <> e) l = l.
Proof.
  induction l as [|y l IH]; [done|]. intros [Hy Hl]%not_elem_of_cons.
  rewrite filter_cons_True by congruence. by rewrite IH.
Qed.

Lemma filter_ne_split (l1 l2 : list Z) e :
  NoDup (l1 ++ e :: l2) -> filter (fun x => x <> e) (l1 ++ e :: l2) = l1 ++ l2.
Proof.
  rewrite NoDup_app, NoDup_cons. intros (_ & Hd & Hnin & _).
  rewrite filter_app, filter_cons_False, !filter_ne_id; [done|done| |by auto].
  intros Hin. apply (Hd e Hin). left.
Qed.

Lemma filter_ne_perm (l : list Z) e :
  NoDup l -> e ∈ l -> l ≡ₚ e :: filter (fun x => x <> e) l.
Proof.
  intros Hnd (l1 & l2 & ->)%list_elem_of_split. rewrite filter_ne_split by done.
  by rewrite <- Permutation_middle.
Qed.

(** ** Maps updated at a list of keys *)
Section mapped.
Context {A : Type}.

(** [m'] is [m] with [f] applied to the values at [ps]. *)
Definition mapped (f : A -> A) (ps : list Z) (m m' : gmap Z A) : Prop :=
  forall q, m' !! q = if decide (q ∈ ps) then f <$> m !! q else m !! q.

Definition all_live (m : gmap Z A) (ps : list Z) : Prop := Forall (fun p => is_Some (m !! p)) ps.

Lemma mapped_insert f p ps m b m' : p ∉ ps -> m !! p = Some b ->
  mapped f ps (<[p := f b]> m) m' -> mapped f (p :: ps) m m'.
Proof.
  intros Hp Hb Hm q. rewrite Hm. destruct (decide (p = q)) as [->|Hne].
  - rewrite decide_False by done. rewrite decide_True by left. by rewrite lookup_insert_eq, Hb.
  - rewrite lookup_insert_ne by done. destruct (decide (q ∈ ps)).
    + by rewrite decide_True by (by right).
    + rewrite decide_False; [done|]. by intros [?|?]%elem_of_cons.
Qed.

Lemma all_live_insert p b m ps : all_live m ps -> all_live (<[p := b]> m) ps.
Proof.
  intros Hl. eapply Forall_impl; [exact Hl|]. intros q Hq. cbn. rewrite lookup_insert.
  destruct (decide (p = q)); [eauto|done].
Qed.

Lemma mapped_compose f g ps m m1 m2 : mapped f ps m m1 -> mapped g ps m1 m2 -> mapped (fun b => g (f b)) ps m m2.
Proof.
  intros H1 H2 q. rewrite H2, H1. destruct (decide (q ∈ ps)); [|done]. by destruct (m !! q).
Qed.

Lemma mapped_app f ps qs m m1 m2 : (forall p, p ∈ ps -> p ∉ qs) ->
  mapped f ps m m1 -> mapped f qs m1 m2 -> mapped f (ps ++ qs) m m2.
Proof.
  intros Hd H1 H2 q. rewrite H2, H1. destruct (decide (q ∈ ps)) as [Hp|Hp].
  - rewrite decide_False by auto. by rewrite decide_True by (apply elem_of_app; auto).
  - destruct (decide (q ∈ qs)).
    + by rewrite decide_True by (apply elem_of_app; auto).
    + rewrite decide_False; [done|]. by intros [?|?]%elem_of_app.
Qed.

Lemma mapped_lookup f ps m m' p b : mapped f ps m m' -> m !! p = Some b -> m' !! p = Some (if decide (p ∈ ps) then f b else b).
Proof. intros Hm Hb. rewrite Hm, Hb. by destruct (decide (p ∈ ps)). Qed.
End mapped.

(** The page an address is in *)
Lemma land_page_mask y : 0 <= y < 2 ^ 32 -> Z.land y 0xfffff000 = y / PG_SIZE * PG_SIZE.
Proof.
  intros Hy. change 0xfffff000 with (Z.ldiff (Z.ones 32) (Z.ones 12)).
  assert (Hl : Z.land y (Z.ldiff (Z.ones 32) (Z.ones 12)) = Z.ldiff (Z.land y (Z.ones 32)) (Z.ones 12)).
  { apply Z.bits_inj'. intros n Hn. by rewrite Z.land_spec, !Z.ldiff_spec, Z.land_spec, andb_assoc. }
  rewrite Hl, Z.land_ones, Z.mod_small by lia. rewrite Z.ldiff_ones_r, Z.shiftl_mul_pow2, Z.shiftr_div_pow2 by lia.
  done.
Qed.

(** ** Counting the entries of a map *)
Section count.
Context {K A : Type} `{Countable K}.

Definition countm (f : A -> bool) (m : gmap K A) : Z := Z.of_nat (size (filter (fun kv : K * A => f kv.2 = true) m)).

Definition one_if (b : bool) : Z := if b then 1 else 0.

Lemma countm_nonneg f m : 0 <= countm f m.
Proof. unfold countm. lia. Qed.

Lemma countm_delete f m k a : m !! k = Some a -> countm f m = countm f (delete k m) + one_if (f a).
Proof.
  intros Hk. unfold countm, one_if. rewrite <- (insert_id m k a Hk) at 1. rewrite <- insert_delete_eq.
  destruct (f a) eqn:Hf.
  - rewrite map_filter_insert_True by done. rewrite map_size_insert_None; [lia|].
    rewrite map_lookup_filter_None. left. apply lookup_delete_eq.
  - rewrite map_filter_insert_False by (cbn; congruence). rewrite delete_delete_eq. lia.
Qed.

Lemma countm_insert f m k a : m !! k = None -> countm f (<[k := a]> m) = countm f m + one_if (f a).
Proof.
  intros Hk. rewrite (countm_delete f (<[k := a]> m) k a) by apply lookup_insert_eq. by rewrite delete_insert_id.
Qed.

Lemma countm_update f m k a b : m !! k = Some a -> countm f (<[k := b]> m) = countm f m - one_if (f a) + one_if (f b).
Proof.
  intros Hk. rewrite (countm_delete f m k a Hk), (countm_delete f (<[k := b]> m) k b) by apply lookup_insert_eq.
  rewrite delete_insert_eq. lia.
Qed.

Lemma countm_ext f g m : (forall k a, m !! k = Some a -> f a = g a) -> countm f m = countm g m.
Proof.
  intros He. unfold countm. do 2 f_equal. apply map_filter_ext. intros k a Hk. cbn. by rewrite (He k a Hk).
Qed.

Lemma countm_pos f m k a : m !! k = Some a -> f a = true -> 0 < countm f m.
Proof.
  intros Hk Hf. rewrite (countm_delete f m k a Hk), Hf. pose proof (countm_nonneg f (delete k m)). cbn. lia.
Qed.

Lemma countm_zero f m : (forall k a, m !! k = Some a -> f a = false) -> countm f m = 0.
Proof.
  intros He. unfold countm. assert (E : filter (fun kv : K * A => f kv.2 = true) m = ∅); [|by rewrite E].
  apply map_empty. intros k. apply map_lookup_filter_None. right. intros a Hk Hf. cbn in Hf. by rewrite (He k a Hk) in Hf.
Qed.

Lemma countm_size f m : countm f m <= Z.of_nat (size m).
Proof. unfold countm. apply inj_le, map_subseteq_size, map_filter_subseteq. Qed.
End count.
