(* ===== verification/DList.v ===== *)
(** * The intrusive doubly linked list ([lib/kernel/dlist.c])

    The list is modelled at the level of the pointers the C code writes: the
    heap maps the address of every [struct dlist_elem] to its two fields, a
    [struct dlist] at address [p] is its two sentinels at [p] and [p + 8], and
    each operation performs the loads and stores of the source in the source's
    order.  [rep h p l] is the abstraction relation: the heap [h] holds at [p] a
    well-formed list whose elements are, in order, the addresses [l].  The
    theorems say that every operation refines the corresponding operation on
    functional lists.  The other components use lists for their queues on the
    strength of these theorems.

    [intr_disable]/[intr_set_status] around the stores make each operation atomic
    on this uniprocessor kernel; here an operation is one function. *)

From S2P Require Import Prelude.

(** ** Data *)

Abbreviation addr := Z (only parsing).
Definition NULL : addr := 0.

Record dlist_elem := Elem { prev : addr; next : addr }.

Abbreviation heap := (gmap Z dlist_elem).

(** [sizeof(struct dlist_elem)] on i386: [tail] follows [head]. *)
Definition head (p : addr) : addr := p.
Definition tail (p : addr) : addr := p + 8.

(** [TIMEOUT_CNT] *)
Definition TIMEOUT_CNT : Z := 100000000.

(** ** Memory access *)
Definition get_prev (h : heap) (a : addr) : res addr := deref (prev <$> h !! a).
Definition get_next (h : heap) (a : addr) : res addr := deref (next <$> h !! a).

Definition set_prev (h : heap) (a v : addr) : res heap :=
  n ← deref (h !! a); Ok (<[a := Elem v (next n)]> h).
Definition set_next (h : heap) (a v : addr) : res heap :=
  n ← deref (h !! a); Ok (<[a := Elem (prev n) v]> h).

(** ** Operations *)
Definition dlist_init (h : heap) (p : addr) : res heap :=
  h ← set_prev h (head p) NULL;
  h ← set_next h (head p) (tail p);
  h ← set_prev h (tail p) (head p);
  set_next h (tail p) NULL.

Definition dlist_insert_front (h : heap) (front elem : addr) : res heap :=
  fp ← get_prev h front;
  h ← set_next h fp elem;
  fp ← get_prev h front;
  h ← set_prev h elem fp;
  h ← set_next h elem front;
  set_prev h front elem.

Definition dlist_push_front (h : heap) (p elem : addr) : res heap :=
  first ← get_next h (head p);
  dlist_insert_front h first elem.

Definition dlist_push_back (h : heap) (p elem : addr) : res heap :=
  dlist_insert_front h (tail p) elem.

Definition dlist_remove (h : heap) (e : addr) : res heap :=
  ep ← get_prev h e;
  en ← get_next h e;
  h ← set_next h ep en;
  en ← get_next h e;
  ep ← get_prev h e;
  h ← set_prev h en ep;
  h ← set_next h e NULL;
  set_prev h e NULL.

Definition dlist_pop_front (h : heap) (p : addr) : res (addr * heap) :=
  e ← get_next h (head p);
  h ← dlist_remove h e;
  Ok (e, h).

Definition dlist_empty (h : heap) (p : addr) : res bool :=
  n ← get_next h (head p); Ok (n =? tail p).

(** The loops walk the [next] fields; [fuel] bounds the number of nodes. *)
Fixpoint find_loop (fuel : nat) (h : heap) (p obj e : addr) : res bool :=
  match fuel with
  | O => Fuel
  | S fuel =>
      if e =? tail p then Ok false
      else if e =? obj then Ok true
      else n ← get_next h e; find_loop fuel h p obj n
  end.

Definition dlist_find (h : heap) (p obj : addr) : res bool :=
  e ← get_next h (head p); find_loop (S (size h)) h p obj e.

Fixpoint len_loop (fuel : nat) (h : heap) (p e length : Z) : res Z :=
  match fuel with
  | O => Fuel
  | S fuel =>
      if e =? tail p then Ok length
      else n ← get_next h e; len_loop fuel h p n (u32 (length + 1))
  end.

Definition dlist_len (h : heap) (p : addr) : res Z :=
  e ← get_next h (head p); len_loop (S (size h)) h p e 0.

(** [dlist_traversal] checks the links of every node it visits and panics when
    one is broken or when more than [TIMEOUT_CNT] nodes were seen. *)
Fixpoint traversal_loop (fuel : nat) (h : heap) (condition : addr -> bool)
    (p e count : Z) : res addr :=
  match fuel with
  | O => Fuel
  | S fuel =>
      if e =? tail p then Ok NULL
      else
        ep ← get_prev h e;
        en ← get_next h e;
        _ ← assert_ (negb ((ep =? NULL) || (en =? NULL)));
        enp ← get_prev h en;
        epn ← get_next h ep;
        _ ← assert_ (negb (negb (enp =? e) || negb (epn =? e)));
        _ ← assert_ (negb (count >? TIMEOUT_CNT));
        if condition e then Ok e
        else traversal_loop fuel h condition p en (u32 (count + 1))
  end.

Definition dlist_traversal (h : heap) (p : addr) (condition : addr -> bool) : res addr :=
  e ← get_next h (head p);
  b ← dlist_empty h p;
  if (b : bool) then Ok NULL else traversal_loop (S (size h)) h condition p e 0.

Definition dlist_insert_order (h : heap) (p : addr) (condition : addr -> bool)
    (elem : addr) : res heap :=
  ret ← dlist_traversal h p condition;
  if ret =? NULL then dlist_insert_front h (tail p) elem
  else dlist_insert_front h ret elem.

Definition dlist_move_all (h : heap) (dst src : addr) : res heap :=
  b ← dlist_empty h src;
  if (b : bool) then Ok h
  else
    sn ← get_next h (head src);
    h ← set_next h (head dst) sn;
    sp ← get_prev h (tail src);
    h ← set_prev h (tail dst) sp;
    dn ← get_next h (head dst);
    h ← set_prev h dn (head dst);
    dp ← get_prev h (tail dst);
    h ← set_next h dp (tail dst);
    h ← set_next h (head src) (tail src);
    set_prev h (tail src) (head src).

(** [dlist_is_linked] (dlist.h); the C macro stops at the first false test. *)
Definition dlist_is_linked (h : heap) (e : addr) : res bool :=
  ep ← get_prev h e;
  en ← get_next h e;
  if (ep =? NULL) || (en =? NULL) then Ok false
  else
    epn ← get_next h ep;
    if negb (epn =? e) then Ok false
    else enp ← get_prev h en; Ok (enp =? e).

(** ** The abstraction relation *)

Definition hn (h : heap) (a : addr) : option addr := next <$> h !! a.
Definition hp (h : heap) (a : addr) : option addr := prev <$> h !! a.

Fixpoint chain (h : heap) (l : list addr) : Prop :=
  match l with
  | a :: ((b :: _) as l') => hn h a = Some b /\ hp h b = Some a /\ chain h l'
  | _ => True
  end.

(** All the nodes of the list, the sentinels included. *)
Definition nodes (p : addr) (l : list addr) : list addr := head p :: l ++ [tail p].

Record rep (h : heap) (p : addr) (l : list addr) : Prop := {
  rep_chain : chain h (nodes p l);
  rep_nodup : NoDup (nodes p l);
  rep_null : NULL ∉ nodes p l;
  rep_first : hp h (head p) = Some NULL;
  rep_last : hn h (tail p) = Some NULL;
}.

(** A node that belongs to no list: its links are whatever they are. *)
Definition fresh (h : heap) (p : addr) (l : list addr) (e : addr) : Prop :=
  is_Some (h !! e) /\ e ∉ nodes p l /\ e <> NULL.

(** ** Loads and stores *)
Lemma get_next_hn h a v : get_next h a = Ok v <-> hn h a = Some v.
Proof. apply deref_ok. Qed.

Lemma get_prev_hp h a v : get_prev h a = Ok v <-> hp h a = Some v.
Proof. apply deref_ok. Qed.

Lemma hn_is_Some h a v : hn h a = Some v -> is_Some (h !! a).
Proof. unfold hn. destruct (h !! a); naive_solver. Qed.

Lemma hp_is_Some h a v : hp h a = Some v -> is_Some (h !! a).
Proof. unfold hp. destruct (h !! a); naive_solver. Qed.

#[local] Hint Resolve hn_is_Some hp_is_Some : mbox.

(** What a store changes, seen through the two fields. *)
Definition upd (f : addr -> option addr) (a v : addr) : addr -> option addr :=
  fun x => if decide (x = a) then Some v else f x.

Lemma set_next_spec h a v :
  is_Some (h !! a) ->
  exists h', set_next h a v = Ok h' /\ (forall x, hn h' x = upd (hn h) a v x) /\
             (forall x, hp h' x = hp h x).
Proof.
  intros [n Hn]. unfold set_next. rewrite Hn. ok_simpl. eexists. split; [done|].
  unfold hn, hp, upd. split; intros x; rewrite lookup_insert;
    destruct (decide (x = a)) as [->|?]; rewrite ?decide_True, ?decide_False by congruence;
    [done|done| |done]. by rewrite Hn.
Qed.

Lemma set_prev_spec h a v :
  is_Some (h !! a) ->
  exists h', set_prev h a v = Ok h' /\ (forall x, hp h' x = upd (hp h) a v x) /\
             (forall x, hn h' x = hn h x).
Proof.
  intros [n Hn]. unfold set_prev. rewrite Hn. ok_simpl. eexists. split; [done|].
  unfold hn, hp, upd. split; intros x; rewrite lookup_insert;
    destruct (decide (x = a)) as [->|?]; rewrite ?decide_True, ?decide_False by congruence;
    [done|done| |done]. by rewrite Hn.
Qed.

Lemma is_Some_hn h a : is_Some (h !! a) <-> is_Some (hn h a).
Proof. unfold hn. rewrite fmap_is_Some. done. Qed.

Lemma lookup_hn_hp h h' x : hn h' x = hn h x -> hp h' x = hp h x -> h' !! x = h !! x.
Proof.
  unfold hn, hp. destruct (h' !! x) as [[]|], (h !! x) as [[]|]; cbn; congruence.
Qed.

(** ** Chains *)
Lemma chain_cons h a b l :
  chain h (a :: b :: l) <-> hn h a = Some b /\ hp h b = Some a /\ chain h (b :: l).
Proof. done. Qed.

Lemma chain_app h l1 a l2 :
  chain h (l1 ++ a :: l2) <-> chain h (l1 ++ [a]) /\ chain h (a :: l2).
Proof.
  induction l1 as [|x l1 IH]; [cbn; naive_solver|].
  destruct l1 as [|y l1]; [cbn; naive_solver|].
  cbn [app] in *. rewrite !chain_cons, IH. naive_solver.
Qed.

(** A chain only depends on the [next] of all nodes but the last and the [prev]
    of all nodes but the first. *)
Lemma chain_frame h h' a l :
  chain h (a :: l) ->
  (forall x, x ∈ removelast (a :: l) -> hn h' x = hn h x) ->
  (forall x, x ∈ l -> hp h' x = hp h x) ->
  chain h' (a :: l).
Proof.
  revert a. induction l as [|b l IH]; intros a Hc Hn Hp; [done|].
  rewrite chain_cons in *. destruct Hc as (H1 & H2 & H3).
  rewrite Hn, Hp by (cbn; set_solver). split; [done|]. split; [done|].
  apply IH; [done| |set_solver].
  intros x Hx. apply Hn. cbn in *. set_solver.
Qed.

Lemma removelast_snoc {A} (l : list A) a : removelast (l ++ [a]) = l.
Proof. apply removelast_last. Qed.

Lemma chain_frame_snoc h h' l a :
  chain h (l ++ [a]) ->
  (forall x, x ∈ l -> hn h' x = hn h x) ->
  (forall x, x ∈ l ++ [a] -> hp h' x = hp h x) ->
  chain h' (l ++ [a]).
Proof.
  intros Hc Hn Hp. destruct l as [|b l]; [done|]. cbn [app] in *.
  apply (chain_frame h); [done| |set_solver].
  intros x. change (b :: l ++ [a]) with ((b :: l) ++ [a]).
  rewrite removelast_snoc. apply Hn.
Qed.

(** Every list node is preceded and followed by a node. *)
Lemma nodes_split p l a :
  a ∈ l ++ [tail p] -> exists l1 x l2, nodes p l = l1 ++ x :: a :: l2.
Proof.
  intros Ha. unfold nodes. apply list_elem_of_split in Ha as (k1 & k2 & ->).
  destruct (exists_last (l := head p :: k1)) as (l1 & x & Heq); [done|].
  exists l1, x, k2. rewrite app_comm_cons, Heq, <- (assoc_L (++)). done.
Qed.

(** ** Symbolic execution of the two mutators *)
Lemma dlist_insert_front_spec h f e p :
  hp h f = Some p -> is_Some (h !! p) -> is_Some (h !! e) -> e <> f -> e <> p ->
  exists h', dlist_insert_front h f e = Ok h' /\
    (forall x, hn h' x = upd (upd (hn h) p e) e f x) /\
    (forall x, hp h' x = upd (upd (hp h) e p) f e x).
Proof.
  intros Hf Hp He Hef Hep. unfold dlist_insert_front.
  rewrite (proj2 (get_prev_hp h f p) Hf). ok_simpl.
  destruct (set_next_spec h p e) as (h1 & -> & Hn1 & Hp1); [done|]. ok_simpl.
  rewrite (proj2 (get_prev_hp h1 f p)) by (by rewrite Hp1). ok_simpl.
  destruct (set_prev_spec h1 e p) as (h2 & -> & Hp2 & Hn2).
  { rewrite is_Some_hn, Hn1 in *. unfold upd. by rewrite decide_False. }
  ok_simpl.
  destruct (set_next_spec h2 e f) as (h3 & -> & Hn3 & Hp3).
  { rewrite is_Some_hn, Hn2, Hn1 in *. unfold upd. by rewrite decide_False. }
  ok_simpl.
  destruct (set_prev_spec h3 f e) as (h4 & -> & Hp4 & Hn4).
  { apply hp_is_Some in Hf. rewrite is_Some_hn, Hn3 in *. unfold upd.
    rewrite decide_False by done. rewrite Hn2, Hn1. unfold upd. by case_decide. }
  exists h4. split; [done|]. split; intros x.
  - rewrite Hn4, Hn3. unfold upd. case_decide; [done|]. by rewrite Hn2, Hn1.
  - rewrite Hp4. unfold upd. case_decide; [done|]. rewrite Hp3, Hp2. unfold upd.
    by rewrite Hp1.
Qed.

Lemma dlist_remove_spec h e p n :
  hp h e = Some p -> hn h e = Some n -> is_Some (h !! p) -> is_Some (h !! n) ->
  p <> e -> n <> e ->
  exists h', dlist_remove h e = Ok h' /\
    (forall x, hn h' x = upd (upd (hn h) p n) e NULL x) /\
    (forall x, hp h' x = upd (upd (hp h) n p) e NULL x).
Proof.
  intros Hep Hen Hp Hn Hpe Hne. unfold dlist_remove.
  rewrite (proj2 (get_prev_hp h e p) Hep). ok_simpl.
  rewrite (proj2 (get_next_hn h e n) Hen). ok_simpl.
  destruct (set_next_spec h p n) as (h1 & -> & Hn1 & Hp1); [done|]. ok_simpl.
  rewrite (proj2 (get_next_hn h1 e n)) by (rewrite Hn1; unfold upd; by rewrite decide_False).
  ok_simpl. rewrite (proj2 (get_prev_hp h1 e p)) by (by rewrite Hp1). ok_simpl.
  destruct (set_prev_spec h1 n p) as (h2 & -> & Hp2 & Hn2).
  { rewrite is_Some_hn, Hn1 in *. unfold upd. by case_decide. }
  ok_simpl.
  destruct (set_next_spec h2 e NULL) as (h3 & -> & Hn3 & Hp3).
  { apply hn_is_Some in Hen. rewrite is_Some_hn, Hn2, Hn1 in *. unfold upd. by case_decide. }
  ok_simpl.
  destruct (set_prev_spec h3 e NULL) as (h4 & -> & Hp4 & Hn4).
  { rewrite is_Some_hn, Hn3. unfold upd. by rewrite decide_True. }
  exists h4. split; [done|]. split; intros x.
  - rewrite Hn4, Hn3. unfold upd. case_decide; [done|]. by rewrite Hn2, Hn1.
  - rewrite Hp4. unfold upd. case_decide; [done|]. rewrite Hp3, Hp2. unfold upd.
    by rewrite Hp1.
Qed.

(** Only the nodes named by the operation change: other lists are framed. *)
Lemma rep_frame h h' q l :
  rep h q l -> (forall x, x ∈ nodes q l -> h' !! x = h !! x) -> rep h' q l.
Proof.
  intros [Hc Hnd Hnull Hf Hl] Hfr.
  assert (Hx : forall x, x ∈ nodes q l -> hn h' x = hn h x /\ hp h' x = hp h x).
  { intros x Hx. unfold hn, hp. by rewrite Hfr. }
  assert (head q ∈ nodes q l /\ tail q ∈ nodes q l) as [Hh Ht].
  { unfold nodes. split; set_solver. }
  split; [|done|done| |].
  - apply (chain_frame h); [done| |].
    + intros x Hin. apply Hx. unfold nodes in *.
      change (head q :: l ++ [tail q]) with ((head q :: l) ++ [tail q]) in Hin.
      rewrite removelast_snoc in Hin. set_solver.
    + intros x Hin. apply Hx. unfold nodes. set_solver.
  - by rewrite (proj2 (Hx _ Hh)).
  - by rewrite (proj1 (Hx _ Ht)).
Qed.

(** The node in front of which an insertion into [l1 ++ l2] happens. *)
Definition at_pos (p : addr) (l2 : list addr) : addr := List.hd 0 (l2 ++ [tail p]).

Lemma nodes_cut p l1 l2 :
  exists k a m, head p :: l1 = k ++ [a] /\ l2 ++ [tail p] = at_pos p l2 :: m /\
    nodes p (l1 ++ l2) = k ++ a :: at_pos p l2 :: m /\
    forall e, nodes p (l1 ++ e :: l2) = k ++ a :: e :: at_pos p l2 :: m.
Proof.
  destruct (exists_last (l := head p :: l1)) as (k & a & Hk); [done|].
  destruct (l2 ++ [tail p]) as [|f m] eqn:Hm; [by destruct l2|].
  exists k, a, m. unfold at_pos. rewrite Hm. split; [done|]. split; [done|]. unfold nodes.
  assert (Hass : forall r, k ++ a :: r = (head p :: l1) ++ r)
    by (intros r; rewrite Hk, <- (assoc_L (++)); done).
  split; [|intros e]; rewrite Hass; cbn; rewrite <- Hm, <- ?(assoc_L (++)); done.
Qed.

Lemma cut_nodup (k : list addr) a f m :
  NoDup (k ++ a :: f :: m) -> a ∉ k /\ f ∉ k /\ a <> f /\ a ∉ m /\ f ∉ m.
Proof. rewrite NoDup_app, !NoDup_cons. set_solver. Qed.

Lemma cut_insert_nodup (k : list addr) a f m e :
  NoDup (k ++ a :: f :: m) -> e ∉ k ++ a :: f :: m -> NoDup (k ++ a :: e :: f :: m).
Proof. rewrite !NoDup_app, !NoDup_cons. set_solver. Qed.

Lemma removelast_elem {A} (l : list A) x : x ∈ removelast l -> x ∈ l.
Proof. induction l as [|y [|z l] IH]; cbn in *; [done|set_solver|]. set_solver. Qed.

Section insertion.
Context (h : heap) (p : addr) (l1 l2 : list addr) (e : addr).
Hypothesis Hrep : rep h p (l1 ++ l2).
Hypothesis Hfresh : fresh h p (l1 ++ l2) e.

(** [dlist_insert_front] inserts just before the given node, and touches no
    node outside the list. *)
Lemma insert_front_rep :
  exists h', dlist_insert_front h (at_pos p l2) e = Ok h' /\ rep h' p (l1 ++ e :: l2) /\
    (forall x, x ∉ nodes p (l1 ++ e :: l2) -> h' !! x = h !! x).
Proof.
  destruct Hrep as [Hc Hnd Hnull Hfst Hlst], Hfresh as (Hlive & Hnin & He0).
  destruct (nodes_cut p l1 l2) as (k & a & m & Hk & Hm & Hn & Hn').
  set (f := at_pos p l2) in *. rewrite Hn in Hc, Hnd, Hnull, Hnin.
  assert (Hcs := Hc). apply chain_app in Hcs as [Hc1 (Haf & Hfa & Hc2)].
  destruct (cut_nodup _ _ _ _ Hnd) as (Hak & Hfk & Haf' & Ham & Hfm).
  rewrite not_elem_of_app, !not_elem_of_cons in Hnin, Hnull.
  destruct Hnin as (Hek & Hea & Hef & Hem).
  destruct (dlist_insert_front_spec h f e a) as (h' & -> & Hhn & Hhp);
    [done|eauto with mbox|done|done|done|].
  assert (Hfn : forall x, x <> a -> x <> e -> hn h' x = hn h x).
  { intros x ??. rewrite Hhn. unfold upd. by rewrite !decide_False. }
  assert (Hfp : forall x, x <> f -> x <> e -> hp h' x = hp h x).
  { intros x ??. rewrite Hhp. unfold upd. by rewrite !decide_False. }
  assert (Hhd : head p ∈ k ++ [a]) by (rewrite <- Hk; left).
  assert (Htl : tail p ∈ f :: m) by (rewrite <- Hm; apply elem_of_app; right; left).
  exists h'. split; [done|]. split.
  2: { intros x Hx. rewrite Hn', not_elem_of_app, !not_elem_of_cons in Hx.
       apply lookup_hn_hp; [apply Hfn|apply Hfp]; tauto. }
  split; rewrite ?Hn'.
  - apply chain_app. split.
    + apply (chain_frame_snoc h); [done| |]; intros x Hx.
      * apply Hfn; by intros ->.
      * apply Hfp; intros ->; apply elem_of_app in Hx as [?|?%list_elem_of_singleton]; done.
    + rewrite !chain_cons, !Hhn, !Hhp. unfold upd.
      split_and!; [by repeat case_decide..|].
      apply (chain_frame h); [done| |].
      * intros x Hx. apply removelast_elem in Hx.
        apply Hfn; intros ->; apply elem_of_cons in Hx as [?|?]; done.
      * intros x Hx. apply Hfp; by intros ->.
  - apply (cut_insert_nodup _ _ _ _ e Hnd). rewrite not_elem_of_app, !not_elem_of_cons. done.
  - rewrite not_elem_of_app, !not_elem_of_cons. naive_solver.
  - rewrite Hfp; [done|..]; intros Heq; rewrite Heq in Hhd;
      apply elem_of_app in Hhd as [?|?%list_elem_of_singleton]; done.
  - rewrite Hfn; [done|..]; intros Heq; rewrite Heq in Htl;
      apply elem_of_cons in Htl as [?|?]; done.
Qed.

End insertion.

(** ** Refinement of the operations *)

Lemma dlist_init_rep h p :
  is_Some (h !! head p) -> is_Some (h !! tail p) -> p <> NULL -> tail p <> NULL ->
  exists h', dlist_init h p = Ok h' /\ rep h' p [].
Proof.
  intros Hh Ht Hp Htp.
  assert (Hne : head p <> tail p) by (unfold head, tail; lia).
  unfold dlist_init.
  destruct (set_prev_spec h (head p) NULL) as (h1 & -> & Hp1 & Hn1); [done|]. ok_simpl.
  destruct (set_next_spec h1 (head p) (tail p)) as (h2 & -> & Hn2 & Hp2);
    [by rewrite is_Some_hn, Hn1, <- is_Some_hn|]. ok_simpl.
  destruct (set_prev_spec h2 (tail p) (head p)) as (h3 & -> & Hp3 & Hn3).
  { rewrite is_Some_hn, Hn2. unfold upd. rewrite decide_False by done.
    by rewrite Hn1, <- is_Some_hn. }
  ok_simpl.
  destruct (set_next_spec h3 (tail p) NULL) as (h4 & -> & Hn4 & Hp4).
  { rewrite is_Some_hn, Hn3, Hn2. unfold upd. rewrite decide_False by done.
    by rewrite Hn1, <- is_Some_hn. }
  exists h4. split; [done|].
  assert (Hv : hn h4 (head p) = Some (tail p) /\ hp h4 (tail p) = Some (head p) /\
               hp h4 (head p) = Some NULL /\ hn h4 (tail p) = Some NULL).
  { rewrite !Hn4, !Hp4, !Hp3. unfold upd.
    repeat (first [rewrite decide_True by done | rewrite decide_False by done]).
    rewrite Hn3, Hn2, Hp2, Hp1. unfold upd. by rewrite !decide_True. }
  split; unfold nodes; cbn; try tauto.
  - apply NoDup_cons. split; [set_solver|apply NoDup_singleton].
  - unfold head. set_solver.
Qed.

Lemma dlist_push_back_rep h p l e :
  rep h p l -> fresh h p l e ->
  exists h', dlist_push_back h p e = Ok h' /\ rep h' p (l ++ [e]) /\
    (forall x, x ∉ nodes p (l ++ [e]) -> h' !! x = h !! x).
Proof.
  intros Hr Hf. apply (insert_front_rep h p l [] e); by rewrite app_nil_r.
Qed.

Lemma rep_next_head h p l : rep h p l -> hn h (head p) = Some (at_pos p l).
Proof.
  intros [Hc _ _ _ _]. unfold at_pos, nodes in *.
  destruct l; by apply chain_cons in Hc as [? _].
Qed.

Lemma dlist_push_front_rep h p l e :
  rep h p l -> fresh h p l e ->
  exists h', dlist_push_front h p e = Ok h' /\ rep h' p (e :: l) /\
    (forall x, x ∉ nodes p (e :: l) -> h' !! x = h !! x).
Proof.
  intros Hr Hf. unfold dlist_push_front.
  rewrite (proj2 (get_next_hn h (head p) (at_pos p l)) (rep_next_head _ _ _ Hr)).
  apply (insert_front_rep h p [] l e); done.
Qed.

Lemma cut_nodup3 (k : list addr) a e f m :
  NoDup (k ++ a :: e :: f :: m) ->
  NoDup (k ++ a :: f :: m) /\ e ∉ k /\ a <> e /\ f <> e /\ e ∉ m.
Proof. rewrite !NoDup_app, !NoDup_cons. set_solver. Qed.

Lemma dlist_remove_rep h p l1 e l2 :
  rep h p (l1 ++ e :: l2) ->
  exists h', dlist_remove h e = Ok h' /\ rep h' p (l1 ++ l2) /\
    hn h' e = Some NULL /\ hp h' e = Some NULL /\
    (forall x, x ∉ nodes p (l1 ++ e :: l2) -> h' !! x = h !! x).
Proof.
  intros [Hc Hnd Hnull Hfst Hlst].
  destruct (nodes_cut p l1 l2) as (k & a & m & Hk & Hm & Hn & Hn').
  set (f := at_pos p l2) in *. rewrite (Hn' e) in *.
  assert (Hcs := Hc). apply chain_app in Hcs as [Hc1 (Hae & Hea & Hef & Hfe & Hc2)].
  destruct (cut_nodup3 _ _ _ _ _ Hnd) as (Hnd' & Hek & Hane & Hfne & Hem).
  destruct (cut_nodup _ _ _ _ Hnd') as (Hak & Hfk & Haf & Ham & Hfm).
  destruct (dlist_remove_spec h e a f) as (h' & -> & Hhn & Hhp);
    [done|done|eauto with mbox..|done|done|].
  assert (Hfn : forall x, x <> a -> x <> e -> hn h' x = hn h x).
  { intros x ??. rewrite Hhn. unfold upd. by rewrite !decide_False. }
  assert (Hfp : forall x, x <> f -> x <> e -> hp h' x = hp h x).
  { intros x ??. rewrite Hhp. unfold upd. by rewrite !decide_False. }
  assert (Hhd : head p ∈ k ++ [a]) by (rewrite <- Hk; left).
  assert (Htl : tail p ∈ f :: m) by (rewrite <- Hm; apply elem_of_app; right; left).
  exists h'. split; [done|]. split_and!; [|by rewrite ?Hhn, ?Hhp; unfold upd; rewrite decide_True..|].
  2: { intros x Hx. rewrite not_elem_of_app, !not_elem_of_cons in Hx.
       apply lookup_hn_hp; [apply Hfn|apply Hfp]; tauto. }
  split; rewrite ?Hn.
  - apply chain_app. split.
    + apply (chain_frame_snoc h); [done| |]; intros x Hx.
      * apply Hfn; by intros ->.
      * apply Hfp; intros ->; apply elem_of_app in Hx as [?|?%list_elem_of_singleton]; done.
    + rewrite !chain_cons, !Hhn, !Hhp. unfold upd.
      split_and!; [by repeat case_decide..|].
      apply (chain_frame h); [done| |].
      * intros x Hx. apply removelast_elem in Hx.
        apply Hfn; intros ->; apply elem_of_cons in Hx as [?|?]; done.
      * intros x Hx. apply Hfp; by intros ->.
  - done.
  - revert Hnull. rewrite !not_elem_of_app, !not_elem_of_cons. tauto.
  - rewrite Hfp; [done|..]; intros Heq; rewrite Heq in Hhd;
      apply elem_of_app in Hhd as [?|?%list_elem_of_singleton]; done.
  - rewrite Hfn; [done|..]; intros Heq; rewrite Heq in Htl;
      apply elem_of_cons in Htl as [?|?]; done.
Qed.

Lemma dlist_pop_front_rep h p e l :
  rep h p (e :: l) ->
  exists h', dlist_pop_front h p = Ok (e, h') /\ rep h' p l /\
    hn h' e = Some NULL /\ hp h' e = Some NULL /\
    (forall x, x ∉ nodes p (e :: l) -> h' !! x = h !! x).
Proof.
  intros Hr. unfold dlist_pop_front.
  rewrite (proj2 (get_next_hn h (head p) e) (rep_next_head _ _ _ Hr)). ok_simpl.
  destruct (dlist_remove_rep h p [] e l Hr) as (h' & -> & ?). exists h'. done.
Qed.

Lemma dlist_empty_rep h p l :
  rep h p l -> dlist_empty h p = Ok (bool_decide (l = [])).
Proof.
  intros Hr. unfold dlist_empty.
  rewrite (proj2 (get_next_hn h (head p) (at_pos p l)) (rep_next_head _ _ _ Hr)). ok_simpl.
  f_equal. destruct Hr as [_ Hnd _ _ _]. destruct l as [|e l].
  - apply Z.eqb_refl.
  - rewrite bool_decide_false by done. apply Z.eqb_neq. change (at_pos p (e :: l)) with e.
    intros ->.
    unfold nodes in Hnd. rewrite <- app_comm_cons in Hnd. rewrite !NoDup_cons in Hnd.
    destruct Hnd as (_ & Hnd & _). apply Hnd, elem_of_app. right. left.
Qed.

(** ** The loops *)

(** The heap has room for the whole list, so the fuel of the loops suffices. *)
Lemma rep_size h p l : rep h p l -> (length l < size h)%nat.
Proof.
  intros [Hc Hnd _ _ Hlst].
  enough (Hin : forall x, x ∈ nodes p l -> is_Some (h !! x)).
  { assert (Hsub : (list_to_set (nodes p l) : gset Z) ⊆ dom h).
    { intros x Hx. apply elem_of_dom, Hin. by apply elem_of_list_to_set in Hx. }
    apply subseteq_size in Hsub. rewrite size_list_to_set, size_dom in Hsub by done.
    unfold nodes in Hsub. cbn in Hsub. rewrite length_app in Hsub. cbn in Hsub. lia. }
  intros x Hx. unfold nodes in *.
  change (head p :: l ++ [tail p]) with ((head p :: l) ++ [tail p]) in *.
  apply elem_of_app in Hx as [Hx|Hx];
    [|apply list_elem_of_singleton in Hx as ->; eauto with mbox].
  apply list_elem_of_split in Hx as (k1 & k2 & Heq). rewrite Heq, <- (assoc_L (++)) in Hc.
  apply chain_app in Hc as [_ Hc].
  destruct k2; apply chain_cons in Hc as (Hy & _); eauto with mbox.
Qed.

Lemma at_pos_cons p x s : at_pos p (x :: s) = x.
Proof. done. Qed.

Lemma chain_tail_next h p x s :
  chain h ((x :: s) ++ [tail p]) -> hn h x = Some (at_pos p s) /\ chain h (s ++ [tail p]).
Proof. unfold at_pos. destruct s; cbn; naive_solver. Qed.

Lemma rep_suffix h p l : rep h p l -> chain h (l ++ [tail p]) /\ tail p ∉ l.
Proof.
  intros [Hc Hnd _ _ _]. unfold nodes in *. split; [|rewrite NoDup_cons, NoDup_app in Hnd; set_solver].
  destruct (l ++ [tail p]); [done|]. by apply chain_cons in Hc as (_ & _ & ?).
Qed.

Lemma find_loop_spec h p obj s fuel :
  chain h (s ++ [tail p]) -> tail p ∉ s -> (length s < fuel)%nat ->
  find_loop fuel h p obj (at_pos p s) = Ok (bool_decide (obj ∈ s)).
Proof.
  revert fuel. induction s as [|x s IH]; intros fuel Hc Ht Hf.
  - destruct fuel; [cbn in Hf; lia|]. cbn. by rewrite Z.eqb_refl.
  - destruct fuel; [cbn in Hf; lia|]. apply not_elem_of_cons in Ht as [Hx Ht].
    cbn [find_loop]. rewrite at_pos_cons.
    destruct (Z.eqb_spec x (tail p)); [congruence|].
    destruct (Z.eqb_spec x obj) as [->|].
    { f_equal. symmetry. apply bool_decide_eq_true_2. left. }
    apply chain_tail_next in Hc as [Hn Hc]. rewrite (proj2 (get_next_hn _ _ _) Hn). ok_simpl.
    rewrite IH by (done || (cbn in Hf; lia)). f_equal. apply bool_decide_ext. set_solver.
Qed.

Lemma dlist_find_rep h p l obj :
  rep h p l -> dlist_find h p obj = Ok (bool_decide (obj ∈ l)).
Proof.
  intros Hr. unfold dlist_find.
  rewrite (proj2 (get_next_hn h (head p) (at_pos p l)) (rep_next_head _ _ _ Hr)). ok_simpl.
  destruct (rep_suffix _ _ _ Hr). apply find_loop_spec; [done..|].
  apply rep_size in Hr. lia.
Qed.

Lemma len_loop_spec h p s fuel n :
  chain h (s ++ [tail p]) -> tail p ∉ s -> (length s < fuel)%nat ->
  0 <= n -> n + Z.of_nat (length s) < 2 ^ 32 ->
  len_loop fuel h p (at_pos p s) n = Ok (n + Z.of_nat (length s)).
Proof.
  revert fuel n. induction s as [|x s IH]; intros fuel n Hc Ht Hf Hn Hb.
  - destruct fuel; [cbn in Hf; lia|]. cbn. rewrite Z.eqb_refl. f_equal. lia.
  - destruct fuel; [cbn in Hf; lia|]. apply not_elem_of_cons in Ht as [Hx Ht].
    cbn [len_loop]. rewrite at_pos_cons.
    destruct (Z.eqb_spec x (tail p)); [congruence|].
    apply chain_tail_next in Hc as [Hnx Hc]. rewrite (proj2 (get_next_hn _ _ _) Hnx). ok_simpl.
    cbn [length] in *. rewrite u32_small by lia. rewrite IH by (done || lia). f_equal. lia.
Qed.

Lemma dlist_len_rep h p l :
  rep h p l -> Z.of_nat (length l) < 2 ^ 32 -> dlist_len h p = Ok (Z.of_nat (length l)).
Proof.
  intros Hr Hb. unfold dlist_len.
  rewrite (proj2 (get_next_hn h (head p) (at_pos p l)) (rep_next_head _ _ _ Hr)). ok_simpl.
  destruct (rep_suffix _ _ _ Hr). apply rep_size in Hr.
  by rewrite len_loop_spec by (done || lia).
Qed.

(** What [dlist_traversal] finds: the first element that satisfies the condition. *)
Definition first (condition : addr -> bool) (l : list addr) : addr :=
  default NULL (List.find condition l).

Lemma traversal_loop_spec h condition p a s fuel count :
  chain h (a :: s ++ [tail p]) -> tail p ∉ s -> NULL ∉ a :: s ++ [tail p] ->
  (length s < fuel)%nat -> 0 <= count ->
  count + Z.of_nat (length s) <= TIMEOUT_CNT + 1 ->
  traversal_loop fuel h condition p (at_pos p s) count = Ok (first condition s).
Proof.
  unfold TIMEOUT_CNT. revert a fuel count.
  induction s as [|x s IH]; intros a fuel count Hc Ht Hnull Hf Hn Hb.
  - destruct fuel; [cbn in Hf; lia|]. cbn. by rewrite Z.eqb_refl.
  - destruct fuel; [cbn in Hf; lia|]. apply not_elem_of_cons in Ht as [Hx Ht].
    cbn [traversal_loop]. rewrite at_pos_cons.
    destruct (Z.eqb_spec x (tail p)); [congruence|].
    apply chain_cons in Hc as (Hax & Hxa & Hc).
    destruct (chain_tail_next _ _ _ _ Hc) as [Hxn _].
    assert (Hnx : hp h (at_pos p s) = Some x) by (destruct s; by apply chain_cons in Hc as (_ & ? & _)).
    assert (Hz : a <> NULL /\ at_pos p s <> NULL).
    { split; [set_solver|]. intros Hz. apply Hnull. destruct s; cbn in Hz; set_solver. }
    destruct Hz as [Hza Hzn].
    rewrite (proj2 (get_prev_hp _ _ _) Hxa). ok_simpl.
    rewrite (proj2 (get_next_hn _ _ _) Hxn). ok_simpl.
    rewrite (proj2 (Z.eqb_neq _ _) Hza), (proj2 (Z.eqb_neq _ _) Hzn). cbn [orb negb]. ok_simpl.
    rewrite (proj2 (get_prev_hp _ _ _) Hnx). ok_simpl.
    rewrite (proj2 (get_next_hn _ _ _) Hax). ok_simpl.
    rewrite Z.eqb_refl. cbn [orb negb]. ok_simpl.
    cbn [length] in *. rewrite Z.gtb_ltb, (proj2 (Z.ltb_ge _ _)) by (unfold TIMEOUT_CNT; lia).
    cbn [negb]. ok_simpl.
    unfold first in *. cbn [List.find]. destruct (condition x); [done|].
    rewrite u32_small by lia. apply (IH x); [done|done|set_solver|lia..].
Qed.

Lemma dlist_traversal_rep h p l condition :
  rep h p l -> Z.of_nat (length l) <= TIMEOUT_CNT + 1 ->
  dlist_traversal h p condition = Ok (first condition l).
Proof.
  intros Hr Hb. unfold dlist_traversal.
  rewrite (proj2 (get_next_hn h (head p) (at_pos p l)) (rep_next_head _ _ _ Hr)). ok_simpl.
  rewrite (dlist_empty_rep h p l Hr). ok_simpl. case_bool_decide as Hl; [by subst|].
  destruct (rep_suffix _ _ _ Hr) as [_ Ht]. pose proof (rep_size _ _ _ Hr). destruct Hr.
  by eapply traversal_loop_spec; eauto; lia.
Qed.

(** Ordered insertion, on lists. *)
Fixpoint insert_order (condition : addr -> bool) (e : addr) (l : list addr) : list addr :=
  match l with
  | [] => [e]
  | x :: l => if condition x then e :: x :: l else x :: insert_order condition e l
  end.

Lemma insert_order_split condition e l :
  NULL ∉ l ->
  exists l1 l2, l = l1 ++ l2 /\ insert_order condition e l = l1 ++ e :: l2 /\
    forall p, (if first condition l =? NULL then tail p else first condition l) = at_pos p l2.
Proof.
  induction l as [|x l IH]; intros Hnull; [by exists [], []|].
  apply not_elem_of_cons in Hnull as [Hx Hnull]. unfold first in *. cbn [insert_order List.find].
  destruct (condition x) eqn:Hcx.
  - exists [], (x :: l). split; [done|]. split; [done|]. intros p. cbn.
    by rewrite (proj2 (Z.eqb_neq _ _)) by congruence.
  - destruct (IH Hnull) as (l1 & l2 & -> & -> & Hat). by exists (x :: l1), l2.
Qed.

Lemma dlist_insert_order_rep h p l condition e :
  rep h p l -> fresh h p l e -> Z.of_nat (length l) <= TIMEOUT_CNT + 1 ->
  exists h', dlist_insert_order h p condition e = Ok h' /\
    rep h' p (insert_order condition e l) /\
    (forall x, x ∉ nodes p (insert_order condition e l) -> h' !! x = h !! x).
Proof.
  intros Hr Hf Hb. unfold dlist_insert_order.
  rewrite (dlist_traversal_rep h p l) by done. ok_simpl.
  destruct (insert_order_split condition e l) as (l1 & l2 & Heq & -> & Hat).
  { destruct Hr as [_ _ Hn _ _]. unfold nodes in Hn. set_solver. }
  specialize (Hat p). destruct (first condition l =? NULL); rewrite Hat;
    apply insert_front_rep; by rewrite <- Heq.
Qed.


(** ** Sequences of operations *)

Inductive dlist_op :=
  | OPushFront (e : addr)
  | OPushBack (e : addr)
  | OInsertOrder (condition : addr -> bool) (e : addr)
  | ORemove (e : addr)
  | OPopFront.

Definition run_op (h : heap) (p : addr) (o : dlist_op) : res heap :=
  match o with
  | OPushFront e => dlist_push_front h p e
  | OPushBack e => dlist_push_back h p e
  | OInsertOrder condition e => dlist_insert_order h p condition e
  | ORemove e => dlist_remove h e
  | OPopFront => snd <$> dlist_pop_front h p
  end.

Fixpoint run_ops (h : heap) (p : addr) (ops : list dlist_op) : res heap :=
  match ops with [] => Ok h | o :: ops => h ← run_op h p o; run_ops h p ops end.

(** The specification: the same operations on functional lists, defined when the
    caller respects their contract. *)
Definition spec_op (l : list addr) (o : dlist_op) : option (list addr) :=
  match o with
  | OPushFront e => if decide (e ∈ l) then None else Some (e :: l)
  | OPushBack e => if decide (e ∈ l) then None else Some (l ++ [e])
  | OInsertOrder condition e =>
      if decide (e ∈ l) then None else Some (insert_order condition e l)
  | ORemove e => if decide (e ∈ l) then Some (filter (fun x => x <> e) l) else None
  | OPopFront => match l with [] => None | _ :: l => Some l end
  end.

Fixpoint spec_ops (l : list addr) (ops : list dlist_op) : option (list addr) :=
  match ops with [] => Some l | o :: ops => l ← spec_op l o; spec_ops l ops end.

(** The elements that callers hand over are live objects other than the sentinels. *)
Definition arg_ok (h : heap) (p : addr) (o : dlist_op) : Prop :=
  match o with
  | OPushFront e | OPushBack e | OInsertOrder _ e =>
      is_Some (h !! e) /\ e <> head p /\ e <> tail p /\ e <> NULL
  | _ => True
  end.

Lemma fresh_intro h p l e :
  is_Some (h !! e) /\ e <> head p /\ e <> tail p /\ e <> NULL -> e ∉ l -> fresh h p l e.
Proof. unfold fresh, nodes. set_solver. Qed.

Lemma insert_order_elem condition e l x : x ∈ insert_order condition e l <-> x = e \/ x ∈ l.
Proof. induction l; cbn; [set_solver|]. case_match; set_solver. Qed.

(** A node stays live, and the nodes of any other list keep their contents. *)
Definition frames (h h' : heap) (p : addr) (l : list addr) (o : dlist_op) : Prop :=
  (forall x, is_Some (h !! x) -> is_Some (h' !! x)) /\
  (forall x, x ∉ nodes p l ->
     match o with OPushFront e | OPushBack e | OInsertOrder _ e => x <> e | _ => True end ->
     h' !! x = h !! x).

Lemma rep_live h p l x : rep h p l -> x ∈ nodes p l -> is_Some (h !! x).
Proof.
  intros [Hc _ _ _ Hlst] Hx. unfold nodes in *.
  change (head p :: l ++ [tail p]) with ((head p :: l) ++ [tail p]) in *.
  apply elem_of_app in Hx as [Hx|Hx];
    [|apply list_elem_of_singleton in Hx as ->; eauto with mbox].
  apply list_elem_of_split in Hx as (k1 & k2 & Heq). rewrite Heq, <- (assoc_L (++)) in Hc.
  apply chain_app in Hc as [_ Hc].
  destruct k2; apply chain_cons in Hc as (Hy & _); eauto with mbox.
Qed.

Lemma run_op_refines h p l o l' :
  rep h p l -> arg_ok h p o -> Z.of_nat (length l) <= TIMEOUT_CNT ->
  spec_op l o = Some l' ->
  exists h', run_op h p o = Ok h' /\ rep h' p l' /\ frames h h' p l o.
Proof.
  intros Hr Harg Hlen Hspec. unfold frames.
  assert (Hlive : forall h' l0, rep h' p l0 -> (forall x, x ∉ nodes p l0 -> h' !! x = h !! x) ->
            forall x, is_Some (h !! x) -> is_Some (h' !! x)).
  { intros h' l0 Hr' Hfr x Hx. destruct (decide (x ∈ nodes p l0)) as [Hin|Hin];
      [by eapply rep_live|by rewrite Hfr]. }
  destruct o as [e|e|c e|e|]; cbn [spec_op run_op] in *.
  - case_decide; simplify_eq.
    destruct (dlist_push_front_rep h p l e) as (h' & -> & Hr' & Hfr); [done|by apply fresh_intro|].
    exists h'. split_and!; [done|done|by eauto|]. intros x ??. apply Hfr. unfold nodes in *. set_solver.
  - case_decide; simplify_eq.
    destruct (dlist_push_back_rep h p l e) as (h' & -> & Hr' & Hfr); [done|by apply fresh_intro|].
    exists h'. split_and!; [done|done|by eauto|]. intros x ??. apply Hfr. unfold nodes in *. set_solver.
  - case_decide; simplify_eq.
    destruct (dlist_insert_order_rep h p l c e) as (h' & -> & Hr' & Hfr);
      [done|by apply fresh_intro|lia|].
    exists h'. split_and!; [done|done|by eauto|]. intros x Hx ?. apply Hfr.
    unfold nodes in *. rewrite not_elem_of_cons, not_elem_of_app in *.
    rewrite insert_order_elem. tauto.
  - case_decide as Hin; simplify_eq. apply list_elem_of_split in Hin as (l1 & l2 & ->).
    destruct (dlist_remove_rep h p l1 e l2 Hr) as (h' & -> & Hr' & Hn & _ & Hfr).
    exists h'. rewrite filter_ne_split
      by (destruct Hr as [_ Hnd _ _ _]; unfold nodes in Hnd;
          apply NoDup_cons in Hnd as [_ Hnd]; by apply NoDup_app in Hnd as [? _]).
    split_and!; [done|done| |by auto]. intros x Hx.
    destruct (decide (x = e)) as [->|]; [eauto with mbox|].
    destruct (decide (x ∈ nodes p (l1 ++ l2))) as [Hin|Hin]; [by eapply rep_live|].
    rewrite Hfr; [done|]. unfold nodes in *. set_solver.
  - destruct l as [|e l]; simplify_eq.
    destruct (dlist_pop_front_rep h p e l' Hr) as (h' & -> & Hr' & Hn & _ & Hfr).
    exists h'. split_and!; [done|done| |by auto]. intros x Hx.
    destruct (decide (x = e)) as [->|]; [eauto with mbox|].
    destruct (decide (x ∈ nodes p l')) as [Hin|Hin]; [by eapply rep_live|].
    rewrite Hfr; [done|]. unfold nodes in *. set_solver.
Qed.

(** The elements an operation links into the list. *)
Definition op_elems (o : dlist_op) : list addr :=
  match o with OPushFront e | OPushBack e | OInsertOrder _ e => [e] | _ => [] end.

Lemma insert_order_length condition e l :
  length (insert_order condition e l) = S (length l).
Proof. induction l; cbn; [done|]. case_match; cbn; congruence. Qed.

Lemma spec_op_length l o l' : spec_op l o = Some l' -> (length l' <= S (length l))%nat.
Proof.
  destruct o; cbn; repeat case_decide; intros ?; simplify_eq;
    rewrite ?length_app, ?insert_order_length; cbn; try lia.
  - pose proof (length_filter (fun x => x <> e) l). lia.
  - destruct l; simplify_eq; cbn; lia.
Qed.

Lemma spec_op_elems l o l' p x :
  spec_op l o = Some l' -> x ∈ nodes p l' -> x ∈ nodes p l \/ x ∈ op_elems o.
Proof.
  intros Hs Hx. unfold nodes in *. destruct o; cbn in *; repeat case_decide; simplify_eq.
  - set_solver.
  - set_solver.
  - rewrite elem_of_cons, elem_of_app, insert_order_elem in *. set_solver.
  - left. rewrite elem_of_cons, elem_of_app, list_elem_of_filter in *. tauto.
  - destruct l; simplify_eq. set_solver.
Qed.

Lemma run_op_frames_rep h h' p l o q k :
  frames h h' p l o -> rep h q k ->
  (forall x, x ∈ nodes q k -> x ∉ nodes p l /\ x ∉ op_elems o) -> rep h' q k.
Proof.
  intros [_ Hfr] Hq Hdis. apply (rep_frame h); [done|]. intros x Hx.
  destruct (Hdis x Hx) as [H1 H2]. apply Hfr; [done|].
  destruct o; cbn in *; try done; set_solver.
Qed.

(** C16. Every sequence of list operations that the specification on functional
    lists allows runs on the pointer structure without a fault or a panic, ends
    in a well-formed structure that represents the specified list, and leaves
    every other list of the heap intact. *)
Theorem dlist_ops_refine h p l ops l' :
  rep h p l -> Forall (arg_ok h p) ops ->
  Z.of_nat (length l + length ops) <= TIMEOUT_CNT ->
  spec_ops l ops = Some l' ->
  exists h', run_ops h p ops = Ok h' /\ rep h' p l' /\
    forall q k, rep h q k ->
      (forall x, x ∈ nodes q k -> x ∉ nodes p l /\ x ∉ ops ≫= op_elems) -> rep h' q k.
Proof.
  revert h l. induction ops as [|o ops IH]; intros h l Hr Harg Hlen Hs; cbn in *.
  - simplify_eq. eauto 10.
  - apply Forall_cons in Harg as [Ho Hops].
    apply bind_Some in Hs as (l1 & Hs1 & Hs2).
    destruct (run_op_refines h p l o l1) as (h1 & Hrun & Hr1 & Hfr); [done|done|lia|done|].
    rewrite Hrun. ok_simpl.
    destruct (IH h1 l1) as (h' & Hrun' & Hr' & Hq); [done| | |done|].
    + eapply Forall_impl; [exact Hops|]. intros [] Ha; cbn in *; try done;
        destruct Ha; split; [by apply Hfr|done|by apply Hfr|done|by apply Hfr|done].
    + apply spec_op_length in Hs1. lia.
    + exists h'. split_and!; [done|done|]. intros q k Hqk Hdis. apply Hq.
      * eapply run_op_frames_rep; [done..|]. intros x Hx.
        destruct (Hdis x Hx) as [? Hx2]. rewrite not_elem_of_app in Hx2. tauto.
      * intros x Hx. destruct (Hdis x Hx) as [Hx1 Hx2].
        rewrite not_elem_of_app in Hx2. split; [|tauto].
        intros Hin. destruct (spec_op_elems _ _ _ _ _ Hs1 Hin); tauto.
Qed.

(** A heap with two empty lists at 100 and 200 and three detached nodes. *)
Definition ex_heap : heap :=
  list_to_map [(100, Elem 0 108); (108, Elem 100 0); (200, Elem 0 208); (208, Elem 200 0);
               (16, Elem 0 0); (32, Elem 0 0); (48, Elem 0 0)].

Lemma ex_heap_rep p : p = 100 \/ p = 200 -> rep ex_heap p [].
Proof.
  intros [-> | ->]; split; try (vm_compute; tauto); try (apply (bool_decide_unpack _); vm_compute; exact I).
Qed.

Lemma dlist_ops_refine_witness :
  exists h', run_ops ex_heap 100
    [OPushBack 32; OPushFront 16; OInsertOrder (fun x => 40 <? x) 48; ORemove 32; OPopFront]
    = Ok h' /\ rep h' 100 [48] /\ rep h' 200 [].
Proof.
  destruct (dlist_ops_refine ex_heap 100 []
    [OPushBack 32; OPushFront 16; OInsertOrder (fun x => 40 <? x) 48; ORemove 32; OPopFront] [48])
    as (h' & Hrun & Hr & Hq).
  - apply ex_heap_rep. by left.
  - repeat constructor; cbn; try (by eexists); vm_compute; discriminate.
  - vm_compute. discriminate.
  - vm_compute. reflexivity.
  - exists h'. split; [exact Hrun|]. split; [exact Hr|].
    apply Hq; [apply ex_heap_rep; by right|]. intros x Hx.
    split; intros Hx'; apply elem_of_cons in Hx as [->|Hx];
      try (revert Hx'; apply (bool_decide_unpack (_ ∉ _)); vm_compute; exact I);
      apply list_elem_of_singleton in Hx as ->;
      revert Hx'; apply (bool_decide_unpack (_ ∉ _)); vm_compute; exact I.
Defined.

(** [dlist_traversal] on a well-formed list of at most [TIMEOUT_CNT + 1]
    elements passes all its consistency checks and returns the first element, in
    list order, that satisfies the condition, or NULL when none does. *)
Lemma dlist_traversal_first h p l condition :
  rep h p l -> Z.of_nat (length l) <= TIMEOUT_CNT + 1 ->
  exists r, dlist_traversal h p condition = Ok r /\
    ((r = NULL /\ Forall (fun x => condition x = false) l) \/
     (exists l1 l2, l = l1 ++ r :: l2 /\ condition r = true /\
        Forall (fun x => condition x = false) l1 /\ r <> NULL)).
Proof.
  intros Hr Hlen. rewrite (dlist_traversal_rep h p l) by done. eexists. split; [done|].
  assert (Hnull : NULL ∉ l) by (destruct Hr as [_ _ Hn _ _]; unfold nodes in Hn; set_solver).
  clear Hr Hlen. unfold first. induction l as [|x l IH]; [left; by split|].
  apply not_elem_of_cons in Hnull as [Hx Hnull]. cbn [List.find].
  destruct (condition x) eqn:Hc; cbn.
  - right. exists [], l. by split_and!.
  - destruct (IH Hnull) as [[-> Hall]|(l1 & l2 & Heq & ? & ? & ?)].
    + left. split; [done|]. by constructor.
    + right. exists (x :: l1), l2. rewrite Heq at 1. split_and!; [done|done|by constructor|done].
Qed.

(** A list at 100 with the elements 16 and 32. *)
Definition ex_heap2 : heap :=
  list_to_map [(100, Elem 0 16); (16, Elem 100 32); (32, Elem 16 108); (108, Elem 32 0)].

Lemma ex_heap2_rep : rep ex_heap2 100 [16; 32].
Proof.
  split; try (vm_compute; tauto); apply (bool_decide_unpack _); vm_compute; exact I.
Qed.

Lemma dlist_traversal_first_witness :
  exists r, dlist_traversal ex_heap2 100 (fun x => 20 <? x) = Ok r /\
    ((r = NULL /\ Forall (fun x => (20 <? x) = false) [16; 32]) \/
     (exists l1 l2, [16; 32] = l1 ++ r :: l2 /\ (20 <? r) = true /\
        Forall (fun x => (20 <? x) = false) l1 /\ r <> NULL)).
Proof.
  apply (dlist_traversal_first ex_heap2 100 [16; 32] (fun x => 20 <? x)).
  - exact ex_heap2_rep.
  - vm_compute. discriminate.
Defined.
