(* ===== verification/Bitmap.v ===== *)
(** * Bitmaps ([lib/kernel/bitmap.c]) and the pid pool of [thread/thread.c]

    A bitmap is a byte buffer and the number of its bytes that belong to the
    bitmap; the buffer may be longer (the inode and block bitmaps are rounded up
    to sectors), and an access past the buffer is [UB].  [bit] is the abstract
    view: bit [i] of the buffer. *)

From S2P Require Import Prelude.

(** ** Data *)
Record bitmap := Bitmap { btmp_bytes_len : Z; bits : list Z }.

Definition BITMAP_MASK : Z := 1.

Definition byte_at (bs : list Z) (i : Z) : res Z := deref (bs !! Z.to_nat i).

(** ** Operations *)
Definition bitmap_init (b : bitmap) : bitmap :=
  Bitmap (btmp_bytes_len b)
    (replicate (Z.to_nat (btmp_bytes_len b)) 0 ++ drop (Z.to_nat (btmp_bytes_len b)) (bits b)).

(** [bool] is [int8_t] in this code base, hence the conversion of the result. *)
Definition bitmap_bit_check (b : bitmap) (bit_idx : Z) : res bool :=
  let byte_idx := bit_idx / 8 in
  let offset_in_byte := bit_idx mod 8 in
  byte ← byte_at (bits b) byte_idx;
  Ok (negb (i8 (Z.land byte (Z.shiftl BITMAP_MASK offset_in_byte)) =? 0)).

Definition bitmap_set (b : bitmap) (bit_idx value : Z) : res bitmap :=
  _ ← assert_ ((value =? 0) || (value =? 1));
  let byte_idx := bit_idx / 8 in
  let offset_in_byte := bit_idx mod 8 in
  byte ← byte_at (bits b) byte_idx;
  let byte' := if negb (value =? 0)
    then u8 (Z.lor byte (Z.shiftl BITMAP_MASK offset_in_byte))
    else u8 (Z.land byte (Z.lnot (Z.shiftl BITMAP_MASK offset_in_byte))) in
  Ok (Bitmap (btmp_bytes_len b) (<[Z.to_nat byte_idx := byte']> (bits b))).

(** [while((0xff==bits[idx_byte])&&(idx_byte<btmp_bytes_len)) idx_byte++] : the byte is
    read before the index is checked. *)
Fixpoint scan_byte (fuel : nat) (b : bitmap) (idx_byte : Z) : res Z :=
  match fuel with
  | O => Fuel
  | S fuel =>
      byte ← byte_at (bits b) idx_byte;
      if (byte =? 255) && (idx_byte <? btmp_bytes_len b)
      then scan_byte fuel b (idx_byte + 1) else Ok idx_byte
  end.

(** [while((uint8_t)(BITMAP_MASK<<idx_bit)&(bits[idx_byte])) idx_bit++] *)
Fixpoint scan_bit (fuel : nat) (byte idx_bit : Z) : res Z :=
  match fuel with
  | O => Fuel
  | S fuel =>
      if negb (Z.land (u8 (Z.shiftl BITMAP_MASK idx_bit)) byte =? 0)
      then scan_bit fuel byte (idx_bit + 1) else Ok idx_bit
  end.

(** [while(bit_remain-->0)]: the recursion is on [bit_remain]. *)
Fixpoint scan_run (bit_remain : nat) (b : bitmap) (cnt next_bit count : Z) : res Z :=
  match bit_remain with
  | O => Ok (-1)
  | S bit_remain =>
      c ← bitmap_bit_check b next_bit;
      let count := if negb c then u32 (count + 1) else 0 in
      if count =? cnt then Ok (i32 (next_bit - cnt + 1))
      else scan_run bit_remain b cnt (u32 (next_bit + 1)) count
  end.

Definition bitmap_scan (b : bitmap) (cnt : Z) : res Z :=
  idx_byte ← scan_byte (S (length (bits b))) b 0;
  _ ← assert_ (idx_byte <? btmp_bytes_len b);
  byte ← byte_at (bits b) idx_byte;
  idx_bit ← scan_bit 9 byte 0;
  let bit_idx_start := i32 (u32 (idx_byte * 8 + idx_bit)) in
  if cnt =? 1 then Ok bit_idx_start
  else
    let bit_remain := u32 (btmp_bytes_len b * 8 - bit_idx_start) in
    scan_run (Z.to_nat bit_remain) b cnt (u32 (bit_idx_start + 1)) 1.

Fixpoint count_loop (n : nat) (b : bitmap) (i count : Z) : res Z :=
  match n with
  | O => Ok count
  | S n =>
      byte ← byte_at (bits b) i;
      count_loop n b (i + 1)
        (foldl (fun c j => if Z.land byte (Z.shiftl BITMAP_MASK j) =? 0 then u32 (c + 1) else c)
           count (seqZ 0 8))
  end.

Definition bitmap_count (b : bitmap) : res Z :=
  count_loop (Z.to_nat (btmp_bytes_len b)) b 0 0.

(** ** Well-formedness and the abstract view *)
Record wf (b : bitmap) : Prop := {
  wf_len : 0 <= btmp_bytes_len b < 2 ^ 28;
  wf_buf : btmp_bytes_len b <= Z.of_nat (length (bits b));
  wf_bytes : Forall is_u8 (bits b);
}.

Definition nbits (b : bitmap) : Z := 8 * btmp_bytes_len b.

(** Bit [i] of the buffer ([false] past its end). *)
Definition bit (b : bitmap) (i : Z) : bool :=
  match bits b !! Z.to_nat (i / 8) with
  | Some byte => Z.testbit byte (i mod 8)
  | None => false
  end.

(** ** Bits of a byte *)
Lemma land_pow2 x o : 0 <= o -> Z.land x (Z.shiftl 1 o) = if Z.testbit x o then 2 ^ o else 0.
Proof.
  intros Ho. rewrite Z.shiftl_1_l. apply Z.bits_inj'. intros n Hn.
  rewrite Z.land_spec, Z.pow2_bits_eqb by lia.
  destruct (Z.eqb_spec o n) as [->|Hne].
  - destruct (Z.testbit x n) eqn:E; cbn; rewrite ?Z.pow2_bits_true, ?Z.bits_0; done.
  - rewrite andb_false_r. destruct (Z.testbit x o); rewrite ?Z.bits_0, ?Z.pow2_bits_false by lia; done.
Qed.

Lemma mask_zero x o : 0 <= o -> (Z.land x (Z.shiftl BITMAP_MASK o) =? 0) = negb (Z.testbit x o).
Proof.
  intros Ho. unfold BITMAP_MASK. rewrite land_pow2 by done. destruct (Z.testbit x o); [|done].
  apply Z.eqb_neq. pose proof (Z.pow_pos_nonneg 2 o). lia.
Qed.

Lemma mask_i8 x o : 0 <= o < 8 ->
  negb (i8 (Z.land x (Z.shiftl BITMAP_MASK o)) =? 0) = Z.testbit x o.
Proof.
  intros Ho. unfold BITMAP_MASK. rewrite land_pow2 by lia. destruct (Z.testbit x o); [|done].
  assert (o = 0 \/ o = 1 \/ o = 2 \/ o = 3 \/ o = 4 \/ o = 5 \/ o = 6 \/ o = 7) by lia.
  naive_solver.
Qed.

Lemma u8_bits x o : 0 <= o < 8 -> Z.testbit (u8 x) o = Z.testbit x o.
Proof. intros Ho. unfold u8. rewrite Z.mod_pow2_bits_low by lia. done. Qed.

Lemma set_bits x o j : 0 <= o < 8 -> 0 <= j < 8 ->
  Z.testbit (u8 (Z.lor x (Z.shiftl BITMAP_MASK o))) j = (j =? o) || Z.testbit x j.
Proof.
  intros Ho Hj. rewrite u8_bits, Z.lor_spec by lia. unfold BITMAP_MASK.
  rewrite Z.shiftl_1_l, Z.pow2_bits_eqb, Z.eqb_sym by lia. apply orb_comm.
Qed.

Lemma clear_bits x o j : 0 <= o < 8 -> 0 <= j < 8 ->
  Z.testbit (u8 (Z.land x (Z.lnot (Z.shiftl BITMAP_MASK o)))) j = negb (j =? o) && Z.testbit x j.
Proof.
  intros Ho Hj. rewrite u8_bits, Z.land_spec, Z.lnot_spec by lia. unfold BITMAP_MASK.
  rewrite Z.shiftl_1_l, Z.pow2_bits_eqb, Z.eqb_sym by lia. apply andb_comm.
Qed.

(** ** Reading and writing one bit *)
Section access.
Context (b : bitmap) (i : Z).
Hypothesis Hwf : wf b.
Hypothesis Hi : 0 <= i < 8 * Z.of_nat (length (bits b)).

Lemma byte_index : exists byte, bits b !! Z.to_nat (i / 8) = Some byte /\ is_u8 byte.
Proof.
  assert (0 <= i / 8 < Z.of_nat (length (bits b))).
  { split; [apply Z.div_pos; lia|apply Z.div_lt_upper_bound; lia]. }
  destruct (lookup_lt_is_Some_2 (bits b) (Z.to_nat (i / 8))) as [byte Hb]; [lia|].
  exists byte. split; [done|]. destruct Hwf as [_ _ Hbytes].
  by eapply Forall_lookup_1 in Hbytes.
Qed.

Lemma bit_check_spec : bitmap_bit_check b i = Ok (bit b i).
Proof.
  destruct byte_index as (byte & Hb & _). unfold bitmap_bit_check, byte_at, bit.
  rewrite Hb. ok_simpl. rewrite mask_i8; [done|]. apply Z.mod_pos_bound. lia.
Qed.

Lemma bitmap_set_spec v : v = 0 \/ v = 1 ->
  exists b', bitmap_set b i v = Ok b' /\ wf b' /\ btmp_bytes_len b' = btmp_bytes_len b /\
    length (bits b') = length (bits b) /\
    forall j, 0 <= j -> bit b' j = if j =? i then v =? 1 else bit b j.
Proof.
  intros Hv. destruct byte_index as (byte & Hb & Hr). unfold bitmap_set, byte_at.
  rewrite Hb. replace ((v =? 0) || (v =? 1)) with true by (destruct Hv; subst; done).
  ok_simpl. eexists. split; [done|].
  assert (Ho : 0 <= i mod 8 < 8) by (apply Z.mod_pos_bound; lia).
  split_and!.
  - destruct Hwf as [? ? Hbytes]. split; cbn; [done|by rewrite length_insert|].
    apply Forall_insert; [done|]. destruct Hv; subst v; cbn; apply u8_range.
  - done.
  - apply length_insert.
  - intros j Hj. unfold bit. cbn [bits].
    assert (Hoj : 0 <= j mod 8 < 8) by (apply Z.mod_pos_bound; lia).
    destruct (decide (j / 8 = i / 8)) as [Heq|Hne].
    + rewrite Heq, list_lookup_insert_eq by (by eapply lookup_lt_Some). rewrite Hb.
      assert (Hbr : (j mod 8 =? i mod 8) = (j =? i)).
      { destruct (Z.eqb_spec j i) as [->|Hji]; [apply Z.eqb_refl|]. apply Z.eqb_neq.
        intros Hm. apply Hji. rewrite (Z.div_mod j 8), (Z.div_mod i 8) by lia. lia. }
      destruct Hv as [-> | ->]; cbn [negb Z.eqb].
      * rewrite clear_bits, Hbr by done. by destruct (j =? i).
      * rewrite set_bits, Hbr by done. by destruct (j =? i).
    + rewrite list_lookup_insert_ne.
      2: { pose proof (Z.div_pos j 8). pose proof (Z.div_pos i 8). lia. }
      destruct (Z.eqb_spec j i) as [->|]; done.
Qed.

End access.

(** ** Scanning *)
Definition byte_full (b : bitmap) (k : Z) : Prop := bits b !! Z.to_nat k = Some 255.

Lemma scan_byte_spec fuel b i :
  0 <= i <= btmp_bytes_len b -> wf b -> (length (bits b) < fuel + Z.to_nat i)%nat ->
  (exists k, scan_byte fuel b i = Ok k /\ i <= k <= btmp_bytes_len b /\
     (forall j, i <= j < k -> byte_full b j) /\ (k < btmp_bytes_len b -> ~ byte_full b k)) \/
  (scan_byte fuel b i = UB /\ forall j, i <= j < btmp_bytes_len b -> byte_full b j).
Proof.
  revert i. induction fuel as [|fuel IH]; intros i Hi Hwf Hf; [destruct Hwf; lia|].
  cbn [scan_byte]. unfold byte_at.
  destruct (bits b !! Z.to_nat i) as [byte|] eqn:Hb; ok_simpl.
  2: { right. split; [done|]. apply lookup_ge_None in Hb. destruct Hwf. intros j Hj. lia. }
  destruct (Z.eqb_spec byte 255) as [->|Hne]; cbn [andb].
  - destruct (Z.ltb_spec i (btmp_bytes_len b)) as [Hlt|Hge].
    + destruct (IH (i + 1)) as [(k & Hk & Hr & Hall & Hn)|[Hu Hall]]; [lia|done|lia|left|right].
      * exists k. split_and!; [done|lia|lia| |done]. intros j Hj.
        destruct (decide (j = i)) as [->|]; [done|]. apply Hall. lia.
      * split; [done|]. intros j Hj. destruct (decide (j = i)) as [->|]; [done|]. apply Hall. lia.
    + left. exists i. split_and!; [done|lia|lia|intros j Hj; lia|lia].
  - left. exists i. split_and!; [done|lia|lia|intros j Hj; lia|].
    intros _. unfold byte_full. rewrite Hb. congruence.
Qed.

Lemma scan_bit_spec fuel byte k :
  0 <= k <= 8 -> (forall j, 0 <= j < k -> Z.testbit byte j = true) ->
  (exists j, k <= j < 8 /\ Z.testbit byte j = false) -> (8 < fuel + Z.to_nat k)%nat ->
  exists r, scan_bit fuel byte k = Ok r /\ k <= r < 8 /\ Z.testbit byte r = false /\
    forall j, 0 <= j < r -> Z.testbit byte j = true.
Proof.
  revert k. induction fuel as [|fuel IH]; intros k Hk Hlow (j & Hj & Hbit) Hf; [lia|].
  cbn [scan_bit].
  assert (Hm : (Z.land (u8 (Z.shiftl BITMAP_MASK k)) byte =? 0) = negb (Z.testbit byte k)).
  { rewrite <- mask_zero by lia. f_equal. rewrite Z.land_comm. f_equal. apply u8_small.
    unfold BITMAP_MASK. rewrite Z.shiftl_1_l. split; [apply Z.pow_nonneg; lia|].
    apply Z.pow_lt_mono_r; lia. }
  rewrite Hm, negb_involutive. destruct (Z.testbit byte k) eqn:Hb.
  - destruct (IH (k + 1)) as (r & Hr & Hkr & Hrb & Hall); [lia| |exists j; split; [|done]|lia|].
    + intros j' Hj'. destruct (decide (j' = k)) as [->|]; [done|]. apply Hlow. lia.
    + destruct (decide (j = k)) as [->|]; [congruence|lia].
    + exists r. split_and!; [done|lia|lia|done|done].
  - exists k. split_and!; [done|lia|lia|done|done].
Qed.

Lemma byte_full_bits b k : wf b -> 0 <= k ->
  byte_full b k <-> forall j, 8 * k <= j < 8 * k + 8 -> bit b j = true.
Proof.
  intros Hwf Hk. unfold byte_full, bit. split.
  - intros Hb j Hj. replace (j / 8) with k by (apply Z.div_unique with (j - 8 * k); lia).
    rewrite Hb. assert (0 <= j mod 8 < 8) as Hm by (apply Z.mod_pos_bound; lia).
    change 255 with (Z.ones 8). apply Z.ones_spec_low. lia.
  - intros Hall. destruct (bits b !! Z.to_nat k) as [byte|] eqn:Hb.
    2: { specialize (Hall (8 * k)). rewrite Z.mul_comm, Z.div_mul, Hb in Hall by lia.
         discriminate Hall. lia. }
    f_equal. destruct Hwf as [_ _ Hbytes]. eapply Forall_lookup_1 in Hbytes; [|done].
    unfold is_u8 in Hbytes. change 255 with (Z.ones 8). apply Z.bits_inj'. intros n Hn.
    destruct (Z.ltb_spec n 8).
    + rewrite Z.ones_spec_low by lia. specialize (Hall (8 * k + n)).
      replace ((8 * k + n) / 8) with k in Hall by (apply Z.div_unique with n; lia).
      replace ((8 * k + n) mod 8) with n in Hall by (apply Z.mod_unique with k; lia).
      rewrite Hb in Hall. apply Hall. lia.
    + rewrite Z.ones_spec_high by lia. apply Z.bits_above_log2; [lia|].
      destruct (decide (byte = 0)) as [->|]; [cbn; lia|].
      apply Z.log2_lt_pow2; [lia|].
      apply Z.lt_le_trans with (2 ^ 8); [lia|]. apply Z.pow_le_mono_r; lia.
Qed.

(** The common prefix of every scan: the first clear bit. *)
Lemma scan_first b i :
  wf b -> 0 <= i < nbits b -> bit b i = false ->
  exists k byte o, scan_byte (S (length (bits b))) b 0 = Ok k /\ 0 <= k < btmp_bytes_len b /\
    byte_at (bits b) k = Ok byte /\ scan_bit 9 byte 0 = Ok o /\ 0 <= o < 8 /\
    8 * k + o <= i /\ bit b (8 * k + o) = false /\
    forall j, 0 <= j < 8 * k + o -> bit b j = true.
Proof.
  intros Hwf Hi Hbit. unfold nbits in *.
  assert (Hbk : 0 <= i / 8 < btmp_bytes_len b)
    by (split; [apply Z.div_pos; lia|apply Z.div_lt_upper_bound; lia]).
  assert (Hib : 8 * (i / 8) <= i < 8 * (i / 8) + 8)
    by (pose proof (Z.mod_pos_bound i 8); rewrite (Z.div_mod i 8) at 2 3; lia).
  assert (Hnf : ~ byte_full b (i / 8)).
  { rewrite byte_full_bits by (done || lia). intros Hall. rewrite Hall in Hbit by lia. done. }
  destruct (scan_byte_spec (S (length (bits b))) b 0)
    as [(k & Hk & Hr & Hall & Hn)|[_ Hall]]; [destruct Hwf; lia|done|lia| |].
  2: { exfalso. apply Hnf, Hall. lia. }
  assert (Hki : k <= i / 8).
  { destruct (Z.le_gt_cases k (i / 8)); [done|]. exfalso. apply Hnf, Hall. lia. }
  destruct (byte_index b (8 * k)) as (byte & Hb & Hu8); [done|destruct Hwf; lia|].
  rewrite Z.mul_comm, Z.div_mul in Hb by lia.
  assert (Hbits : forall o, 0 <= o < 8 -> bit b (8 * k + o) = Z.testbit byte o).
  { intros o Ho. unfold bit. replace ((8 * k + o) / 8) with k by (apply Z.div_unique with o; lia).
    replace ((8 * k + o) mod 8) with o by (apply Z.mod_unique with k; lia). by rewrite Hb. }
  assert (Hex : exists o, 0 <= o < 8 /\ Z.testbit byte o = false).
  { destruct (decide (Forall (fun o => Z.testbit byte o = true) (seqZ 0 8))) as [Hf|Hf].
    - exfalso. apply Hn; [lia|]. apply byte_full_bits; [done|lia|]. intros j Hj.
      rewrite Forall_forall in Hf. replace j with (8 * k + (j - 8 * k)) by lia.
      rewrite Hbits by lia. apply Hf, elem_of_seqZ. lia.
    - apply not_Forall_Exists in Hf; [|intros ?; apply _]. apply Exists_exists in Hf as (o & Ho & Hfo).
      exists o. apply elem_of_seqZ in Ho. split; [lia|]. by apply not_true_is_false. }
  destruct (scan_bit_spec 9 byte 0) as (o & Hso & Ho & Hbo & Hlow); [lia|lia|done|lia|].
  assert (Hall' : forall j, 0 <= j < 8 * k + o -> bit b j = true).
  { intros j Hj. destruct (Z.lt_ge_cases j (8 * k)) as [Hlt|Hge].
    - assert (Hfb : byte_full b (j / 8)).
      { apply Hall. split; [apply Z.div_pos; lia|apply Z.div_lt_upper_bound; lia]. }
      eapply byte_full_bits in Hfb; [done|done|apply Z.div_pos; lia|].
      pose proof (Z.mod_pos_bound j 8). rewrite (Z.div_mod j 8) at 2 3 by lia. lia.
    - replace j with (8 * k + (j - 8 * k)) by lia. rewrite Hbits by lia. apply Hlow. lia. }
  assert (8 * k + o <= i).
  { destruct (Z.le_gt_cases (8 * k + o) i); [done|]. rewrite Hall' in Hbit by lia. done. }
  assert (k < btmp_bytes_len b) by lia.
  exists k, byte, o. split_and!; try done; try lia.
  - unfold byte_at. by rewrite Hb.
  - by rewrite Hbits.
Qed.

(** On a bitmap with a clear bit, [bitmap_scan b 1] returns the lowest clear
    bit of the bitmap. *)
Lemma bitmap_scan_one b i :
  wf b -> 0 <= i < nbits b -> bit b i = false ->
  exists r, bitmap_scan b 1 = Ok r /\ 0 <= r < nbits b /\ bit b r = false /\
    forall j, 0 <= j < r -> bit b j = true.
Proof.
  intros Hwf Hi Hbit.
  destruct (scan_first b i) as (k & byte & o & Hk & Hkl & Hb & Ho & Hor & Hle & Hf & Hall); [done..|].
  unfold nbits in *. destruct Hwf as [Hlen _ _].
  exists (8 * k + o). unfold bitmap_scan. rewrite Hk. ok_simpl.
  rewrite (proj2 (Z.ltb_lt _ _)) by lia. ok_simpl. rewrite Hb. ok_simpl. rewrite Ho. ok_simpl.
  change (1 =? 1) with true. cbn [negb].
  rewrite u32_small, i32_small by lia. split_and!; [f_equal; lia|lia|lia|done|done].
Qed.

(** ** Runs of clear bits *)
Definition run (b : bitmap) (t cnt : Z) : Prop := forall j, t <= j < t + cnt -> bit b j = false.

Lemma scan_run_spec n b cnt nb count :
  wf b -> 2 <= cnt < 2 ^ 31 -> 0 < nb -> nb + Z.of_nat n <= 8 * Z.of_nat (length (bits b)) ->
  8 * Z.of_nat (length (bits b)) < 2 ^ 31 ->
  0 <= count < cnt -> count <= nb -> run b (nb - count) count ->
  exists r, scan_run n b cnt nb count = Ok r /\
    (r = -1 \/ (nb - count <= r /\ r + cnt <= nb + Z.of_nat n /\ run b r cnt)) /\
    (forall t, nb - count <= t -> t + cnt <= nb + Z.of_nat n -> run b t cnt -> 0 <= r <= t).
Proof.
  revert nb count. induction n as [|n IH]; intros nb count Hwf Hcnt Hnb Hbuf Hbig Hcount Hle Hrun.
  - exists (-1). cbn [scan_run]. split; [done|]. split; [by left|]. intros t H1 H2 H3. lia.
  - cbn [scan_run]. rewrite bit_check_spec by (done || lia). ok_simpl.
    destruct (bit b nb) eqn:Hb; cbn [negb].
    + rewrite (proj2 (Z.eqb_neq 0 cnt)) by lia. rewrite u32_small by lia.
      destruct (IH (nb + 1) 0) as (r & Hr & Hres & Hmin); [done|lia..|intros j Hj; lia|].
      exists r. split; [done|]. split; [destruct Hres; [by left|right; naive_solver lia]|].
      intros t Ht1 Ht2 Ht. apply Hmin; [|lia|done].
      destruct (Z.le_gt_cases (nb + 1 - 0) t); [done|]. rewrite Ht in Hb by lia. done.
    + rewrite u32_small by lia.
      assert (Hrun' : run b (nb - count) (count + 1)).
      { intros j Hj. destruct (decide (j = nb)) as [->|]; [done|]. apply Hrun. lia. }
      destruct (Z.eqb_spec (count + 1) cnt) as [Heq|Hne].
      * exists (nb - cnt + 1). rewrite i32_small by lia. split; [done|].
        split; [right; split_and!; [lia|lia|]|].
        -- intros j Hj. apply Hrun'. lia.
        -- intros t Ht1 Ht2 Ht. lia.
      * rewrite u32_small by lia.
        destruct (IH (nb + 1) (count + 1)) as (r & Hr & Hres & Hmin); [done|lia..| |].
        { intros j Hj. apply Hrun'. lia. }
        exists r. split; [done|].
        split; [destruct Hres as [?|(? & ? & ?)]; [by left|right; split_and!; [lia|lia|done]]|].
        intros t Ht1 Ht2 Ht. apply Hmin; [lia|lia|done].
Qed.


(** The search of [bitmap_scan] can leave the bitmap: there is a well-formed
    bitmap of 8 bits for which a request of two bits is answered with the range
    [7, 9), whose second bit belongs to the next byte of the buffer. *)
Lemma bitmap_scan_overruns :
  exists b r, wf b /\ bitmap_scan b 2 = Ok r /\ nbits b < r + 2.
Proof.
  exists (Bitmap 1 [127; 0]), 7. split; [|done].
  split; cbn; [lia|lia|]. repeat constructor; unfold is_u8; lia.
Qed.

(** A bitmap without a clear bit is never answered: the code panics (or reads one
    byte past the buffer) where its comment promises -1. *)
Theorem bitmap_scan_full b cnt :
  wf b -> (forall i, 0 <= i < nbits b -> bit b i = true) ->
  bitmap_scan b cnt = Panic \/ bitmap_scan b cnt = UB.
Proof.
  intros Hwf Hall. unfold bitmap_scan.
  destruct (scan_byte_spec (S (length (bits b))) b 0)
    as [(k & Hk & Hr & _ & Hn)|[Hu _]]; [destruct Hwf; lia|done|lia| |].
  - rewrite Hk. ok_simpl. destruct (Z.ltb_spec k (btmp_bytes_len b)); [|by left].
    exfalso. apply Hn; [done|]. apply byte_full_bits; [done|lia|]. intros j Hj.
    apply Hall. unfold nbits. lia.
  - rewrite Hu. by right.
Qed.

(** ** Counting *)
Definition clear_in (b : bitmap) (l : list Z) : Z :=
  Z.of_nat (length (filter (fun i => bit b i = false) l)).

Lemma clear_in_app b l1 l2 : clear_in b (l1 ++ l2) = clear_in b l1 + clear_in b l2.
Proof. unfold clear_in. rewrite filter_app, length_app. lia. Qed.

Lemma clear_in_cons b x l :
  clear_in b (x :: l) = (if bit b x then 0 else 1) + clear_in b l.
Proof.
  unfold clear_in. destruct (bit b x) eqn:E.
  - rewrite filter_cons_False by congruence. lia.
  - rewrite filter_cons_True by done. cbn [length]. lia.
Qed.

Lemma count_byte_spec b i byte ks c :
  bits b !! Z.to_nat i = Some byte -> 0 <= i -> Forall (fun k => 0 <= k < 8) ks ->
  0 <= c -> c + Z.of_nat (length ks) < 2 ^ 32 ->
  foldl (fun c j => if Z.land byte (Z.shiftl BITMAP_MASK j) =? 0 then u32 (c + 1) else c) c ks
  = c + clear_in b (Z.add (8 * i) <$> ks).
Proof.
  intros Hb Hi Hks. revert c. induction Hks as [|k ks Hk _ IH]; intros c Hc Hbd.
  - cbn. unfold clear_in. cbn. lia.
  - cbn [foldl]. rewrite fmap_cons, clear_in_cons. cbn [length] in Hbd.
    assert (Hbk : bit b (8 * i + k) = Z.testbit byte k).
    { unfold bit. replace ((8 * i + k) / 8) with i by (apply Z.div_unique with k; lia).
      replace ((8 * i + k) mod 8) with k by (apply Z.mod_unique with i; lia). by rewrite Hb. }
    rewrite mask_zero, Hbk by lia. destruct (Z.testbit byte k); cbn [negb].
    + rewrite IH by lia. lia.
    + rewrite u32_small, IH by lia. lia.
Qed.

Lemma count_loop_spec n b i c :
  0 <= i -> (Z.to_nat i + n <= length (bits b))%nat -> 0 <= c -> c + 8 * Z.of_nat n < 2 ^ 32 ->
  count_loop n b i c = Ok (c + clear_in b (seqZ (8 * i) (8 * Z.of_nat n))).
Proof.
  revert i c. induction n as [|n IH]; intros i c Hi Hl Hc Hb.
  - rewrite seqZ_nil by lia. cbn. f_equal. unfold clear_in. cbn. lia.
  - cbn [count_loop]. unfold byte_at.
    destruct (lookup_lt_is_Some_2 (bits b) (Z.to_nat i)) as [byte Hbyte]; [lia|].
    rewrite Hbyte. ok_simpl.
    rewrite (count_byte_spec b i byte) by
      (done || (apply Forall_forall; intros ?; rewrite elem_of_seqZ; lia) ||
       (rewrite length_seqZ; lia)).
    rewrite fmap_add_seqZ, Z.add_0_r.
    assert (Hcl : 0 <= clear_in b (seqZ (8 * i) 8) <= 8).
    { unfold clear_in. split; [lia|]. pose proof (length_filter (fun i => bit b i = false) (seqZ (8 * i) 8)) as Hle.
      rewrite length_seqZ in Hle. lia. }
    rewrite IH by lia. f_equal.
    replace (8 * Z.of_nat (S n)) with (8 + 8 * Z.of_nat n) by lia.
    rewrite seqZ_app, clear_in_app by lia. replace (8 * (i + 1)) with (8 * i + 8) by lia. lia.
Qed.

(** [bitmap_count] returns the number of clear bits of the bitmap. *)
Lemma bitmap_count_spec b :
  wf b -> bitmap_count b = Ok (clear_in b (seqZ 0 (nbits b))).
Proof.
  intros [Hlen Hbuf _]. unfold bitmap_count, nbits. rewrite count_loop_spec by lia.
  rewrite Z2Nat.id by lia. done.
Qed.

(** ** The pid pool ([thread/thread.c])

    [pid_lock] makes [allocate_pid] and [release_pid] atomic. *)
Definition MAX_PID_NUM_IN_BYTE : Z := 128.

Record pid_pool := PidPool { pid_bitmap : bitmap; pid_start : Z }.

Definition pid_pool_init : pid_pool :=
  PidPool (bitmap_init (Bitmap MAX_PID_NUM_IN_BYTE (replicate (Z.to_nat MAX_PID_NUM_IN_BYTE) 0))) 1.

Definition allocate_pid (pp : pid_pool) : res (Z * pid_pool) :=
  bit_idx ← bitmap_scan (pid_bitmap pp) 1;
  bm ← bitmap_set (pid_bitmap pp) bit_idx 1;
  Ok (i32 (bit_idx + pid_start pp - 1), PidPool bm (pid_start pp)).

Definition release_pid (pp : pid_pool) (pid : Z) : res pid_pool :=
  let bit_idx := i32 (pid - pid_start pp + 1) in
  bm ← bitmap_set (pid_bitmap pp) bit_idx 0;
  Ok (PidPool bm (pid_start pp)).

(** A pid is live when its bit is set; pids are [0 .. 1023]. *)
Definition pid_wf (pp : pid_pool) : Prop :=
  wf (pid_bitmap pp) /\ btmp_bytes_len (pid_bitmap pp) = MAX_PID_NUM_IN_BYTE /\
  length (bits (pid_bitmap pp)) = Z.to_nat MAX_PID_NUM_IN_BYTE /\ pid_start pp = 1.

Definition pid_live (pp : pid_pool) (pid : Z) : bool := bit (pid_bitmap pp) pid.

Lemma pid_pool_init_wf : pid_wf pid_pool_init.
Proof.
  split; [split; [vm_compute; split; [discriminate|reflexivity]|vm_compute; discriminate|]|done].
  apply (bool_decide_unpack (Forall is_u8 _)). vm_compute. exact I.
Qed.

Section pids.
Context (pp : pid_pool).
Hypothesis Hwf : pid_wf pp.

Lemma pid_set pid v : 0 <= pid < 1024 -> v = 0 \/ v = 1 ->
  exists bm, bitmap_set (pid_bitmap pp) pid v = Ok bm /\ pid_wf (PidPool bm (pid_start pp)) /\
    forall j, 0 <= j -> bit bm j = if j =? pid then v =? 1 else bit (pid_bitmap pp) j.
Proof.
  intros Hp Hv. destruct Hwf as (Hb & Hlen & Hbuf & Hs). unfold MAX_PID_NUM_IN_BYTE in *.
  destruct (bitmap_set_spec (pid_bitmap pp) pid) with (v := v)
    as (bm & Hset & Hbm & Hl & Hn & Hbits); [done|rewrite Hbuf; lia|done|].
  exists bm. split; [done|]. split; [|done]. unfold pid_wf, MAX_PID_NUM_IN_BYTE.
  split_and!; cbn [pid_bitmap pid_start]; [done|congruence|congruence|done].
Qed.

Lemma release_pid_spec pid : 0 <= pid < 1024 ->
  exists pp', release_pid pp pid = Ok pp' /\ pid_wf pp' /\
    forall j, 0 <= j -> pid_live pp' j = negb (j =? pid) && pid_live pp j.
Proof.
  intros Hp. destruct (pid_set pid 0) as (bm & Hset & Hbm & Hbits); [done|by left|].
  unfold release_pid. destruct Hwf as (_ & _ & _ & Hs). rewrite Hs in *.
  rewrite i32_small by lia. replace (pid - 1 + 1) with pid by lia. rewrite Hset. ok_simpl.
  eexists. split; [done|]. split; [done|]. intros j Hj. unfold pid_live. cbn.
  rewrite Hbits by done. by destruct (j =? pid).
Qed.

(** C35. While a pid is free, [allocate_pid] hands out the lowest free pid: it was
    not in use, it is in use afterwards, no other pid changes; and releasing it
    gives back a pool in which exactly the same pids are in use as before. *)
Theorem allocate_pid_fresh free :
  0 <= free < 1024 -> pid_live pp free = false ->
  exists pid pp', allocate_pid pp = Ok (pid, pp') /\ pid_wf pp' /\ 0 <= pid <= free /\
    pid_live pp pid = false /\
    (forall j, 0 <= j -> pid_live pp' j = (j =? pid) || pid_live pp j) /\
    exists pp'', release_pid pp' pid = Ok pp'' /\ pid_wf pp'' /\
      forall j, 0 <= j -> pid_live pp'' j = pid_live pp j.
Proof.
  intros Hf Hlive. destruct Hwf as (Hb & Hlen & Hbuf & Hs).
  destruct (scan_first (pid_bitmap pp) free)
    as (k & byte & o & Hk & Hkl & Hby & Ho & Hor & Hle & Hnb & _);
    [done|unfold nbits; rewrite Hlen; unfold MAX_PID_NUM_IN_BYTE; lia|done|].
  set (pid := 8 * k + o) in *.
  assert (Hscan : bitmap_scan (pid_bitmap pp) 1 = Ok pid).
  { unfold bitmap_scan. rewrite Hk. ok_simpl. rewrite (proj2 (Z.ltb_lt _ _)) by lia. ok_simpl.
    rewrite Hby. ok_simpl. rewrite Ho. ok_simpl. change (1 =? 1) with true. cbn iota.
    rewrite u32_small, i32_small by lia. f_equal. lia. }
  destruct (pid_set pid 1) as (bm & Hset & Hbm & Hbits); [lia|by right|].
  exists pid, (PidPool bm (pid_start pp)). unfold allocate_pid. rewrite Hscan. ok_simpl.
  rewrite Hset. ok_simpl.
  assert (Hl' : forall j, 0 <= j ->
    pid_live (PidPool bm (pid_start pp)) j = (j =? pid) || pid_live pp j).
  { intros j Hj. unfold pid_live. cbn. rewrite Hbits by done. by destruct (j =? pid). }
  split_and!; [|done|lia|lia|done|done|].
  - rewrite Hs, i32_small by lia. do 2 f_equal. lia.
  - unfold release_pid. cbn [pid_start pid_bitmap]. rewrite Hs, i32_small by lia.
    replace (pid - 1 + 1) with pid by lia.
    destruct Hbm as (Hbw & Hbl & Hbb & _). cbn [pid_bitmap] in *. unfold MAX_PID_NUM_IN_BYTE in *.
    destruct (bitmap_set_spec bm pid) with (v := 0) as (bm' & Hset' & Hw' & Hl2 & Hn2 & Hbits');
      [done|rewrite Hbb; lia|by left|].
    rewrite Hset'.
    eexists. ok_simpl. split; [done|]. unfold pid_wf, MAX_PID_NUM_IN_BYTE.
    split; [split_and!; cbn [pid_bitmap pid_start]; (done || congruence)|].
    intros j Hj. unfold pid_live. cbn. rewrite Hbits', Hbits by done.
    destruct (Z.eqb_spec j pid) as [->|]; done.
Qed.

End pids.

(** ** Witnesses *)
Definition ex_bm : bitmap := Bitmap 2 [255; 243; 0].

Lemma ex_bm_wf : wf ex_bm.
Proof. split; cbn; [lia|lia|]. repeat constructor; unfold is_u8; lia. Qed.

Lemma bitmap_scan_one_witness :
  exists r, bitmap_scan ex_bm 1 = Ok r /\ 0 <= r < nbits ex_bm /\ bit ex_bm r = false /\
    forall j, 0 <= j < r -> bit ex_bm j = true.
Proof.
  apply (bitmap_scan_one ex_bm 10); [exact ex_bm_wf|vm_compute; split; congruence|reflexivity].
Defined.


Lemma bitmap_count_spec_witness :
  bitmap_count ex_bm = Ok (clear_in ex_bm (seqZ 0 (nbits ex_bm))).
Proof. apply (bitmap_count_spec ex_bm). exact ex_bm_wf. Defined.

Lemma allocate_pid_fresh_witness :
  exists pid pp', allocate_pid pid_pool_init = Ok (pid, pp') /\ pid_wf pp' /\ 0 <= pid <= 7 /\
    pid_live pid_pool_init pid = false /\
    (forall j, 0 <= j -> pid_live pp' j = (j =? pid) || pid_live pid_pool_init j) /\
    exists pp'', release_pid pp' pid = Ok pp'' /\ pid_wf pp'' /\
      forall j, 0 <= j -> pid_live pp'' j = pid_live pid_pool_init j.
Proof.
  apply (allocate_pid_fresh pid_pool_init pid_pool_init_wf 7); [lia|reflexivity].
Defined.
