(* ===== verification/BuddyGeo.v ===== *)
(** * Buddy geometry: partitions of a frame range into aligned power-of-two blocks

    The mathematics under [mm/buddy.c]: a map [B] from block heads to (order,
    allocated) is a [geo] of [s, e) when its blocks are aligned, lie in the range,
    are pairwise disjoint and cover it.  Splitting a block into its two halves and
    merging two buddies preserve it; [buddy_head] is the fact that makes the
    allocator's merge test sound, [coalesced_complete] the one that makes its
    search complete. *)

From S2P Require Import Prelude.

Abbreviation blocks := (gmap Z (Z * bool)).

Record geo (s e : Z) (B : blocks) : Prop := {
  geo_ord : forall p k a, B !! p = Some (k, a) -> 0 <= k <= 10;
  geo_aln : forall p k a, B !! p = Some (k, a) -> p mod 2 ^ k = 0;
  geo_rng : forall p k a, B !! p = Some (k, a) -> s <= p /\ p + 2 ^ k <= e;
  geo_dis : forall p k a q k' a' x, B !! p = Some (k, a) -> B !! q = Some (k', a') ->
    p <= x < p + 2 ^ k -> q <= x < q + 2 ^ k' -> p = q;
  geo_cov : forall x, s <= x < e -> exists p k a, B !! p = Some (k, a) /\ p <= x < p + 2 ^ k;
}.

(** No two buddies of the same order are both free. *)
Definition coalesced (B : blocks) : Prop :=
  forall p k, B !! p = Some (k, false) -> k < 10 -> B !! Z.lxor p (2 ^ k) <> Some (k, false).

(** ** Arithmetic of aligned numbers *)
Lemma pow2_pos k : 0 <= k -> 0 < 2 ^ k.
Proof. intros. apply Z.pow_pos_nonneg; lia. Qed.

Lemma pow2_succ k : 0 <= k -> 2 ^ (k + 1) = 2 * 2 ^ k.
Proof. intros. rewrite Z.pow_add_r by lia. lia. Qed.

Lemma aligned_le p j k : 0 <= j <= k -> p mod 2 ^ k = 0 -> p mod 2 ^ j = 0.
Proof.
  intros Hj Hp. apply Z.mod_divide in Hp; [|pose proof (pow2_pos k); lia].
  apply Z.mod_divide; [pose proof (pow2_pos j); lia|].
  etransitivity; [|done]. exists (2 ^ (k - j)). rewrite <- Z.pow_add_r by lia. f_equal. lia.
Qed.

(** Two aligned blocks of the same order that meet are equal. *)
Lemma aligned_eq p q k : 0 <= k -> p mod 2 ^ k = 0 -> q mod 2 ^ k = 0 ->
  p <= q < p + 2 ^ k -> p = q.
Proof.
  intros Hk Hp Hq Hr. pose proof (pow2_pos k Hk).
  apply Z.mod_divide in Hp as [x ->]; [|lia]. apply Z.mod_divide in Hq as [y ->]; [|lia].
  assert (x <= y) by (apply (Z.mul_le_mono_pos_r _ _ (2 ^ k)); lia).
  assert (y < x + 1) by (apply (Z.mul_lt_mono_pos_r (2 ^ k)); lia). f_equal. lia.
Qed.

Lemma buddy_cases p k : 0 <= k -> p mod 2 ^ k = 0 ->
  (p mod 2 ^ (k + 1) = 0 /\ Z.lxor p (2 ^ k) = p + 2 ^ k) \/
  ((p - 2 ^ k) mod 2 ^ (k + 1) = 0 /\ Z.lxor p (2 ^ k) = p - 2 ^ k).
Proof.
  intros Hk Hp. pose proof (pow2_pos k Hk) as Hpos.
  assert (Hlow : forall i, 0 <= i < k -> Z.testbit p i = false).
  { intros i Hi. rewrite <- (Z.mod_pow2_bits_low p k) by lia. rewrite Hp. apply Z.bits_0. }
  assert (Hmod : p mod 2 ^ (k + 1) = if Z.testbit p k then 2 ^ k else 0).
  { apply Z.bits_inj'. intros i Hi.
    destruct (Z.lt_ge_cases i (k + 1)).
    - rewrite Z.mod_pow2_bits_low by lia. destruct (Z.eq_dec i k) as [->|].
      + destruct (Z.testbit p k); [by rewrite Z.pow2_bits_true by lia|by rewrite Z.bits_0].
      + rewrite Hlow by lia.
        destruct (Z.testbit p k); rewrite ?Z.pow2_bits_false, ?Z.bits_0 by lia; done.
    - rewrite Z.mod_pow2_bits_high by lia.
      destruct (Z.testbit p k); rewrite ?Z.pow2_bits_false, ?Z.bits_0 by lia; done. }
  destruct (Z.testbit p k) eqn:Hb.
  - right. split.
    + rewrite Zminus_mod, Hmod, (Z.mod_small (2 ^ k)), Z.sub_diag by (rewrite pow2_succ; lia).
      apply Z.mod_0_l. rewrite pow2_succ; lia.
    + rewrite Z.sub_nocarry_ldiff.
      * apply Z.bits_inj'. intros i Hi. rewrite Z.lxor_spec, Z.ldiff_spec.
        destruct (Z.eq_dec i k) as [->|].
        -- by rewrite Z.pow2_bits_true, Hb by lia.
        -- rewrite Z.pow2_bits_false by lia. by rewrite xorb_false_r, andb_true_r.
      * apply Z.bits_inj'. intros i Hi. rewrite Z.ldiff_spec, Z.bits_0.
        destruct (Z.eq_dec i k) as [->|]; [by rewrite Hb, andb_false_r|].
        by rewrite Z.pow2_bits_false by lia.
  - left. split; [done|]. rewrite Z.add_nocarry_lxor; [done|].
    apply Z.bits_inj'. intros i Hi. rewrite Z.land_spec, Z.bits_0.
    destruct (Z.eq_dec i k) as [->|]; [by rewrite Hb|].
    by rewrite Z.pow2_bits_false, andb_false_r by lia.
Qed.

Lemma buddy_involutive p k : Z.lxor (Z.lxor p (2 ^ k)) (2 ^ k) = p.
Proof. by rewrite Z.lxor_assoc, Z.lxor_nilpotent, Z.lxor_0_r. Qed.

Lemma buddy_ne p k : 0 <= k -> Z.lxor p (2 ^ k) <> p.
Proof.
  intros Hk E. pose proof (pow2_pos k Hk). assert (2 ^ k = 0); [|lia].
  by rewrite <- (Z.lxor_0_l (2 ^ k)), <- (Z.lxor_nilpotent p), Z.lxor_assoc, E.
Qed.

Lemma buddy_aligned p k : 0 <= k -> p mod 2 ^ k = 0 -> Z.lxor p (2 ^ k) mod 2 ^ k = 0.
Proof.
  intros Hk Hp. destruct (buddy_cases p k Hk Hp) as [[_ ->]|[_ ->]].
  - rewrite Zplus_mod, Hp, Z_mod_same_full. apply Z.mod_0_l. pose proof (pow2_pos k); lia.
  - rewrite Zminus_mod, Hp, Z_mod_same_full. apply Z.mod_0_l. pose proof (pow2_pos k); lia.
Qed.

(** An aligned region of a larger order that contains a block contains its buddy. *)
Lemma buddy_in_region r j p k : 0 <= k < j -> r mod 2 ^ j = 0 -> p mod 2 ^ k = 0 ->
  r <= p < r + 2 ^ j ->
  r <= Z.lxor p (2 ^ k) /\ Z.lxor p (2 ^ k) + 2 ^ k <= r + 2 ^ j.
Proof.
  intros Hk Hr Hp Hin. pose proof (pow2_pos k) as Hpos. pose proof (pow2_succ k) as Hsucc.
  apply (aligned_le r (k + 1) j) in Hr as Hr1; [|lia].
  assert (He : (r + 2 ^ j) mod 2 ^ (k + 1) = 0).
  { apply (aligned_le _ _ j); [lia|]. rewrite Zplus_mod, Hr, Z_mod_same_full.
    apply Z.mod_0_l. pose proof (pow2_pos j); lia. }
  rewrite Hsucc in * by lia. specialize (Hpos ltac:(lia)). clear Hsucc.
  apply Z.mod_divide in Hr1 as [x Hx]; [|lia]. apply Z.mod_divide in He as [y Hy]; [|lia].
  destruct (buddy_cases p k) as [[Hm ->]|[Hm ->]]; [lia|done|..]; rewrite pow2_succ in Hm by lia;
    (apply Z.mod_divide in Hm as [z Hz]; [|lia]); clear Hr Hp;
    set (P := 2 ^ k) in *; set (J := 2 ^ j) in *; clearbody P J.
  - assert (z < y) by (apply (Z.mul_lt_mono_pos_r (2 * P)); lia). nia.
  - assert (x < z + 1) by (apply (Z.mul_lt_mono_pos_r (2 * P)); lia). nia.
Qed.

(** ** The merge test is sound *)

(** The buddy of a block of order [k], if it lies in the range, is itself the head
    of a block, of order at most [k]: stale data of interior frames is never
    consulted. *)
Lemma buddy_head s e B c k a :
  geo s e B -> B !! c = Some (k, a) -> k < 10 -> s <= Z.lxor c (2 ^ k) < e ->
  exists k' a', B !! Z.lxor c (2 ^ k) = Some (k', a') /\ 0 <= k' <= k.
Proof.
  intros Hg Hc Hk Hb. set (b := Z.lxor c (2 ^ k)) in *.
  pose proof (geo_ord _ _ _ Hg _ _ _ Hc) as Hko. pose proof (geo_aln _ _ _ Hg _ _ _ Hc) as Hca.
  assert (Hba : b mod 2 ^ k = 0) by (apply buddy_aligned; [lia|done]).
  destruct (geo_cov _ _ _ Hg b Hb) as (p & k' & a' & Hp & Hin).
  pose proof (geo_ord _ _ _ Hg _ _ _ Hp) as Hk'. pose proof (geo_aln _ _ _ Hg _ _ _ Hp) as Hpa.
  destruct (Z.le_gt_cases k' k) as [Hle|Hgt].
  - exists k', a'. split; [|lia]. replace b with p; [done|].
    apply (aligned_eq p b k'); [lia|done|by apply (aligned_le _ _ k); [lia|]|done].
  - exfalso. destruct (buddy_in_region p k' b k) as [H1 H2]; [lia|done|done|done|].
    unfold b in H1, H2. rewrite buddy_involutive in H1, H2. pose proof (pow2_pos k).
    assert (p = c) as ->.
    { eapply (geo_dis _ _ _ Hg p _ _ c _ _ c); [done|done| |]; lia. }
    rewrite Hc in Hp. simplify_eq. lia.
Qed.

(** ** The search is complete *)
Definition free_at (B : blocks) (x : Z) : Prop :=
  exists p k, B !! p = Some (k, false) /\ p <= x < p + 2 ^ k.

Lemma coalesced_no_small s e B r j :
  geo s e B -> coalesced B -> r mod 2 ^ j = 0 -> 0 <= j <= 10 ->
  s <= r -> r + 2 ^ j <= e -> (forall x, r <= x < r + 2 ^ j -> free_at B x) ->
  forall (n : nat) m p, 0 <= m < j -> m < Z.of_nat n -> r <= p < r + 2 ^ j ->
    B !! p <> Some (m, false).
Proof.
  intros Hg Hco Hr Hj Hs He Hfree n. induction n as [|n IH]; intros m p Hm Hn Hin Hp; [lia|].
  pose proof (geo_aln _ _ _ Hg _ _ _ Hp) as Hpa. pose proof (pow2_pos m).
  destruct (buddy_in_region r j p m) as [H1 H2]; [lia|done|done|done|].
  set (b := Z.lxor p (2 ^ m)) in *.
  destruct (buddy_head s e B p m false) as (k' & a' & Hb & Hk'); [done|done|lia|fold b; lia|].
  fold b in Hb. destruct (Hfree b) as (q & kq & Hq & Hqin); [lia|].
  assert (b = q) as Hbq.
  { eapply (geo_dis _ _ _ Hg b _ _ q _ _ b); [done|done| |done]. pose proof (pow2_pos k'). lia. }
  rewrite <- Hbq, Hb in Hq. injection Hq as -> ->. clear Hbq.
  destruct (Z.eq_dec kq m) as [->|Hne].
  - eapply (Hco p m); [done|lia|done].
  - eapply (IH kq b); [lia|lia|lia|done].
Qed.

Lemma coalesced_complete s e B r j :
  geo s e B -> coalesced B -> r mod 2 ^ j = 0 -> 0 <= j <= 10 ->
  s <= r -> r + 2 ^ j <= e -> (forall x, r <= x < r + 2 ^ j -> free_at B x) ->
  exists p k, B !! p = Some (k, false) /\ j <= k.
Proof.
  intros Hg Hco Hr Hj Hs He Hfree. pose proof (pow2_pos j).
  destruct (Hfree r) as (p & k & Hp & Hin); [lia|].
  destruct (Z.le_gt_cases j k) as [|Hlt]; [eauto|]. exfalso.
  pose proof (geo_ord _ _ _ Hg _ _ _ Hp). pose proof (geo_aln _ _ _ Hg _ _ _ Hp).
  assert (p = r) as ->.
  { apply (aligned_eq p r k); [lia|done|by apply (aligned_le _ _ j); [lia|]|done]. }
  by eapply (coalesced_no_small s e B r j Hg Hco Hr) with (n := Z.to_nat (k + 1)) (m := k) (p := r); try lia.
Qed.

(** ** Split, merge, relabel *)
Lemma geo_relabel s e B p k a a' : geo s e B -> B !! p = Some (k, a) -> geo s e (<[p := (k, a')]> B).
Proof.
  intros Hg Hp.
  assert (Hl : forall q k' b, <[p := (k, a')]> B !! q = Some (k', b) -> exists b', B !! q = Some (k', b')).
  { intros q k' b. rewrite lookup_insert. case_decide; naive_solver. }
  split.
  - intros q k' b [b' H]%Hl. by eapply geo_ord.
  - intros q k' b [b' H]%Hl. by eapply geo_aln.
  - intros q k' b [b' H]%Hl. by eapply geo_rng.
  - intros q k1 b1 q' k2 b2 x [b1' H1]%Hl [b2' H2]%Hl. by eapply geo_dis.
  - intros x Hx. destruct (geo_cov _ _ _ Hg x Hx) as (q & kq & b & Hq & Hin).
    destruct (decide (p = q)) as [->|].
    + exists q, k, a'. rewrite lookup_insert_eq. rewrite Hp in Hq. by simplify_eq.
    + exists q, kq, b. by rewrite lookup_insert_ne.
Qed.

Lemma geo_head_only s e B p k a q k' a' :
  geo s e B -> B !! p = Some (k, a) -> B !! q = Some (k', a') -> p <= q < p + 2 ^ k -> q = p.
Proof.
  intros Hg Hp Hq Hin. pose proof (geo_ord _ _ _ Hg _ _ _ Hq). pose proof (pow2_pos k').
  symmetry. by eapply (geo_dis _ _ _ Hg p _ _ q _ _ q); [done|done|lia|lia].
Qed.

Definition split_block (p k : Z) (a1 a2 : bool) (B : blocks) : blocks :=
  <[p + 2 ^ k := (k, a2)]> (<[p := (k, a1)]> B).

Lemma split_lookup s e B p k a a1 a2 q :
  geo s e B -> B !! p = Some (k + 1, a) -> 0 <= k ->
  split_block p k a1 a2 B !! q =
    if decide (q = p) then Some (k, a1) else if decide (q = p + 2 ^ k) then Some (k, a2) else B !! q.
Proof.
  intros Hg Hp Hk. unfold split_block. pose proof (pow2_pos k Hk). rewrite !lookup_insert.
  repeat case_decide; congruence || lia.
Qed.

Lemma geo_split s e B p k a a1 a2 :
  geo s e B -> B !! p = Some (k + 1, a) -> 0 <= k -> geo s e (split_block p k a1 a2 B).
Proof.
  intros Hg Hp Hk. pose proof (pow2_pos k Hk) as Hpos. pose proof (pow2_succ k Hk) as Hsucc.
  pose proof (geo_ord _ _ _ Hg _ _ _ Hp). pose proof (geo_aln _ _ _ Hg _ _ _ Hp) as Hpa.
  pose proof (geo_rng _ _ _ Hg _ _ _ Hp) as Hpr.
  pose proof (fun q => split_lookup s e B p k a a1 a2 q Hg Hp Hk) as Hl.
  assert (Hcase : forall q k' b, split_block p k a1 a2 B !! q = Some (k', b) ->
    ((q = p \/ q = p + 2 ^ k) /\ k' = k) \/ (q <> p /\ q <> p + 2 ^ k /\ B !! q = Some (k', b))).
  { intros q k' b. rewrite Hl. repeat case_decide; naive_solver. }
  assert (Hal : p mod 2 ^ k = 0 /\ (p + 2 ^ k) mod 2 ^ k = 0).
  { assert (p mod 2 ^ k = 0) by (apply (aligned_le _ _ (k + 1)); [lia|done]). split; [done|].
    rewrite Zplus_mod, Z_mod_same_full, H0. apply Z.mod_0_l. lia. }
  split.
  - intros q k' b [[? ->]|(_ & _ & Hq)]%Hcase; [lia|by eapply geo_ord].
  - intros q k' b [[[-> | ->] ->]|(_ & _ & Hq)]%Hcase; [tauto|tauto|by eapply geo_aln].
  - intros q k' b [[[-> | ->] ->]|(_ & _ & Hq)]%Hcase; [lia|lia|by eapply geo_rng].
  - intros q k1 b1 q' k2 b2 x [[H1 ->]|(H1 & H1' & H1q)]%Hcase
      [[H2 ->]|(H2 & H2' & H2q)]%Hcase Hx1 Hx2.
    + lia.
    + exfalso. apply H2. symmetry. by eapply (geo_dis _ _ _ Hg p _ _ q' _ _ x); [done|done|lia|lia].
    + exfalso. apply H1. symmetry. by eapply (geo_dis _ _ _ Hg p _ _ q _ _ x); [done|done|lia|lia].
    + by eapply (geo_dis _ _ _ Hg).
  - intros x Hx. destruct (geo_cov _ _ _ Hg x Hx) as (q & kq & b & Hq & Hin).
    destruct (decide (q = p)) as [->|Hne].
    + rewrite Hp in Hq. simplify_eq. destruct (Z.lt_ge_cases x (p + 2 ^ k)).
      * exists p, k, a1. rewrite Hl, decide_True by done. split; [done|lia].
      * exists (p + 2 ^ k), k, a2. rewrite Hl, decide_False, decide_True by (done || lia).
        split; [done|lia].
    + exists q, kq, b. rewrite Hl, decide_False by done. rewrite decide_False; [by split|].
      intros ->. apply Hne. eapply geo_head_only; [done..|lia].
Qed.

Definition merge_blocks (p q k : Z) (a : bool) (B : blocks) : blocks :=
  <[p := (k + 1, a)]> (delete q B).

Lemma geo_merge s e B p k a1 a2 a :
  geo s e B -> B !! p = Some (k, a1) -> B !! (p + 2 ^ k) = Some (k, a2) -> 0 <= k < 10 ->
  p mod 2 ^ (k + 1) = 0 -> geo s e (merge_blocks p (p + 2 ^ k) k a B).
Proof.
  intros Hg Hp Hq Hk Hal. pose proof (pow2_pos k) as Hpos. pose proof (pow2_succ k) as Hsucc.
  set (q := p + 2 ^ k) in *.
  pose proof (geo_rng _ _ _ Hg _ _ _ Hp) as Hpr. pose proof (geo_rng _ _ _ Hg _ _ _ Hq) as Hqr.
  assert (Hcase : forall r k' b, merge_blocks p q k a B !! r = Some (k', b) ->
    (r = p /\ k' = k + 1) \/ (r <> p /\ r <> q /\ B !! r = Some (k', b))).
  { intros r k' b. unfold merge_blocks. rewrite lookup_insert, lookup_delete.
    repeat case_decide; naive_solver. }
  assert (Hex : forall r k' b x, B !! r = Some (k', b) -> r <> p -> r <> q ->
            p <= x < p + 2 ^ (k + 1) -> r <= x < r + 2 ^ k' -> False).
  { intros r k' b x Hr Hrp Hrq Hx Hxr. destruct (Z.lt_ge_cases x q).
    - apply Hrp. eapply (geo_dis _ _ _ Hg r _ _ p _ _ x); [done..|lia].
    - apply Hrq. eapply (geo_dis _ _ _ Hg r _ _ q _ _ x); [done..|lia]. }
  split.
  - intros r k' b [[? ->]|(_ & _ & Hr)]%Hcase; [lia|by eapply geo_ord].
  - intros r k' b [[-> ->]|(_ & _ & Hr)]%Hcase; [done|by eapply geo_aln].
  - intros r k' b [[-> ->]|(_ & _ & Hr)]%Hcase; [lia|by eapply geo_rng].
  - intros r k1 b1 r' k2 b2 x [[-> ->]|(H1 & H1' & H1q)]%Hcase
      [[-> ->]|(H2 & H2' & H2q)]%Hcase Hx1 Hx2.
    + done.
    + exfalso. by eapply Hex.
    + exfalso. by eapply (Hex r).
    + by eapply (geo_dis _ _ _ Hg).
  - intros x Hx. destruct (geo_cov _ _ _ Hg x Hx) as (r & kr & b & Hr & Hin).
    unfold merge_blocks.
    destruct (decide (r = p \/ r = q)) as [Hpq|Hne].
    + exists p, (k + 1), a. rewrite lookup_insert_eq. split; [done|].
      destruct Hpq as [-> | ->]; [rewrite Hp in Hr|rewrite Hq in Hr]; simplify_eq; lia.
    + exists r, kr, b. rewrite lookup_insert_ne, lookup_delete_ne by naive_solver. done.
Qed.
