(* ===== verification/Buddy.v ===== *)
(** * The buddy allocator ([mm/buddy.c], [include/magicbox/buddy.h])

    A pool manages the page frames [phy_addr_start >> 12 .. (phy_addr_start +
    pool_size) >> 12).  Frames are named by their index in [page_base]
    ([global_pages]), which both pools share; a free list holds the frame numbers
    of the block heads whose [free_list_tag] is linked into it.  The pool lock and
    the disabled interrupts make every operation atomic.

    The ghost state [B] of the invariant maps the head of every block to its order
    and to whether it is allocated: the blocks partition the pool. *)

From S2P Require Import Prelude BuddyGeo.

(** ** Data *)
Definition MAX_ORDER : Z := 11.

Record page := Page {
  flags : Z;
  ref_count : Z;
  order : Z;
  slab_desc : option nat;
  slab_cnt : Z;
  slab_large : bool;
  first_owner : Z;
  first_vaddr : Z;
}.

Abbreviation page_array := (gmap Z page).

Record free_area := FreeArea { free_list : list Z; nr_free : Z }.

Record buddy_pool := BuddyPool {
  areas : list free_area;
  phy_addr_start : Z;
  pool_size : Z;
  (** the value of [(uint32_t)(NULL - page_base)], see [page_to_addr] *)
  null_index : Z;
  activate_list : list Z;
}.

Definition set_flags (v : Z) (p : page) : page :=
  Page v (ref_count p) (order p) (slab_desc p) (slab_cnt p) (slab_large p) (first_owner p) (first_vaddr p).
Definition set_order (v : Z) (p : page) : page :=
  Page (flags p) (ref_count p) v (slab_desc p) (slab_cnt p) (slab_large p) (first_owner p) (first_vaddr p).

Definition set_areas (a : list free_area) (bp : buddy_pool) : buddy_pool :=
  BuddyPool a (phy_addr_start bp) (pool_size bp) (null_index bp) (activate_list bp).

(** [bpool->areas[k]] *)
Definition area (bp : buddy_pool) (k : Z) : res free_area := deref (areas bp !! Z.to_nat k).
Definition put_area (bp : buddy_pool) (k : Z) (a : free_area) : buddy_pool :=
  set_areas (<[Z.to_nat k := a]> (areas bp)) bp.

(** A store to a field of [page_base[i]]. *)
Definition upd_page (pgs : page_array) (i : Z) (f : page -> page) : res page_array :=
  p ← deref (pgs !! i); Ok (<[i := f p]> pgs).

(** [dlist_push_back(&areas[k].free_list, ...); areas[k].nr_free++] *)
Definition push_free_back (bp : buddy_pool) (k i : Z) : res buddy_pool :=
  a ← area bp k;
  Ok (put_area bp k (FreeArea (free_list a ++ [i]) (u32 (nr_free a + 1)))).

Definition push_free_front (bp : buddy_pool) (k i : Z) : res buddy_pool :=
  a ← area bp k;
  Ok (put_area bp k (FreeArea (i :: free_list a) (u32 (nr_free a + 1)))).

(** [dlist_remove(&pg->free_list_tag)] unlinks the page from the list it is on; the
    links of a page on no list are NULL or stale. *)
Definition remove_free_tag (bp : buddy_pool) (i : Z) : res buddy_pool :=
  if existsb (fun a => bool_decide (i ∈ free_list a)) (areas bp)
  then Ok (set_areas
        ((fun a => FreeArea (filter (fun j => j <> i) (free_list a)) (nr_free a)) <$> areas bp) bp)
  else UB.

Definition dec_nr_free (bp : buddy_pool) (k : Z) : res buddy_pool :=
  a ← area bp k; Ok (put_area bp k (FreeArea (free_list a) (u32 (nr_free a - 1)))).

(** [PAGE_TO_ADDR(bpool, pg)]; [None] is the NULL pointer. *)
Definition page_to_addr (bp : buddy_pool) (pg : option Z) : Z :=
  u32 (Z.shiftl (default (null_index bp) pg) 12).

Definition start_pfn (bp : buddy_pool) : Z := Z.shiftr (phy_addr_start bp) 12.
Definition end_pfn (bp : buddy_pool) : Z := Z.shiftr (u32 (phy_addr_start bp + pool_size bp)) 12.

(** ** [buddy_init] *)

(** The inner loop: the largest order that the alignment and the end allow. *)
Fixpoint init_order (order : nat) (curr_pfn end_pfn : Z) : Z :=
  match order with
  | O => 0
  | S order' =>
      if (curr_pfn mod (Z.shiftl 1 (Z.of_nat order)) =? 0) &&
         (u32 (curr_pfn + Z.shiftl 1 (Z.of_nat order)) <=? end_pfn)
      then Z.of_nat order else init_order order' curr_pfn end_pfn
  end.

Fixpoint init_loop (fuel : nat) (pgs : page_array) (bp : buddy_pool) (curr_pfn end_pfn : Z)
    : res (page_array * buddy_pool) :=
  match fuel with
  | O => Fuel
  | S fuel =>
      if curr_pfn <? end_pfn then
        let order := init_order (Z.to_nat (MAX_ORDER - 1)) curr_pfn end_pfn in
        pgs ← upd_page pgs curr_pfn (set_order order);
        pgs ← upd_page pgs curr_pfn (set_flags 0);
        bp ← push_free_back bp order curr_pfn;
        init_loop fuel pgs bp (u32 (curr_pfn + Z.shiftl 1 order)) end_pfn
      else Ok (pgs, bp)
  end.

Definition buddy_init (pgs : page_array) (null_index start_addr size : Z)
    : res (page_array * buddy_pool) :=
  let bp := BuddyPool (replicate (Z.to_nat MAX_ORDER) (FreeArea [] 0)) start_addr size null_index [] in
  init_loop (S (Z.to_nat (end_pfn bp))) pgs bp (start_pfn bp) (end_pfn bp).

(** ** [palloc_pages] *)

(** [while (k < MAX_ORDER && dlist_empty(&areas[k].free_list)) k++] *)
Fixpoint find_order (n : nat) (bp : buddy_pool) (k : Z) : res Z :=
  match n with
  | O => Ok k
  | S n =>
      a ← area bp k;
      match free_list a with [] => find_order n bp (k + 1) | _ => Ok k end
  end.

(** [while (k > order) { k--; ... }] *)
Fixpoint split_loop (n : nat) (pgs : page_array) (bp : buddy_pool) (pg k : Z)
    : res (page_array * buddy_pool) :=
  match n with
  | O => Ok (pgs, bp)
  | S n =>
      let k := k - 1 in
      let buddy := pg + Z.shiftl 1 k in
      let buddy_phy := page_to_addr bp (Some buddy) in
      if u32 (phy_addr_start bp + pool_size bp) <=? buddy_phy
      then split_loop n pgs bp pg k
      else
        pgs ← upd_page pgs buddy (set_order k);
        pgs ← upd_page pgs buddy (set_flags 0);
        bp ← push_free_back bp k buddy;
        split_loop n pgs bp pg k
  end.

Definition palloc_pages (pgs : page_array) (bp : buddy_pool) (ord : Z)
    : res (option Z * page_array * buddy_pool) :=
  _ ← assert_ (ord <? MAX_ORDER);
  k ← find_order (Z.to_nat (MAX_ORDER - ord)) bp ord;
  if k =? MAX_ORDER then Ok (None, pgs, bp)
  else
    a ← area bp k;
    match free_list a with
    | [] => Panic
    | pg :: rest =>
        let bp := put_area bp k (FreeArea rest (u32 (nr_free a - 1))) in
        '(pgs, bp) ← split_loop (Z.to_nat (k - ord)) pgs bp pg k;
        pgs ← upd_page pgs pg (set_order ord);
        pgs ← upd_page pgs pg (fun p => set_flags (Z.lor (flags p) 1) p);
        Ok (Some pg, pgs, bp)
    end.

(** ** [get_buddy_page], [page_is_allocated], [pfree_pages] *)
Definition get_buddy_page (bp : buddy_pool) (pg ord : Z) : option Z :=
  let buddy_idx := Z.lxor pg (Z.shiftl 1 ord) in
  if (buddy_idx <? start_pfn bp) || (end_pfn bp <=? buddy_idx) then None else Some buddy_idx.

Definition page_is_allocated (p : page) : bool := negb (Z.land (flags p) 1 =? 0).

Fixpoint merge_loop (n : nat) (pgs : page_array) (bp : buddy_pool) (curr k : Z)
    : res (page_array * buddy_pool * Z * Z) :=
  match n with
  | O => Ok (pgs, bp, curr, k)
  | S n =>
      let buddy := get_buddy_page bp curr k in
      let buddy_phy_addr := page_to_addr bp buddy in
      if (buddy_phy_addr <? phy_addr_start bp) ||
         (u32 (phy_addr_start bp + pool_size bp) <=? buddy_phy_addr)
      then Ok (pgs, bp, curr, k)
      else
        b ← deref buddy;
        pb ← deref (pgs !! b);
        if page_is_allocated pb || negb (order pb =? i32 k) then Ok (pgs, bp, curr, k)
        else
          bp ← remove_free_tag bp b;
          bp ← dec_nr_free bp k;
          let curr := if b <? curr then b else curr in
          pgs ← upd_page pgs curr (set_order (k + 1));
          merge_loop n pgs bp curr (k + 1)
  end.

Definition pfree_pages (pgs : page_array) (bp : buddy_pool) (pg ord : Z)
    : res (page_array * buddy_pool) :=
  _ ← assert_ (ord <? MAX_ORDER);
  '(pgs, bp, curr, k) ← merge_loop (Z.to_nat (MAX_ORDER - 1 - ord)) pgs bp pg ord;
  a ← area bp k;
  _ ← assert_ (negb (bool_decide (curr ∈ free_list a)));
  pgs ← upd_page pgs curr (fun p => set_flags (Z.land (flags p) (Z.lnot 1)) p);
  pgs ← upd_page pgs curr (set_order k);
  bp ← push_free_front bp k curr;
  Ok (pgs, bp).

(** ** The invariant *)

(** What the callers of [buddy_init] establish.  [ok_null]: the pseudo address that
    [PAGE_TO_ADDR] computes from a NULL buddy is outside the pool. *)
Record pool_ok (bp : buddy_pool) : Prop := {
  ok_start : 0 <= phy_addr_start bp;
  ok_align : phy_addr_start bp mod 2 ^ 12 = 0;
  ok_size : 0 <= pool_size bp;
  ok_end : phy_addr_start bp + pool_size bp < 2 ^ 32;
  ok_null : page_to_addr bp None < phy_addr_start bp \/
            phy_addr_start bp + pool_size bp <= page_to_addr bp None;
}.

(** The free lists hold exactly the free blocks, and [nr_free] counts them. *)
Record area_ok (B : blocks) (k : Z) (a : free_area) : Prop := {
  ar_count : nr_free a = Z.of_nat (length (free_list a));
  ar_nodup : NoDup (free_list a);
  ar_elem : forall p, p ∈ free_list a <-> B !! p = Some (k, false);
}.

Definition lists_ok (bp : buddy_pool) (B : blocks) : Prop :=
  length (areas bp) = Z.to_nat MAX_ORDER /\
  forall k, 0 <= k < MAX_ORDER -> exists a, areas bp !! Z.to_nat k = Some a /\ area_ok B k a.

(** The [struct page] of every block head but [ex] tells the state of the block;
    nothing is required of interior frames. *)
Definition page_ok (pgs : page_array) (p k : Z) (a : bool) : Prop :=
  exists pg, pgs !! p = Some pg /\ page_is_allocated pg = a /\ (a = false -> order pg = k).

Definition pages_ok (pgs : page_array) (s e : Z) (B : blocks) (ex : option Z) : Prop :=
  (forall x, s <= x < e -> is_Some (pgs !! x)) /\
  (forall p k a, B !! p = Some (k, a) -> ex <> Some p -> page_ok pgs p k a).

Record inv_but (pgs : page_array) (bp : buddy_pool) (B : blocks) (ex : option Z) : Prop := {
  inv_pool : pool_ok bp;
  inv_geo : geo (start_pfn bp) (end_pfn bp) B;
  inv_coal : coalesced B;
  inv_lists : lists_ok bp B;
  inv_pages : pages_ok pgs (start_pfn bp) (end_pfn bp) B ex;
}.

(** The allocated blocks: head frame to order. *)
Definition alloc_of (B : blocks) : gmap Z Z :=
  omap (fun b : Z * bool => if b.2 then Some b.1 else None) B.

(** What clients see of a pool: its allocated blocks. *)
Definition valid (pgs : page_array) (bp : buddy_pool) (A : gmap Z Z) : Prop :=
  exists B, inv_but pgs bp B None /\ alloc_of B = A.

(** What the operations keep: the pool's bounds, the frames of other pools, and the
    fields of [struct page] that belong to other subsystems. *)
Definition meta (p : page) := (ref_count p, slab_desc p, slab_cnt p, slab_large p, first_owner p, first_vaddr p).

Record keeps (pgs : page_array) (bp : buddy_pool) (pgs' : page_array) (bp' : buddy_pool) : Prop := {
  keep_pool : bp' = set_areas (areas bp') bp;
  keep_out : forall x, ~ (start_pfn bp <= x < end_pfn bp) -> pgs' !! x = pgs !! x;
  keep_meta : forall x, meta <$> pgs' !! x = meta <$> pgs !! x;
}.

(** ** Basic facts *)
Lemma alloc_of_lookup B p k : alloc_of B !! p = Some k <-> B !! p = Some (k, true).
Proof.
  unfold alloc_of. rewrite lookup_omap. destruct (B !! p) as [[k' []]|]; cbn; naive_solver.
Qed.

Section pool.
Context (bp : buddy_pool).
Hypothesis Hok : pool_ok bp.

Lemma end_addr : u32 (phy_addr_start bp + pool_size bp) = phy_addr_start bp + pool_size bp.
Proof. destruct Hok. apply u32_small. lia. Qed.

Lemma pfn_range : 0 <= start_pfn bp /\ start_pfn bp * 2 ^ 12 = phy_addr_start bp /\
  end_pfn bp * 2 ^ 12 <= phy_addr_start bp + pool_size bp < 2 ^ 32 /\
  phy_addr_start bp + pool_size bp < end_pfn bp * 2 ^ 12 + 2 ^ 12.
Proof.
  destruct Hok. unfold start_pfn, end_pfn. rewrite end_addr, !Z.shiftr_div_pow2 by lia.
  apply Z.mod_divide in ok_align0 as [x Hx]; [|lia]. rewrite Hx, Z.div_mul by lia.
  pose proof (Z.div_mod (x * 2 ^ 12 + pool_size bp) (2 ^ 12)) as Hdm.
  pose proof (Z.mod_pos_bound (x * 2 ^ 12 + pool_size bp) (2 ^ 12)). lia.
Qed.

Lemma addr_in_pool x : start_pfn bp <= x < end_pfn bp ->
  page_to_addr bp (Some x) = x * 2 ^ 12 /\
  phy_addr_start bp <= x * 2 ^ 12 < phy_addr_start bp + pool_size bp.
Proof.
  intros Hx. pose proof pfn_range. unfold page_to_addr.
  change (default (null_index bp) (Some x)) with x.
  rewrite Z.shiftl_mul_pow2, u32_small by lia. lia.
Qed.

End pool.

Lemma shiftl_pow2 k : 0 <= k -> Z.shiftl 1 k = 2 ^ k.
Proof. intros. apply Z.shiftl_1_l. Qed.

Lemma keeps_refl pgs bp : keeps pgs bp pgs bp.
Proof. split; [by destruct bp|done|done]. Qed.

Lemma keeps_trans pgs1 bp1 pgs2 bp2 pgs3 bp3 :
  keeps pgs1 bp1 pgs2 bp2 -> keeps pgs2 bp2 pgs3 bp3 -> keeps pgs1 bp1 pgs3 bp3.
Proof.
  intros [Hp1 Ho1 Hm1] [Hp2 Ho2 Hm2]. rewrite Hp1 in Ho2, Hp2. split.
  - rewrite Hp2. done.
  - intros x Hx. by rewrite Ho2, Ho1.
  - intros x. by rewrite Hm2, Hm1.
Qed.

Lemma keeps_areas pgs bp a : keeps pgs bp pgs (set_areas a bp).
Proof. split; done. Qed.

(** A store to a frame of the pool that leaves the other subsystems' fields. *)
Lemma keeps_upd pgs bp x f p :
  start_pfn bp <= x < end_pfn bp -> pgs !! x = Some p -> meta (f p) = meta p ->
  keeps pgs bp (<[x := f p]> pgs) bp.
Proof.
  intros Hx Hp Hm. split; [by destruct bp| |].
  - intros y Hy. rewrite lookup_insert_ne; [done|lia].
  - intros y. rewrite lookup_insert. case_decide; [subst|done]. rewrite Hp. cbn. by rewrite Hm.
Qed.

Lemma pool_ok_set_areas bp a : pool_ok (set_areas a bp) <-> pool_ok bp.
Proof. split; intros []; split; done. Qed.

Lemma geo_bound s e B l : geo s e B -> 0 <= s -> e <= 2 ^ 20 -> NoDup l ->
  (forall p, p ∈ l -> is_Some (B !! p)) -> Z.of_nat (length l) <= 2 ^ 20.
Proof.
  intros Hg Hs He Hnd Hin.
  assert (Hsub : (list_to_set l : gset Z) ⊆ list_to_set (seqZ 0 (2 ^ 20))).
  { intros p. rewrite !elem_of_list_to_set, elem_of_seqZ. intros Hp.
    destruct (Hin p Hp) as [[k a] Hk]. pose proof (geo_rng _ _ _ Hg _ _ _ Hk).
    pose proof (geo_ord _ _ _ Hg _ _ _ Hk). pose proof (pow2_pos k). lia. }
  apply subseteq_size in Hsub. rewrite !size_list_to_set, length_seqZ in Hsub; [lia|apply NoDup_seqZ|done].
Qed.

(** ** The free lists *)
Lemma lists_area bp B k : lists_ok bp B -> 0 <= k < MAX_ORDER ->
  exists a, area bp k = Ok a /\ area_ok B k a /\ areas bp !! Z.to_nat k = Some a.
Proof.
  intros [_ H] Hk. destruct (H k Hk) as (a & Ha & Hok). exists a.
  unfold area. by rewrite Ha.
Qed.

Lemma area_ok_ext B B' k a :
  (forall p, B' !! p = Some (k, false) <-> B !! p = Some (k, false)) -> area_ok B k a -> area_ok B' k a.
Proof. intros H [? ? He]. split; [done|done|]. intros p. by rewrite He, H. Qed.

(** Replacing one list. *)
Lemma lists_put bp B B' k a' :
  lists_ok bp B -> 0 <= k < MAX_ORDER -> area_ok B' k a' ->
  (forall p k', k' <> k -> B' !! p = Some (k', false) <-> B !! p = Some (k', false)) ->
  lists_ok (put_area bp k a') B'.
Proof.
  intros [Hlen H] Hk Ha Hother. unfold put_area, set_areas. split; cbn [areas].
  - by rewrite length_insert.
  - intros j Hj. destruct (decide (j = k)) as [->|Hne].
    + exists a'. rewrite list_lookup_insert_eq; [done|]. rewrite Hlen. lia.
    + destruct (H j Hj) as (a & Hl & Haok). exists a.
      rewrite list_lookup_insert_ne by lia. split; [done|].
      apply (area_ok_ext B); [|done]. intros p. by apply Hother.
Qed.

Lemma lists_add bp B B' k i a l' :
  lists_ok bp B -> 0 <= k < MAX_ORDER -> area bp k = Ok a -> l' ≡ₚ i :: free_list a ->
  Z.of_nat (length (free_list a)) <= 2 ^ 20 -> B !! i <> Some (k, false) ->
  (forall p k', B' !! p = Some (k', false) <-> (p = i /\ k' = k) \/ B !! p = Some (k', false)) ->
  lists_ok (put_area bp k (FreeArea l' (u32 (nr_free a + 1)))) B'.
Proof.
  intros Hl Hk Ha Hperm Hbnd Hi HB. destruct (lists_area bp B k Hl Hk) as (a' & Ha' & [Hc Hn He] & _).
  rewrite Ha in Ha'. injection Ha' as <-.
  apply (lists_put bp B); [done|done| |].
  - split; cbn [free_list nr_free].
    + rewrite Hperm, Hc. cbn [length]. rewrite u32_small by lia. lia.
    + rewrite Hperm. apply NoDup_cons. split; [|done]. by rewrite He.
    + intros p. rewrite Hperm, elem_of_cons, He, HB. naive_solver.
  - intros p k' Hne. rewrite HB. naive_solver.
Qed.

Lemma lists_del bp B B' k i a l' :
  lists_ok bp B -> 0 <= k < MAX_ORDER -> area bp k = Ok a -> free_list a ≡ₚ i :: l' ->
  Z.of_nat (length (free_list a)) <= 2 ^ 20 ->
  (forall p k', B' !! p = Some (k', false) <-> B !! p = Some (k', false) /\ ~ (p = i /\ k' = k)) ->
  lists_ok (put_area bp k (FreeArea l' (u32 (nr_free a - 1)))) B'.
Proof.
  intros Hl Hk Ha Hperm Hbnd HB. destruct (lists_area bp B k Hl Hk) as (a' & Ha' & [Hc Hn He] & _).
  rewrite Ha in Ha'. injection Ha' as <-. rewrite Hperm in Hn, Hbnd. apply NoDup_cons in Hn as [Hi Hn].
  cbn [length] in Hbnd.
  apply (lists_put bp B); [done|done| |].
  - split; cbn [free_list nr_free].
    + rewrite Hc, Hperm. cbn [length]. rewrite u32_small by lia. lia.
    + done.
    + intros p. rewrite HB, <- He, Hperm, elem_of_cons. split; [|naive_solver].
      intros Hp. split; [by right|]. intros [-> _]. done.
  - intros p k' Hne. rewrite HB. naive_solver.
Qed.

(** [dlist_remove(&buddy->free_list_tag); areas[k].nr_free--] on a free block. *)
Lemma remove_free_spec bp B k b :
  lists_ok bp B -> 0 <= k < MAX_ORDER -> B !! b = Some (k, false) ->
  (forall a, area bp k = Ok a -> Z.of_nat (length (free_list a)) <= 2 ^ 20) ->
  exists bp1 bp2, remove_free_tag bp b = Ok bp1 /\ dec_nr_free bp1 k = Ok bp2 /\
    bp2 = set_areas (areas bp2) bp /\
    forall B', (forall p k', B' !! p = Some (k', false) <->
                  B !! p = Some (k', false) /\ ~ (p = b /\ k' = k)) -> lists_ok bp2 B'.
Proof.
  intros Hl Hk Hb Hbnd. destruct (lists_area bp B k Hl Hk) as (a & Ha & Haok & Hla).
  pose proof Haok as [Hc Hn He]. assert (Hin : b ∈ free_list a) by by apply He.
  set (rm := fun a => FreeArea (filter (fun j => j <> b) (free_list a)) (nr_free a)).
  set (bp2 := put_area bp k (FreeArea (filter (fun j => j <> b) (free_list a)) (u32 (nr_free a - 1)))).
  assert (Heq : <[Z.to_nat k := FreeArea (free_list (rm a)) (u32 (nr_free (rm a) - 1))]> (rm <$> areas bp)
                = areas bp2).
  { apply list_eq. intros j. destruct (decide (j = Z.to_nat k)) as [->|Hne].
    - cbn. rewrite !list_lookup_insert_eq; [done|by eapply lookup_lt_Some|].
      rewrite length_fmap. by eapply lookup_lt_Some.
    - cbn. rewrite !list_lookup_insert_ne, list_lookup_fmap by done.
      destruct (areas bp !! j) as [aj|] eqn:Hj; [|done]. cbn. f_equal.
      destruct Hl as [Hlen Hl]. pose proof (lookup_lt_Some _ _ _ Hj) as Hlt.
      destruct (Hl (Z.of_nat j)) as (aj' & Hj' & [_ _ Hej]); [lia|].
      rewrite Nat2Z.id, Hj in Hj'. injection Hj' as <-. unfold rm.
      rewrite filter_ne_id; [by destruct aj|]. rewrite Hej, Hb. intros [= ->]. lia. }
  exists (set_areas (rm <$> areas bp) bp), bp2. split_and!.
  - unfold remove_free_tag. replace (existsb _ _) with true; [done|]. symmetry.
    apply existsb_exists. exists a. split; [|by apply bool_decide_eq_true].
    apply list_elem_of_In. by eapply list_elem_of_lookup_2.
  - unfold dec_nr_free, area. cbn [areas set_areas]. rewrite list_lookup_fmap, Hla. ok_simpl.
    apply (f_equal Ok). transitivity (set_areas (areas bp2) bp); [|done].
    rewrite <- Heq. done.
  - done.
  - intros B' HB'. apply (lists_del bp B B' k b a); [done|done|done| |by apply Hbnd|done].
    by apply filter_ne_perm.
Qed.

(** ** Allocation *)
Lemma find_order_spec n bp B k :
  lists_ok bp B -> 0 <= k <= MAX_ORDER -> Z.of_nat n = MAX_ORDER - k ->
  exists r, find_order n bp k = Ok r /\ k <= r <= MAX_ORDER /\
    (forall p j, k <= j < r -> B !! p <> Some (j, false)) /\
    (r < MAX_ORDER -> exists a p l, area bp r = Ok a /\ free_list a = p :: l).
Proof.
  intros Hl. revert k. induction n as [|n IH]; intros k Hk Hn.
  - exists k. split_and!; [done|lia|lia|lia|lia].
  - cbn [find_order]. destruct (lists_area bp B k Hl) as (a & Ha & [_ _ He] & _); [lia|].
    rewrite Ha. ok_simpl. destruct (free_list a) as [|p l] eqn:Hfl.
    + destruct (IH (k + 1)) as (r & Hr & Hkr & Hno & Hyes); [lia|lia|].
      exists r. split_and!; [done|lia|lia| |done]. intros p j Hj.
      destruct (decide (j = k)) as [->|]; [|apply Hno; lia].
      rewrite <- He. set_solver.
    + exists k. split_and!; [done|lia|lia|lia|]. intros _. by exists a, p, l.
Qed.

(** A free frame of the pool is made the head of a block: its page is set up. *)
Lemma page_setup pgs bp x k :
  is_Some (pgs !! x) -> start_pfn bp <= x < end_pfn bp ->
  exists pgs1 pgs2, upd_page pgs x (set_order k) = Ok pgs1 /\
    upd_page pgs1 x (set_flags 0) = Ok pgs2 /\ keeps pgs bp pgs2 bp /\ page_ok pgs2 x k false /\
    (forall y, y <> x -> pgs2 !! y = pgs !! y) /\ (forall y, is_Some (pgs !! y) -> is_Some (pgs2 !! y)).
Proof.
  intros [p Hp] Hx. unfold upd_page. rewrite Hp. ok_simpl. eexists _, _. split; [done|].
  rewrite lookup_insert_eq. ok_simpl. split; [done|]. rewrite insert_insert_eq. split_and!.
  - exact (keeps_upd pgs bp x (fun p => set_flags 0 (set_order k p)) p Hx Hp eq_refl).
  - eexists. rewrite lookup_insert_eq. done.
  - intros y Hy. by rewrite lookup_insert_ne.
  - intros y Hy. rewrite lookup_insert. case_decide; [by eexists|done].
Qed.

Lemma split_free_iff s e B p k a q k' :
  geo s e B -> B !! p = Some (k + 1, a) -> a = true -> 0 <= k ->
  split_block p k true false B !! q = Some (k', false) <->
    (q = p + 2 ^ k /\ k' = k) \/ B !! q = Some (k', false).
Proof.
  intros Hg Hp -> Hk. rewrite (split_lookup s e B p k true) by done.
  pose proof (pow2_pos k Hk). pose proof (pow2_succ k Hk).
  repeat case_decide; subst; [naive_solver lia| |naive_solver].
  split; [naive_solver|]. intros [[_ ->]|Hq]; [done|].
  exfalso. assert (p + 2 ^ k = p); [|lia]. eapply geo_head_only; [done..|lia].
Qed.

Lemma split_alloc_iff s e B p k q k' :
  geo s e B -> B !! p = Some (k + 1, true) -> 0 <= k ->
  split_block p k true false B !! q = Some (k', true) <->
    (q = p /\ k' = k) \/ (q <> p /\ B !! q = Some (k', true)).
Proof.
  intros Hg Hp Hk. rewrite (split_lookup s e B p k true) by done.
  pose proof (pow2_pos k Hk). pose proof (pow2_succ k Hk).
  repeat case_decide; subst; [naive_solver| |naive_solver].
  split; [naive_solver|]. intros [[? _]|[_ Hq]]; [lia|].
  exfalso. assert (p + 2 ^ k = p); [|lia]. eapply geo_head_only; [done..|lia].
Qed.

Lemma split_coalesced s e B p k :
  geo s e B -> coalesced B -> B !! p = Some (k + 1, true) -> 0 <= k ->
  coalesced (split_block p k true false B).
Proof.
  intros Hg Hco Hp Hk q k' Hq Hk' Hb. pose proof (geo_aln _ _ _ Hg _ _ _ Hp) as Hal.
  pose proof (pow2_pos k Hk).
  assert (Hpb : Z.lxor p (2 ^ k) = p + 2 ^ k).
  { destruct (buddy_cases p k) as [[_ ?]|[Hm _]]; [done|by apply (aligned_le _ _ (k + 1)); [lia|]|done|].
    exfalso. rewrite Zminus_mod, Hal, Z.sub_0_l, (Z.mod_small (2 ^ k)) in Hm
      by (rewrite pow2_succ by lia; lia).
    apply Z.mod_opp_l_z in Hm; [|rewrite pow2_succ; lia].
    rewrite Z.mod_small in Hm by (rewrite pow2_succ by lia; lia). lia. }
  rewrite (split_free_iff s e B p k true) in Hq, Hb by done.
  destruct Hq as [[-> ->]|Hq].
  - rewrite <- Hpb, buddy_involutive in Hb. destruct Hb as [[Hb _]|Hb]; [lia|congruence].
  - destruct Hb as [[Hb ->]|Hb]; [|by apply (Hco q k')].
    assert (q = p) as ->; [|congruence].
    rewrite <- (buddy_involutive q k), Hb, <- Hpb. apply buddy_involutive.
Qed.

(** The state after a block was taken off its list: it is allocated, but its page
    does not say so yet. *)
Lemma split_step pgs bp B pg k :
  inv_but pgs bp B (Some pg) -> B !! pg = Some (k + 1, true) -> 0 <= k ->
  exists pgs1 pgs2 bp', 
    page_to_addr bp (Some (pg + 2 ^ k)) < u32 (phy_addr_start bp + pool_size bp) /\
    upd_page pgs (pg + 2 ^ k) (set_order k) = Ok pgs1 /\
    upd_page pgs1 (pg + 2 ^ k) (set_flags 0) = Ok pgs2 /\
    push_free_back bp k (pg + 2 ^ k) = Ok bp' /\
    inv_but pgs2 bp' (split_block pg k true false B) (Some pg) /\ keeps pgs bp pgs2 bp'.
Proof.
  intros [Hpool Hg Hco Hl [Hlive Hpg]] Hp Hk. pose proof (pow2_pos k Hk). pose proof (pow2_succ k Hk).
  pose proof (geo_rng _ _ _ Hg _ _ _ Hp) as Hr. pose proof (geo_ord _ _ _ Hg _ _ _ Hp) as Ho.
  pose proof (pfn_range bp Hpool) as Hpfn.
  set (b := pg + 2 ^ k) in *. assert (Hb : start_pfn bp <= b < end_pfn bp) by lia.
  destruct (addr_in_pool bp Hpool b Hb) as [Hba Hbr].
  destruct (page_setup pgs bp b k) as (pgs1 & pgs2 & H1 & H2 & Hk2 & Hpok & Hfr & Hlv); [by apply Hlive|done|].
  assert (Hnb : B !! b = None).
  { destruct (B !! b) as [[kb ab]|] eqn:Hbb; [|done].
    assert (b = pg); [|lia]. eapply geo_head_only; [exact Hg|exact Hp|exact Hbb|lia]. }
  destruct (lists_area bp B k Hl) as (a & Ha & Haok & _); [unfold MAX_ORDER; lia|].
  assert (Hbnd : Z.of_nat (length (free_list a)) <= 2 ^ 20).
  { destruct Haok as [_ Hn He]. eapply geo_bound; [exact Hg|lia|lia|done|].
    intros p Hin. rewrite (proj1 (He p) Hin). done. }
  exists pgs1, pgs2. unfold push_free_back. rewrite Ha. ok_simpl. eexists.
  split; [rewrite Hba, end_addr by done; lia|]. split; [done|]. split; [done|]. split; [done|].
  split; [split|].
  - by apply pool_ok_set_areas.
  - by apply geo_split with (a := true).
  - by eapply split_coalesced.
  - eapply (lists_add bp B _ k b a); [done|unfold MAX_ORDER; lia|done| |done|by rewrite Hnb|].
    + rewrite <- Permutation_cons_append. done.
    + intros p k'. by apply (split_free_iff (start_pfn bp) (end_pfn bp) B pg k true).
  - split; [intros x Hx; by apply Hlv, Hlive|]. intros p k' a' Hpk Hne.
    rewrite (split_lookup (start_pfn bp) (end_pfn bp) B pg k true) in Hpk by done.
    case_decide; [congruence|]. case_decide as Hpb; [|].
    + subst p. injection Hpk as <- <-. done.
    + unfold page_ok. rewrite Hfr by done. by apply Hpg.
  - eapply keeps_trans; [exact Hk2|apply keeps_areas].
Qed.

Lemma split_loop_spec n pgs bp B pg k ord :
  inv_but pgs bp B (Some pg) -> B !! pg = Some (k, true) -> 0 <= ord -> Z.of_nat n = k - ord ->
  exists pgs' bp' B', split_loop n pgs bp pg k = Ok (pgs', bp') /\
    inv_but pgs' bp' B' (Some pg) /\ keeps pgs bp pgs' bp' /\ B' !! pg = Some (ord, true) /\
    forall q j, q <> pg -> B' !! q = Some (j, true) <-> B !! q = Some (j, true).
Proof.
  revert pgs bp B k. induction n as [|n IH]; intros pgs bp B k Hinv Hp Ho Hn.
  - exists pgs, bp, B. split_and!; [done|done|apply keeps_refl| |done]. by replace ord with k by lia.
  - cbn [split_loop]. set (k1 := k - 1). assert (Hk1 : 0 <= k1) by lia.
    rewrite shiftl_pow2 by done.
    destruct (split_step pgs bp B pg k1) as (pgs1 & pgs2 & bp2 & Hlt & H1 & H2 & H3 & Hinv2 & Hk2);
      [done|by replace (k1 + 1) with k by lia|done|].
    rewrite (proj2 (Z.leb_gt _ _) Hlt), H1. ok_simpl. rewrite H2. ok_simpl. rewrite H3. ok_simpl.
    assert (Hp1 : B !! pg = Some (k1 + 1, true)) by (by replace (k1 + 1) with k by lia).
    pose proof (inv_geo _ _ _ _ Hinv) as Hg.
    destruct (IH pgs2 bp2 (split_block pg k1 true false B) k1) as (pgs' & bp' & B' & Hrun & Hinv' & Hkeep & Hpg' & Hal).
    + done.
    + rewrite (split_alloc_iff (start_pfn bp) (end_pfn bp) B pg k1) by done. by left.
    + done.
    + lia.
    + exists pgs', bp', B'. split_and!; [done|done|by eapply keeps_trans|done|].
      intros q j Hq. rewrite Hal by done. rewrite (split_alloc_iff (start_pfn bp) (end_pfn bp) B pg k1) by done. naive_solver.
Qed.

Lemma relabel_coalesced B p k : coalesced B -> coalesced (<[p := (k, true)]> B).
Proof.
  intros Hco q k' Hq Hk Hb. rewrite lookup_insert in Hq, Hb.
  repeat case_decide; simplify_eq. by apply (Hco q k').
Qed.

Lemma alloc_of_iff B B' p k :
  B' !! p = Some (k, true) ->
  (forall q j, q <> p -> B' !! q = Some (j, true) <-> B !! q = Some (j, true)) ->
  alloc_of B' = <[p := k]> (alloc_of B).
Proof.
  intros Hp H. apply map_eq. intros q. apply option_eq. intros j.
  rewrite alloc_of_lookup, lookup_insert. case_decide; subst.
  - rewrite Hp. naive_solver.
  - rewrite H by done. by rewrite alloc_of_lookup.
Qed.

(** The page of the block handed out or taken back is the exception no longer. *)
Lemma inv_close pgs bp B p k a pg' :
  inv_but pgs bp B (Some p) -> B !! p = Some (k, a) ->
  page_is_allocated pg' = a -> (a = false -> order pg' = k) ->
  inv_but (<[p := pg']> pgs) bp B None.
Proof.
  intros [Hpool Hg Hco Hl [Hlive Hpg]] Hp Hal Hord. split; [done..|]. split.
  - intros x Hx. rewrite lookup_insert. case_decide; [by eexists|by apply Hlive].
  - intros q k' a' Hq _. unfold page_ok. rewrite lookup_insert. case_decide; subst.
    + rewrite Hp in Hq. injection Hq as <- <-. by eexists.
    + apply Hpg; congruence.
Qed.

Lemma flags_lor_alloc p : page_is_allocated (set_flags (Z.lor (flags p) 1) p) = true.
Proof.
  unfold page_is_allocated. cbn [flags set_flags].
  assert (Hb : Z.testbit (Z.land (Z.lor (flags p) 1) 1) 0 = true)
    by (rewrite Z.land_spec, Z.lor_spec; apply andb_true_iff; split; [apply orb_true_r|done]).
  destruct (Z.eqb_spec (Z.land (Z.lor (flags p) 1) 1) 0) as [E|]; [|done].
  rewrite E in Hb. done.
Qed.

Lemma flags_clear_free p : page_is_allocated (set_flags (Z.land (flags p) (Z.lnot 1)) p) = false.
Proof.
  unfold page_is_allocated. cbn [flags set_flags].
  by rewrite <- Z.land_assoc, (Z.land_comm (Z.lnot 1)), Z.land_lnot_diag, Z.land_0_r.
Qed.

Lemma inv_take pgs bp B k pg l a :
  inv_but pgs bp B None -> 0 <= k < MAX_ORDER -> area bp k = Ok a -> free_list a = pg :: l ->
  B !! pg = Some (k, false) /\
  inv_but pgs (put_area bp k (FreeArea l (u32 (nr_free a - 1)))) (<[pg := (k, true)]> B) (Some pg).
Proof.
  intros [Hpool Hg Hco Hl [Hlive Hpg]] Hk Ha Hfl.
  destruct (lists_area bp B k Hl Hk) as (a' & Ha' & [Hc Hn He] & _).
  rewrite Ha in Ha'. injection Ha' as <-.
  assert (Hp : B !! pg = Some (k, false)) by (apply He; rewrite Hfl; left).
  split; [done|]. pose proof (pfn_range bp Hpool).
  split; [by apply pool_ok_set_areas|by eapply geo_relabel|by apply relabel_coalesced| |].
  - eapply (lists_del bp B _ k pg a l); [done|done|done|by rewrite Hfl| |].
    + eapply geo_bound; [exact Hg|lia|lia|done|]. intros p Hin. by rewrite (proj1 (He p) Hin).
    + intros p k'. rewrite lookup_insert. case_decide; [subst|naive_solver].
      rewrite Hp. naive_solver.
  - split; [done|]. intros q k' a' Hq Hne. rewrite lookup_insert_ne in Hq by congruence. by apply Hpg.
Qed.

(** The ghost-state specification of [palloc_pages]. *)
Lemma palloc_pages_inv pgs bp B ord :
  inv_but pgs bp B None -> 0 <= ord < MAX_ORDER ->
  (palloc_pages pgs bp ord = Ok (None, pgs, bp) /\
   forall p k, ord <= k -> B !! p <> Some (k, false)) \/
  (exists pg k pgs' bp' B', palloc_pages pgs bp ord = Ok (Some pg, pgs', bp') /\
     B !! pg = Some (k, false) /\ ord <= k /\ inv_but pgs' bp' B' None /\ keeps pgs bp pgs' bp' /\
     B' !! pg = Some (ord, true) /\ alloc_of B' = <[pg := ord]> (alloc_of B)).
Proof.
  intros Hinv Hord. unfold palloc_pages.
  rewrite (proj2 (Z.ltb_lt _ _)) by lia. ok_simpl.
  destruct (find_order_spec (Z.to_nat (MAX_ORDER - ord)) bp B ord) as (k & Hk & Hkr & Hno & Hyes);
    [apply Hinv|lia|lia|].
  rewrite Hk. ok_simpl. destruct (Z.eqb_spec k MAX_ORDER) as [->|Hne].
  - left. split; [done|]. intros p j Hj Hp. apply (Hno p j); [|done].
    pose proof (geo_ord _ _ _ (inv_geo _ _ _ _ Hinv) _ _ _ Hp). unfold MAX_ORDER. lia.
  - right. destruct Hyes as (a & pg & l & Ha & Hfl); [lia|]. rewrite Ha. ok_simpl. rewrite Hfl.
    destruct (inv_take pgs bp B k pg l a) as [Hp Hinv1]; [done|lia|done|done|].
    destruct (split_loop_spec (Z.to_nat (k - ord)) pgs _ _ pg k ord Hinv1)
      as (pgs1 & bp1 & B1 & -> & Hinv2 & Hk1 & Hp1 & Hal); [by rewrite lookup_insert_eq|lia|lia|].
    ok_simpl. pose proof (inv_geo _ _ _ _ Hinv2) as Hg2.
    pose proof (geo_rng _ _ _ Hg2 _ _ _ Hp1). pose proof (pow2_pos ord).
    destruct (inv_pages _ _ _ _ Hinv2) as [Hlive _].
    destruct (Hlive pg) as [p0 Hp0]; [lia|].
    unfold upd_page. rewrite Hp0. ok_simpl. rewrite lookup_insert_eq. ok_simpl. rewrite insert_insert_eq.
    eexists pg, k, _, _, B1. split; [done|]. split; [done|]. split; [lia|]. split_and!.
    + eapply inv_close; [done|done|apply flags_lor_alloc|done].
    + eapply keeps_trans; [apply keeps_areas|]. eapply keeps_trans; [exact Hk1|].
      exact (keeps_upd pgs1 bp1 pg
        (fun p => set_flags (Z.lor (flags (set_order ord p)) 1) (set_order ord p)) p0
        ltac:(lia) Hp0 eq_refl).
    + done.
    + apply alloc_of_iff; [done|]. intros q j Hq. rewrite Hal by done. by rewrite lookup_insert_ne.
Qed.

(** ** Deallocation *)

(** When the loop stops at [curr], its buddy is not a free block of the same order. *)
Definition no_free_buddy (B : blocks) (curr k : Z) : Prop :=
  k < 10 -> B !! Z.lxor curr (2 ^ k) <> Some (k, false).

Lemma get_buddy_page_spec bp curr k : 0 <= k ->
  get_buddy_page bp curr k =
    if decide (start_pfn bp <= Z.lxor curr (2 ^ k) < end_pfn bp) then Some (Z.lxor curr (2 ^ k)) else None.
Proof.
  intros Hk. unfold get_buddy_page. rewrite shiftl_pow2 by done.
  case_decide; repeat bdestr; cbn; done || lia.
Qed.

(** Merging two buddies, the first of which is the block being freed. *)
Lemma merge_geo s e B c k b lo hi :
  geo s e B -> B !! c = Some (k, true) -> B !! b = Some (k, false) -> k < 10 ->
  b = Z.lxor c (2 ^ k) ->
  lo = (if b <? c then b else c) ->
  hi = (if b <? c then c else b) ->
  geo s e (merge_blocks lo hi k true B) /\ lo <> hi /\ (lo = b \/ lo = c) /\ (hi = b \/ hi = c).
Proof.
  intros Hg Hc Hb Hk Hbeq -> ->. pose proof (geo_ord _ _ _ Hg _ _ _ Hc). pose proof (pow2_pos k).
  destruct (buddy_cases c k) as [[Hm Heq]|[Hm Heq]]; [lia|by eapply geo_aln| |]; rewrite <- Hbeq in Heq.
  - rewrite (proj2 (Z.ltb_ge _ _)) by lia. split; [|naive_solver lia].
    rewrite Heq in *. eapply geo_merge; [done|done|done|lia|done].
  - rewrite (proj2 (Z.ltb_lt _ _)) by lia. split; [|naive_solver lia].
    assert (Hceq : c = b + 2 ^ k) by lia. rewrite Hceq in Hc |- *. rewrite <- Heq in Hm.
    eapply (geo_merge _ _ _ _ _ false true); [done|done|done|lia|done].
Qed.

Lemma merge_lookup B lo hi k q :
  lo <> hi -> merge_blocks lo hi k true B !! q =
    if decide (q = lo) then Some (k + 1, true) else if decide (q = hi) then None else B !! q.
Proof.
  intros Hne. unfold merge_blocks. rewrite lookup_insert, lookup_delete.
  repeat case_decide; congruence.
Qed.

(** One iteration that merges: the buddy leaves its list and both halves become one
    block of the next order. *)
Lemma merge_step pgs bp B curr k b lo :
  inv_but pgs bp B (Some curr) -> B !! curr = Some (k, true) -> k < 10 ->
  B !! b = Some (k, false) -> b = Z.lxor curr (2 ^ k) ->
  lo = (if b <? curr then b else curr) ->
  exists bp1 bp2 pgs' B', remove_free_tag bp b = Ok bp1 /\ dec_nr_free bp1 k = Ok bp2 /\
    upd_page pgs lo (set_order (k + 1)) = Ok pgs' /\
    inv_but pgs' bp2 B' (Some lo) /\ keeps pgs bp pgs' bp2 /\ B' !! lo = Some (k + 1, true) /\
    forall q j, (B' !! q = Some (j, true) /\ q <> lo) <-> (B !! q = Some (j, true) /\ q <> curr).
Proof.
  intros [Hpool Hg Hco Hl [Hlive Hpg]] Hc Hk Hb Hbeq Hloeq.
  pose proof (geo_ord _ _ _ Hg _ _ _ Hc) as Hko. pose proof (pfn_range bp Hpool) as Hpfn.
  destruct (merge_geo _ _ _ _ _ b lo (if b <? curr then curr else b) Hg Hc Hb Hk) as (Hg' & Hne & Hlo & Hhi);
    [done..|]. set (hi := if b <? curr then curr else b) in *. clearbody hi.
  assert (Hset : forall q, q <> lo -> q <> hi -> q <> b /\ q <> curr) by naive_solver.
  pose proof (merge_lookup B lo hi k) as Hml.
  destruct (remove_free_spec bp B k b) as (bp1 & bp2 & H1 & H2 & Hbp & Hlists);
    [done|unfold MAX_ORDER; lia|done| |].
  { intros a Ha. destruct (lists_area bp B k Hl) as (a' & Ha' & [_ Hn He] & _); [unfold MAX_ORDER; lia|].
    rewrite Ha in Ha'. injection Ha' as <-. eapply geo_bound; [exact Hg|lia|lia|done|].
    intros p Hin. by rewrite (proj1 (He p) Hin). }
  assert (Hlor : start_pfn bp <= lo < end_pfn bp).
  { assert (exists kl al, B !! lo = Some (kl, al)) as (kl & al & Hlk) by (destruct Hlo as [-> | ->]; eauto).
    pose proof (geo_rng _ _ _ Hg _ _ _ Hlk). pose proof (geo_ord _ _ _ Hg _ _ _ Hlk).
    pose proof (pow2_pos kl). lia. }
  destruct (Hlive lo Hlor) as [p0 Hp0].
  exists bp1, bp2, (<[lo := set_order (k + 1) p0]> pgs), (merge_blocks lo hi k true B).
  split; [done|]. split; [done|]. split; [unfold upd_page; rewrite Hp0; done|].
  split; [split|split_and!].
  - rewrite Hbp. by apply pool_ok_set_areas.
  - rewrite Hbp. exact Hg'.
  - intros q k' Hq Hk' Hbq. rewrite Hml in Hq, Hbq by done.
    repeat case_decide; simplify_eq. by apply (Hco q k').
  - apply Hlists. intros p k'. rewrite Hml by done. clear -Hc Hb Hlo Hhi Hne.
    repeat case_decide; naive_solver.
  - rewrite Hbp. split.
    + intros x Hx. rewrite lookup_insert. case_decide; [by eexists|by apply Hlive].
    + intros q k' a' Hq Hql. rewrite Hml in Hq by done. do 2 (case_decide; [congruence|]).
      destruct (Hset q) as [? ?]; [done|done|].
      unfold page_ok. rewrite lookup_insert_ne by congruence. apply Hpg; congruence.
  - rewrite Hbp. eapply keeps_trans; [apply keeps_areas|].
    exact (keeps_upd pgs (set_areas (areas bp2) bp) lo (set_order (k + 1)) p0 Hlor Hp0 eq_refl).
  - by rewrite Hml, decide_True.
  - intros q j. rewrite Hml by done. clear -Hc Hb Hlo Hhi Hne Hset. repeat case_decide; naive_solver.
Qed.

Lemma merge_loop_spec n pgs bp B curr k :
  inv_but pgs bp B (Some curr) -> B !! curr = Some (k, true) -> Z.of_nat n = 10 - k ->
  exists pgs' bp' curr' k' B', merge_loop n pgs bp curr k = Ok (pgs', bp', curr', k') /\
    inv_but pgs' bp' B' (Some curr') /\ keeps pgs bp pgs' bp' /\
    B' !! curr' = Some (k', true) /\ no_free_buddy B' curr' k' /\
    forall q j, (B' !! q = Some (j, true) /\ q <> curr') <-> (B !! q = Some (j, true) /\ q <> curr).
Proof.
  revert pgs bp B curr k. induction n as [|n IH]; intros pgs bp B curr k Hinv Hc Hn.
  { exists pgs, bp, curr, k, B. unfold no_free_buddy. split_and!; [done|done|apply keeps_refl|done|lia|done]. }
  pose proof (inv_geo _ _ _ _ Hinv) as Hg. pose proof (inv_pool _ _ _ _ Hinv) as Hpool.
  pose proof (geo_ord _ _ _ Hg _ _ _ Hc) as Hko.
  assert (Hstop : no_free_buddy B curr k ->
    exists pgs' bp' curr' k' B', Ok (pgs, bp, curr, k) = Ok (pgs', bp', curr', k') /\
      inv_but pgs' bp' B' (Some curr') /\ keeps pgs bp pgs' bp' /\
      B' !! curr' = Some (k', true) /\ no_free_buddy B' curr' k' /\
      forall q j, (B' !! q = Some (j, true) /\ q <> curr') <-> (B !! q = Some (j, true) /\ q <> curr)).
  { intros Hnf. exists pgs, bp, curr, k, B. by split_and!; try apply keeps_refl. }
  cbn [merge_loop]. rewrite get_buddy_page_spec, end_addr by (done || lia).
  set (b := Z.lxor curr (2 ^ k)) in *.
  case_decide as Hb.
  2: { replace (_ || _) with true; [apply Hstop|].
       - intros _ Hbad. apply Hb. pose proof (geo_rng _ _ _ Hg _ _ _ Hbad) as Hr.
         pose proof (pow2_pos k). fold b in Hr. lia.
       - symmetry. apply orb_true_iff.
         destruct (ok_null _ Hpool); [left; by apply Z.ltb_lt|right; by apply Z.leb_le]. }
  destruct (addr_in_pool bp Hpool b Hb) as [-> Har].
  replace (_ || _) with false by (symmetry; apply orb_false_iff; rewrite Z.ltb_ge, Z.leb_gt; lia).
  ok_simpl.
  destruct (buddy_head _ _ _ _ _ _ Hg Hc) as (kb & ab & HBb & Hkb); [lia|exact Hb|]. fold b in HBb.
  destruct (inv_pages _ _ _ _ Hinv) as [_ Hpg].
  destruct (Hpg b kb ab HBb) as (pb & Hpb & Hab & Hord).
  { intros [= E]. rewrite <- E in HBb at 1. pose proof (pow2_pos k).
    destruct (buddy_cases curr k) as [[_ E']|[_ E']]; [lia|by eapply geo_aln|fold b in E'; lia..]. }
  rewrite Hpb. ok_simpl. rewrite Hab, i32_small by lia.
  destruct ab; cbn [orb]; [apply Hstop; unfold no_free_buddy; fold b; congruence|].
  rewrite Hord by done. destruct (Z.eqb_spec kb k) as [->|Hne]; cbn [negb].
  2: { apply Hstop. unfold no_free_buddy. fold b. congruence. }
  destruct (merge_step pgs bp B curr k b (if b <? curr then b else curr)) as (bp1 & bp2 & pgs1 & B1 & H1 & H2 & H3 & Hinv1 & Hk1 & Hlo & Hal1);
    [done|done|lia|done|done|done|].
  rewrite H1. ok_simpl. rewrite H2. ok_simpl. rewrite H3. ok_simpl.
  destruct (IH pgs1 bp2 B1 (if b <? curr then b else curr) (k + 1))
    as (pgs' & bp' & curr' & k' & B' & Hrun & Hinv' & Hkp & Hc' & Hnf & Hal); [done|done|lia|].
  exists pgs', bp', curr', k', B'. split_and!; [done|done|by eapply keeps_trans|done|done|].
  intros q j. by rewrite Hal, Hal1.
Qed.

Lemma alloc_of_delete B B' c p k :
  B' !! c = Some (k, false) ->
  (forall q j, (B' !! q = Some (j, true) /\ q <> c) <-> (B !! q = Some (j, true) /\ q <> p)) ->
  alloc_of B' = delete p (alloc_of B).
Proof.
  intros Hc H. apply map_eq. intros q. apply option_eq. intros j.
  rewrite alloc_of_lookup, lookup_delete. case_decide as Hq.
  - subst. split; [|done]. intros Hq. destruct (proj1 (H q j)); [|done].
    split; [done|]. congruence.
  - rewrite alloc_of_lookup. split.
    + intros Hb. apply H. split; [done|congruence].
    + intros Hb. apply H. split; [done|congruence].
Qed.

Lemma inv_weaken pgs bp B p : inv_but pgs bp B None -> inv_but pgs bp B (Some p).
Proof. intros [? ? ? ? [? Hpg]]. split; [done..|]. split; [done|]. intros. by apply Hpg. Qed.

(** Making a block free keeps the invariant when its buddy is not free. *)
Lemma free_coalesced B c k :
  coalesced B -> 0 <= k -> no_free_buddy B c k -> coalesced (<[c := (k, false)]> B).
Proof.
  intros Hco Hk0 Hnf q k' Hq Hk Hb. rewrite lookup_insert in Hq, Hb.
  destruct (decide (c = q)) as [->|Hcq]; [injection Hq as <-|].
  - rewrite decide_False in Hb by (pose proof (buddy_ne q k); naive_solver). by apply (Hnf Hk).
  - destruct (decide (c = Z.lxor q (2 ^ k'))) as [->|Hcb]; [injection Hb as <-|by apply (Hco q k')].
    apply (Hnf Hk). by rewrite buddy_involutive.
Qed.

(** The ghost-state specification of [pfree_pages]: the block may still be
    unmarked, as in [palloc_pages_exact]. *)
Lemma pfree_pages_inv pgs bp B pg ord :
  inv_but pgs bp B (Some pg) -> B !! pg = Some (ord, true) ->
  exists pgs' bp' B', pfree_pages pgs bp pg ord = Ok (pgs', bp') /\ inv_but pgs' bp' B' None /\
    keeps pgs bp pgs' bp' /\ alloc_of B' = delete pg (alloc_of B).
Proof.
  intros Hinv Hp. pose proof (geo_ord _ _ _ (inv_geo _ _ _ _ Hinv) _ _ _ Hp) as Hord.
  unfold pfree_pages. rewrite (proj2 (Z.ltb_lt _ _)) by (unfold MAX_ORDER; lia). ok_simpl.
  destruct (merge_loop_spec (Z.to_nat (MAX_ORDER - 1 - ord)) pgs bp B pg ord Hinv Hp)
    as (pgs1 & bp1 & c & k & B1 & -> & [Hpool Hg Hco Hl Hpgs] & Hk1 & Hc & Hnf & Hal);
    [unfold MAX_ORDER; lia|].
  ok_simpl. pose proof (geo_ord _ _ _ Hg _ _ _ Hc) as Hko. pose proof (pfn_range bp1 Hpool).
  destruct (lists_area bp1 B1 k Hl) as (a & Ha & [Hcnt Hn He] & _); [unfold MAX_ORDER; lia|].
  rewrite Ha. ok_simpl.
  assert (Hnin : c ∉ free_list a) by (rewrite He, Hc; congruence).
  rewrite bool_decide_false by done. cbn [negb]. ok_simpl.
  pose proof (geo_rng _ _ _ Hg _ _ _ Hc). pose proof (pow2_pos k).
  destruct Hpgs as [Hlive Hpg]. destruct (Hlive c) as [p0 Hp0]; [lia|].
  unfold upd_page. rewrite Hp0. ok_simpl. rewrite lookup_insert_eq. ok_simpl. rewrite insert_insert_eq.
  unfold push_free_front. rewrite Ha. ok_simpl.
  eexists _, _, (<[c := (k, false)]> B1). split; [done|]. split_and!.
  - eapply inv_close; [|by rewrite lookup_insert_eq|exact (flags_clear_free p0)|done].
    split; [by apply pool_ok_set_areas|by eapply geo_relabel|apply free_coalesced; [done|lia|done]| |].
    + eapply (lists_add bp1 B1 _ k c a); [done|unfold MAX_ORDER; lia|done|done| |congruence|].
      * eapply geo_bound; [exact Hg|lia|lia|done|]. intros p Hin. by rewrite (proj1 (He p) Hin).
      * intros p k'. rewrite lookup_insert. case_decide; [subst; rewrite Hc|]; naive_solver.
    + split; [done|]. intros q k' a' Hq Hne. rewrite lookup_insert_ne in Hq by congruence. by apply Hpg.
  - eapply keeps_trans; [exact Hk1|]. eapply keeps_trans; [|apply keeps_areas].
    exact (keeps_upd pgs1 bp1 c
      (fun p => set_order k (set_flags (Z.land (flags p) (Z.lnot 1)) p)) p0 ltac:(lia) Hp0 eq_refl).
  - apply (alloc_of_delete B _ c pg k); [by rewrite lookup_insert_eq|].
    intros q j. rewrite <- Hal. split; intros [Hx1 Hx2]; (split; [|done]);
      [by rewrite lookup_insert_ne in Hx1|by rewrite lookup_insert_ne].
Qed.

(** ** Initialisation *)
Lemma init_order_spec (o : nat) curr e :
  0 <= curr < e -> e <= 2 ^ 20 -> Z.of_nat o <= 10 ->
  let r := init_order o curr e in
  0 <= r <= Z.of_nat o /\ curr mod 2 ^ r = 0 /\ curr + 2 ^ r <= e /\
  forall j, r < j <= Z.of_nat o -> ~ (curr mod 2 ^ j = 0 /\ curr + 2 ^ j <= e).
Proof.
  intros Hc He Ho. induction o as [|o IH].
  - cbn. split_and!; [lia|lia|apply Z.mod_1_r|lia|lia].
  - cbn [init_order]. rewrite shiftl_pow2 by lia.
    assert (2 ^ Z.of_nat (S o) <= 2 ^ 10) by (apply Z.pow_le_mono_r; lia).
    pose proof (pow2_pos (Z.of_nat (S o))). rewrite u32_small by lia.
    destruct (Z.eqb_spec (curr mod 2 ^ Z.of_nat (S o)) 0) as [Hm|Hm]; cbn [andb].
    + destruct (Z.leb_spec (curr + 2 ^ Z.of_nat (S o)) e) as [Hl|Hl].
      * split_and!; [lia|lia|done|done|lia].
      * destruct IH as (? & ? & ? & Hmax); [lia|]. split_and!; [lia|lia|done|done|].
        intros j Hj. destruct (decide (j = Z.of_nat (S o))) as [->|]; [lia|apply Hmax; lia].
    + destruct IH as (? & ? & ? & Hmax); [lia|]. split_and!; [lia|lia|done|done|].
      intros j Hj. destruct (decide (j = Z.of_nat (S o))) as [->|]; [tauto|apply Hmax; lia].
Qed.

Lemma geo_extend s c B o :
  geo s c B -> s <= c -> 0 <= o <= 10 -> c mod 2 ^ o = 0 ->
  geo s (c + 2 ^ o) (<[c := (o, false)]> B).
Proof.
  intros Hg Hs Ho Hal. pose proof (pow2_pos o).
  assert (Hcase : forall q k a, <[c := (o, false)]> B !! q = Some (k, a) ->
            (q = c /\ k = o) \/ (q <> c /\ B !! q = Some (k, a))).
  { intros q k a. rewrite lookup_insert. case_decide; naive_solver. }
  split.
  - intros q k a [[-> ->]|[_ Hq]]%Hcase; [done|by eapply geo_ord].
  - intros q k a [[-> ->]|[_ Hq]]%Hcase; [done|by eapply geo_aln].
  - intros q k a [[-> ->]|[_ Hq]]%Hcase; [lia|]. pose proof (geo_rng _ _ _ Hg _ _ _ Hq). lia.
  - intros q k a q' k' a' x [[-> ->]|[_ Hq]]%Hcase [[-> ->]|[_ Hq']]%Hcase Hx Hx'; [done| | |].
    + pose proof (geo_rng _ _ _ Hg _ _ _ Hq'). lia.
    + pose proof (geo_rng _ _ _ Hg _ _ _ Hq). lia.
    + by eapply geo_dis.
  - intros x Hx. destruct (Z.lt_ge_cases x c).
    + destruct (geo_cov _ _ _ Hg x) as (q & k & a & Hq & Hin); [lia|].
      exists q, k, a. rewrite lookup_insert_ne; [done|].
      intros ->. pose proof (geo_rng _ _ _ Hg _ _ _ Hq). lia.
    + exists c, o, false. rewrite lookup_insert_eq. split; [done|lia].
Qed.

(** Every block is the largest that fits at its place. *)
Definition greedy (e : Z) (B : blocks) : Prop :=
  forall q k a, B !! q = Some (k, a) -> a = false /\
    forall j, k < j <= 10 -> ~ (q mod 2 ^ j = 0 /\ q + 2 ^ j <= e).

Lemma greedy_extend s c e B o :
  geo s c B -> greedy e B -> coalesced B -> 0 <= o <= 10 -> c mod 2 ^ o = 0 -> c + 2 ^ o <= e ->
  (forall j, o < j <= 10 -> ~ (c mod 2 ^ j = 0 /\ c + 2 ^ j <= e)) ->
  greedy e (<[c := (o, false)]> B) /\ coalesced (<[c := (o, false)]> B).
Proof.
  intros Hg Hgr Hco Ho Hal Hce Hmax. pose proof (pow2_pos o).
  assert (Hnew : o < 10 -> B !! Z.lxor c (2 ^ o) <> Some (o, false)).
  { intros Ho' Hb. pose proof (geo_rng _ _ _ Hg _ _ _ Hb) as Hr. pose proof (pow2_succ o).
    destruct (buddy_cases c o) as [[_ E]|[Hm E]]; [lia|done|lia|].
    rewrite E in *. apply (proj2 (Hgr _ _ _ Hb) (o + 1)); [lia|]. split; [done|lia]. }
  split.
  - intros q k a. rewrite lookup_insert. case_decide; [intros [= <- <-]; subst; done|]. apply Hgr.
  - apply free_coalesced; [done|lia|done].
Qed.

Lemma init_loop_spec fuel pgs bp B curr :
  let s := start_pfn bp in let e := end_pfn bp in
  pool_ok bp -> s <= curr <= e -> (Z.to_nat (e - curr) < fuel)%nat ->
  geo s curr B -> greedy e B -> coalesced B -> lists_ok bp B -> pages_ok pgs s e B None ->
  exists pgs' bp' B', init_loop fuel pgs bp curr e = Ok (pgs', bp') /\
    inv_but pgs' bp' B' None /\ greedy e B' /\ keeps pgs bp pgs' bp'.
Proof.
  intros s e Hpool. pose proof (pfn_range bp Hpool) as Hpfn. fold s e in Hpfn.
  revert pgs bp B curr s e Hpool Hpfn.
  induction fuel as [|fuel IH]; intros pgs bp B curr s e Hpool Hpfn Hc Hf Hg Hgr Hco Hl Hpgs; [lia|].
  cbn [init_loop]. destruct (Z.ltb_spec curr e) as [Hlt|Hge].
  2: { exists pgs, bp, B. assert (curr = e) as -> by lia. split; [done|]. split; [by split|].
       split; [done|apply keeps_refl]. }
  destruct (init_order_spec (Z.to_nat (MAX_ORDER - 1)) curr e) as (Ho & Hal & Hle & Hmax);
    [lia|lia|unfold MAX_ORDER; lia|].
  set (o := init_order (Z.to_nat (MAX_ORDER - 1)) curr e) in *.
  rewrite Z2Nat.id in * by (unfold MAX_ORDER; lia). unfold MAX_ORDER in Ho, Hmax.
  pose proof (pow2_pos o). destruct Hpgs as [Hlive Hpg].
  destruct (page_setup pgs bp curr o) as (pgs1 & pgs2 & -> & H2 & Hk2 & Hpok & Hfr & Hlv);
    [apply Hlive; lia|lia|].
  ok_simpl. rewrite H2. ok_simpl. unfold push_free_back.
  destruct (lists_area bp B o Hl) as (a & Ha & Haok & _); [unfold MAX_ORDER; lia|].
  rewrite Ha. ok_simpl. rewrite shiftl_pow2 by lia.
  assert (2 ^ o <= 2 ^ 10) by (apply Z.pow_le_mono_r; lia).
  rewrite (u32_small (curr + 2 ^ o)) by lia.
  assert (HnB : B !! curr = None).
  { destruct (B !! curr) as [[k0 a0]|] eqn:E; [|done]. pose proof (geo_rng _ _ _ Hg _ _ _ E).
    pose proof (geo_ord _ _ _ Hg _ _ _ E). pose proof (pow2_pos k0). lia. }
  destruct (greedy_extend s curr e B o) as [Hgr' Hco']; [done|done|done|lia|done|done|done|].
  set (bp1 := put_area bp o (FreeArea (free_list a ++ [curr]) (u32 (nr_free a + 1)))).
  destruct (IH pgs2 bp1 (<[curr := (o, false)]> B) (curr + 2 ^ o)) as (pgs' & bp' & B' & Hrun & Hinv & Hgr2 & Hk').
  - by apply pool_ok_set_areas.
  - done.
  - unfold bp1. fold s e. change (start_pfn (put_area bp o _)) with s.
    change (end_pfn (put_area bp o _)) with e. lia.
  - change (end_pfn bp1) with e. lia.
  - apply geo_extend; [done|change (start_pfn bp1) with s; lia|lia|done].
  - done.
  - done.
  - apply (lists_add bp B _ o curr a); [done|unfold MAX_ORDER; lia|done| | |congruence|].
    + by rewrite <- Permutation_cons_append.
    + destruct Haok as [_ Hn He]. eapply geo_bound; [exact Hg|lia|lia|done|].
      intros p Hin. by rewrite (proj1 (He p) Hin).
    + intros p k'. rewrite lookup_insert. case_decide; [subst; rewrite HnB|]; naive_solver.
  - split; [intros x Hx; by apply Hlv, Hlive|]. intros p k' a' Hp _.
    rewrite lookup_insert in Hp. case_decide; [by simplify_eq|].
    unfold page_ok. rewrite Hfr by done. by apply Hpg.
  - exists pgs', bp', B'. split_and!; [done|done|done|].
    eapply keeps_trans; [exact Hk2|]. eapply keeps_trans; [apply keeps_areas|exact Hk'].
Qed.

Lemma geo_empty s : geo s s ∅.
Proof. split; try by setoid_rewrite lookup_empty. intros x Hx. lia. Qed.

Lemma lists_empty bp :
  areas bp = replicate (Z.to_nat MAX_ORDER) (FreeArea [] 0) -> lists_ok bp ∅.
Proof.
  intros Ha. unfold lists_ok. rewrite Ha. split; [apply length_replicate|].
  intros k Hk. exists (FreeArea [] 0). split; [apply lookup_replicate_2; lia|].
  split; [done|apply NoDup_nil_2|]. intros p. cbn. rewrite lookup_empty. set_solver.
Qed.

(** ** Contract of the allocator *)

(** A frame of an allocated block. *)
Definition allocated (A : gmap Z Z) (x : Z) : Prop :=
  map_Exists (fun q k => q <= x < q + 2 ^ k) A.
#[local] Instance allocated_dec A x : Decision (allocated A x).
Proof. unfold allocated. apply _. Defined.

Lemma buddy_init_ok pgs nidx start size :
  let bp0 := BuddyPool (replicate (Z.to_nat MAX_ORDER) (FreeArea [] 0)) start size nidx [] in
  pool_ok bp0 -> (forall x, start_pfn bp0 <= x < end_pfn bp0 -> is_Some (pgs !! x)) ->
  exists pgs' bp', buddy_init pgs nidx start size = Ok (pgs', bp') /\
    (exists B, inv_but pgs' bp' B None /\ alloc_of B = ∅) /\ keeps pgs bp0 pgs' bp'.
Proof.
  intros bp0 Hpool Hlive. pose proof (pfn_range bp0 Hpool) as Hpfn.
  unfold buddy_init. fold bp0.
  destruct (init_loop_spec (S (Z.to_nat (end_pfn bp0))) pgs bp0 ∅ (start_pfn bp0))
    as (pgs' & bp' & B' & Hrun & Hinv & Hgr & Hk).
  - done.
  - destruct Hpool. lia.
  - lia.
  - apply geo_empty.
  - intros q k a Hq. by rewrite lookup_empty in Hq.
  - intros q k Hq. by rewrite lookup_empty in Hq.
  - by apply lists_empty.
  - split; [done|]. intros p k a Hp. by rewrite lookup_empty in Hp.
  - exists pgs', bp'. split; [done|]. split; [|done]. exists B'. split; [done|].
    apply map_empty. intros q. apply eq_None_not_Some. intros [k Hk'].
    apply alloc_of_lookup in Hk'. by destruct (Hgr _ _ _ Hk').
Qed.

(** C36. [buddy_init] on a page-aligned range with a [struct page] for every frame
    succeeds and yields a valid pool with nothing allocated, without touching the
    pages of other pools. *)
Theorem buddy_init_valid pgs nidx start size :
  let bp0 := BuddyPool (replicate (Z.to_nat MAX_ORDER) (FreeArea [] 0)) start size nidx [] in
  pool_ok bp0 -> (forall x, start_pfn bp0 <= x < end_pfn bp0 -> is_Some (pgs !! x)) ->
  exists pgs' bp', buddy_init pgs nidx start size = Ok (pgs', bp') /\
    valid pgs' bp' ∅ /\ keeps pgs bp0 pgs' bp'.
Proof. exact (buddy_init_ok pgs nidx start size). Qed.

(** C15. [palloc_pages] on a valid pool never faults.  It either returns an aligned
    block of [2^ord] frames of the pool that is disjoint from every allocated
    block, and records it; or it returns NULL, the pool is unchanged, and no
    aligned run of [2^ord] unallocated frames exists in the pool: coalescing is
    never behind. *)
Theorem palloc_pages_spec pgs bp A ord :
  valid pgs bp A -> 0 <= ord < MAX_ORDER ->
  exists o pgs' bp', palloc_pages pgs bp ord = Ok (o, pgs', bp') /\ keeps pgs bp pgs' bp' /\
    match o with
    | Some pg =>
        valid pgs' bp' (<[pg := ord]> A) /\ pg mod 2 ^ ord = 0 /\
        start_pfn bp <= pg /\ pg + 2 ^ ord <= end_pfn bp /\
        forall x, pg <= x < pg + 2 ^ ord -> ~ allocated A x
    | None =>
        pgs' = pgs /\ bp' = bp /\
        forall r, r mod 2 ^ ord = 0 -> start_pfn bp <= r -> r + 2 ^ ord <= end_pfn bp ->
          exists x, r <= x < r + 2 ^ ord /\ allocated A x
    end.
Proof.
  intros (B & Hinv & <-) Hord. pose proof (inv_geo _ _ _ _ Hinv) as Hg. pose proof (pow2_pos ord).
  destruct (palloc_pages_inv pgs bp B ord Hinv Hord)
    as [[-> Hnone]|(pg & k & pgs' & bp' & B' & -> & Hp & Hk & Hinv' & Hkp & Hp' & Hal)].
  - exists None, pgs, bp. split; [done|]. split; [apply keeps_refl|]. split; [done|]. split; [done|].
    intros r Hr Hs He.
    destruct (decide (Exists (allocated (alloc_of B)) (seqZ r (2 ^ ord)))) as [Hex|Hno].
    { apply Exists_exists in Hex as (x & Hx%elem_of_seqZ & Hax). by exists x. }
    exfalso.
    destruct (coalesced_complete _ _ _ r ord Hg (inv_coal _ _ _ _ Hinv) Hr) as (p & k & Hp & Hk);
      [unfold MAX_ORDER in *; lia|done|done| |by apply (Hnone p k)].
    intros x Hx. destruct (geo_cov _ _ _ Hg x) as (q & kq & a & Hq & Hin); [lia|].
    destruct a; [|by exists q, kq]. exfalso. apply Hno, Exists_exists. exists x.
    split; [by apply elem_of_seqZ|]. exists q, kq. by rewrite alloc_of_lookup.
  - exists (Some pg), pgs', bp'. split; [done|]. split; [done|].
    split; [by exists B'|]. pose proof (geo_rng _ _ _ Hg _ _ _ Hp) as Hr.
    pose proof (geo_ord _ _ _ Hg _ _ _ Hp).
    assert (Hle : 2 ^ ord <= 2 ^ k) by (apply Z.pow_le_mono_r; lia).
    split; [apply (aligned_le _ _ k); [lia|by eapply geo_aln]|]. split; [lia|]. split; [lia|].
    intros x Hx (q & kq & Hq & Hin). apply alloc_of_lookup in Hq.
    assert (pg = q) as ->; [|congruence].
    eapply (geo_dis _ _ _ Hg pg _ _ q _ _ x); [done|done|lia|done].
Qed.

(** C4. Freeing an allocated block of a valid pool succeeds: the kernel's
    consistency assertion holds, and afterwards the pool is valid with exactly that
    block removed from the allocated ones. *)
Theorem pfree_pages_spec pgs bp A pg ord :
  valid pgs bp A -> A !! pg = Some ord ->
  exists pgs' bp', pfree_pages pgs bp pg ord = Ok (pgs', bp') /\
    valid pgs' bp' (delete pg A) /\ keeps pgs bp pgs' bp'.
Proof.
  intros (B & Hinv & <-) Hp. apply alloc_of_lookup in Hp.
  destruct (pfree_pages_inv pgs bp B pg ord) as (pgs' & bp' & B' & Hrun & Hinv' & Hk & Hal);
    [by apply inv_weaken|done|].
  exists pgs', bp'. split; [done|]. split; [by exists B'|done].
Qed.

(** [pfree_pages] computes the address of the buddy before it tests the buddy
    for NULL: when that pseudo address happens to lie in the pool, freeing a block
    whose buddy is outside the pool dereferences NULL. *)
Lemma pfree_pages_null_buddy pgs bp pg ord :
  0 <= ord < MAX_ORDER - 1 -> get_buddy_page bp pg ord = None ->
  phy_addr_start bp <= page_to_addr bp None < u32 (phy_addr_start bp + pool_size bp) ->
  pfree_pages pgs bp pg ord = UB.
Proof.
  intros Hord Hb Hnull. unfold pfree_pages.
  rewrite (proj2 (Z.ltb_lt _ _)) by lia. ok_simpl.
  destruct (Z.to_nat (MAX_ORDER - 1 - ord)) as [|n] eqn:Hn; [lia|].
  cbn [merge_loop]. rewrite Hb.
  rewrite (proj2 (Z.ltb_ge _ _)), (proj2 (Z.leb_gt _ _)) by lia. done.
Qed.

(** ** Witnesses: a pool of the five frames 3..7 *)
Definition page0 : page := Page 0 0 0 None 0 false 0 0.
Definition ex_pages : page_array := list_to_map ((fun i => (i, page0)) <$> seqZ 0 16).
Definition ex_null : Z := 1453981696. (* 0x56AA0000 *)

Definition ex_pool0 : buddy_pool :=
  BuddyPool (replicate (Z.to_nat MAX_ORDER) (FreeArea [] 0)) 12288 20480 ex_null [].

Lemma ex_pool0_ok : pool_ok ex_pool0.
Proof. split; try (vm_compute; congruence); vm_compute; try done. by right. Qed.

Lemma ex_pages_live x : start_pfn ex_pool0 <= x < end_pfn ex_pool0 -> is_Some (ex_pages !! x).
Proof.
  intros Hx. change (3 <= x < 8) in Hx.
  assert (x = 3 \/ x = 4 \/ x = 5 \/ x = 6 \/ x = 7) as Hc by lia.
  destruct Hc as [-> | [-> | [-> | [-> | ->]]]]; by eexists.
Qed.

Definition ex_init : page_array * buddy_pool :=
  match buddy_init ex_pages ex_null 12288 20480 with Ok r => r | _ => (∅, ex_pool0) end.

Lemma ex_init_valid : valid ex_init.1 ex_init.2 ∅.
Proof.
  destruct (buddy_init_ok ex_pages ex_null 12288 20480 ex_pool0_ok ex_pages_live)
    as (pgs & bp & Hrun & Hv & _). unfold ex_init. by rewrite Hrun.
Qed.

Lemma buddy_init_valid_witness :
  exists pgs' bp', buddy_init ex_pages ex_null 12288 20480 = Ok (pgs', bp') /\
    valid pgs' bp' ∅ /\ keeps ex_pages ex_pool0 pgs' bp'.
Proof.
  apply (buddy_init_valid ex_pages ex_null 12288 20480); [exact ex_pool0_ok|exact ex_pages_live].
Defined.

Lemma palloc_pages_spec_witness :
  exists o pgs' bp', palloc_pages ex_init.1 ex_init.2 1 = Ok (o, pgs', bp') /\
    o = Some 4 /\ valid pgs' bp' {[4 := 1]}.
Proof.
  destruct (palloc_pages_spec ex_init.1 ex_init.2 ∅ 1) as (o & pgs' & bp' & Hrun & _ & Hv).
  - exact ex_init_valid.
  - vm_compute. split; congruence.
  - exists o, pgs', bp'. split; [exact Hrun|].
    assert (Ho : o = Some 4).
    { assert (Hc : (fun r => match r with Ok (o, _, _) => o | _ => None end)
                     (palloc_pages ex_init.1 ex_init.2 1) = Some 4) by (vm_compute; reflexivity).
      rewrite Hrun in Hc. exact Hc. }
    split; [exact Ho|]. rewrite Ho in Hv. apply Hv.
Defined.

Definition ex_alloc : page_array * buddy_pool :=
  match palloc_pages ex_init.1 ex_init.2 1 with Ok (_, pgs, bp) => (pgs, bp) | _ => (∅, ex_pool0) end.

Lemma ex_alloc_valid : valid ex_alloc.1 ex_alloc.2 {[4 := 1]}.
Proof.
  destruct ex_init_valid as (B & Hinv & HA).
  assert (Hc : (fun r => match r with Ok (o, _, _) => o | _ => None end)
                 (palloc_pages ex_init.1 ex_init.2 1) = Some 4) by (vm_compute; reflexivity).
  unfold ex_alloc. destruct (palloc_pages_inv _ _ B 1 Hinv) as
    [[Hr _]|(pg & k & pgs' & bp' & B' & Hr & _ & _ & Hinv' & _ & _ & Hal)];
    [vm_compute; split; congruence|rewrite Hr in Hc; discriminate|].
  rewrite Hr in Hc |- *. injection Hc as ->. exists B'. by rewrite Hal, HA.
Qed.

Lemma pfree_pages_spec_witness :
  exists pgs' bp', pfree_pages ex_alloc.1 ex_alloc.2 4 1 = Ok (pgs', bp') /\
    valid pgs' bp' (delete 4 {[4 := 1]}) /\ keeps ex_alloc.1 ex_alloc.2 pgs' bp'.
Proof. apply (pfree_pages_spec ex_alloc.1 ex_alloc.2 {[4 := 1]} 4 1); [exact ex_alloc_valid|reflexivity]. Defined.

(** The pool starts at frame 0x9FFFF and contains frame 0xA0000; with [global_pages]
    at 0xC0200000 the exact division of the pointer difference by
    [sizeof(struct page)] = 48 makes [NULL - page_base] 0x56AA0000. *)
Definition ex_null_pool : buddy_pool :=
  BuddyPool (replicate (Z.to_nat MAX_ORDER) (FreeArea [] 0)) 2684350464 12288 1453981696 [].

Lemma pfree_pages_null_buddy_witness : pfree_pages ∅ ex_null_pool 655359 0 = UB.
Proof.
  apply (pfree_pages_null_buddy ∅ ex_null_pool 655359 0);
    [vm_compute; split; congruence|vm_compute; reflexivity|vm_compute; split; congruence].
Defined.
