(* ===== verification/ListView.v ===== *)
(** * The client view of the intrusive lists

    The components above lib/kernel/dlist.c use a [struct dlist] as a sequence
    of objects.  This file gives that view: a list of object addresses with the
    operations of dlist.h as functions on lists, and the lemmas that connect
    each of them with the pointer-level operation of [DList] on a represented
    list.  An operation the pointer code may not perform (removing a node that
    is on no list dereferences NULL) is [UB] here. *)

From S2P Require Import Prelude DList.

(** [dlist_traversal] returns the first element satisfying the condition; the
    result NULL is [None]. *)
Fixpoint first_elem (condition : Z -> bool) (l : list Z) : option Z :=
  match l with
  | [] => None
  | x :: l => if condition x then Some x else first_elem condition l
  end.

(** [dlist_remove] *)
Definition unlink (e : Z) (l : list Z) : res (list Z) :=
  if bool_decide (e ∈ l) then Ok (filter (fun x => x <> e) l) else UB.

Lemma first_elem_Some condition l x :
  first_elem condition l = Some x ->
  exists l1 l2, l = l1 ++ x :: l2 /\ condition x = true /\
    Forall (fun y => condition y = false) l1.
Proof.
  induction l as [|y l IH]; cbn; [done|]. destruct (condition y) eqn:Hy.
  - intros [= ->]. by exists [], l.
  - intros (l1 & l2 & -> & Hx & Hf)%IH. exists (y :: l1), l2. by rewrite Forall_cons.
Qed.

Lemma first_elem_None condition l :
  first_elem condition l = None <-> Forall (fun y => condition y = false) l.
Proof.
  induction l as [|y l IH]; cbn; [by rewrite Forall_nil|]. rewrite Forall_cons.
  destruct (condition y) eqn:Hy; naive_solver.
Qed.

Lemma first_elem_app condition l1 l2 :
  first_elem condition (l1 ++ l2) =
    match first_elem condition l1 with Some x => Some x | None => first_elem condition l2 end.
Proof. induction l1 as [|y l IH]; cbn; [done|]. by destruct (condition y). Qed.

Lemma first_elem_in condition l x : first_elem condition l = Some x -> x ∈ l /\ condition x = true.
Proof. intros (l1 & l2 & -> & H & _)%first_elem_Some. set_solver. Qed.

(** A condition that at most one element of the list satisfies. *)
Lemma first_elem_unique condition l x :
  x ∈ l -> condition x = true ->
  (forall y, y ∈ l -> condition y = true -> y = x) -> first_elem condition l = Some x.
Proof.
  intros Hx Hc Hu. destruct (first_elem condition l) as [y|] eqn:Hf.
  - apply first_elem_in in Hf as [Hy Hyc]. by rewrite (Hu y Hy Hyc).
  - apply first_elem_None in Hf. rewrite Forall_forall in Hf. rewrite (Hf x Hx) in Hc. done.
Qed.

Lemma unlink_ok e l l' : unlink e l = Ok l' <-> e ∈ l /\ l' = filter (fun x => x <> e) l.
Proof. unfold unlink. case_bool_decide; naive_solver. Qed.

Lemma unlink_split e l1 l2 : NoDup (l1 ++ e :: l2) -> unlink e (l1 ++ e :: l2) = Ok (l1 ++ l2).
Proof.
  intros Hnd. unfold unlink. rewrite bool_decide_true by set_solver.
  by rewrite filter_ne_split.
Qed.

Lemma filter_ne_NoDup (e : Z) l : NoDup l -> NoDup (filter (fun x => x <> e) l).
Proof. apply NoDup_filter. Qed.

#[export] Hint Resolve filter_ne_NoDup : mbox.

(** ** The view is the pointer structure *)
Lemma view_traversal h p l condition :
  rep h p l -> Z.of_nat (length l) <= TIMEOUT_CNT + 1 ->
  dlist_traversal h p condition = Ok (default NULL (first_elem condition l)).
Proof.
  intros Hr Hlen. rewrite (dlist_traversal_rep h p l condition Hr Hlen).
  f_equal. clear. unfold first. induction l as [|x l IH]; cbn; [done|].
  by destruct (condition x).
Qed.

Lemma view_remove h p l e l' :
  rep h p l -> unlink e l = Ok l' -> exists h', dlist_remove h e = Ok h' /\ rep h' p l'.
Proof.
  intros Hr [He ->]%unlink_ok. apply list_elem_of_split in He as (l1 & l2 & ->).
  destruct (dlist_remove_rep h p l1 e l2 Hr) as (h' & Hrun & Hr' & _).
  exists h'. split; [done|]. rewrite filter_ne_split; [done|].
  pose proof (rep_nodup _ _ _ Hr) as Hnd. unfold nodes in Hnd. apply NoDup_cons in Hnd as [_ Hnd].
  by apply NoDup_app in Hnd as [? _].
Qed.
