(* ===== verification/Hashtable.v ===== *)
(** * lib/kernel/hashtable.c: chained hash tables

    The table keeps its elements in [bucket_nr] intrusive lists; the hash
    function and the matching condition come from the client (the inode cache,
    the disk buffer cache).  [hash_remove] unlinks a node without looking at
    its key.  The clients serialise every call with a lock of their own. *)

From S2P Require Import Prelude DList ListView.

Definition HASH_GOLDEN_RATIO_32 : Z := 0x61C88647.

Record hashtable := Hashtable {
  buckets : list (list Z);
  bucket_nr : Z;
  elem_nr : Z;
}.

Section hashtable.
Context {K : Type} (hash_func : K -> Z) (condition : Z -> K -> bool).

(** [mem] is what [kmalloc] returned for the bucket array. *)
Definition hash_init (mem : option Z) (nr : Z) : res hashtable :=
  match mem with
  | None => Panic
  | Some _ => Ok (Hashtable (replicate (Z.to_nat nr) []) nr 0)
  end.

Definition get_bucket (h : hashtable) (arg : K) : Z := hash_func arg mod bucket_nr h.

Definition hash_find (h : hashtable) (arg : K) : res (option Z) :=
  b ← deref (buckets h !! Z.to_nat (get_bucket h arg));
  Ok (first_elem (fun e => condition e arg) b).

Definition hash_insert (h : hashtable) (arg : K) (pelem : Z) : res hashtable :=
  let i := Z.to_nat (get_bucket h arg) in
  b ← deref (buckets h !! i);
  match first_elem (fun e => condition e arg) b with
  | Some _ => Ok h
  | None => Ok (Hashtable (<[i := b ++ [pelem]]> (buckets h)) (bucket_nr h) (u32 (elem_nr h + 1)))
  end.

(** The node is unlinked from whichever bucket holds it. *)
Definition hash_remove (h : hashtable) (pelem : Z) : res hashtable :=
  if bool_decide (pelem ∈ concat (buckets h)) then
    Ok (Hashtable (filter (fun x => x <> pelem) <$> buckets h) (bucket_nr h) (u32 (elem_nr h - 1)))
  else UB.

(** ** Correctness against a key function

    [key_of e] is the key stored in the element [e]; the client's condition
    compares it with the argument. *)
Context (key_of : Z -> K).

Definition elems (h : hashtable) : list Z := concat (buckets h).

Record table_inv (h : hashtable) : Prop := {
  ti_nr : 0 < bucket_nr h;
  ti_len : Z.of_nat (length (buckets h)) = bucket_nr h;
  ti_keys : NoDup (key_of <$> elems h);
  ti_place : forall i b e, buckets h !! i = Some b -> e ∈ b ->
    Z.to_nat (get_bucket h (key_of e)) = i;
  ti_count : elem_nr h = Z.of_nat (length (elems h)) /\ Z.of_nat (length (elems h)) < 2 ^ 32;
}.

Hypothesis condition_key : forall e k, condition e k = true <-> key_of e = k.

Lemma bucket_lt h k : table_inv h ->
  (Z.to_nat (get_bucket h k) < length (buckets h))%nat.
Proof.
  intros [Hnr Hlen _ _ _]. unfold get_bucket.
  pose proof (Z.mod_pos_bound (hash_func k) (bucket_nr h) Hnr). lia.
Qed.

Lemma bucket_lookup h k : table_inv h ->
  exists b, buckets h !! Z.to_nat (get_bucket h k) = Some b.
Proof. intros Hi. apply lookup_lt_is_Some, bucket_lt, Hi. Qed.

Lemma elem_of_elems h e : e ∈ elems h <-> exists i b, buckets h !! i = Some b /\ e ∈ b.
Proof.
  unfold elems. rewrite list_elem_of_In, in_concat. setoid_rewrite <- list_elem_of_In.
  split.
  - intros (b & [i Hb]%list_elem_of_lookup & He). eauto.
  - intros (i & b & Hb & He). exists b. split; [by eapply list_elem_of_lookup_2|done].
Qed.

Lemma key_inj h e e' : table_inv h -> e ∈ elems h -> e' ∈ elems h -> key_of e = key_of e' -> e = e'.
Proof.
  intros Hi [i Hi1]%list_elem_of_lookup [j Hj]%list_elem_of_lookup Hk.
  assert (i = j) as ->; [|congruence].
  eapply NoDup_lookup; [exact (ti_keys _ Hi)| |]; rewrite list_lookup_fmap.
  - by rewrite Hi1.
  - by rewrite Hj, Hk.
Qed.

Lemma in_bucket h k b e : table_inv h ->
  buckets h !! Z.to_nat (get_bucket h k) = Some b ->
  e ∈ b /\ key_of e = k <-> e ∈ elems h /\ key_of e = k.
Proof.
  intros Hi Hb. split; intros [He Hk]; (split; [|done]).
  - apply elem_of_elems. eauto.
  - apply elem_of_elems in He as (i & b' & Hb' & He).
    pose proof (ti_place _ Hi _ _ _ Hb' He) as Hp. rewrite Hk in Hp. congruence.
Qed.

(** What a lookup answers. *)
Definition finds (h : hashtable) (k : K) (r : option Z) : Prop :=
  hash_find h k = Ok r /\ forall e, r = Some e <-> e ∈ elems h /\ key_of e = k.

Lemma hash_find_ok h k : table_inv h -> exists r, finds h k r.
Proof.
  intros Hi. destruct (bucket_lookup h k Hi) as [b Hb]. unfold finds, hash_find.
  rewrite Hb. ok_simpl. eexists. split; [done|]. intros e.
  rewrite <- (in_bucket h k b e Hi Hb). split.
  - intros [He Hc]%first_elem_in. by rewrite condition_key in Hc.
  - intros [He Hc]. apply first_elem_unique; [done|by apply condition_key|].
    intros y Hy Hyc. apply condition_key in Hyc.
    apply (key_inj h); [done| | |congruence]; apply elem_of_elems; eauto.
Qed.

Lemma finds_None h k : finds h k None <-> hash_find h k = Ok None /\ k ∉ (key_of <$> elems h).
Proof.
  unfold finds. rewrite list_elem_of_fmap. split; intros [H1 H2]; (split; [done|]).
  - intros (e & -> & He). destruct (H2 e) as [_ H]. discriminate (H (conj He eq_refl)).
  - intros e. split; [done|]. intros [He <-]. exfalso. eauto.
Qed.

Lemma concat_insert_perm {A} (ls : list (list A)) i b x :
  ls !! i = Some b -> concat (<[i := b ++ [x]]> ls) ≡ₚ x :: concat ls.
Proof.
  intros Hb. rewrite insert_take_drop by (by eapply lookup_lt_Some).
  rewrite <- (take_drop_middle ls i b Hb) at 3. rewrite !concat_app. cbn.
  rewrite <- !app_assoc. cbn. rewrite <- !Permutation_middle. done.
Qed.

Lemma hash_insert_ok h e : table_inv h -> Z.of_nat (length (elems h)) + 1 < 2 ^ 32 ->
  key_of e ∉ (key_of <$> elems h) ->
  exists h', hash_insert h (key_of e) e = Ok h' /\ table_inv h' /\ elems h' ≡ₚ e :: elems h.
Proof.
  intros Hi Hlen Hk. destruct (bucket_lookup h (key_of e) Hi) as [b Hb].
  unfold hash_insert. rewrite Hb. ok_simpl.
  destruct (first_elem _ b) as [y|] eqn:Hf.
  { apply first_elem_in in Hf as [Hy Hc]. apply condition_key in Hc. destruct Hk.
    rewrite <- Hc. apply list_elem_of_fmap_2, elem_of_elems. eauto. }
  eexists. split; [done|].
  assert (Hp : elems (Hashtable (<[Z.to_nat (get_bucket h (key_of e)) := b ++ [e]]> (buckets h))
     (bucket_nr h) (u32 (elem_nr h + 1))) ≡ₚ e :: elems h) by by apply concat_insert_perm.
  split; [|exact Hp]. pose proof Hi as [Hnr Hl Hkeys Hplace [Hcnt Hc2]]. constructor.
  - done.
  - cbn [buckets bucket_nr]. by rewrite length_insert.
  - rewrite Hp. cbn. by constructor.
  - cbn [buckets]. intros i b' x Hb' Hx.
    change (Z.to_nat (get_bucket h (key_of x)) = i).
    apply list_lookup_insert_Some in Hb' as [(<- & <- & _)|[_ Hb']].
    + apply elem_of_app in Hx as [Hx| ->%list_elem_of_singleton]; [by eapply Hplace|done].
    + by eapply Hplace.
  - rewrite Hp. cbn [length elem_nr]. rewrite u32_small by lia. lia.
Qed.

Lemma hash_insert_dup h k e : table_inv h -> k ∈ (key_of <$> elems h) -> hash_insert h k e = Ok h.
Proof.
  intros Hi Hk. destruct (bucket_lookup h k Hi) as [b Hb]. unfold hash_insert.
  rewrite Hb. ok_simpl. destruct (hash_find_ok h k Hi) as (r & Hr & Hs).
  unfold hash_find in Hr. rewrite Hb in Hr. ok_simpl. injection Hr as ->.
  apply list_elem_of_fmap in Hk as (x & -> & Hx). by rewrite (proj2 (Hs x) (conj Hx eq_refl)).
Qed.

Lemma concat_filter {A} (P : A -> Prop) `{!forall x, Decision (P x)} (ls : list (list A)) :
  concat (filter P <$> ls) = filter P (concat ls).
Proof. induction ls as [|l ls IH]; cbn; [done|]. by rewrite IH, filter_app. Qed.

Lemma elems_NoDup h : table_inv h -> NoDup (elems h).
Proof. intros Hi. by eapply NoDup_fmap_1, ti_keys. Qed.

Lemma hash_remove_ok h e : table_inv h -> e ∈ elems h ->
  exists h', hash_remove h e = Ok h' /\ table_inv h' /\ elems h' = filter (fun x => x <> e) (elems h).
Proof.
  intros Hi He. unfold hash_remove. rewrite bool_decide_true by exact He.
  eexists. split; [done|].
  assert (Hp : elems (Hashtable (filter (fun x => x <> e) <$> buckets h) (bucket_nr h)
     (u32 (elem_nr h - 1))) = filter (fun x => x <> e) (elems h)) by apply concat_filter.
  split; [|exact Hp]. pose proof (elems_NoDup h Hi) as Hnd.
  pose proof (filter_ne_perm _ e Hnd He) as Hperm.
  pose proof Hi as [Hnr Hl Hkeys Hplace [Hcnt Hc2]]. constructor.
  - done.
  - cbn [buckets bucket_nr]. by rewrite length_fmap.
  - rewrite Hp. rewrite Hperm in Hkeys. by apply NoDup_cons in Hkeys as [_ ?].
  - cbn [buckets]. intros i b' x Hb' Hx.
    change (Z.to_nat (get_bucket h (key_of x)) = i).
    rewrite list_lookup_fmap in Hb'. destruct (buckets h !! i) as [b|] eqn:Hb; [|done].
    cbn in Hb'. injection Hb' as <-. apply list_elem_of_filter in Hx as [_ Hx]. by eapply Hplace.
  - rewrite Hp. cbn [elem_nr]. apply Permutation_length in Hperm. cbn in Hperm.
    rewrite u32_small by lia. lia.
Qed.

Lemma hash_init_ok mem nr h : 0 < nr -> hash_init mem nr = Ok h -> table_inv h /\ elems h = [].
Proof.
  intros Hnr. destruct mem; cbn; [|done]. intros [= <-].
  assert (He : elems (Hashtable (replicate (Z.to_nat nr) []) nr 0) = []).
  { unfold elems. cbn. induction (Z.to_nat nr); [done|]. cbn. done. }
  split; [|done]. constructor; cbn [bucket_nr buckets elem_nr]; try rewrite He; cbn.
  - done.
  - rewrite length_replicate. lia.
  - constructor.
  - intros i b e [-> _]%lookup_replicate He2. by apply not_elem_of_nil in He2.
  - lia.
Qed.

(** The table as a partial map from keys to elements. *)
Context `{!EqDecision K}.

Definition models (h : hashtable) (m : K -> option Z) : Prop :=
  table_inv h /\ forall k e, m k = Some e <-> e ∈ elems h /\ key_of e = k.

Definition map_insert (m : K -> option Z) (e : Z) : K -> option Z :=
  match m (key_of e) with
  | Some _ => m
  | None => fun k => if decide (k = key_of e) then Some e else m k
  end.

Definition map_remove (m : K -> option Z) (e : Z) : K -> option Z :=
  fun k => if decide (k = key_of e) then None else m k.

Lemma models_find h m k : models h m -> hash_find h k = Ok (m k).
Proof.
  intros [Hi Hm]. destruct (hash_find_ok h k Hi) as (r & -> & Hr). f_equal.
  apply option_eq. intros e. by rewrite Hr, Hm.
Qed.

Lemma models_insert h m e : models h m -> Z.of_nat (length (elems h)) + 1 < 2 ^ 32 ->
  exists h', hash_insert h (key_of e) e = Ok h' /\ models h' (map_insert m e).
Proof.
  intros [Hi Hm] Hlen. unfold map_insert. destruct (m (key_of e)) as [x|] eqn:Hme.
  - apply Hm in Hme as [Hx Hk]. exists h. split; [|done]. apply hash_insert_dup; [done|].
    rewrite <- Hk. by apply list_elem_of_fmap_2.
  - destruct (hash_insert_ok h e Hi Hlen) as (h' & Hrun & Hi' & Hp).
    { intros (x & Hk & Hx)%list_elem_of_fmap.
      assert (m (key_of e) = Some x) by (by apply Hm). congruence. }
    exists h'. split; [done|]. split; [done|]. intros k y. rewrite Hp, elem_of_cons.
    destruct (decide (k = key_of e)) as [->|Hne].
    + split; [intros [= <-]; auto|]. intros [[->|Hy] Hk]; [done|].
      assert (m (key_of e) = Some y) by (by apply Hm). congruence.
    + rewrite Hm. naive_solver.
Qed.

Lemma models_remove h m e : models h m -> m (key_of e) = Some e ->
  exists h', hash_remove h e = Ok h' /\ models h' (map_remove m e).
Proof.
  intros [Hi Hm] He. apply Hm in He as [He _].
  destruct (hash_remove_ok h e Hi He) as (h' & Hrun & Hi' & Hp).
  exists h'. split; [done|]. split; [done|]. intros k y. unfold map_remove.
  rewrite Hp, list_elem_of_filter. destruct (decide (k = key_of e)) as [->|Hne].
  - split; [done|]. intros [[Hne Hy] Hk]. destruct Hne. by apply (key_inj h).
  - rewrite Hm. naive_solver.
Qed.

(** C22. A hash table is a partial map from keys to elements: a lookup returns the
    element stored under the key, an insertion binds the key of a new element and
    does nothing when the key is bound, a removal of a stored element unbinds its
    key, and none of them faults; [elem_nr] counts the bindings (part of
    [table_inv]). *)
Theorem hash_refines_map h m :
  models h m ->
  (forall k, hash_find h k = Ok (m k)) /\
  (forall e, elem_nr h + 1 < 2 ^ 32 ->
     exists h', hash_insert h (key_of e) e = Ok h' /\ models h' (map_insert m e)) /\
  (forall e, m (key_of e) = Some e ->
     exists h', hash_remove h e = Ok h' /\ models h' (map_remove m e)).
Proof.
  intros Hm. split_and!.
  - intros k. by apply models_find.
  - intros e He. apply models_insert; [done|]. destruct Hm as [Hi _].
    by destruct (ti_count _ Hi) as [<- _].
  - intros e. by apply models_remove.
Qed.

End hashtable.

(** The table only depends on the keys of its elements. *)
Lemma table_inv_ext {K} (hash_func : K -> Z) k1 k2 h :
  (forall e, e ∈ elems h -> k1 e = k2 e) ->
  table_inv hash_func k1 h -> table_inv hash_func k2 h.
Proof.
  intros Hk [Hnr Hl Hnd Hpl Hc]. constructor; try done.
  - rewrite <- (list_fmap_ext k1 k2); [done|]. intros i x Hx. apply Hk.
    by eapply list_elem_of_lookup_2.
  - intros i b e Hb He. rewrite <- Hk; [by eapply Hpl|]. apply elem_of_elems. eauto.
Qed.

(** Five-element keys by residue, in a table of three buckets. *)
Definition ex_table : hashtable := Hashtable [[6]; [1]; []] 3 2.

Lemma hash_refines_map_witness :
  exists h', hash_insert (fun k => k) (fun e k => Z.eqb e k) ex_table 4 4 = Ok h' /\
    hash_find (fun k => k) (fun e k => Z.eqb e k) h' 4 = Ok (Some 4).
Proof.
  set (m := fun k => if decide (k ∈ [6; 1]) then Some k else None).
  assert (Hm : models (fun k => k) (fun e : Z => e) ex_table m).
  { split.
    - constructor; cbn; try lia; try (apply (bool_decide_unpack _); vm_compute; exact I).
      intros i b e Hb He. destruct i as [|[|[|i]]]; cbn in Hb; try done;
        injection Hb as <-; set_unfold in He; try done;
        (destruct He as [-> |[]] || subst e); reflexivity.
    - intros k e. unfold m, ex_table, elems. cbn. case_decide; split; intros H1; set_solver. }
  destruct (hash_refines_map (fun k => k) (fun e k => Z.eqb e k) (fun e => e) Z.eqb_eq ex_table m Hm)
    as (_ & Hins & _).
  destruct (Hins 4) as (h' & Hrun & Hm'); [cbn; lia|].
  exists h'. split; [exact Hrun|].
  destruct (hash_refines_map (fun k => k) (fun e k => Z.eqb e k) (fun e => e) Z.eqb_eq h' _ Hm')
    as (Hf & _). rewrite Hf. reflexivity.
Defined.
