(* ===== verification/InodeCache.v ===== *)
(** * fs/inode.c: the in-memory inodes and their cache

    Every on-disk inode in use has one [struct inode] in memory, found through a
    hash table on (device, inode number) and kept on an LRU list; [i_open_cnts]
    counts its users and an inode with users is never discarded by the
    cache.  The model keeps the objects in a store indexed by their address, the
    hash table and the LRU list as in the code, and makes each region that holds
    [inode_global_cache.lock] one step.  [inode_open] releases that lock around
    the disk read, so its model takes what the other tasks do meanwhile as a
    function [env] on the cache. *)

From S2P Require Import Prelude DList ListView Hashtable.

(** enum file_types of include/uapi/unitype.h *)
Inductive file_types :=
  | FT_UNKNOWN | FT_REGULAR | FT_DIRECTORY | FT_CHAR_SPECIAL | FT_BLOCK_SPECIAL
  | FT_FIFO | FT_SOCKET | FT_SYMLINK | FT_PIPE.

#[global] Instance file_types_eq_dec : EqDecision file_types.
Proof. solve_decision. Defined.

(** ** i_mode *)
Definition S_IFMT : Z := 0xF000.
Definition S_IFSOCK : Z := 0xC000.
Definition S_IFLNK : Z := 0xA000.
Definition S_IFREG : Z := 0x8000.
Definition S_IFBLK : Z := 0x6000.
Definition S_IFDIR : Z := 0x4000.
Definition S_IFCHR : Z := 0x2000.
Definition S_IFIFO : Z := 0x1000.

Definition is_type (mode t : Z) : bool := Z.land mode S_IFMT =? t.

Definition decode_imode (mode : Z) : file_types :=
  if is_type mode S_IFREG then FT_REGULAR
  else if is_type mode S_IFDIR then FT_DIRECTORY
  else if is_type mode S_IFCHR then FT_CHAR_SPECIAL
  else if is_type mode S_IFBLK then FT_BLOCK_SPECIAL
  else if is_type mode S_IFIFO then FT_FIFO
  else if is_type mode S_IFLNK then FT_SYMLINK
  else if is_type mode S_IFSOCK then FT_SOCKET
  else FT_UNKNOWN.

Definition encode_imode (ft : file_types) (mode : Z) : Z :=
  match ft with
  | FT_REGULAR => Z.lor S_IFREG mode
  | FT_DIRECTORY => Z.lor S_IFDIR mode
  | FT_CHAR_SPECIAL => Z.lor S_IFCHR mode
  | FT_BLOCK_SPECIAL => Z.lor S_IFBLK mode
  | FT_FIFO => Z.lor S_IFIFO mode
  | FT_SOCKET => Z.lor S_IFSOCK mode
  | FT_SYMLINK => Z.lor S_IFLNK mode
  | FT_UNKNOWN | FT_PIPE => 0
  end.

(** ** The objects *)
Record inode := Inode {
  i_type : file_types;
  i_mode : Z;
  i_no : Z;
  i_dev : Z;
  i_open_cnts : Z;
  write_deny : bool;
  i_atime : Z;
  i_mtime : Z;
  i_ctime : Z;
  pipe_base : Z;
}.

Definition ANONY_I_NO : Z := 0xffffffff.
Definition MAX_INODE_CACHE_SIZE : Z := 64.
Definition BUCKET_NR : Z := 32.

Definition set_open_cnts (n : Z) (i : inode) : inode :=
  Inode (i_type i) (i_mode i) (i_no i) (i_dev i) n (write_deny i)
    (i_atime i) (i_mtime i) (i_ctime i) (pipe_base i).
Definition set_pipe_base (b : Z) (i : inode) : inode :=
  Inode (i_type i) (i_mode i) (i_no i) (i_dev i) (i_open_cnts i) (write_deny i)
    (i_atime i) (i_mtime i) (i_ctime i) b.

(** struct inode_key: (i_dev, i_no) *)
Abbreviation inode_key := (Z * Z)%type.

Definition inode_hash (key : inode_key) : Z :=
  u32 (Z.lxor key.1 key.2 * HASH_GOLDEN_RATIO_32).

Definition key_of_inode (i : inode) : inode_key := (i_dev i, i_no i).

Record inode_cache := Cache {
  hash_table : hashtable;
  lru_list : list Z;
  inodes : gmap Z inode;
  freed_pages : list Z;  (* pages given back with mfree_page *)
}.

Definition key_at (m : gmap Z inode) (a : Z) : inode_key :=
  match m !! a with Some i => key_of_inode i | None => (-1, -1) end.

Definition inode_condition (m : gmap Z inode) (pelem : Z) (ik : inode_key) : bool :=
  bool_decide (key_at m pelem = ik).

(** [mem]: the bucket array of [hash_init]. *)
Definition inode_cache_init (mem : option Z) (m : gmap Z inode) : res inode_cache :=
  h ← hash_init mem BUCKET_NR; Ok (Cache h [] m []).

(** The first inode of the LRU list that nobody uses. *)
Definition lru_victim (m : gmap Z inode) (l : list Z) : option Z :=
  first_elem (fun a => match m !! a with Some i => i_open_cnts i =? 0 | None => false end) l.

Definition inode_register_to_cache (c : inode_cache) (a : Z) : res inode_cache :=
  i ← deref (inodes c !! a);
  h ← hash_insert inode_hash (inode_condition (inodes c)) (hash_table c) (key_of_inode i) a;
  let lru := lru_list c ++ [a] in
  if MAX_INODE_CACHE_SIZE <? elem_nr h then
    match lru_victim (inodes c) lru with
    | Some victim =>
        h' ← hash_remove h victim;
        lru' ← unlink victim lru;
        Ok (Cache h' lru' (delete victim (inodes c)) (freed_pages c))
    | None => Ok (Cache h lru (inodes c) (freed_pages c))
    end
  else Ok (Cache h lru (inodes c) (freed_pages c)).

Definition is_pipe (t : file_types) : bool :=
  bool_decide (t = FT_FIFO) || bool_decide (t = FT_PIPE).

(** The buffer page of a pipe or FIFO goes with its inode. *)
Definition release_pipe (i : inode) (pages : list Z) : inode * list Z :=
  if is_pipe (i_type i) && negb (pipe_base i =? 0)
  then (set_pipe_base 0 i, pages ++ [pipe_base i]) else (i, pages).

Definition inode_evict (c : inode_cache) (a : Z) : res inode_cache :=
  if a =? NULL then Ok c else
  h ← hash_remove (hash_table c) a;
  lru ← unlink a (lru_list c);
  i ← deref (inodes c !! a);
  Ok (Cache h lru (delete a (inodes c)) (release_pipe i (freed_pages c)).2).

(** The hit path of [inode_open]: count the user and make the inode the most
    recently used. *)
Definition inode_touch (c : inode_cache) (a : Z) : res inode_cache :=
  i ← deref (inodes c !! a);
  lru ← unlink a (lru_list c);
  Ok (Cache (hash_table c) (lru ++ [a])
        (<[a := set_open_cnts (u32 (i_open_cnts i + 1)) i]> (inodes c)) (freed_pages c)).

Section open.
(** [read_inode]: the method of the partition's file system that fills the inode
    from disk, [None] when the partition has no file system.
    [env]: the other tasks while the disk is read. *)
Context (kernel_heap_start : Z) (read_inode : option (inode -> inode))
        (env : inode_cache -> inode_cache).

(** The fields [inode_open] fills in before it calls [read_inode]; the others are
    whatever the allocation held. *)
Definition new_inode (dev no : Z) : inode := Inode FT_UNKNOWN 0 no dev 1 false 0 0 0 0.

(** [mem]: what [kmalloc] returned for the new object. *)
Definition inode_open (c : inode_cache) (mem : option Z) (dev no : Z) : res (Z * inode_cache) :=
  let ik := (dev, no) in
  de ← hash_find inode_hash (inode_condition (inodes c)) (hash_table c) ik;
  match de with
  | Some a =>
      i ← deref (inodes c !! a);
      _ ← assert_ ((i_no i =? no) && (i_dev i =? dev));
      c' ← inode_touch c a; Ok (a, c')
  | None =>
      match mem with
      | None => Panic
      | Some a =>
          read ← match read_inode with Some f => Ok f | None => Panic end;
          let c1 := env c in
          de' ← hash_find inode_hash (inode_condition (inodes c1)) (hash_table c1) ik;
          match de' with
          | Some b =>
              c' ← inode_touch c1 b;
              _ ← assert_ (kernel_heap_start <=? b); Ok (b, c')
          | None =>
              c' ← inode_register_to_cache
                     (Cache (hash_table c1) (lru_list c1)
                        (<[a := read (new_inode dev no)]> (inodes c1)) (freed_pages c1)) a;
              _ ← assert_ (kernel_heap_start <=? a); Ok (a, c')
          end
      end
  end.
End open.

Definition inode_close (c : inode_cache) (a : Z) : res inode_cache :=
  if a =? NULL then Ok c else
  i ← deref (inodes c !! a);
  let cnt := u32 (i_open_cnts i - 1) in
  let i := set_open_cnts cnt i in
  if cnt <=? 0 then
    let (i, pages) := release_pipe i (freed_pages c) in
    Ok (Cache (hash_table c) (lru_list c) (<[a := i]> (inodes c)) pages)
  else Ok (Cache (hash_table c) (lru_list c) (<[a := i]> (inodes c)) (freed_pages c)).

Definition make_anonymous_inode (c : inode_cache) (mem : option Z) : option (Z * inode_cache) :=
  match mem with
  | None => None
  | Some a =>
      let i := Inode FT_PIPE (encode_imode FT_PIPE 0x1ff) ANONY_I_NO 0xffffffff 0 false 0 0 0 0 in
      Some (a, Cache (hash_table c) (lru_list c) (<[a := i]> (inodes c)) (freed_pages c))
  end.

(** [update_time] at time [now]; the flag says whether the file system's
    [write_inode] is called. *)
Definition ATIME : Z := 1.
Definition MTIME : Z := 2.
Definition CTIME : Z := 4.

Definition update_time (i : inode) (flags now : Z) : inode * bool :=
  let has f := negb (Z.land flags f =? 0) in
  (Inode (i_type i) (i_mode i) (i_no i) (i_dev i) (i_open_cnts i) (write_deny i)
     (if has ATIME then u32 now else i_atime i)
     (if has MTIME then u32 now else i_mtime i)
     (if has CTIME then u32 now else i_ctime i) (pipe_base i),
   has ATIME || has MTIME || has CTIME).

(** ** Invariant *)
Record cache_inv (c : inode_cache) : Prop := {
  ci_table : table_inv inode_hash (key_at (inodes c)) (hash_table c);
  ci_lru : lru_list c ≡ₚ elems (hash_table c);
  ci_live : forall a, a ∈ elems (hash_table c) ->
    a <> NULL /\ exists i, inodes c !! a = Some i /\ 0 <= i_open_cnts i < 2 ^ 32;
}.

(** The specification's view of the cache: the inodes that have users, each with
    its address and the number of its users. *)
Abbreviation users := (gmap inode_key (Z * Z)).

Definition refs (c : inode_cache) (A : users) : Prop :=
  forall k a n, A !! k = Some (a, n) <->
    0 < n /\ a ∈ elems (hash_table c) /\
    exists i, inodes c !! a = Some i /\ key_of_inode i = k /\ i_open_cnts i = n.

Lemma condition_key m e k : inode_condition m e k = true <-> key_at m e = k.
Proof. apply bool_decide_eq_true. Qed.

Lemma key_at_insert_same m a i j :
  m !! a = Some i -> key_of_inode j = key_of_inode i ->
  forall e, key_at (<[a := j]> m) e = key_at m e.
Proof.
  intros Hi Hk e. unfold key_at. destruct (decide (a = e)) as [->|Hne].
  - by rewrite lookup_insert, decide_True, Hi, Hk by done.
  - by rewrite lookup_insert_ne.
Qed.

(** Replacing an inode by one with the same key keeps the cache well formed. *)
Lemma update_inv c a i j lru pages :
  cache_inv c -> a ∈ elems (hash_table c) -> inodes c !! a = Some i ->
  key_of_inode j = key_of_inode i -> 0 <= i_open_cnts j < 2 ^ 32 ->
  lru ≡ₚ lru_list c ->
  cache_inv (Cache (hash_table c) lru (<[a := j]> (inodes c)) pages).
Proof.
  intros [Ht Hl Hv] Ha Hi Hk Hcnt Hlru. constructor; cbn [hash_table lru_list inodes].
  - eapply table_inv_ext; [|exact Ht]. intros e _. symmetry. by eapply key_at_insert_same.
  - by rewrite Hlru.
  - intros x Hx. destruct (Hv x Hx) as (Hn & y & Hy & Hc). split; [done|].
    destruct (decide (a = x)) as [->|Hne].
    + exists j. by rewrite lookup_insert, decide_True.
    + exists y. by rewrite lookup_insert_ne.
Qed.

Lemma key_at_Some c a i : inodes c !! a = Some i -> key_at (inodes c) a = key_of_inode i.
Proof. unfold key_at. by intros ->. Qed.

Lemma cached_unique c a b i j :
  cache_inv c -> a ∈ elems (hash_table c) -> b ∈ elems (hash_table c) ->
  inodes c !! a = Some i -> inodes c !! b = Some j -> key_of_inode i = key_of_inode j -> a = b.
Proof.
  intros [Ht _ _] Ha Hb Hi Hj Hk. eapply key_inj; [exact Ht|done|done|].
  by rewrite (key_at_Some c a i), (key_at_Some c b j).
Qed.

(** The new view when the count of a cached inode changes to [n]. *)
Definition set_users (A : users) (k : inode_key) (a n : Z) : users :=
  if 0 <? n then <[k := (a, n)]> A else delete k A.

Lemma update_refs c A a i j lru pages :
  cache_inv c -> refs c A -> a ∈ elems (hash_table c) -> inodes c !! a = Some i ->
  key_of_inode j = key_of_inode i -> 0 <= i_open_cnts j ->
  refs (Cache (hash_table c) lru (<[a := j]> (inodes c)) pages)
    (set_users A (key_of_inode i) a (i_open_cnts j)).
Proof.
  intros Hc HA Ha Hi Hk Hcnt k x n. cbn [hash_table inodes]. unfold set_users.
  destruct (decide (k = key_of_inode i)) as [->|Hne].
  - transitivity (0 < n /\ x = a /\ i_open_cnts j = n).
    { bdestr; [rewrite lookup_insert, decide_True by done|
               rewrite lookup_delete, decide_True by done]; naive_solver lia. }
    split.
    + intros (Hn & -> & <-). split_and!; [done|done|]. exists j.
      by rewrite lookup_insert, decide_True.
    + intros (Hn & Hx & y & Hy & Hyk & Hyn). assert (x = a) as ->.
      { destruct (decide (a = x)) as [|Hxa]; [done|]. rewrite lookup_insert_ne in Hy by done.
        symmetry. by eapply (cached_unique c a x i y). }
      rewrite lookup_insert, decide_True in Hy by done. naive_solver.
  - transitivity (A !! k = Some (x, n)).
    { bdestr; [by rewrite lookup_insert_ne by done|by rewrite lookup_delete_ne by done]. }
    rewrite (HA k x n). split; intros (Hn & Hx & y & Hy & Hyk & Hyn); (split_and!; [done|done|]).
    + exists y. destruct (decide (a = x)) as [->|Hxa]; [congruence|].
      by rewrite lookup_insert_ne.
    + exists y. destruct (decide (a = x)) as [->|Hxa].
      * rewrite lookup_insert, decide_True in Hy by done. naive_solver.
      * by rewrite lookup_insert_ne in Hy.
Qed.

(** ** Lookup, hit and registration *)
Lemma cache_find c k : cache_inv c ->
  exists r, hash_find inode_hash (inode_condition (inodes c)) (hash_table c) k = Ok r /\
    forall a, r = Some a <-> a ∈ elems (hash_table c) /\
      exists i, inodes c !! a = Some i /\ key_of_inode i = k.
Proof.
  intros Hc. destruct (hash_find_ok inode_hash _ _ (condition_key (inodes c)) _ k (ci_table _ Hc))
    as (r & Hr & Hs). exists r. split; [done|]. intros a. rewrite Hs. split; intros [Ha Hk].
  - split; [done|]. destruct (ci_live _ Hc a Ha) as (_ & i & Hi & _). exists i.
    by rewrite <- Hk, (key_at_Some c a i).
  - destruct Hk as (i & Hi & <-). by rewrite (key_at_Some c a i).
Qed.

Lemma lru_NoDup c : cache_inv c -> NoDup (lru_list c).
Proof. intros Hc. rewrite (ci_lru _ Hc). eapply elems_NoDup, (ci_table _ Hc). Qed.

Lemma inode_touch_ok c A a i :
  cache_inv c -> refs c A -> a ∈ elems (hash_table c) -> inodes c !! a = Some i ->
  i_open_cnts i + 1 < 2 ^ 32 ->
  exists c', inode_touch c a = Ok c' /\ cache_inv c' /\
    refs c' (<[key_of_inode i := (a, i_open_cnts i + 1)]> A).
Proof.
  intros Hc HA Ha Hi Hlt. unfold inode_touch. rewrite Hi. ok_simpl.
  destruct (ci_live _ Hc a Ha) as (_ & i' & Hi' & Hcnt). rewrite Hi in Hi'. injection Hi' as <-.
  assert (Hal : a ∈ lru_list c) by (by rewrite (ci_lru _ Hc)).
  rewrite (proj2 (unlink_ok a (lru_list c) _) (conj Hal eq_refl)). ok_simpl.
  rewrite u32_small by lia. eexists. split; [done|]. split.
  - apply (update_inv c a i); [done|done|done|done|cbn; lia|].
    rewrite (filter_ne_perm (lru_list c) a (lru_NoDup _ Hc) Hal) at 2.
    by rewrite Permutation_app_comm.
  - pose proof (update_refs c A a i (set_open_cnts (i_open_cnts i + 1) i)
      (filter (fun x => x <> a) (lru_list c) ++ [a]) (freed_pages c) Hc HA Ha Hi eq_refl) as Hu.
    cbn [i_open_cnts set_open_cnts] in Hu. unfold set_users in Hu.
    rewrite (proj2 (Z.ltb_lt _ _)) in Hu by lia. apply Hu. lia.
Qed.

(** Dropping an unused inode from the cache. *)
Lemma drop_inv c a h lru pages :
  cache_inv c -> a ∈ elems (hash_table c) ->
  hash_remove (hash_table c) a = Ok h -> unlink a (lru_list c) = Ok lru ->
  cache_inv (Cache h lru (delete a (inodes c)) pages).
Proof.
  intros Hc Ha Hh [Hal ->]%unlink_ok. pose proof Hc as [Ht Hl Hv].
  destruct (hash_remove_ok inode_hash _ _ a Ht Ha) as (h' & Hh' & Ht' & He').
  rewrite Hh in Hh'. injection Hh' as <-. constructor; cbn [hash_table lru_list inodes].
  - eapply table_inv_ext; [|exact Ht']. intros e He. rewrite He' in He.
    apply list_elem_of_filter in He as [Hne He]. unfold key_at. by rewrite lookup_delete_ne.
  - by rewrite He', Hl.
  - intros x Hx. rewrite He' in Hx. apply list_elem_of_filter in Hx as [Hne Hx].
    rewrite lookup_delete_ne by done. auto.
Qed.

Lemma drop_refs c A a i h lru pages :
  cache_inv c -> refs c A -> a ∈ elems (hash_table c) -> inodes c !! a = Some i ->
  hash_remove (hash_table c) a = Ok h ->
  refs (Cache h lru (delete a (inodes c)) pages) (delete (key_of_inode i) A).
Proof.
  intros Hc HA Ha Hi Hh k x n. cbn [hash_table inodes].
  destruct (hash_remove_ok inode_hash _ _ a (ci_table _ Hc) Ha) as (h' & Hh' & Ht' & He').
  rewrite Hh in Hh'. injection Hh' as <-. rewrite He', list_elem_of_filter.
  destruct (decide (k = key_of_inode i)) as [->|Hne].
  - rewrite lookup_delete, decide_True by done. split; [done|].
    intros (Hn & [Hxa Hx] & y & Hy & Hyk & _). rewrite lookup_delete_ne in Hy by done.
    destruct Hxa. by eapply (cached_unique c x a y i).
  - rewrite lookup_delete_ne by done. rewrite (HA k x n).
    split.
    + intros (Hn & Hx & y & Hy & Hyk & Hyn). assert (x <> a) by congruence.
      split_and!; [done|done|done|]. exists y. by rewrite lookup_delete_ne.
    + intros (Hn & [Hxa Hx] & y & Hy & Hyk & Hyn). rewrite lookup_delete_ne in Hy by done.
      split_and!; [done|done|]. eauto.
Qed.

Lemma refs_absent c A a i :
  cache_inv c -> refs c A -> a ∈ elems (hash_table c) -> inodes c !! a = Some i ->
  i_open_cnts i = 0 -> A !! key_of_inode i = None.
Proof.
  intros Hc HA Ha Hi H0. destruct (A !! key_of_inode i) as [[x n]|] eqn:HAk; [|done].
  apply HA in HAk as (Hn & Hx & y & Hy & Hyk & Hyn).
  assert (x = a) as -> by (by eapply (cached_unique c x a y i)). naive_solver lia.
Qed.

(** The cache after the new inode is on the table and the LRU list. *)
Lemma insert_inv c a i :
  cache_inv c -> inodes c !! a = None -> a <> NULL ->
  key_of_inode i ∉ (key_at (inodes c) <$> elems (hash_table c)) -> i_open_cnts i = 1 ->
  elem_nr (hash_table c) + 1 < 2 ^ 32 ->
  exists h, hash_insert inode_hash (inode_condition (<[a := i]> (inodes c))) (hash_table c)
      (key_of_inode i) a = Ok h /\ elems h ≡ₚ a :: elems (hash_table c) /\
    cache_inv (Cache h (lru_list c ++ [a]) (<[a := i]> (inodes c)) (freed_pages c)).
Proof.
  intros Hc Ha Hn Hk H1 Hnr. pose proof Hc as [Ht Hl Hv].
  assert (Hfresh : a ∉ elems (hash_table c)).
  { intros Hin. destruct (Hv a Hin) as (_ & y & Hy & _). congruence. }
  assert (Hkeys : forall e, e ∈ elems (hash_table c) ->
    key_at (inodes c) e = key_at (<[a := i]> (inodes c)) e).
  { intros e He. unfold key_at. rewrite lookup_insert_ne; [done|]. congruence. }
  assert (Hka : key_at (<[a := i]> (inodes c)) a = key_of_inode i).
  { unfold key_at. by rewrite lookup_insert, decide_True. }
  assert (Hfm : key_at (inodes c) <$> elems (hash_table c) =
                key_at (<[a := i]> (inodes c)) <$> elems (hash_table c)).
  { apply list_fmap_ext. intros j x Hx. apply Hkeys. by eapply list_elem_of_lookup_2. }
  assert (Ht' : table_inv inode_hash (key_at (<[a := i]> (inodes c))) (hash_table c)) by
    (eapply table_inv_ext; [exact Hkeys|exact Ht]).
  destruct (hash_insert_ok inode_hash (inode_condition (<[a := i]> (inodes c))) _
    (condition_key _) (hash_table c) a Ht') as (h & Hrun & Hi & Hp).
  { by rewrite <- (proj1 (ti_count _ _ _ Ht)). }
  { by rewrite Hka, <- Hfm. }
  rewrite Hka in Hrun. exists h. split; [done|]. split; [done|].
  constructor; cbn [hash_table lru_list inodes]; [done| |].
  - by rewrite Hp, Hl, Permutation_app_comm.
  - intros x Hx. rewrite Hp, elem_of_cons in Hx. destruct Hx as [->|Hx].
    + split; [done|]. exists i. rewrite lookup_insert, decide_True by done. split; [done|lia].
    + rewrite lookup_insert_ne by congruence. auto.
Qed.

Lemma insert_ok c A a i :
  cache_inv c -> refs c A -> inodes c !! a = None -> a <> NULL ->
  key_of_inode i ∉ (key_at (inodes c) <$> elems (hash_table c)) -> i_open_cnts i = 1 ->
  elem_nr (hash_table c) + 1 < 2 ^ 32 ->
  exists h, hash_insert inode_hash (inode_condition (<[a := i]> (inodes c))) (hash_table c)
      (key_of_inode i) a = Ok h /\ elems h ≡ₚ a :: elems (hash_table c) /\
    let c' := Cache h (lru_list c ++ [a]) (<[a := i]> (inodes c)) (freed_pages c) in
    cache_inv c' /\ refs c' (<[key_of_inode i := (a, 1)]> A).
Proof.
  intros Hc HA Ha Hn Hk H1 Hnr. destruct (insert_inv c a i) as (h & Hrun & Hp & Hinv); try done.
  exists h. split; [done|]. split; [done|]. split; [done|]. pose proof Hc as [Ht Hl Hv].
  assert (Hfresh : a ∉ elems (hash_table c)).
  { intros Hin. destruct (Hv a Hin) as (_ & y & Hy & _). congruence. }
  intros k x n. cbn [hash_table inodes]. rewrite Hp, elem_of_cons.
    destruct (decide (k = key_of_inode i)) as [->|Hne].
    + rewrite lookup_insert, decide_True by done. split.
      * intros [= <- <-]. split_and!; [done|by left|]. exists i.
        by rewrite lookup_insert, decide_True.
      * intros (Hpos & Hx & y & Hy & Hyk & Hyn). destruct Hx as [->|Hx].
        -- rewrite lookup_insert, decide_True in Hy by done. congruence.
        -- destruct Hk. rewrite <- Hyk. apply list_elem_of_fmap. exists x. split; [|done].
           rewrite lookup_insert_ne in Hy by congruence. by rewrite (key_at_Some c x y).
    + rewrite lookup_insert_ne by done. rewrite (HA k x n). split.
      * intros (Hpos & Hx & y & Hy & Hyk & Hyn). split_and!; [done|by right|]. exists y.
        by rewrite lookup_insert_ne by congruence.
      * intros (Hpos & Hx & y & Hy & Hyk & Hyn). destruct Hx as [->|Hx].
        -- rewrite lookup_insert, decide_True in Hy by done. congruence.
        -- rewrite lookup_insert_ne in Hy by congruence. eauto 10.
Qed.

Lemma inode_register_ok c A a i :
  cache_inv c -> refs c A -> inodes c !! a = None -> a <> NULL ->
  key_of_inode i ∉ (key_at (inodes c) <$> elems (hash_table c)) -> i_open_cnts i = 1 ->
  elem_nr (hash_table c) + 1 < 2 ^ 32 ->
  exists c', inode_register_to_cache
      (Cache (hash_table c) (lru_list c) (<[a := i]> (inodes c)) (freed_pages c)) a = Ok c' /\
    cache_inv c' /\ refs c' (<[key_of_inode i := (a, 1)]> A).
Proof.
  intros Hc HA Ha Hn Hk H1 Hnr.
  destruct (insert_ok c A a i) as (h & Hrun & Hp & Hc1 & HA1); try done.
  unfold inode_register_to_cache. cbn [inodes hash_table lru_list freed_pages].
  rewrite lookup_insert, decide_True by done. ok_simpl. rewrite Hrun. ok_simpl.
  destruct (MAX_INODE_CACHE_SIZE <? elem_nr h); [|by eauto].
  destruct (lru_victim _ _) as [v|] eqn:Hv; [|by eauto].
  apply first_elem_in in Hv as [Hvl Hv0].
  destruct (<[a := i]> (inodes c) !! v) as [j|] eqn:Hj; [|done]. apply Z.eqb_eq in Hv0.
  assert (Hve : v ∈ elems h). { rewrite <- (ci_lru _ Hc1). exact Hvl. }
  destruct (hash_remove_ok inode_hash _ h v (ci_table _ Hc1) Hve) as (h' & Hh' & _).
  rewrite Hh'. ok_simpl. unfold unlink. rewrite bool_decide_true by done. ok_simpl.
  eexists. split; [done|]. split.
  - apply (drop_inv _ v h' _ (freed_pages c) Hc1 Hve Hh'). by apply unlink_ok.
  - pose proof (drop_refs _ _ v j h' (filter (fun x => x <> v) (lru_list c ++ [a]))
      (freed_pages c) Hc1 HA1 Hve Hj Hh') as Hr.
    pose proof (refs_absent _ _ v j Hc1 HA1 Hve Hj Hv0) as Habs.
    by rewrite (delete_id _ _ Habs) in Hr.
Qed.

(** The same from the view of the objects: the new inode is there, and no inode in use
    is touched. *)
Lemma register_effect c a i :
  cache_inv c -> inodes c !! a = None -> a <> NULL ->
  key_of_inode i ∉ (key_at (inodes c) <$> elems (hash_table c)) -> i_open_cnts i = 1 ->
  elem_nr (hash_table c) + 1 < 2 ^ 32 ->
  exists c', inode_register_to_cache
      (Cache (hash_table c) (lru_list c) (<[a := i]> (inodes c)) (freed_pages c)) a = Ok c' /\
    cache_inv c' /\ inodes c' !! a = Some i /\
    (forall b j, b <> a -> inodes c !! b = Some j -> 0 < i_open_cnts j -> inodes c' !! b = Some j) /\
    (forall b, b ∈ elems (hash_table c') -> b = a \/ (b ∈ elems (hash_table c) /\ inodes c' !! b = inodes c !! b)).
Proof.
  intros Hc Ha Hn Hk H1 Hnr. destruct (insert_inv c a i) as (h & Hrun & Hp & Hc1); try done.
  unfold inode_register_to_cache. cbn [inodes hash_table lru_list freed_pages].
  rewrite lookup_insert_eq. ok_simpl. rewrite Hrun. ok_simpl.
  assert (Hkeep : cache_inv (Cache h (lru_list c ++ [a]) (<[a := i]> (inodes c)) (freed_pages c)) /\
    <[a := i]> (inodes c) !! a = Some i /\
    (forall b j, b <> a -> inodes c !! b = Some j -> 0 < i_open_cnts j -> <[a := i]> (inodes c) !! b = Some j) /\
    (forall b, b ∈ elems h -> b = a \/ (b ∈ elems (hash_table c) /\ <[a := i]> (inodes c) !! b = inodes c !! b))).
  { split_and!; [done|apply lookup_insert_eq|intros b j Hb Hj _; by rewrite lookup_insert_ne by auto|].
    intros b. rewrite Hp, elem_of_cons. intros [->|Hb]; [by left|]. destruct (decide (a = b)) as [->|Hab]; [by left|].
    right. by rewrite lookup_insert_ne by done. }
  destruct (MAX_INODE_CACHE_SIZE <? elem_nr h); [|by eauto].
  destruct (lru_victim _ _) as [v|] eqn:Hv; [|by eauto].
  apply first_elem_in in Hv as [Hvl Hv0].
  destruct (<[a := i]> (inodes c) !! v) as [j|] eqn:Hj; [|done]. apply Z.eqb_eq in Hv0.
  assert (Hve : v ∈ elems h) by (rewrite <- (ci_lru _ Hc1); exact Hvl).
  destruct (hash_remove_ok inode_hash _ h v (ci_table _ Hc1) Hve) as (h' & Hh' & _ & He').
  rewrite Hh'. ok_simpl. unfold unlink. rewrite bool_decide_true by done. ok_simpl.
  destruct Hkeep as (_ & K1 & K2 & K3). assert (v <> a) by (intros ->; rewrite lookup_insert_eq in Hj; congruence).
  eexists. split; [done|]. cbn [inodes hash_table]. split_and!.
  - apply (drop_inv _ v h' _ (freed_pages c) Hc1 Hve Hh'). by apply unlink_ok.
  - by rewrite lookup_delete_ne.
  - intros b y Hb Hy Hpos. rewrite lookup_delete_ne; [by apply K2|]. intros ->. rewrite lookup_insert_ne in Hj by auto.
    assert (j = y) as -> by congruence. lia.
  - intros b. rewrite He', list_elem_of_filter. intros [Hbv Hb]. rewrite lookup_delete_ne by auto. by apply K3.
Qed.

(** What a call of [inode_open] gives: the new user of the inode [k] at [a]. *)
Definition one_more (A : users) (k : inode_key) (a : Z) (A' : users) : Prop :=
  match A !! k with
  | Some (b, n) => a = b /\ A' = <[k := (a, n + 1)]> A
  | None => A' = <[k := (a, 1)]> A
  end.

(** The hit path, from the view of the specification. *)
Lemma touch_one_more c A a i :
  cache_inv c -> refs c A -> a ∈ elems (hash_table c) -> inodes c !! a = Some i ->
  i_open_cnts i + 1 < 2 ^ 32 ->
  exists c' A', inode_touch c a = Ok c' /\ cache_inv c' /\ refs c' A' /\
    one_more A (key_of_inode i) a A'.
Proof.
  intros Hc HA Ha Hi Hlt.
  destruct (inode_touch_ok c A a i Hc HA Ha Hi Hlt) as (c' & Hrun & Hc' & HA').
  eexists c', _. split_and!; [done|done|exact HA'|]. unfold one_more.
  destruct (A !! key_of_inode i) as [[b n]|] eqn:HAk.
  - apply HA in HAk as (Hn & Hb & j & Hj & Hjk & Hjn).
    assert (b = a) as -> by (by eapply (cached_unique c b a j i)).
    assert (i = j) as -> by congruence. by rewrite Hjn.
  - destruct (ci_live _ Hc a Ha) as (_ & j & Hj & Hcnt). assert (i = j) as <- by congruence.
    destruct (decide (i_open_cnts i = 0)) as [->|]; [done|].
    assert (A !! key_of_inode i = Some (a, i_open_cnts i)); [|congruence].
    apply HA. split_and!; [lia|done|eauto].
Qed.

Section open_spec.
Context (kernel_heap_start : Z) (read : inode -> inode) (env : inode_cache -> inode_cache).

(** The file systems' [read_inode] fills in the attributes of the inode it is given. *)
Hypothesis read_key : forall i, key_of_inode (read i) = key_of_inode i.
Hypothesis read_cnt : forall i, i_open_cnts (read i) = i_open_cnts i.

(** [inode_open] when no other task runs meanwhile, from the view of the objects: the
    inode gains a user, or is new with one, and no inode in use is touched. *)
Lemma open_effect c mem dev no a c' :
  cache_inv c -> (forall m, mem = Some m -> inodes c !! m = None /\ m <> NULL) ->
  (forall b i, inodes c !! b = Some i -> i_open_cnts i + 1 < 2 ^ 32) -> elem_nr (hash_table c) + 1 < 2 ^ 32 ->
  inode_open kernel_heap_start (Some read) (fun c => c) c mem dev no = Ok (a, c') ->
  cache_inv c' /\ a <> NULL /\
  (exists i', inodes c' !! a = Some i' /\
    ((exists i, a ∈ elems (hash_table c) /\ inodes c !! a = Some i /\ i' = set_open_cnts (i_open_cnts i + 1) i) \/
     (inodes c !! a = None /\ i' = read (new_inode dev no)))) /\
  (forall b j, b <> a -> inodes c !! b = Some j -> 0 < i_open_cnts j -> inodes c' !! b = Some j) /\
  (forall b, b ∈ elems (hash_table c') -> b = a \/ (b ∈ elems (hash_table c) /\ inodes c' !! b = inodes c !! b)).
Proof.
  intros Hc Hmem Hcnt Hnr. unfold inode_open. destruct (cache_find c (dev, no) Hc) as (r & -> & Hr). ok_simpl.
  destruct r as [x|].
  - destruct (proj1 (Hr x) eq_refl) as (Hx & i & Hi & Hk). rewrite Hi. ok_simpl.
    injection Hk as <- <-. rewrite !Z.eqb_refl. ok_simpl. unfold inode_touch. rewrite Hi. ok_simpl.
    destruct (ci_live _ Hc x Hx) as (Hnull & j & Hj & Hn). assert (j = i) as -> by congruence.
    assert (Hxl : x ∈ lru_list c) by (by rewrite (ci_lru _ Hc)).
    rewrite (proj2 (unlink_ok x (lru_list c) _) (conj Hxl eq_refl)). ok_simpl. pose proof (Hcnt x i Hi).
    rewrite u32_small by lia. intros [= <- <-]. cbn [inodes hash_table]. split_and!; [|done| | |].
    + apply (update_inv c x i); [done|done|done|done|cbn; lia|].
      rewrite (filter_ne_perm (lru_list c) x (lru_NoDup _ Hc) Hxl) at 2. by rewrite Permutation_app_comm.
    + rewrite lookup_insert_eq. eexists. split; [done|]. left. eauto.
    + intros b y Hb Hy _. by rewrite lookup_insert_ne by auto.
    + intros b Hb. destruct (decide (x = b)) as [->|Hne]; [by left|]. right. by rewrite lookup_insert_ne by done.
  - destruct mem as [m|]; [|done]. destruct (Hmem m eq_refl) as [Hm Hnull].
    assert (Hk : key_of_inode (read (new_inode dev no)) = (dev, no)) by (by rewrite read_key).
    destruct (register_effect c m (read (new_inode dev no))) as (c1 & -> & Hc1 & E1 & E2 & E3); [done|done|done| |by rewrite read_cnt|done|].
    + rewrite Hk. intros (x & Hx & Hxe)%list_elem_of_fmap.
      destruct (ci_live _ Hc x Hxe) as (_ & i & Hi & _). rewrite (key_at_Some _ x i Hi) in Hx.
      discriminate (proj2 (Hr x) (conj Hxe (ex_intro _ i (conj Hi (eq_sym Hx))))).
    + ok_simpl. destruct (kernel_heap_start <=? m); [|done]. ok_simpl. intros [= <- <-].
      split_and!; [done|done| |done|done]. eexists. split; [done|]. by right.
Qed.

(** C23. [inode_open], the disk read and the tasks that run meanwhile included:
    for a well-formed cache it returns an inode of the requested device and number
    without a panic, the cache stays well formed, and the users change by exactly
    one: an inode that has users is returned at the address it already has with one
    user more, and no inode with users is discarded, moved or recounted. *)
Theorem inode_open_spec c mem dev no A B :
  cache_inv c -> refs c A -> cache_inv (env c) -> refs (env c) B ->
  inodes (env c) !! mem = None -> mem <> NULL -> kernel_heap_start <= mem ->
  (forall a, a ∈ elems (hash_table (env c)) -> kernel_heap_start <= a) ->
  (forall d a i, d = c \/ d = env c -> inodes d !! a = Some i -> i_open_cnts i + 1 < 2 ^ 32) ->
  elem_nr (hash_table (env c)) + 1 < 2 ^ 32 ->
  exists a c' A', inode_open kernel_heap_start (Some read) env c (Some mem) dev no = Ok (a, c') /\
    cache_inv c' /\ refs c' A' /\
    (one_more A (dev, no) a A' \/ (A !! (dev, no) = None /\ one_more B (dev, no) a A')).
Proof.
  intros Hc HA He HB Hmem Hnull Hheap Hheaps Hcnt Hnr. unfold inode_open.
  destruct (cache_find c (dev, no) Hc) as (r & -> & Hr). ok_simpl.
  destruct r as [a|].
  - destruct (proj1 (Hr a) eq_refl) as (Ha & i & Hi & Hk). rewrite Hi. ok_simpl.
    injection Hk as <- <-. rewrite !Z.eqb_refl. ok_simpl.
    destruct (touch_one_more c A a i) as (c' & A' & -> & Hc' & HA' & Hone);
      [done..|apply (Hcnt c a i); auto|]. ok_simpl. eauto 10.
  - assert (HAk : A !! (dev, no) = None).
    { destruct (A !! (dev, no)) as [[a n]|] eqn:HAk; [|done].
      apply HA in HAk as (_ & Ha & i & Hi & Hk & _).
      discriminate (proj2 (Hr a) (conj Ha (ex_intro _ i (conj Hi Hk)))). }
    destruct (cache_find (env c) (dev, no) He) as (r' & -> & Hr'). ok_simpl.
    destruct r' as [b|].
    + destruct (proj1 (Hr' b) eq_refl) as (Hb & i & Hi & Hk).
      destruct (touch_one_more (env c) B b i) as (c' & A' & -> & Hc' & HA' & Hone);
        [done..|apply (Hcnt (env c) b i); auto|]. ok_simpl.
      rewrite (proj2 (Z.leb_le _ _)) by auto. ok_simpl. rewrite Hk in Hone. eauto 10.
    + assert (Hk : key_of_inode (read (new_inode dev no)) = (dev, no)) by (by rewrite read_key).
      destruct (inode_register_ok (env c) B mem (read (new_inode dev no)))
        as (c' & -> & Hc' & HA'); [done|done|done|done| |by rewrite read_cnt|done|].
      * rewrite Hk. intros (x & Hx & Hxe)%list_elem_of_fmap.
        destruct (ci_live _ He x Hxe) as (_ & i & Hi & _). rewrite (key_at_Some _ x i Hi) in Hx.
        discriminate (proj2 (Hr' x) (conj Hxe (ex_intro _ i (conj Hi (eq_sym Hx))))).
      * ok_simpl. rewrite (proj2 (Z.leb_le _ _)) by auto. ok_simpl.
        rewrite Hk in HA'. eexists mem, c', _. split; [reflexivity|]. split; [exact Hc'|].
        split; [exact HA'|]. right. split; [done|]. unfold one_more.
        destruct (B !! (dev, no)) as [[b n]|] eqn:HBk; [|done].
        apply HB in HBk as (_ & Hb & i & Hi & Hik & _).
        discriminate (proj2 (Hr' b) (conj Hb (ex_intro _ i (conj Hi Hik)))).
Qed.
End open_spec.

Lemma release_pipe_key i pages : key_of_inode (release_pipe i pages).1 = key_of_inode i /\
  i_open_cnts (release_pipe i pages).1 = i_open_cnts i.
Proof. unfold release_pipe. by destruct (_ && _). Qed.


(** [inode_evict] takes the inode out of the cache and frees the object
    whatever the number of its users: afterwards no user's pointer is valid. *)
Lemma inode_evict_spec c A k a n :
  cache_inv c -> refs c A -> A !! k = Some (a, n) ->
  exists c', inode_evict c a = Ok c' /\ cache_inv c' /\ refs c' (delete k A) /\
    inodes c' !! a = None /\ (forall b, b <> a -> inodes c' !! b = inodes c !! b).
Proof.
  intros Hc HA HAk. apply HA in HAk as (Hn & Ha & i & Hi & <- & Hin).
  destruct (ci_live _ Hc a Ha) as (Hnull & _). unfold inode_evict.
  rewrite (proj2 (Z.eqb_neq _ _) Hnull).
  destruct (hash_remove_ok inode_hash _ _ a (ci_table _ Hc) Ha) as (h & Hh & _).
  assert (Hal : a ∈ lru_list c) by (by rewrite (ci_lru _ Hc)).
  pose proof (proj2 (unlink_ok a (lru_list c) _) (conj Hal eq_refl)) as Hu.
  rewrite Hh, Hu, Hi. ok_simpl. eexists. split; [done|]. split_and!.
  - by apply (drop_inv c a).
  - by apply (drop_refs c A a i).
  - by apply lookup_delete_eq.
  - intros b Hb. by apply lookup_delete_ne.
Qed.

(** ** Modes *)
Lemma land_perm m : 0 <= m < 2 ^ 12 -> Z.land m S_IFMT = 0.
Proof.
  intros Hm. change S_IFMT with (Z.shiftl 15 12). apply Z.bits_inj'. intros n Hn.
  rewrite Z.land_spec, Z.bits_0, Z.shiftl_spec by done.
  destruct (Z.lt_ge_cases n 12).
  - by rewrite (Z.testbit_neg_r 15) by lia; rewrite andb_false_r.
  - destruct (decide (m = 0)) as [->|]; [by rewrite Z.bits_0|].
    rewrite Z.bits_above_log2; [done|lia|]. apply Z.log2_lt_pow2; [lia|].
    apply (Z.lt_le_trans _ (2 ^ 12)); [lia|]. apply Z.pow_le_mono_r; lia.
Qed.

(** The mode of every file type that is stored on disk decodes to that type,
    whatever the permission bits. *)
Lemma imode_roundtrip ft m :
  ft <> FT_UNKNOWN -> ft <> FT_PIPE -> 0 <= m < 2 ^ 12 ->
  decode_imode (encode_imode ft m) = ft.
Proof.
  intros Hu Hp Hm. unfold decode_imode, is_type.
  destruct ft; try done; unfold encode_imode; rewrite !Z.land_lor_distr_l, !(land_perm m Hm);
    reflexivity.
Qed.

Lemma imode_roundtrip_witness : decode_imode (encode_imode FT_SYMLINK 0x1ff) = FT_SYMLINK.
Proof. apply imode_roundtrip; [done|done|lia]. Defined.

(** ** The empty cache *)
Lemma inode_cache_init_ok mem m c :
  inode_cache_init mem m = Ok c -> cache_inv c /\ refs c ∅ /\
    elems (hash_table c) = [] /\ inodes c = m.
Proof.
  unfold inode_cache_init. destruct (hash_init mem BUCKET_NR) as [h| | |] eqn:Hh; [|done..].
  ok_simpl. intros [= <-]. cbn.
  destruct (hash_init_ok inode_hash (key_at m) mem BUCKET_NR h) as [Ht He]; [done|done|].
  split_and!; [|intros k a n|done|done].
  - constructor; cbn; [done|by rewrite He|]. intros a Ha. rewrite He in Ha.
    by apply not_elem_of_nil in Ha.
  - cbn. rewrite He, lookup_empty. split; [done|]. intros (_ & Ha & _).
    by apply not_elem_of_nil in Ha.
Qed.

Definition ex_cache : inode_cache := Cache (Hashtable (replicate 32 []) 32 0) [] ∅ [].

Lemma ex_cache_ok : cache_inv ex_cache /\ refs ex_cache ∅.
Proof. destruct (inode_cache_init_ok (Some 4096) ∅ ex_cache) as (Hc & HA & _); [reflexivity|by split]. Qed.

Lemma inode_open_spec_witness :
  exists a c' A', inode_open 4096 (Some (fun i => i)) (fun c => c) ex_cache (Some 8192) 1 2 = Ok (a, c') /\
    cache_inv c' /\ refs c' A' /\
    (one_more ∅ (1, 2) a A' \/ (∅ : users) !! (1, 2) = None /\ one_more ∅ (1, 2) a A').
Proof.
  destruct ex_cache_ok as [Hc HA].
  apply (inode_open_spec 4096 (fun i => i) (fun c => c)); try done.
  - intros a Ha. cbn in Ha. by apply not_elem_of_nil in Ha.
  - intros d a i [-> | ->] Hi; cbn in Hi; by rewrite lookup_empty in Hi.
Defined.

(** One FIFO with a buffer page and one user. *)
Definition ex_fifo : inode := Inode FT_FIFO 0 2 1 1 false 0 0 0 0xd0000000.
Definition ex_cache1 : inode_cache :=
  Cache (Hashtable (<[Z.to_nat (inode_hash (1, 2) mod 32) := [8192]]> (replicate 32 [])) 32 1)
    [8192] {[ 8192 := ex_fifo ]} [].

Lemma ex_cache1_ok : cache_inv ex_cache1 /\ refs ex_cache1 {[ (1, 2) := (8192, 1) ]}.
Proof.
  destruct ex_cache_ok as [Hc HA].
  destruct (inode_register_ok ex_cache ∅ 8192 ex_fifo) as (c' & Hrun & Hc' & HA'); try done.
  { cbn. apply not_elem_of_nil. }
  assert (c' = ex_cache1) as -> by (vm_compute in Hrun; injection Hrun as <-; reflexivity).
  by split.
Qed.


Lemma inode_evict_spec_witness :
  exists c', inode_evict ex_cache1 8192 = Ok c' /\ cache_inv c' /\
    refs c' (delete (1, 2) {[ (1, 2) := (8192, 1) ]}) /\
    inodes c' !! 8192 = None /\ (forall b, b <> 8192 -> inodes c' !! b = inodes ex_cache1 !! b).
Proof.
  destruct ex_cache1_ok as [Hc HA].
  apply (inode_evict_spec ex_cache1 _ (1, 2) 8192 1 Hc HA). reflexivity.
Defined.
