(* ===== verification/Bcache.v ===== *)
(** * device/block/ide_buffer.c: the disk buffer cache

    Sectors are cached in [struct buffer_head]s, found through a hash table on
    (sector, disk) and kept on an LRU list; written sectors wait on the dirty list
    of their disk for the sync thread, which writes them back in batches, or for
    the eviction in [getblk].  The model keeps the heads in a store indexed by
    their address and the contents of the disks in [platter]; a sector is a value
    of an arbitrary type.  Each operation is one step: the sync thread and other
    tasks run between operations.  (The wake-up of the sync thread under memory
    pressure has no effect of its own on this state.) *)

From S2P Require Import Prelude DList ListView Hashtable.

Definition SECTORS_PER_OP_BLOCK : Z := 16.
Definition MAX_SYNC_COUNT : nat := 16.
Definition SECTOR_SIZE : Z := 512.
Definition BUFFER_RATE : Z := 10.
Definition HASH_SIZE : Z := 256.

(** struct buffer_key: (lba, disk) *)
Abbreviation buffer_key := (Z * Z)%type.

Definition buffer_hash (key : buffer_key) : Z :=
  u32 (Z.lxor (Z.shiftr key.2 4) key.1 * HASH_GOLDEN_RATIO_32).

(** The dirty lists of a [struct disk]; every disk object exists from the start. *)
Record disk := Disk {
  active_dirty_idx : Z;
  dirty_list0 : list Z;
  dirty_list1 : list Z;
}.
Definition dirty_list (d : disk) (idx : Z) : list Z := if idx =? 0 then dirty_list0 d else dirty_list1 d.
Definition set_dirty_list (d : disk) (idx : Z) (l : list Z) : disk :=
  if idx =? 0 then Disk (active_dirty_idx d) l (dirty_list1 d) else Disk (active_dirty_idx d) (dirty_list0 d) l.

Section cache.
Context {D : Type} (blank : D).

Record buffer_head := BufferHead {
  b_blocknr : Z;
  b_dev : Z;
  b_dirty : bool;
  b_valid : bool;
  b_ref_count : Z;
  b_data : D;
}.

Definition set_dirty (x : bool) (b : buffer_head) : buffer_head :=
  BufferHead (b_blocknr b) (b_dev b) x (b_valid b) (b_ref_count b) (b_data b).
Definition set_ref (x : Z) (b : buffer_head) : buffer_head :=
  BufferHead (b_blocknr b) (b_dev b) (b_dirty b) (b_valid b) x (b_data b).
Definition set_data (x : D) (b : buffer_head) : buffer_head :=
  BufferHead (b_blocknr b) (b_dev b) (b_dirty b) (b_valid b) (b_ref_count b) x.
Definition set_valid (x : bool) (b : buffer_head) : buffer_head :=
  BufferHead (b_blocknr b) (b_dev b) (b_dirty b) x (b_ref_count b) (b_data b).

Definition key (b : buffer_head) : buffer_key := (b_blocknr b, b_dev b).

Record ide_buffer := IdeBuffer {
  heads : gmap Z buffer_head;
  hash_table : hashtable;
  lru_list : list Z;
  cur_blk_num : Z;
  max_blk_num : Z;
  disks : gmap Z disk;
  platter : gmap buffer_key D;
}.

Definition set_heads (m : gmap Z buffer_head) (c : ide_buffer) : ide_buffer :=
  IdeBuffer m (hash_table c) (lru_list c) (cur_blk_num c) (max_blk_num c) (disks c) (platter c).
Definition set_lru (l : list Z) (c : ide_buffer) : ide_buffer :=
  IdeBuffer (heads c) (hash_table c) l (cur_blk_num c) (max_blk_num c) (disks c) (platter c).
Definition set_platter (p : gmap buffer_key D) (c : ide_buffer) : ide_buffer :=
  IdeBuffer (heads c) (hash_table c) (lru_list c) (cur_blk_num c) (max_blk_num c) (disks c) p.

Definition disk_of (c : ide_buffer) (dev : Z) : disk := default (Disk 0 [] []) (disks c !! dev).
Definition set_disk (dev : Z) (d : disk) (c : ide_buffer) : ide_buffer :=
  IdeBuffer (heads c) (hash_table c) (lru_list c) (cur_blk_num c) (max_blk_num c) (<[dev := d]> (disks c)) (platter c).

Definition sector (c : ide_buffer) (k : buffer_key) : D := default blank (platter c !! k).

(** [ide_read] and [ide_write] of one sector. *)
Definition ide_read (c : ide_buffer) (dev lba : Z) : D := sector c (lba, dev).
Definition ide_write (c : ide_buffer) (dev lba : Z) (d : D) : ide_buffer :=
  set_platter (<[(lba, dev) := d]> (platter c)) c.

(** A store to the head at address [p]. *)
Definition with_head (c : ide_buffer) (p : Z) (f : buffer_head -> buffer_head) : res ide_buffer :=
  b ← deref (heads c !! p); Ok (set_heads (<[p := f b]> (heads c)) c).

Definition key_at (m : gmap Z buffer_head) (p : Z) : buffer_key :=
  match m !! p with Some b => key b | None => (-1, -1) end.

Definition buffer_condition (m : gmap Z buffer_head) (pelem : Z) (bk : buffer_key) : bool :=
  bool_decide (key_at m pelem = bk).

(** [mem]: the bucket array of [hash_init]. *)
Definition ide_buffer_init (mem : option Z) (mem_bytes_total : Z) (dk : gmap Z disk)
    (pl : gmap buffer_key D) : res ide_buffer :=
  h ← hash_init mem HASH_SIZE;
  Ok (IdeBuffer ∅ h [] 0 (mem_bytes_total / BUFFER_RATE / SECTOR_SIZE) dk pl).

Definition find_victim (c : ide_buffer) : option Z :=
  first_elem (fun p => match heads c !! p with Some b => b_ref_count b =? 0 | None => false end) (lru_list c).

(** [dlist_is_linked] and [dlist_remove] of [dirty_tag]. *)
Definition dirty_linked (c : ide_buffer) (dev p : Z) : bool :=
  bool_decide (p ∈ dirty_list0 (disk_of c dev) ++ dirty_list1 (disk_of c dev)).
Definition dirty_unlink (c : ide_buffer) (dev p : Z) : res ide_buffer :=
  let d := disk_of c dev in
  if dirty_linked c dev p then
    Ok (set_disk dev (Disk (active_dirty_idx d) (filter (fun x => x <> p) (dirty_list0 d))
                        (filter (fun x => x <> p) (dirty_list1 d))) c)
  else UB.

Definition blk_evict (c : ide_buffer) (victim : Z) : res ide_buffer :=
  b ← deref (heads c !! victim);
  _ ← assert_ (b_ref_count b =? 0);
  h ← hash_remove (hash_table c) victim;
  lru ← unlink victim (lru_list c);
  c ← (if dirty_linked c (b_dev b) victim then dirty_unlink c (b_dev b) victim else Ok c);
  Ok (IdeBuffer (delete victim (heads c)) h lru (u32 (cur_blk_num c - 1)) (max_blk_num c) (disks c) (platter c)).

(** The reclaim loop of [getblk]; every turn drops one block. *)
Definition reclaim_limit (c : ide_buffer) : Z := u32 (max_blk_num c * 9) / 10.

Fixpoint reclaim (fuel : nat) (c : ide_buffer) : res ide_buffer :=
  match fuel with
  | O => Fuel
  | S fuel =>
      if cur_blk_num c <? reclaim_limit c then Ok c else
      match find_victim c with
      | None => Panic
      | Some victim =>
          b ← deref (heads c !! victim);
          if b_dirty b then
            c ← dirty_unlink c (b_dev b) victim;
            let c := ide_write c (b_dev b) (b_blocknr b) (b_data b) in
            c ← with_head c victim (set_dirty false);
            c ← blk_evict c victim;
            reclaim fuel c
          else c ← blk_evict c victim; reclaim fuel c
      end
  end.

(** What [kmalloc] returns for a new head: its address and what its data area holds. *)
Variable kmalloc : gmap Z buffer_head -> Z * D.

Definition take_ref (b : buffer_head) : buffer_head := set_ref (u32 (b_ref_count b + 1)) b.

Definition getblk (c : ide_buffer) (dev lba : Z) : res (Z * ide_buffer) :=
  let bk := (lba, dev) in
  de ← hash_find buffer_hash (buffer_condition (heads c)) (hash_table c) bk;
  match de with
  | Some p =>
      c ← with_head c p take_ref;
      lru ← unlink p (lru_list c);
      Ok (p, set_lru (lru ++ [p]) c)
  | None =>
      c ← reclaim (S (length (lru_list c))) c;
      let (p, d) := kmalloc (heads c) in
      de ← hash_find buffer_hash (buffer_condition (heads c)) (hash_table c) bk;
      match de with
      | Some q => c ← with_head c q take_ref; Ok (q, c)
      | None =>
          let m := <[p := BufferHead lba dev false false 1 d]> (heads c) in
          h ← hash_insert buffer_hash (buffer_condition m) (hash_table c) bk p;
          Ok (p, IdeBuffer m h (lru_list c ++ [p]) (u32 (cur_blk_num c + 1)) (max_blk_num c) (disks c) (platter c))
      end
  end.

Definition brelse (c : ide_buffer) (p : Z) : res ide_buffer :=
  if p =? NULL then Ok c else
  b ← deref (heads c !! p);
  if 0 <? b_ref_count b then with_head c p (set_ref (b_ref_count b - 1)) else Panic.

Definition _bread (c : ide_buffer) (dev lba : Z) : res (Z * ide_buffer) :=
  '(p, c) ← getblk c dev lba;
  b ← deref (heads c !! p);
  if b_valid b then Ok (p, c)
  else
    c ← with_head c p (fun b => set_dirty false (set_valid true (set_data (ide_read c dev lba) b)));
    Ok (p, c).

(** Put a block on the active dirty list of its disk. *)
Definition mark_dirty (c : ide_buffer) (dev p : Z) : res ide_buffer :=
  b ← deref (heads c !! p);
  if b_dirty b then Ok c
  else
    c ← with_head c p (set_dirty true);
    let d := disk_of c dev in
    let active_idx := active_dirty_idx d in
    Ok (set_disk dev (set_dirty_list d active_idx (dirty_list d active_idx ++ [p])) c).

Definition bwrite (c : ide_buffer) (p : Z) : res ide_buffer :=
  if p =? NULL then Ok c else b ← deref (heads c !! p); mark_dirty c (b_dev b) p.

(** [bwrite_multi]: the sectors of [src_buf] to [lba], [lba + 1], ... *)
Fixpoint bwrite_multi (c : ide_buffer) (dev lba : Z) (src_buf : list D) : res ide_buffer :=
  match src_buf with
  | [] => Ok c
  | d :: src_buf =>
      '(p, c) ← getblk c dev lba;
      c ← with_head c p (fun b => set_valid true (set_data d b));
      c ← mark_dirty c dev p;
      c ← brelse c p;
      bwrite_multi c dev (u32 (lba + 1)) src_buf
  end.

(** [bread_multi]: how many of the [rest] sectors after [lba - 1] are not cached,
    [bulk_cnt] of them found already. *)
Fixpoint bulk_loop (rest : nat) (c : ide_buffer) (dev lba bulk_cnt : Z) : res Z :=
  match rest with
  | O => Ok bulk_cnt
  | S rest =>
      de ← hash_find buffer_hash (buffer_condition (heads c)) (hash_table c) (lba, dev);
      match de with
      | Some _ => Ok bulk_cnt
      | None =>
          if SECTORS_PER_OP_BLOCK <=? bulk_cnt + 1 then Ok (bulk_cnt + 1)
          else bulk_loop rest c dev (u32 (lba + 1)) (bulk_cnt + 1)
      end
  end.

(** Copy the sectors just read into the cache. *)
Fixpoint fill_loop (c : ide_buffer) (dev lba : Z) (buf : list D) : res ide_buffer :=
  match buf with
  | [] => Ok c
  | d :: buf =>
      '(p, c) ← getblk c dev lba;
      b ← deref (heads c !! p);
      c ← (if b_valid b then Ok c else with_head c p (fun b => set_valid true (set_data d b)));
      c ← brelse c p;
      fill_loop c dev (u32 (lba + 1)) buf
  end.

(** The main loop with [sec_cnt] sectors to go, [fuel] at least that; the result is
    what it appends to [out_buf]. *)
Fixpoint bread_multi (fuel : nat) (c : ide_buffer) (dev lba : Z) (sec_cnt : nat) : res (list D * ide_buffer) :=
  match sec_cnt, fuel with
  | O, _ => Ok ([], c)
  | S _, O => Fuel
  | S rest, S fuel =>
      '(p, c) ← getblk c dev lba;
      b ← deref (heads c !! p);
      c ← brelse c p;
      if b_valid b then
        r ← bread_multi fuel c dev (u32 (lba + 1)) rest;
        Ok (b_data b :: r.1, r.2)
      else
        bulk_cnt ← bulk_loop rest c dev (u32 (lba + 1)) 1;
        let buf := (fun j => ide_read c dev (u32 (lba + j))) <$> seqZ 0 bulk_cnt in
        c ← fill_loop c dev lba buf;
        r ← bread_multi fuel c dev (u32 (lba + bulk_cnt)) (sec_cnt - Z.to_nat bulk_cnt);
        Ok (buf ++ r.1, r.2)
  end.

(** ** The sync thread: one pass over a disk *)

(** [dlist_insert_order] with [_cb_bh_lba_condition] *)
Fixpoint insert_order (m : gmap Z buffer_head) (p : Z) (l : list Z) : list Z :=
  match l with
  | [] => [p]
  | q :: l => if (key_at m p).1 <? (key_at m q).1 then p :: q :: l else q :: insert_order m p l
  end.

(** Move the old dirty list into the private sorted list, holding each block. *)
Fixpoint drain (c : ide_buffer) (todo sorted : list Z) : res (list Z * ide_buffer) :=
  match todo with
  | [] => Ok (sorted, c)
  | p :: todo => c ← with_head c p take_ref; drain c todo (insert_order (heads c) p sorted)
  end.

(** The blocks that follow [prev] without a gap, [n] at most, and the rest. *)
Fixpoint take_batch (n : nat) (m : gmap Z buffer_head) (prev : Z) (l : list Z) : list Z * list Z :=
  match n, l with
  | S n, p :: l' =>
      if (key_at m p).1 =? u32 ((key_at m prev).1 + 1)
      then let (b, r) := take_batch n m p l' in (p :: b, r)
      else ([], l)
  | _, _ => ([], l)
  end.

Fixpoint each (c : ide_buffer) (f : buffer_head -> buffer_head) (ps : list Z) : res ide_buffer :=
  match ps with
  | [] => Ok c
  | p :: ps => c ← with_head c p f; each c f ps
  end.

(** [ide_write] of consecutive sectors from [lba]. *)
Fixpoint ide_write_batch (c : ide_buffer) (dev lba : Z) (buf : list D) : ide_buffer :=
  match buf with
  | [] => c
  | d :: buf => ide_write_batch (ide_write c dev lba d) dev (u32 (lba + 1)) buf
  end.

Definition data_at (m : gmap Z buffer_head) (p : Z) : D :=
  match m !! p with Some b => b_data b | None => blank end.

Fixpoint write_back (fuel : nat) (c : ide_buffer) (dev : Z) (sorted : list Z) : res ide_buffer :=
  match sorted, fuel with
  | [], _ => Ok c
  | _ :: _, O => Fuel
  | p :: sorted, S fuel =>
      let (more, rest) := take_batch (MAX_SYNC_COUNT - 1) (heads c) p sorted in
      let batch := p :: more in
      c ← each c (set_dirty false) batch;
      let io_buffer := data_at (heads c) <$> batch in
      let c := ide_write_batch c dev (key_at (heads c) p).1 io_buffer in
      c ← each c (fun b => set_ref (u32 (b_ref_count b - 1)) b) batch;
      write_back fuel c dev rest
  end.

Definition sync_disk (c : ide_buffer) (dev : Z) : res ide_buffer :=
  let d := disk_of c dev in
  let old_idx := active_dirty_idx d in
  match dirty_list d old_idx with
  | [] => Ok c
  | old =>
      let d := Disk (1 - old_idx) (dirty_list0 d) (dirty_list1 d) in
      let c := set_disk dev (set_dirty_list d old_idx []) c in
      '(sorted, c) ← drain c old [];
      write_back (length sorted) c dev sorted
  end.

(** The body of [sync_ide_buffer]'s loop: every disk that is attached. *)
Fixpoint sync_ide_buffer (c : ide_buffer) (attached : list Z) : res ide_buffer :=
  match attached with
  | [] => Ok c
  | dev :: attached => c ← sync_disk c dev; sync_ide_buffer c attached
  end.

(** ** The disk the clients see *)
Definition holds (m : gmap Z buffer_head) (k : buffer_key) (p : Z) : bool :=
  match m !! p with Some b => bool_decide (key b = k) && b_valid b | None => false end.

Definition logical (c : ide_buffer) (k : buffer_key) : D :=
  match first_elem (holds (heads c) k) (lru_list c) with
  | Some p => data_at (heads c) p
  | None => sector c k
  end.

(** Which blocks are in use: key to address and reference count. *)
Abbreviation users := (gmap buffer_key (Z * Z)).
Definition refs (c : ide_buffer) (A : users) : Prop :=
  forall k p n, A !! k = Some (p, n) <->
    0 < n /\ exists b, heads c !! p = Some b /\ key b = k /\ b_ref_count b = n.

(** ** Invariant between operations *)
Definition lba_ok (b : buffer_head) : Prop := 0 <= b_blocknr b < 2 ^ 32 - 1.

Record disk_ok (m : gmap Z buffer_head) (dev : Z) (d : disk) : Prop := {
  do_idx : active_dirty_idx d = 0 \/ active_dirty_idx d = 1;
  do_idle : dirty_list d (1 - active_dirty_idx d) = [];
  do_nodup : NoDup (dirty_list d (active_dirty_idx d));
  do_dirty : forall p, p ∈ dirty_list d (active_dirty_idx d) <->
    exists b, m !! p = Some b /\ b_dirty b = true /\ b_dev b = dev;
}.

Record head_ok (c : ide_buffer) (b : buffer_head) : Prop := {
  ho_lba : lba_ok b;
  ho_ref : 0 <= b_ref_count b < 2 ^ 32;
  ho_valid : b_dirty b = true -> b_valid b = true;
  ho_clean : b_valid b = true -> b_dirty b = false -> b_data b = sector c (key b);
}.

Record bc_inv (c : ide_buffer) : Prop := {
  bi_table : table_inv buffer_hash (key_at (heads c)) (hash_table c);
  bi_dom : forall p, p ∈ elems (hash_table c) <-> is_Some (heads c !! p);
  bi_lru : lru_list c ≡ₚ elems (hash_table c);
  bi_cnt : cur_blk_num c = Z.of_nat (length (lru_list c));
  bi_head : forall p b, heads c !! p = Some b -> head_ok c b;
  bi_disk : forall dev, disk_ok (heads c) dev (disk_of c dev);
  bi_null : heads c !! NULL = None;
}.

Lemma block_key_at m p b : m !! p = Some b -> key_at m p = key b.
Proof. unfold key_at. by intros ->. Qed.

Lemma buffer_condition_key m e k : buffer_condition m e k = true <-> key_at m e = k.
Proof. apply bool_decide_eq_true. Qed.

Lemma key_unique c p q b b' : bc_inv c -> heads c !! p = Some b -> heads c !! q = Some b' -> key b = key b' -> p = q.
Proof.
  intros Hc Hp Hq Hk. eapply key_inj; [exact (bi_table _ Hc)|apply (bi_dom _ Hc); eauto..|].
  by rewrite (block_key_at _ p b), (block_key_at _ q b').
Qed.

Lemma in_lru c p : bc_inv c -> p ∈ lru_list c <-> is_Some (heads c !! p).
Proof. intros Hc. rewrite (bi_lru _ Hc). apply (bi_dom _ Hc). Qed.

Lemma blocks_NoDup c : bc_inv c -> NoDup (lru_list c).
Proof. intros Hc. rewrite (bi_lru _ Hc). eapply elems_NoDup, (bi_table _ Hc). Qed.

Lemma block_find c k : bc_inv c ->
  exists r, hash_find buffer_hash (buffer_condition (heads c)) (hash_table c) k = Ok r /\
    forall p, r = Some p <-> exists b, heads c !! p = Some b /\ key b = k.
Proof.
  intros Hc. destruct (hash_find_ok buffer_hash _ _ (buffer_condition_key (heads c)) _ k (bi_table _ Hc))
    as (r & Hr & Hs). exists r. split; [done|]. intros p. rewrite Hs, (bi_dom _ Hc). split.
  - intros [[b Hb] Hk]. exists b. by rewrite <- Hk, (block_key_at _ p b).
  - intros (b & Hb & <-). split; [eauto|]. by apply block_key_at.
Qed.

(** [logical] through the blocks. *)
Lemma logical_hit c p b : bc_inv c -> heads c !! p = Some b ->
  logical c (key b) = if b_valid b then b_data b else sector c (key b).
Proof.
  intros Hc Hb. unfold logical.
  destruct (first_elem (holds (heads c) (key b)) (lru_list c)) as [q|] eqn:Hf.
  - apply first_elem_in in Hf as [_ Hq]. unfold holds in Hq.
    destruct (heads c !! q) as [b'|] eqn:Hb'; [|done].
    apply andb_true_iff in Hq as [Hk%bool_decide_eq_true Hv].
    assert (q = p) as -> by (by eapply (key_unique c)). unfold data_at. rewrite Hb.
    assert (b' = b) as -> by congruence. by rewrite Hv.
  - destruct (b_valid b) eqn:Hv; [|done]. apply first_elem_None in Hf. rewrite Forall_forall in Hf.
    specialize (Hf p (proj2 (in_lru c p Hc) (ex_intro _ b Hb))). unfold holds in Hf.
    rewrite Hb, Hv, bool_decide_true in Hf by done. done.
Qed.

Lemma logical_miss c k : (forall p b, heads c !! p = Some b -> key b <> k) -> logical c k = sector c k.
Proof.
  intros Hn. unfold logical. destruct (first_elem _ _) as [q|] eqn:Hf; [|done].
  apply first_elem_in in Hf as [_ Hq]. unfold holds in Hq.
  destruct (heads c !! q) as [b'|] eqn:Hb'; [|done].
  apply andb_true_iff in Hq as [Hk%bool_decide_eq_true Hv]. by destruct (Hn q b').
Qed.

(** Two caches that agree on the sector under [k] and on the block of [k]. *)
Lemma logical_cases c k : bc_inv c ->
  (exists p b, heads c !! p = Some b /\ key b = k /\ logical c k = if b_valid b then b_data b else sector c k) \/
  ((forall p b, heads c !! p = Some b -> key b <> k) /\ logical c k = sector c k).
Proof.
  intros Hc. destruct (block_find c k Hc) as ([p|] & _ & Hr).
  - destruct (proj1 (Hr p) eq_refl) as (b & Hb & <-). left. exists p, b. split_and!; [done|done|].
    by apply (logical_hit c p).
  - assert (Hn : forall p b, heads c !! p = Some b -> key b <> k).
    { intros p b Hb Hk. discriminate (proj2 (Hr p) (ex_intro _ b (conj Hb Hk))). }
    right. split; [done|]. by apply logical_miss.
Qed.

(** ** One block changes *)
Lemma update_block c p b b' lru dk pl :
  let c' := IdeBuffer (<[p := b']> (heads c)) (hash_table c) lru (cur_blk_num c) (max_blk_num c) dk pl in
  bc_inv c -> heads c !! p = Some b -> key b' = key b -> lru ≡ₚ lru_list c -> head_ok c' b' ->
  (forall k, k <> key b -> sector c' k = sector c k) ->
  (forall dev, disk_ok (<[p := b']> (heads c)) dev (disk_of c' dev)) ->
  bc_inv c' /\
  (forall k, logical c' k =
     if decide (k = key b) then (if b_valid b' then b_data b' else sector c' k) else logical c k).
Proof.
  intros c' Hc Hb Hk Hlru Hb' Hsec Hdk. pose proof Hc as [Ht Hdom Hl Hcnt Hh _ Hnull].
  assert (Hkeys : forall e, key_at (heads c) e = key_at (<[p := b']> (heads c)) e).
  { intros e. unfold key_at. destruct (decide (p = e)) as [->|Hne].
    - by rewrite lookup_insert_eq, Hb, Hk.
    - by rewrite lookup_insert_ne. }
  assert (Hlook : forall q bq, <[p := b']> (heads c) !! q = Some bq ->
    (q = p /\ bq = b') \/ (heads c !! q = Some bq /\ key bq <> key b)).
  { intros q bq Hq. destruct (decide (p = q)) as [->|Hne].
    - rewrite lookup_insert_eq in Hq. left. split; [done|congruence].
    - rewrite lookup_insert_ne in Hq by done. right. split; [done|]. intros He.
      destruct Hne. symmetry. by eapply (key_unique c q p bq b). }
  assert (Hc' : bc_inv c').
  { constructor; cbn [heads hash_table lru_list cur_blk_num c'].
    - eapply table_inv_ext; [|exact Ht]. intros e _. apply Hkeys.
    - intros q. rewrite Hdom. destruct (decide (p = q)) as [->|Hne].
      + rewrite lookup_insert_eq, Hb. split; eauto.
      + by rewrite lookup_insert_ne.
    - by rewrite Hlru.
    - by rewrite Hcnt, Hlru.
    - intros q bq [[-> ->]|[Hq Hne]]%Hlook; [done|]. destruct (Hh q bq Hq) as [H1 H2 H3 H4].
      split; [done..|]. intros Hv Hd. rewrite Hsec by done. auto.
    - done.
    - rewrite lookup_insert_ne by congruence. done. }
  split; [done|]. intros k. destruct (decide (k = key b)) as [->|Hne].
  - rewrite <- Hk. apply (logical_hit c' p); [done|]. cbn. by rewrite lookup_insert_eq.
  - destruct (logical_cases c k Hc) as [(q & bq & Hq & <- & ->)|[Hn ->]].
    + rewrite (logical_hit c' q bq Hc'); [by rewrite Hsec|]. cbn. rewrite lookup_insert_ne; [done|].
      congruence.
    + rewrite <- Hsec by done. apply logical_miss. intros q bq [[-> ->]|[Hq _]]%Hlook; [congruence|eauto].
Qed.

Lemma disk_ok_update m p b b' dev d :
  disk_ok m dev d -> m !! p = Some b -> b_dirty b' = b_dirty b -> b_dev b' = b_dev b ->
  disk_ok (<[p := b']> m) dev d.
Proof.
  intros [H1 H2 H3 H4] Hb Hd Hv. split; [done..|]. intros q. rewrite H4.
  destruct (decide (p = q)) as [->|Hne].
  - rewrite Hb, lookup_insert_eq. split; intros (b0 & E & E1 & E2); [exists b'|exists b]; split_and!; congruence.
  - by rewrite lookup_insert_ne.
Qed.

Lemma disk_ok_dirty m p b b' dev d :
  disk_ok m dev d -> m !! p = Some b -> b_dirty b = false -> b_dirty b' = true -> b_dev b' = dev ->
  disk_ok (<[p := b']> m) dev
    (set_dirty_list d (active_dirty_idx d) (dirty_list d (active_dirty_idx d) ++ [p])).
Proof.
  intros [H1 H2 H3 H4] Hb Hd Hd' Hv.
  assert (Hp : p ∉ dirty_list d (active_dirty_idx d)) by (intros (b0 & E & ? & ?)%H4; congruence).
  assert (Hl : forall q, q ∈ dirty_list d (active_dirty_idx d) ++ [p] <->
    exists b0, <[p := b']> m !! q = Some b0 /\ b_dirty b0 = true /\ b_dev b0 = dev).
  { intros q. rewrite elem_of_app, H4, list_elem_of_singleton. destruct (decide (p = q)) as [->|Hne].
    - split; [|auto]. intros _. exists b'. by rewrite lookup_insert_eq.
    - rewrite lookup_insert_ne by done. split; [intros [?|?]; [done|congruence]|auto]. }
  assert (Hnd : NoDup (dirty_list d (active_dirty_idx d) ++ [p])).
  { apply NoDup_app. split_and!; [done|set_solver|apply NoDup_singleton]. }
  unfold set_dirty_list, dirty_list in *.
  destruct H1 as [H1|H1]; rewrite H1 in *; cbn in *; split; cbn; try rewrite H1; cbn; auto.
Qed.

Lemma disk_ok_other m p b b' dev d :
  disk_ok m dev d -> m !! p = Some b -> b_dev b <> dev -> b_dev b' <> dev -> disk_ok (<[p := b']> m) dev d.
Proof.
  intros [H1 H2 H3 H4] Hb Hd Hv. split; [done..|]. intros q. rewrite H4.
  destruct (decide (p = q)) as [->|Hne].
  - rewrite Hb, lookup_insert_eq. split; intros (b0 & E & E1 & E2); [exists b'|exists b]; split_and!; congruence.
  - by rewrite lookup_insert_ne.
Qed.

Lemma disk_ok_clean m p b b' dev d :
  disk_ok m dev d -> m !! p = Some b -> b_dirty b' = false -> b_dev b' = b_dev b ->
  disk_ok (<[p := b']> m) dev
    (Disk (active_dirty_idx d) (filter (fun x => x <> p) (dirty_list0 d)) (filter (fun x => x <> p) (dirty_list1 d))).
Proof.
  intros [H1 H2 H3 H4] Hb Hd Hv.
  assert (Hl : forall q, q ∈ filter (fun x => x <> p) (dirty_list d (active_dirty_idx d)) <->
    exists b0, <[p := b']> m !! q = Some b0 /\ b_dirty b0 = true /\ b_dev b0 = dev).
  { intros q. rewrite list_elem_of_filter, H4. destruct (decide (p = q)) as [->|Hne].
    - rewrite lookup_insert_eq. split; [by intros [? _]|]. intros (b0 & E & ? & ?). congruence.
    - rewrite lookup_insert_ne by done. split; [by intros [_ ?]|]. intros ?. split; [congruence|done]. }
  pose proof (filter_ne_NoDup p _ H3) as Hnd. unfold dirty_list in *.
  destruct d as [i l0 l1]. cbn [active_dirty_idx dirty_list0 dirty_list1] in *.
  destruct H1 as [-> | ->]; [change (1 - 0 =? 0) with false in *; change (0 =? 0) with true in *|
    change (1 - 1 =? 0) with true in *; change (1 =? 0) with false in *]; cbv iota in *; subst;
    split; [auto|done|exact Hnd|exact Hl|auto|done|exact Hnd|exact Hl].
Qed.

Lemma disk_of_set c dev d dev' : disk_of (set_disk dev d c) dev' = if decide (dev = dev') then d else disk_of c dev'.
Proof. unfold disk_of. cbn. rewrite lookup_insert. by destruct (decide (dev = dev')). Qed.

(** Users. *)
Definition set_users (A : users) (k : buffer_key) (p n : Z) : users :=
  if 0 <? n then <[k := (p, n)]> A else delete k A.

Lemma refs_update c c' A p b b' :
  bc_inv c -> refs c A -> heads c !! p = Some b -> heads c' = <[p := b']> (heads c) -> key b' = key b ->
  refs c' (set_users A (key b) p (b_ref_count b')).
Proof.
  intros Hc HA Hb Hh Hk k q n. rewrite Hh. unfold set_users.
  destruct (decide (k = key b)) as [->|Hne].
  - transitivity (0 < n /\ q = p /\ b_ref_count b' = n).
    { bdestr; [rewrite lookup_insert_eq|rewrite lookup_delete_eq]; split.
      - intros [= <- <-]. done.
      - by intros (? & -> & ->).
      - done.
      - intros (? & ? & ?). lia. }
    split.
    + intros (Hn & -> & <-). split; [done|]. exists b'. by rewrite lookup_insert_eq.
    + intros (Hn & y & Hy & Hyk & Hyn). assert (q = p) as ->.
      { destruct (decide (p = q)) as [|Hqp]; [done|]. rewrite lookup_insert_ne in Hy by done.
        by eapply (key_unique c q p y b). }
      rewrite lookup_insert_eq in Hy. injection Hy as <-. done.
  - transitivity (A !! k = Some (q, n)).
    { bdestr; [by rewrite lookup_insert_ne|by rewrite lookup_delete_ne]. }
    rewrite (HA k q n). split; intros (Hn & y & Hy & Hyk & Hyn); (split; [done|]); exists y.
    + rewrite lookup_insert_ne by congruence. done.
    + destruct (decide (p = q)) as [->|Hqp]; [rewrite lookup_insert_eq in Hy; congruence|].
      by rewrite lookup_insert_ne in Hy.
Qed.

Lemma refs_same c c' A :
  (forall q, (fun b => (key b, b_ref_count b)) <$> heads c' !! q = (fun b => (key b, b_ref_count b)) <$> heads c !! q) ->
  refs c A -> refs c' A.
Proof.
  intros Hq HA k p n. rewrite (HA k p n). specialize (Hq p).
  destruct (heads c' !! p) as [b1|], (heads c !! p) as [b2|]; cbn in Hq; [|discriminate Hq..|done].
  injection Hq as Hk1 Hk2 Hr. assert (Hk : key b1 = key b2) by (unfold key; congruence).
  split; intros (Hn & b & [= <-] & <- & <-); (split; [done|]); [exists b1|exists b2]; split_and!; congruence.
Qed.

Lemma linked_dirty c dev p : disk_ok (heads c) dev (disk_of c dev) ->
  dirty_linked c dev p = true <-> exists b, heads c !! p = Some b /\ b_dirty b = true /\ b_dev b = dev.
Proof.
  intros [Hi Hz _ Hm]. unfold dirty_linked. rewrite bool_decide_eq_true, <- Hm. clear Hm.
  destruct (disk_of c dev) as [i l0 l1]. unfold dirty_list in *. cbn [active_dirty_idx dirty_list0 dirty_list1] in *.
  destruct Hi as [-> | ->]; [change (1 - 0 =? 0) with false in Hz; change (0 =? 0) with true|
    change (1 - 1 =? 0) with true in Hz; change (1 =? 0) with false]; cbv iota in *; subst; rewrite ?app_nil_r; done.
Qed.

(** ** Eviction *)
Lemma blk_evict_ok c A v b :
  bc_inv c -> refs c A -> heads c !! v = Some b -> b_ref_count b = 0 -> b_dirty b = false ->
  exists c', blk_evict c v = Ok c' /\ bc_inv c' /\ refs c' A /\ (forall k, logical c' k = logical c k) /\
    heads c' = delete v (heads c) /\ max_blk_num c' = max_blk_num c /\
    (length (lru_list c) = S (length (lru_list c')))%nat.
Proof.
  intros Hc HA Hb Hr Hd. pose proof Hc as [Ht Hdom Hl Hcnt Hh Hdk Hnull].
  assert (Hv : v ∈ elems (hash_table c)) by (apply Hdom; eauto).
  assert (Hvl : v ∈ lru_list c) by (by rewrite Hl).
  unfold blk_evict. rewrite Hb. ok_simpl. rewrite Hr. ok_simpl.
  destruct (hash_remove_ok buffer_hash _ _ v Ht Hv) as (h & -> & Ht' & He). ok_simpl.
  rewrite (proj2 (unlink_ok v (lru_list c) _) (conj Hvl eq_refl)). ok_simpl.
  assert (Hnl : dirty_linked c (b_dev b) v = false).
  { apply not_true_is_false. intros (b0 & E & E1 & _)%(linked_dirty c _ v (Hdk (b_dev b))). congruence. }
  rewrite Hnl. ok_simpl. eexists. split; [done|].
  pose proof (filter_ne_perm _ v (blocks_NoDup c Hc) Hvl) as Hperm. apply Permutation_length in Hperm. cbn in Hperm.
  set (c' := IdeBuffer _ _ _ _ _ _ _).
  assert (Hc' : bc_inv c').
  { constructor; cbn [heads hash_table lru_list cur_blk_num c'].
    - eapply table_inv_ext; [|exact Ht']. intros e Hin. rewrite He in Hin.
      apply list_elem_of_filter in Hin as [Hne _]. unfold key_at. by rewrite lookup_delete_ne.
    - intros p. rewrite He, list_elem_of_filter, Hdom. destruct (decide (v = p)) as [->|Hne].
      + rewrite lookup_delete_eq. split; [by intros []|by intros [? ?]].
      + rewrite lookup_delete_ne by done. split; [by intros []|]. intros ?. split; [congruence|done].
    - by rewrite He, Hl.
    - rewrite Hcnt, Hperm. rewrite u32_small; [lia|].
      pose proof (ti_count _ _ _ Ht) as [_ Hlt]. rewrite <- (Permutation_length Hl) in Hlt. lia.
    - intros p b' [Hne Hp]%lookup_delete_Some. destruct (Hh p b' Hp) as [H1 H2 H3 H4]. by split.
    - intros dev. change (disk_of c' dev) with (disk_of c dev). destruct (Hdk dev) as [H1 H2 H3 H4].
      split; [done..|]. intros p. rewrite H4. destruct (decide (v = p)) as [->|Hne].
      + rewrite Hb, lookup_delete_eq. split; intros (b0 & E & E1 & E2); congruence.
      + by rewrite lookup_delete_ne.
    - rewrite lookup_delete_ne by congruence. done. }
  split_and!; [done| | |done|done|done].
  - intros k p n. rewrite (HA k p n). cbn. destruct (decide (v = p)) as [->|Hne].
    + rewrite lookup_delete_eq, Hb. split; intros (Hn & b0 & E & E1 & E2); [|congruence].
      injection E as <-. lia.
    + by rewrite lookup_delete_ne.
  - intros k. destruct (logical_cases c k Hc) as [(q & bq & Hq & <- & ->)|[Hn ->]].
    + destruct (decide (v = q)) as [->|Hne].
      * assert (bq = b) as -> by congruence. rewrite logical_miss.
        -- change (sector c' (key b)) with (sector c (key b)). destruct (b_valid b) eqn:Hvb; [|done].
           symmetry. by apply (Hh q b Hb).
        -- cbn. intros p b' [Hne Hp]%lookup_delete_Some Hk. destruct Hne. by eapply (key_unique c q p b b').
      * rewrite (logical_hit c' q bq Hc'); [done|]. cbn. by rewrite lookup_delete_ne.
    + change (sector c k) with (sector c' k). apply logical_miss. cbn. intros p b' [Hne Hp]%lookup_delete_Some. by eapply Hn.
Qed.

(** The write-back before the eviction. *)
Lemma flush_ok c A v b :
  bc_inv c -> refs c A -> heads c !! v = Some b -> b_dirty b = true ->
  exists c1, dirty_unlink c (b_dev b) v = Ok c1 /\
  exists c2, with_head (ide_write c1 (b_dev b) (b_blocknr b) (b_data b)) v (set_dirty false) = Ok c2 /\
    bc_inv c2 /\ refs c2 A /\ (forall k, logical c2 k = logical c k) /\
    heads c2 = <[v := set_dirty false b]> (heads c) /\ max_blk_num c2 = max_blk_num c /\
    lru_list c2 = lru_list c.
Proof.
  intros Hc HA Hb Hd. pose proof (bi_disk _ Hc (b_dev b)) as Hdk.
  unfold dirty_unlink. replace (dirty_linked c (b_dev b) v) with true.
  2: { symmetry. apply (linked_dirty c _ v Hdk). eauto. }
  eexists. split; [done|]. unfold with_head. cbn. rewrite Hb. ok_simpl. eexists. split; [done|].
  pose proof (bi_head _ Hc v b Hb) as [Hb1 Hb2 Hb3 Hb4].
  unfold ide_write, set_platter, set_heads, set_disk.
  cbn [heads hash_table lru_list cur_blk_num max_blk_num disks platter].
  set (dk := <[b_dev b := _]> (disks c)).
  destruct (update_block c v b (set_dirty false b) (lru_list c) dk (<[(b_blocknr b, b_dev b) := b_data b]> (platter c))
    Hc Hb eq_refl) as [Hc' Hl']; [done| | | |].
  - split; [done..|]. intros _ _. unfold sector. cbn. by rewrite lookup_insert_eq.
  - intros k Hk. unfold sector. cbn. rewrite lookup_insert_ne; [done|]. unfold key in Hk. congruence.
  - intros dev. unfold disk_of. cbn. unfold dk. destruct (decide (b_dev b = dev)) as [<-|Hne].
    + rewrite lookup_insert_eq. cbn. by eapply disk_ok_clean.
    + rewrite lookup_insert_ne by done. eapply disk_ok_other; [apply Hc|done|done|done].
  - split_and!; [exact Hc'| | |done|done|done].
    + eapply refs_same; [|exact HA]. intros q. cbn. destruct (decide (v = q)) as [->|Hne].
      * by rewrite lookup_insert_eq, Hb.
      * by rewrite lookup_insert_ne.
    + intros k. rewrite Hl'. case_decide as Hk; [|done]. subst k. rewrite (logical_hit c v b Hc Hb).
      cbn. by rewrite Hb3.
Qed.

Lemma no_victim c A : bc_inv c -> refs c A -> find_victim c = None -> (length (lru_list c) <= size A)%nat.
Proof.
  intros Hc HA Hv. apply first_elem_None in Hv. rewrite Forall_forall in Hv.
  rewrite <- (length_fmap (key_at (heads c))), <- size_dom.
  rewrite <- (size_list_to_set (C := gset buffer_key)).
  - apply subseteq_size. intros k [p [-> Hp]]%elem_of_list_to_set%list_elem_of_fmap.
    destruct (proj1 (in_lru c p Hc) Hp) as [b Hb]. specialize (Hv p Hp). rewrite Hb in Hv.
    apply Z.eqb_neq in Hv. pose proof (ho_ref _ _ (bi_head _ Hc p b Hb)).
    apply elem_of_dom. exists (p, b_ref_count b). apply HA. split; [lia|].
    exists b. by rewrite (block_key_at _ p b).
  - rewrite (bi_lru _ Hc). apply (bi_table _ Hc).
Qed.

Lemma reclaim_ok fuel c A :
  bc_inv c -> refs c A -> Z.of_nat (size A) < reclaim_limit c -> (length (lru_list c) < fuel)%nat ->
  exists c', reclaim fuel c = Ok c' /\ bc_inv c' /\ refs c' A /\ (forall k, logical c' k = logical c k) /\
    max_blk_num c' = max_blk_num c /\ cur_blk_num c' < reclaim_limit c /\
    (forall p b, heads c' !! p = Some b -> exists b0, heads c !! p = Some b0 /\ key b0 = key b).
Proof.
  revert c. induction fuel as [|fuel IH]; intros c Hc HA Hsz Hlen; [lia|]. cbn [reclaim].
  destruct (Z.ltb_spec (cur_blk_num c) (reclaim_limit c)).
  { exists c. split_and!; [done..|]. eauto. }
  destruct (find_victim c) as [v|] eqn:Hv.
  2: { pose proof (no_victim c A Hc HA Hv). pose proof (bi_cnt _ Hc). lia. }
  apply first_elem_in in Hv as [Hvl Hv]. destruct (heads c !! v) as [b|] eqn:Hb; [|done].
  apply Z.eqb_eq in Hv. ok_simpl.
  assert (Hstep : forall c2, bc_inv c2 -> refs c2 A -> (forall k, logical c2 k = logical c k) ->
    heads c2 = <[v := set_dirty false b]> (heads c) -> max_blk_num c2 = max_blk_num c ->
    length (lru_list c2) = length (lru_list c) ->
    exists c', (c3 ← blk_evict c2 v; reclaim fuel c3) = Ok c' /\ bc_inv c' /\ refs c' A /\
      (forall k, logical c' k = logical c k) /\
    max_blk_num c' = max_blk_num c /\ cur_blk_num c' < reclaim_limit c /\
    (forall p b, heads c' !! p = Some b -> exists b0, heads c !! p = Some b0 /\ key b0 = key b)).
  { intros c2 Hc2 HA2 Hl2 Hh2 Hm2 Hlen2.
    destruct (blk_evict_ok c2 A v (set_dirty false b) Hc2 HA2) as (c3 & -> & Hc3 & HA3 & Hl3 & Hh3 & Hm3 & Hlen3);
      [by rewrite Hh2, lookup_insert_eq|done|done|]. ok_simpl.
    assert (Hlim : reclaim_limit c3 = reclaim_limit c) by (unfold reclaim_limit; congruence).
    destruct (IH c3 Hc3 HA3) as (c' & -> & Hc' & HA' & Hl' & Hm' & Hcur & Hk'); [congruence|lia|].
    exists c'. split_and!; [done|done|done| |congruence|congruence|].
    - intros k. by rewrite Hl', Hl3, Hl2.
    - intros p b' (b0 & Hp & Hkp)%Hk'. rewrite Hh3 in Hp. apply lookup_delete_Some in Hp as [Hne Hp].
      rewrite Hh2, lookup_insert_ne in Hp by done. eauto. }
  destruct (b_dirty b) eqn:Hd.
  - destruct (flush_ok c A v b Hc HA Hb Hd) as (c1 & -> & c2 & Hw & Hc2 & HA2 & Hl2 & Hh2 & Hm2 & Hlen2).
    ok_simpl. rewrite Hw. ok_simpl. apply Hstep; auto. congruence.
  - apply Hstep; auto. rewrite insert_id; [done|]. rewrite Hb. f_equal. destruct b; cbn in *. by subst.
Qed.

(** ** [getblk] and [brelse] *)
Definition take_user (A : users) (k : buffer_key) (p : Z) (A' : users) : Prop :=
  match A !! k with
  | Some (q, n) => p = q /\ A' = <[k := (p, n + 1)]> A
  | None => A' = <[k := (p, 1)]> A
  end.

(** A task may ask for one more block: not all blocks the cache may hold are in use. *)
Record room (c : ide_buffer) (A : users) : Prop := {
  rm_limit : Z.of_nat (size A) < reclaim_limit c;
  rm_small : forall k p n, A !! k = Some (p, n) -> n + 1 < 2 ^ 32;
}.

(** [kmalloc] succeeds and returns memory that is not in use. *)
Hypothesis kmalloc_fresh : forall m, m !! (kmalloc m).1 = None /\ (kmalloc m).1 <> NULL.

Lemma take_ref_ok c A p b lru :
  bc_inv c -> refs c A -> heads c !! p = Some b -> lru ≡ₚ lru_list c ->
  (forall k p n, A !! k = Some (p, n) -> n + 1 < 2 ^ 32) ->
  let c' := set_lru lru (set_heads (<[p := take_ref b]> (heads c)) c) in
  bc_inv c' /\ (exists A', refs c' A' /\ take_user A (key b) p A') /\ (forall k, logical c' k = logical c k).
Proof.
  intros Hc HA Hb Hlru Hsm c'. pose proof (bi_head _ Hc p b Hb) as [Hb1 Hb2 Hb3 Hb4].
  assert (Hn : b_ref_count b + 1 < 2 ^ 32).
  { destruct (decide (b_ref_count b = 0)); [lia|]. apply (Hsm (key b) p). apply HA. split; [lia|eauto]. }
  assert (Hr : b_ref_count (take_ref b) = b_ref_count b + 1) by (cbn; apply u32_small; lia).
  destruct (update_block c p b (take_ref b) lru (disks c) (platter c) Hc Hb eq_refl Hlru) as [Hc' Hl'].
  - split; [done|rewrite Hr; lia|done|done].
  - done.
  - intros dev. by apply (disk_ok_update _ _ b); [apply Hc|..].
  - split_and!; [exact Hc'| |].
    + eexists. split; [by apply (refs_update c c' A p b (take_ref b))|]. unfold set_users.
      rewrite Hr, (proj2 (Z.ltb_lt 0 _)) by lia. unfold take_user.
      destruct (A !! key b) as [[q n]|] eqn:HAk.
      * apply HA in HAk as (Hn0 & b0 & Hq & Hk & Hrn). assert (q = p) as -> by (by eapply (key_unique c)).
        assert (b0 = b) as -> by congruence. by rewrite Hrn.
      * destruct (decide (b_ref_count b = 0)) as [->|]; [done|].
        assert (A !! key b = Some (p, b_ref_count b)); [|congruence]. apply HA. split; [lia|eauto].
    + intros k. rewrite Hl'. case_decide; [|done]. subst k. by rewrite (logical_hit c p b).
Qed.

Lemma new_head_ok c A p d lba dev :
  bc_inv c -> refs c A -> heads c !! p = None -> p <> NULL -> 0 <= lba < 2 ^ 32 - 1 ->
  (forall q b, heads c !! q = Some b -> key b <> (lba, dev)) -> cur_blk_num c + 1 < 2 ^ 32 ->
  let b := BufferHead lba dev false false 1 d in
  let m := <[p := b]> (heads c) in
  exists h, hash_insert buffer_hash (buffer_condition m) (hash_table c) (lba, dev) p = Ok h /\
    let c' := IdeBuffer m h (lru_list c ++ [p]) (u32 (cur_blk_num c + 1)) (max_blk_num c) (disks c) (platter c) in
    bc_inv c' /\ refs c' (<[(lba, dev) := (p, 1)]> A) /\ A !! (lba, dev) = None /\
    (forall k, logical c' k = logical c k).
Proof.
  intros Hc HA Hp Hnz Hlba Hno Hlt b m. pose proof Hc as [Ht Hdom Hl Hcnt Hh Hdk Hnull].
  assert (Hpe : p ∉ elems (hash_table c)) by (rewrite Hdom, Hp; by intros [? ?]).
  assert (Hkeys : forall e, e ∈ elems (hash_table c) -> key_at (heads c) e = key_at m e).
  { intros e He. unfold key_at, m. rewrite lookup_insert_ne; [done|]. congruence. }
  assert (Hka : key_at m p = (lba, dev)) by (unfold key_at, m; by rewrite lookup_insert_eq).
  destruct (hash_insert_ok buffer_hash (buffer_condition m) _ (buffer_condition_key m) (hash_table c) p) as (h & Hrun & Hi & Hpm).
  { eapply table_inv_ext; [exact Hkeys|exact Ht]. }
  { rewrite <- (Permutation_length Hl), <- Hcnt. done. }
  { rewrite Hka. intros (q & Hq & Hqe)%list_elem_of_fmap. rewrite <- Hkeys in Hq by done.
    apply Hdom in Hqe as [bq Hbq]. rewrite (block_key_at _ q bq Hbq) in Hq. by destruct (Hno q bq). }
  rewrite Hka in Hrun. exists h. split; [done|]. set (c' := IdeBuffer _ _ _ _ _ _ _).
  assert (Hlook : forall q bq, m !! q = Some bq -> (q = p /\ bq = b) \/ (q <> p /\ heads c !! q = Some bq)).
  { intros q bq. unfold m. destruct (decide (p = q)) as [->|Hne].
    - rewrite lookup_insert_eq. intros [= <-]. by left.
    - rewrite lookup_insert_ne by done. right. by split. }
  assert (Hc' : bc_inv c').
  { constructor; cbn [heads hash_table lru_list cur_blk_num c'].
    - done.
    - intros q. rewrite Hpm, elem_of_cons, Hdom. unfold m. destruct (decide (p = q)) as [->|Hne].
      + rewrite lookup_insert_eq. split; [eauto|by left].
      + rewrite lookup_insert_ne by done. split; [intros [?|?]; [congruence|done]|by right].
    - by rewrite Hpm, Hl, Permutation_app_comm.
    - rewrite length_app, u32_small by (pose proof (bi_cnt _ Hc); lia). cbn. lia.
    - intros q bq [[-> ->]|[_ Hq]]%Hlook; [by split; cbn|]. destruct (Hh q bq Hq) as [H1 H2 H3 H4]. by split.
    - intros dv. change (disk_of c' dv) with (disk_of c dv). destruct (Hdk dv) as [H1 H2 H3 H4].
      split; [done..|]. intros q. rewrite H4. unfold m. destruct (decide (p = q)) as [->|Hne].
      + rewrite Hp, lookup_insert_eq. split; intros (b0 & E & E1 & E2); [congruence|].
        injection E as <-. discriminate E1.
      + by rewrite lookup_insert_ne.
    - unfold m. by rewrite lookup_insert_ne. }
  assert (HAn : A !! (lba, dev) = None).
  { destruct (A !! (lba, dev)) as [[q n]|] eqn:E; [|done]. apply HA in E as (_ & bq & Hq & Hk & _).
    by destruct (Hno q bq). }
  split_and!; [done| |done|].
  - intros k q n. cbn [heads c']. destruct (decide (k = (lba, dev))) as [->|Hne].
    + rewrite lookup_insert_eq. split.
      * intros [= <- <-]. split; [done|]. exists b. unfold m. by rewrite lookup_insert_eq.
      * intros (Hn & bq & [[-> ->]|[_ Hq]]%Hlook & Hk & Hr); [by rewrite <- Hr|by destruct (Hno q bq)].
    + rewrite lookup_insert_ne by done. rewrite (HA k q n). split; intros (Hn & bq & Hq & Hk & Hr); (split; [done|]).
      * exists bq. unfold m. rewrite lookup_insert_ne by congruence. done.
      * apply Hlook in Hq as [[-> ->]|[_ Hq]]; [by destruct Hne|eauto].
  - intros k. destruct (logical_cases c k Hc) as [(q & bq & Hq & <- & ->)|[Hn ->]].
    + rewrite (logical_hit c' q bq Hc'); [done|]. cbn. unfold m. rewrite lookup_insert_ne by congruence. done.
    + destruct (decide (k = (lba, dev))) as [->|Hne].
      * change (lba, dev) with (key b) at 1. rewrite (logical_hit c' p b Hc'); [done|].
        cbn. unfold m. by rewrite lookup_insert_eq.
      * change (sector c k) with (sector c' k). apply logical_miss.
        intros q bq [[-> ->]|[_ Hq]]%Hlook; [by intros <-|by eapply Hn].
Qed.

Lemma getblk_ok c A dev lba :
  bc_inv c -> refs c A -> room c A -> 0 <= lba < 2 ^ 32 - 1 ->
  exists p c' A' b, getblk c dev lba = Ok (p, c') /\ bc_inv c' /\ refs c' A' /\ take_user A (lba, dev) p A' /\
    heads c' !! p = Some b /\ key b = (lba, dev) /\ max_blk_num c' = max_blk_num c /\
    (forall k, logical c' k = logical c k).
Proof.
  intros Hc HA [Hlim Hsm] Hlba. unfold getblk.
  destruct (block_find c (lba, dev) Hc) as (r & -> & Hr). ok_simpl. destruct r as [p|].
  - destruct (proj1 (Hr p) eq_refl) as (b & Hb & Hk). unfold with_head. rewrite Hb. ok_simpl.
    assert (Hpl : p ∈ lru_list c) by (apply (in_lru c p Hc); eauto).
    cbn [lru_list set_heads]. rewrite (proj2 (unlink_ok p (lru_list c) _) (conj Hpl eq_refl)). ok_simpl.
    destruct (take_ref_ok c A p b (filter (fun x => x <> p) (lru_list c) ++ [p]) Hc HA Hb) as
      (Hc' & (A' & HA' & Ht) & Hl'); [|done|].
    { rewrite (filter_ne_perm (lru_list c) p (blocks_NoDup _ Hc) Hpl) at 2. by rewrite Permutation_app_comm. }
    rewrite Hk in Ht. eexists p, _, A', (take_ref b). split_and!; try done. cbn. by rewrite lookup_insert_eq.
  - destruct (reclaim_ok (S (length (lru_list c))) c A Hc HA Hlim) as
      (c1 & -> & Hc1 & HA1 & Hl1 & Hm1 & Hcur & Hk1); [lia|]. ok_simpl.
    destruct (kmalloc (heads c1)) as [p d] eqn:Hp.
    destruct (kmalloc_fresh (heads c1)) as [Hfresh Hnull]. rewrite Hp in Hfresh, Hnull. cbn [fst] in Hfresh, Hnull.
    destruct (block_find c1 (lba, dev) Hc1) as (r1 & -> & Hr1). ok_simpl.
    assert (Hno : forall q b, heads c1 !! q = Some b -> key b <> (lba, dev)).
    { intros q b (b0 & Hb0 & Hk0)%Hk1 Hk. rewrite Hk in Hk0. discriminate (proj2 (Hr q) (ex_intro _ b0 (conj Hb0 Hk0))). }
    destruct r1 as [q|].
    { destruct (proj1 (Hr1 q) eq_refl) as (b & Hb & Hk). by destruct (Hno q b). }
    pose proof (bi_cnt _ Hc1). assert (Hx : reclaim_limit c < 2 ^ 32 - 1).
    { unfold reclaim_limit. pose proof (u32_range (max_blk_num c * 9)) as Hu. apply Z.div_lt_upper_bound; [lia|].
      revert Hu. generalize (u32 (max_blk_num c * 9)). lia. }
    destruct (new_head_ok c1 A p d lba dev Hc1 HA1 Hfresh Hnull Hlba Hno) as (h & -> & Hc2 & HA2 & HAn & Hl2); [lia|].
    ok_simpl. eexists p, _, _, (BufferHead lba dev false false 1 d). split_and!; [done|exact Hc2|exact HA2| | |done|done|].
    + unfold take_user. by rewrite HAn.
    + cbn. by rewrite lookup_insert_eq.
    + intros k. by rewrite Hl2, Hl1.
Qed.

Lemma brelse_ok c A k p n :
  bc_inv c -> refs c A -> A !! k = Some (p, n) ->
  exists c', brelse c p = Ok c' /\ bc_inv c' /\ refs c' (set_users A k p (n - 1)) /\
    max_blk_num c' = max_blk_num c /\ (forall x, logical c' x = logical c x) /\
    exists b, heads c !! p = Some b /\ heads c' !! p = Some (set_ref (n - 1) b).
Proof.
  intros Hc HA Hk. pose proof (proj1 (HA k p n) Hk) as (Hn & b & Hb & Hbk & Hbn).
  unfold brelse. destruct (Z.eqb_spec p NULL) as [->|Hp]; [rewrite (bi_null _ Hc) in Hb; discriminate Hb|].
  rewrite Hb. ok_simpl. rewrite (proj2 (Z.ltb_lt 0 _)) by lia. unfold with_head. rewrite Hb. ok_simpl.
  pose proof (bi_head _ Hc p b Hb) as [Hb1 Hb2 Hb3 Hb4].
  destruct (update_block c p b (set_ref (b_ref_count b - 1) b) (lru_list c) (disks c) (platter c) Hc Hb eq_refl)
    as [Hc' Hl']; [done|split; [done|cbn; lia|done|done]|done| |].
  - intros dev. by apply (disk_ok_update _ _ b); [apply Hc|..].
  - eexists. split; [done|]. split_and!; [exact Hc'| |done| |exists b; split; [done|by subst n; apply lookup_insert_eq]].
    + rewrite <- Hbn, <- Hbk. by apply (refs_update c _ A p b (set_ref (b_ref_count b - 1) b)).
    + intros x. etransitivity; [apply Hl'|]. case_decide; [|done]. subst x. by rewrite (logical_hit c p b).
Qed.

Lemma take_user_back A k p A' : take_user A k p A' -> (forall k p n, A !! k = Some (p, n) -> 0 < n) ->
  exists n, A' !! k = Some (p, n) /\ set_users A' k p (n - 1) = A.
Proof.
  intros Ht Hpos. unfold take_user in Ht. destruct (A !! k) as [[q n]|] eqn:HA.
  - destruct Ht as [-> ->]. exists (n + 1). rewrite lookup_insert_eq. split; [done|]. unfold set_users.
    pose proof (Hpos k q n HA). rewrite (proj2 (Z.ltb_lt 0 _)) by lia. rewrite insert_insert_eq.
    replace (n + 1 - 1) with n by lia. by apply insert_id.
  - subst A'. exists 1. rewrite lookup_insert_eq. split; [done|]. unfold set_users. cbn. by apply delete_insert_id.
Qed.

Lemma refs_pos c A : refs c A -> forall k p n, A !! k = Some (p, n) -> 0 < n.
Proof. intros HA k p n Hk. by apply HA in Hk as [? _]. Qed.

(** Give a block back that was just taken. *)
Lemma give_back_ok c c1 A A' k p :
  bc_inv c1 -> refs c A -> refs c1 A' -> take_user A k p A' ->
  exists c', brelse c1 p = Ok c' /\ bc_inv c' /\ refs c' A /\ max_blk_num c' = max_blk_num c1 /\
    (forall x, logical c' x = logical c1 x) /\
    exists b n, heads c1 !! p = Some b /\ heads c' !! p = Some (set_ref n b).
Proof.
  intros Hc1 HA HA' Ht. destruct (take_user_back A k p A' Ht (refs_pos c A HA)) as (n & Hn & Hs).
  destruct (brelse_ok c1 A' k p n Hc1 HA' Hn) as (c' & Hrun & Hc' & Hr & Hm & Hl & b & Hb). rewrite Hs in Hr.
  exists c'. split_and!; eauto.
Qed.

Lemma room_max c c' A : max_blk_num c' = max_blk_num c -> room c A -> room c' A.
Proof. intros Hm [H1 H2]. split; [|done]. unfold reclaim_limit in *. by rewrite Hm. Qed.

(** ** The clients' operations *)

(** [_bread] returns a valid block with the current contents of the sector. *)
Lemma bread_ok c A dev lba :
  bc_inv c -> refs c A -> room c A -> 0 <= lba < 2 ^ 32 - 1 ->
  exists p c' A' b, _bread c dev lba = Ok (p, c') /\ bc_inv c' /\ refs c' A' /\ take_user A (lba, dev) p A' /\
    heads c' !! p = Some b /\ key b = (lba, dev) /\ b_valid b = true /\ b_data b = logical c (lba, dev) /\
    (forall k, logical c' k = logical c k).
Proof.
  intros Hc HA Hrm Hlba. unfold _bread.
  destruct (getblk_ok c A dev lba Hc HA Hrm Hlba) as (p & c1 & A' & b & -> & Hc1 & HA1 & Ht & Hb & Hk & _ & Hl).
  ok_simpl. rewrite Hb. ok_simpl. pose proof (logical_hit c1 p b Hc1 Hb) as Hlog. rewrite Hk, Hl in Hlog.
  destruct (b_valid b) eqn:Hv; [exists p, c1, A', b; by split_and!|].
  unfold with_head. rewrite Hb. ok_simpl. unfold set_heads.
  set (b' := set_dirty false _). pose proof (bi_head _ Hc1 p b Hb) as [Hb1 Hb2 Hb3 Hb4].
  destruct (update_block c1 p b b' (lru_list c1) (disks c1) (platter c1) Hc1 Hb eq_refl) as [Hc' Hl'].
  - done.
  - split; [done|done|done|]. intros _ _. cbn. unfold ide_read, key. cbn. unfold key in Hk. by rewrite Hk.
  - done.
  - intros dv. apply (disk_ok_update _ _ b); [apply Hc1|done| |done].
    cbn. destruct (b_dirty b) eqn:Hd; [|done]. by rewrite (Hb3 eq_refl) in Hv.
  - eexists p, _, A', b'. split; [done|]. split_and!; [exact Hc'| |done| |exact Hk|done| |].
    + eapply refs_same; [|exact HA1]. intros q. cbn. destruct (decide (p = q)) as [->|Hne].
      * by rewrite lookup_insert_eq, Hb.
      * by rewrite lookup_insert_ne.
    + cbn. by rewrite lookup_insert_eq.
    + cbn. by rewrite Hlog.
    + intros k. etransitivity; [apply Hl'|]. rewrite <- Hl. case_decide; [|done]. subst k.
      cbn. rewrite Hk, Hl, Hlog. reflexivity.
Qed.

Lemma mark_dirty_ok c A p b :
  bc_inv c -> refs c A -> heads c !! p = Some b -> b_dirty b = false ->
  forall d, let b' := set_dirty true (set_valid true (set_data d b)) in
  let dk := disk_of c (b_dev b) in
  let c' := set_disk (b_dev b) (set_dirty_list dk (active_dirty_idx dk) (dirty_list dk (active_dirty_idx dk) ++ [p]))
              (set_heads (<[p := b']> (heads c)) c) in
  bc_inv c' /\ refs c' A /\ (forall k, logical c' k = if decide (k = key b) then d else logical c k).
Proof.
  intros Hc HA Hb Hd d b' dk c'. pose proof (bi_head _ Hc p b Hb) as [Hb1 Hb2 Hb3 Hb4].
  destruct (update_block c p b b' (lru_list c) (disks c') (platter c) Hc Hb eq_refl) as [Hc' Hl'].
  - done.
  - by split.
  - done.
  - intros dv. unfold disk_of. cbn [disks]. fold (disk_of c' dv). unfold c'. rewrite disk_of_set.
    case_decide as Hdv; [subst dv|].
    + apply (disk_ok_dirty _ _ b); [apply Hc|done|done|done|done].
    + apply (disk_ok_other _ _ b); [apply Hc|done|done|done].
  - split_and!; [exact Hc'| |exact Hl'].
    eapply refs_same; [|exact HA]. intros q. cbn. destruct (decide (p = q)) as [->|Hne].
    + by rewrite lookup_insert_eq, Hb.
    + by rewrite lookup_insert_ne.
Qed.

(** A store of the whole sector to a held block and marking it dirty. *)
Lemma store_dirty_ok c A p b d :
  bc_inv c -> refs c A -> heads c !! p = Some b ->
  exists c1, with_head c p (fun b => set_valid true (set_data d b)) = Ok c1 /\
  exists c', mark_dirty c1 (b_dev b) p = Ok c' /\ bc_inv c' /\ refs c' A /\ max_blk_num c' = max_blk_num c /\
    (forall k, logical c' k = if decide (k = key b) then d else logical c k).
Proof.
  intros Hc HA Hb. unfold with_head. rewrite Hb. ok_simpl. eexists. split; [done|].
  pose proof (bi_head _ Hc p b Hb) as [Hb1 Hb2 Hb3 Hb4].
  unfold mark_dirty, with_head. cbn [heads set_heads]. rewrite !lookup_insert_eq. ok_simpl.
  cbn [b_dirty set_valid set_data]. destruct (b_dirty b) eqn:Hd.
  - eexists. split_and!; [done|..].
    + apply (update_block c p b (set_valid true (set_data d b)) (lru_list c) (disks c) (platter c) Hc Hb eq_refl);
        [done|split; [done|done|done|]|done|].
      * cbn. by rewrite Hd.
      * intros dv. by apply (disk_ok_update _ _ b); [apply Hc|..].
    + eapply refs_same; [|exact HA]. intros q. cbn. destruct (decide (p = q)) as [->|Hne].
      * by rewrite lookup_insert_eq, Hb.
      * by rewrite lookup_insert_ne.
    + done.
    + apply (update_block c p b (set_valid true (set_data d b)) (lru_list c) (disks c) (platter c) Hc Hb eq_refl);
        [done|split; [done|done|done|]|done|].
      * cbn. by rewrite Hd.
      * intros dv. by apply (disk_ok_update _ _ b); [apply Hc|..].
  - destruct (mark_dirty_ok c A p b Hc HA Hb Hd d) as (Hc' & HA' & Hl').
    eexists. split; [done|]. unfold set_heads. cbn [heads]. rewrite insert_insert_eq. by split_and!.
Qed.

(** The zero-copy write of a block the client holds. *)
Lemma bwrite_ok c A k p n b d :
  bc_inv c -> refs c A -> A !! k = Some (p, n) -> heads c !! p = Some b -> b_valid b = true ->
  exists c1 c', with_head c p (set_data d) = Ok c1 /\ bwrite c1 p = Ok c' /\ bc_inv c' /\ refs c' A /\
    (forall x, logical c' x = if decide (x = k) then d else logical c x).
Proof.
  intros Hc HA Hk Hb Hv. destruct (proj1 (HA k p n) Hk) as (_ & b0 & Hb0 & Hkb & _).
  assert (b0 = b) as -> by congruence. subst k.
  destruct (store_dirty_ok c A p b d Hc HA Hb) as (c1 & H1 & c' & H2 & Hc' & HA' & _ & Hl').
  exists c1, c'. split_and!; try done.
  - revert H1. unfold with_head. rewrite Hb. ok_simpl. intros <-. do 4 f_equal. unfold set_data, set_valid. cbn. by rewrite Hv.
  - unfold bwrite. destruct (Z.eqb_spec p NULL) as [->|_]; [rewrite (bi_null _ Hc) in Hb; discriminate Hb|].
    revert H1. unfold with_head. rewrite Hb. ok_simpl. intros [= <-]. cbn [heads set_heads].
    rewrite lookup_insert_eq. ok_simpl. exact H2.
Qed.

(** C9. Read, modify and write a sector through the cache: when not all buffers are in
    use [_bread] returns a held, valid buffer with the sector's current contents, and
    changes no sector's contents, whatever it evicts and writes back to make room;
    after the client stores new data in the buffer, calls [bwrite] and [brelse], the
    sector's current contents is the new data, every other sector is unchanged and
    the holders are those of before. *)
Theorem read_modify_write c A dev lba :
  bc_inv c -> refs c A -> room c A -> 0 <= lba < 2 ^ 32 - 1 ->
  exists p c1 A1 b, _bread c dev lba = Ok (p, c1) /\ bc_inv c1 /\ refs c1 A1 /\ take_user A (lba, dev) p A1 /\
    heads c1 !! p = Some b /\ b_valid b = true /\ b_data b = logical c (lba, dev) /\
    (forall k, logical c1 k = logical c k) /\
    forall d, exists c2 c3 c4, with_head c1 p (set_data d) = Ok c2 /\ bwrite c2 p = Ok c3 /\ brelse c3 p = Ok c4 /\
      bc_inv c4 /\ refs c4 A /\ (forall k, logical c4 k = if decide (k = (lba, dev)) then d else logical c k).
Proof.
  intros Hc HA Hrm Hlba.
  destruct (bread_ok c A dev lba Hc HA Hrm Hlba) as (p & c1 & A1 & b & Hrun & Hc1 & HA1 & Ht & Hb & Hk & Hv & Hd & Hl).
  exists p, c1, A1, b. split_and!; try done. intros d.
  destruct (take_user_back A (lba, dev) p A1 Ht (refs_pos c A HA)) as (n & Hn & _).
  destruct (bwrite_ok c1 A1 (lba, dev) p n b d Hc1 HA1 Hn Hb Hv) as (c2 & c3 & H2 & H3 & Hc3 & HA3 & Hl3).
  destruct (give_back_ok c c3 A A1 (lba, dev) p Hc3 HA HA3 Ht) as (c4 & H4 & Hc4 & HA4 & _ & Hl4 & _).
  exists c2, c3, c4. split_and!; try done. intros k. by rewrite Hl4, Hl3, Hl.
Qed.

(** The contents after writing [buf] from sector [lba] on. *)
Definition written (dev lba : Z) (buf : list D) (f : buffer_key -> D) (k : buffer_key) : D :=
  if decide (k.2 = dev /\ lba <= k.1) then default (f k) (buf !! Z.to_nat (k.1 - lba)) else f k.

Lemma written_cons dev lba d buf f k :
  written dev (lba + 1) buf (fun x => if decide (x = (lba, dev)) then d else f x) k = written dev lba (d :: buf) f k.
Proof.
  unfold written. destruct k as [x dv]. cbn [fst snd].
  destruct (decide ((x, dv) = (lba, dev))) as [E|E].
  - injection E as -> ->. rewrite decide_False, decide_True by lia. by rewrite Z.sub_diag.
  - case_decide as H1; case_decide as H2; [|lia| |done].
    + replace (Z.to_nat (x - lba)) with (S (Z.to_nat (x - (lba + 1)))) by lia. done.
    + destruct H2 as [-> H2], E. f_equal. lia.
Qed.

Lemma written_ext dev lba buf f g k : (forall x, f x = g x) -> written dev lba buf f k = written dev lba buf g k.
Proof. intros Hx. unfold written. by rewrite Hx. Qed.

Lemma bwrite_multi_ok c A dev lba buf :
  bc_inv c -> refs c A -> room c A -> 0 <= lba -> lba + Z.of_nat (length buf) < 2 ^ 32 ->
  exists c', bwrite_multi c dev lba buf = Ok c' /\ bc_inv c' /\ refs c' A /\ room c' A /\
    (forall k, logical c' k = written dev lba buf (logical c) k).
Proof.
  revert c lba. induction buf as [|d buf IH]; intros c lba Hc HA Hrm H0 Hlen; cbn [bwrite_multi].
  { exists c. split_and!; [done..|]. intros k. unfold written. by case_decide. }
  cbn [length] in Hlen.
  destruct (getblk_ok c A dev lba Hc HA Hrm ltac:(lia)) as (p & c1 & A1 & b & -> & Hc1 & HA1 & Ht & Hb & Hk & Hm1 & Hl1).
  ok_simpl. destruct (store_dirty_ok c1 A1 p b d Hc1 HA1 Hb) as (c2 & -> & c3 & H3 & Hc3 & HA3 & Hm3 & Hl3). ok_simpl.
  assert (Hdev : b_dev b = dev) by (unfold key in Hk; congruence). rewrite Hdev in H3. rewrite H3. ok_simpl.
  destruct (give_back_ok c c3 A A1 (lba, dev) p Hc3 HA HA3 Ht) as (c4 & -> & Hc4 & HA4 & Hm4 & Hl4 & _). ok_simpl.
  rewrite u32_small by lia.
  destruct (IH c4 (lba + 1)) as (c' & -> & Hc' & HA' & Hrm' & Hl'); [done|done| |lia|lia|].
  { eapply room_max; [|exact Hrm]. congruence. }
  exists c'. split_and!; [done..|]. intros k. rewrite Hl', <- written_cons. apply written_ext.
  intros x. by rewrite Hl4, Hl3, Hk, Hl1.
Qed.

(** ** Reading a range *)
Definition reads (f : buffer_key -> D) (dev lba : Z) (n : nat) : list D := (fun j => f (lba + j, dev)) <$> seqZ 0 (Z.of_nat n).

Lemma reads_S f dev lba n : reads f dev lba (S n) = f (lba, dev) :: reads f dev (lba + 1) n.
Proof.
  unfold reads. rewrite seqZ_cons by lia. rewrite fmap_cons, Z.add_0_r. f_equal.
  replace (Z.pred (Z.of_nat (S n))) with (Z.of_nat n) by lia.
  change (Z.succ 0) with (1 + 0). rewrite <- (fmap_add_seqZ 1 0). rewrite <- list_fmap_compose.
  apply list_fmap_ext. intros i x _. cbn. f_equal. f_equal. lia.
Qed.

Lemma reads_app f dev lba n m : reads f dev lba (n + m) = reads f dev lba n ++ reads f dev (lba + Z.of_nat n) m.
Proof.
  revert lba. induction n as [|n IH]; intros lba; [cbn; by rewrite Z.add_0_r|].
  cbn [Nat.add]. rewrite !reads_S, IH. cbn. do 3 f_equal. lia.
Qed.

Lemma fill_loop_ok c A dev lba n f :
  bc_inv c -> refs c A -> room c A -> 0 <= lba -> lba + Z.of_nat n < 2 ^ 32 -> (forall k, logical c k = f k) ->
  exists c', fill_loop c dev lba (reads f dev lba n) = Ok c' /\ bc_inv c' /\ refs c' A /\ room c' A /\
    (forall k, logical c' k = f k).
Proof.
  revert c lba. induction n as [|n IH]; intros c lba Hc HA Hrm H0 Hlen Hf; [exists c; by split_and!|].
  rewrite reads_S. cbn [fill_loop].
  destruct (getblk_ok c A dev lba Hc HA Hrm ltac:(lia)) as (p & c1 & A1 & b & -> & Hc1 & HA1 & Ht & Hb & Hk & Hm1 & Hl1).
  ok_simpl. rewrite Hb. ok_simpl.
  assert (Hfill : exists c2, (if b_valid b then Ok c1 else
      with_head c1 p (fun b => set_valid true (set_data (f (lba, dev)) b))) = Ok c2 /\
    bc_inv c2 /\ refs c2 A1 /\ max_blk_num c2 = max_blk_num c /\ (forall k, logical c2 k = f k)).
  { pose proof (logical_hit c1 p b Hc1 Hb) as Hlog. rewrite Hk, Hl1, Hf in Hlog.
    destruct (b_valid b) eqn:Hv; [exists c1; split_and!; try done; intros k; by rewrite Hl1|].
    pose proof (bi_head _ Hc1 p b Hb) as [Hb1 Hb2 Hb3 Hb4]. unfold with_head. rewrite Hb. ok_simpl.
    assert (Hd : b_dirty b = false) by (destruct (b_dirty b); [by rewrite (Hb3 eq_refl) in Hv|done]).
    destruct (update_block c1 p b (set_valid true (set_data (f (lba, dev)) b)) (lru_list c1) (disks c1) (platter c1)
      Hc1 Hb eq_refl) as [Hc' Hl'].
    - done.
    - split; [done|done|done|]. intros _ _. cbn. unfold key in Hk |- *. cbn. rewrite Hk. exact Hlog.
    - done.
    - intros dv. by apply (disk_ok_update _ _ b); [apply Hc1|..].
    - eexists. split; [done|]. split_and!; [exact Hc'| |done|].
      + eapply refs_same; [|exact HA1]. intros q. cbn. destruct (decide (p = q)) as [->|Hne].
        * by rewrite lookup_insert_eq, Hb.
        * by rewrite lookup_insert_ne.
      + intros k. etransitivity; [apply Hl'|]. case_decide; [subst k; by rewrite Hk|by rewrite Hl1]. }
  destruct Hfill as (c2 & -> & Hc2 & HA2 & Hm2 & Hl2). ok_simpl.
  destruct (give_back_ok c c2 A A1 (lba, dev) p Hc2 HA HA2 Ht) as (c4 & -> & Hc4 & HA4 & Hm4 & Hl4 & _). ok_simpl.
  rewrite u32_small by lia. apply (IH c4 (lba + 1)); [done|done| |lia|lia|].
  - eapply room_max; [|exact Hrm]. congruence.
  - intros k. by rewrite Hl4.
Qed.

Lemma bulk_loop_ok rest c dev lba bulk :
  bc_inv c -> 1 <= bulk -> 0 <= lba -> lba + Z.of_nat rest < 2 ^ 32 ->
  exists n, bulk_loop rest c dev lba bulk = Ok (bulk + Z.of_nat n) /\ (n <= rest)%nat /\
    (forall j p b, lba <= j < lba + Z.of_nat n -> heads c !! p = Some b -> key b <> (j, dev)).
Proof.
  intros Hc. revert lba bulk. induction rest as [|rest IH]; intros lba bulk Hbk H0 Hlen; cbn [bulk_loop].
  { exists O. split_and!; [f_equal; lia|lia|lia]. }
  destruct (block_find c (lba, dev) Hc) as (r & -> & Hr). ok_simpl. destruct r as [p|].
  { exists O. split_and!; [f_equal; lia|lia|lia]. }
  assert (Hn : forall p b, heads c !! p = Some b -> key b <> (lba, dev)).
  { intros p b Hb Hk. discriminate (proj2 (Hr p) (ex_intro _ b (conj Hb Hk))). }
  bdestr.
  - exists 1%nat. split_and!; [f_equal; lia|lia|]. intros j p b Hj Hb. assert (j = lba) as -> by lia. by apply (Hn p).
  - rewrite u32_small by lia. destruct (IH (lba + 1) (bulk + 1)) as (n & -> & Hle & Hno); [lia|lia|lia|].
    exists (S n). split_and!; [f_equal; lia|lia|]. intros j p b Hj Hb.
    destruct (decide (j = lba)) as [->|]; [by apply (Hn p)|]. apply (Hno j p); [lia|done].
Qed.

(** [bread_multi] returns the current contents. *)
Lemma bread_multi_ok c A dev lba n :
  bc_inv c -> refs c A -> room c A -> 0 <= lba -> lba + Z.of_nat n < 2 ^ 32 ->
  exists c', bread_multi n c dev lba n = Ok (reads (logical c) dev lba n, c') /\ bc_inv c' /\ refs c' A /\
    (forall k, logical c' k = logical c k).
Proof.
  intros Hc HA Hrm H0 Hlen. remember (logical c) as f eqn:Hf.
  assert (Hlf : forall k, logical c k = f k) by (by subst f). clear Hf.
  assert (Hgen : forall fuel, (n <= fuel)%nat -> exists c', bread_multi fuel c dev lba n = Ok (reads f dev lba n, c') /\
    bc_inv c' /\ refs c' A /\ (forall k, logical c' k = f k)); [|by apply Hgen].
  intros fuel. revert c lba n Hc HA Hrm H0 Hlen Hlf. induction fuel as [|fuel IH];
    intros c lba [|rest] Hc HA Hrm H0 Hlen Hlf Hle; [|lia| |]; cbn [bread_multi].
  1, 2: exists c; by split_and!.
  destruct (getblk_ok c A dev lba Hc HA Hrm ltac:(lia)) as (p & c1 & A1 & b & -> & Hc1 & HA1 & Ht & Hb & Hk & Hm1 & Hl1).
  ok_simpl. rewrite Hb. ok_simpl.
  destruct (give_back_ok c c1 A A1 (lba, dev) p Hc1 HA HA1 Ht) as (c2 & -> & Hc2 & HA2 & Hm2 & Hl2 & b0 & r & Hb0 & Hb2).
  ok_simpl. assert (b0 = b) as -> by congruence.
  assert (Hrm2 : room c2 A) by (eapply room_max; [|exact Hrm]; congruence).
  assert (Hlf2 : forall k, logical c2 k = f k) by (intros k; by rewrite Hl2, Hl1).
  pose proof (logical_hit c1 p b Hc1 Hb) as Hlog. rewrite Hk, Hl1, Hlf in Hlog.
  destruct (b_valid b) eqn:Hv.
  - rewrite u32_small by lia. destruct (IH c2 (lba + 1) rest) as (c' & -> & Hc' & HA' & Hl'); [done..|lia|lia|done|lia|].
    ok_simpl. exists c'. rewrite reads_S, Hlog. by split_and!.
  - rewrite (u32_small (lba + 1)) by lia.
    destruct (bulk_loop_ok rest c2 dev (lba + 1) 1 Hc2) as (m & -> & Hmr & Hno); [lia|lia|lia|]. ok_simpl.
    assert (Hbuf : ((fun j => ide_read c2 dev (u32 (lba + j))) <$> seqZ 0 (1 + Z.of_nat m)) = reads f dev lba (S m)).
    { unfold reads. replace (Z.of_nat (S m)) with (1 + Z.of_nat m) by lia. apply list_fmap_ext.
      intros i j Hj%list_elem_of_lookup_2%elem_of_seqZ. rewrite u32_small by lia. unfold ide_read. rewrite <- Hlf2.
      destruct (decide (j = 0)) as [->|Hj0].
      - rewrite Z.add_0_r, <- Hk. change (key b) with (key (set_ref r b)).
        rewrite (logical_hit c2 p _ Hc2 Hb2). cbn. by rewrite Hv.
      - symmetry. apply logical_miss. intros q bq Hq. apply (Hno (lba + j) q); [lia|done]. }
    rewrite Hbuf. destruct (fill_loop_ok c2 A dev lba (S m) f) as (c3 & -> & Hc3 & HA3 & Hrm3 & Hl3); [done..|lia|done|].
    ok_simpl. rewrite u32_small by lia.
    destruct (IH c3 (lba + (1 + Z.of_nat m)) (S rest - Z.to_nat (1 + Z.of_nat m))%nat) as (c' & -> & Hc' & HA' & Hl');
      [done..|lia|lia|done|lia|].
    ok_simpl. exists c'. split_and!; [|done..].
    pose proof (reads_app f dev lba (S m) (S rest - Z.to_nat (1 + Z.of_nat m))) as Happ.
    replace (S m + (S rest - Z.to_nat (1 + Z.of_nat m)))%nat with (S rest) in Happ by lia.
    replace (Z.of_nat (S m)) with (1 + Z.of_nat m) in Happ by lia. cbn [fst snd]. by rewrite Happ.
Qed.

Lemma reads_written dev lba buf f : reads (written dev lba buf f) dev lba (length buf) = buf.
Proof.
  revert lba f. induction buf as [|d buf IH]; intros lba f; [done|]. cbn [length]. rewrite reads_S. f_equal.
  - unfold written. cbn [fst snd]. by rewrite decide_True, Z.sub_diag by (split; [done|lia]).
  - etransitivity; [|apply (IH (lba + 1) (fun x => if decide (x = (lba, dev)) then d else f x))]. unfold reads.
    apply list_fmap_ext. intros i x _. symmetry. apply written_cons.
Qed.

(** C29. Multi-sector I/O: after [bwrite_multi] exactly the given sectors have new
    contents, and [bread_multi] of any range, batched disk reads included, returns the
    current contents (so the range just written reads back as the data written); both
    succeed without fault or panic when not all buffers are in use, and neither changes
    the holders. *)
Theorem write_read_multi c A dev lba buf :
  bc_inv c -> refs c A -> room c A -> 0 <= lba -> lba + Z.of_nat (length buf) < 2 ^ 32 ->
  exists c1, bwrite_multi c dev lba buf = Ok c1 /\ bc_inv c1 /\ refs c1 A /\
    (forall k, logical c1 k = written dev lba buf (logical c) k) /\
    reads (logical c1) dev lba (length buf) = buf /\
    forall dev' lba' n, 0 <= lba' -> lba' + Z.of_nat n < 2 ^ 32 ->
      exists c2, bread_multi n c1 dev' lba' n = Ok (reads (logical c1) dev' lba' n, c2) /\ bc_inv c2 /\ refs c2 A /\
        (forall k, logical c2 k = logical c1 k).
Proof.
  intros Hc HA Hrm H0 Hlen.
  destruct (bwrite_multi_ok c A dev lba buf Hc HA Hrm H0 Hlen) as (c1 & Hrun & Hc1 & HA1 & Hrm1 & Hl1).
  exists c1. split_and!; [done..| |].
  - etransitivity; [|apply (reads_written dev lba buf (logical c))]. unfold reads. apply list_fmap_ext. intros i x _. apply Hl1.
  - intros dev' lba' n H0' Hn. by apply bread_multi_ok.
Qed.

(** ** The sync thread *)

Lemma each_ok c f ps : NoDup ps -> all_live (heads c) ps ->
  exists m', each c f ps = Ok (set_heads m' c) /\ mapped f ps (heads c) m'.
Proof.
  revert c. induction ps as [|p ps IH]; intros c Hnd Hl; cbn [each].
  { exists (heads c). split; [by destruct c|]. intros q. by rewrite decide_False by (by intros ?%not_elem_of_nil). }
  apply NoDup_cons in Hnd as [Hp Hnd]. apply Forall_cons in Hl as [[b Hb] Hl]. unfold with_head. rewrite Hb. ok_simpl.
  destruct (IH (set_heads (<[p := f b]> (heads c)) c) Hnd) as (m' & -> & Hm); [by apply all_live_insert|].
  exists m'. split; [done|]. by eapply mapped_insert.
Qed.

Lemma insert_order_perm m p l : insert_order m p l ≡ₚ p :: l.
Proof.
  induction l as [|q l IH]; cbn [insert_order]; [done|]. destruct (_ <? _); [done|].
  rewrite IH. apply Permutation_swap.
Qed.

Lemma drain_ok c todo sorted : NoDup todo -> all_live (heads c) todo ->
  exists m' sorted', drain c todo sorted = Ok (sorted', set_heads m' c) /\ sorted' ≡ₚ todo ++ sorted /\
    mapped take_ref todo (heads c) m'.
Proof.
  revert c sorted. induction todo as [|p ps IH]; intros c sorted Hnd Hl; cbn [drain].
  { exists (heads c), sorted. split_and!; [by destruct c|done|].
    intros q. by rewrite decide_False by (by intros ?%not_elem_of_nil). }
  apply NoDup_cons in Hnd as [Hp Hnd]. apply Forall_cons in Hl as [[b Hb] Hl]. unfold with_head. rewrite Hb. ok_simpl.
  set (m1 := <[p := take_ref b]> (heads c)). change (heads (set_heads m1 c)) with m1.
  destruct (IH (set_heads m1 c) (insert_order m1 p sorted) Hnd) as (m' & sorted' & -> & Hs & Hm);
    [by apply all_live_insert|].
  exists m', sorted'. split_and!; [done| |by eapply mapped_insert].
  rewrite Hs, insert_order_perm. by rewrite <- Permutation_middle.
Qed.

(** Blocks of consecutive sectors of one disk. *)
Fixpoint consecutive (m : gmap Z buffer_head) (dev lba : Z) (ps : list Z) : Prop :=
  match ps with
  | [] => True
  | p :: ps => (exists b, m !! p = Some b /\ key b = (lba, dev) /\ lba_ok b) /\ consecutive m dev (lba + 1) ps
  end.

Definition on_dev (m : gmap Z buffer_head) (dev : Z) (p : Z) : Prop :=
  exists b, m !! p = Some b /\ b_dev b = dev /\ lba_ok b.

Lemma take_batch_ok n m dev prev l b r bp :
  m !! prev = Some bp -> lba_ok bp -> Forall (on_dev m dev) l -> take_batch n m prev l = (b, r) ->
  l = b ++ r /\ consecutive m dev (b_blocknr bp + 1) b.
Proof.
  revert prev l b bp. induction n as [|n IH]; intros prev l b bp Hbp Hlba Hl Hrun; cbn [take_batch] in Hrun;
    [by injection Hrun as <- <-|]. destruct l as [|p l']; [by injection Hrun as <- <-|].
  apply Forall_cons in Hl as [(b0 & Hb0 & Hd & Hlb) Hl]. rewrite (block_key_at _ _ _ Hb0), (block_key_at _ _ _ Hbp) in Hrun.
  cbn [fst key] in Hrun. destruct (Z.eqb_spec (b_blocknr b0) (u32 (b_blocknr bp + 1))) as [He|He];
    [|by injection Hrun as <- <-].
  destruct (take_batch n m p l') as [b1 r1] eqn:Htb. injection Hrun as <- <-.
  rewrite u32_small in He by (unfold lba_ok in Hlba; lia).
  destruct (IH p l' b1 b0 Hb0 Hlb Hl Htb) as [-> Hc]. split; [done|]. cbn [consecutive]. rewrite <- He. split; [|done].
  exists b0. split_and!; [done| |done]. unfold key. by rewrite Hd.
Qed.

Lemma consecutive_ge m dev lba ps p : consecutive m dev lba ps -> p ∈ ps ->
  exists b, m !! p = Some b /\ b_dev b = dev /\ lba <= b_blocknr b /\ lba_ok b.
Proof.
  revert lba. induction ps as [|q ps IH]; intros lba Hc Hp; [by apply not_elem_of_nil in Hp|].
  destruct Hc as [(b & Hb & Hk & Hlb) Hc]. apply elem_of_cons in Hp as [->|Hp].
  - exists b. unfold key in Hk. injection Hk as -> ->. by split_and!.
  - destruct (IH (lba + 1) Hc Hp) as (b' & ? & ? & ? & ?). exists b'. split_and!; [done|done|lia|done].
Qed.

Lemma ide_write_batch_ok c m dev lba ps :
  consecutive m dev lba ps ->
  exists pl, ide_write_batch c dev lba (data_at m <$> ps) = set_platter pl c /\
    (forall p b, p ∈ ps -> m !! p = Some b -> pl !! key b = Some (b_data b)) /\
    (forall k, (forall p b, p ∈ ps -> m !! p = Some b -> key b <> k) -> pl !! k = platter c !! k).
Proof.
  revert c lba. induction ps as [|p ps IH]; intros c lba Hc; cbn [fmap list_fmap ide_write_batch].
  { exists (platter c). split_and!; [by destruct c| |done]. by intros p b ?%not_elem_of_nil. }
  destruct Hc as [(b & Hb & Hk & Hlb) Hc]. unfold data_at at 1. rewrite Hb.
  unfold lba_ok in Hlb. assert (Hbl : b_blocknr b = lba /\ b_dev b = dev) by (unfold key in Hk; by injection Hk).
  rewrite u32_small by lia.
  destruct (IH (ide_write c dev lba (b_data b)) (lba + 1) Hc) as (pl & Hrun & Hin & Hout).
  exists pl. split_and!; [exact Hrun| |].
  - intros q bq [->|Hq]%elem_of_cons Hbq; [|by apply (Hin q)].
    assert (bq = b) as -> by congruence. rewrite Hout.
    + cbn. rewrite Hk. apply lookup_insert_eq.
    + intros q' b' Hq' Hb' He. destruct (consecutive_ge _ _ _ _ _ Hc Hq') as (b2 & Hb2 & _ & Hge & _).
      assert (b2 = b') as -> by congruence. unfold key in He. injection He as He _. lia.
  - intros k Hno. rewrite Hout.
    + cbn. rewrite lookup_insert_ne; [done|]. rewrite <- Hk. apply (Hno p b); [left|done].
    + intros q bq Hq. apply Hno. by right.
Qed.

Definition unhold (b : buffer_head) : buffer_head := set_ref (u32 (b_ref_count b - 1)) (set_dirty false b).

Lemma mapped_data f ps m m' : (forall b, b_data (f b) = b_data b) -> all_live m ps -> mapped f ps m m' ->
  data_at m' <$> ps = data_at m <$> ps.
Proof.
  intros Hf Hl Hm. apply list_fmap_ext. intros i p Hp%list_elem_of_lookup_2. unfold all_live in Hl.
  rewrite Forall_forall in Hl. destruct (Hl p Hp) as [b Hb]. unfold data_at.
  rewrite (mapped_lookup f ps m m' p b Hm Hb), Hb. destruct (decide (p ∈ ps)); [apply Hf|done].
Qed.

Lemma consecutive_mapped f ps m m' dev lba qs :
  (forall b, key (f b) = key b /\ (lba_ok b -> lba_ok (f b))) -> mapped f ps m m' ->
  consecutive m dev lba qs -> consecutive m' dev lba qs.
Proof.
  intros Hf Hm. revert lba. induction qs as [|q qs IH]; intros lba; [done|].
  intros [(b & Hb & Hk & Hlb) Hc]. split; [|auto]. rewrite (mapped_lookup _ _ _ _ _ _ Hm Hb).
  destruct (Hf b). destruct (decide (q ∈ ps)); eexists; split_and!; try done; try congruence; auto.
Qed.

Lemma write_back_ok fuel c dev sorted :
  NoDup sorted -> Forall (on_dev (heads c) dev) sorted -> (length sorted <= fuel)%nat ->
  (forall p q b b', p ∈ sorted -> heads c !! p = Some b -> heads c !! q = Some b' -> key b = key b' -> p = q) ->
  exists m' pl, write_back fuel c dev sorted = Ok (set_heads m' (set_platter pl c)) /\
    mapped unhold sorted (heads c) m' /\
    (forall p b, p ∈ sorted -> heads c !! p = Some b -> pl !! key b = Some (b_data b)) /\
    (forall k, (forall p b, p ∈ sorted -> heads c !! p = Some b -> key b <> k) -> pl !! k = platter c !! k).
Proof.
  revert c sorted. induction fuel as [|fuel IH]; intros c [|p sorted] Hnd Hon Hlen Hinj; cbn [write_back];
    try (cbn in Hlen; lia).
  1, 2: exists (heads c), (platter c); split_and!; [by destruct c| |by intros p b ?%not_elem_of_nil|done];
    intros q; by rewrite decide_False by (by intros ?%not_elem_of_nil).
  destruct (take_batch (MAX_SYNC_COUNT - 1) (heads c) p sorted) as [more rest] eqn:Htb.
  apply Forall_cons in Hon as [(b & Hb & Hd & Hlb) Hon].
  destruct (take_batch_ok _ _ dev _ _ _ _ b Hb Hlb Hon Htb) as [-> Hcs]. set (batch := p :: more).
  assert (Hcons : consecutive (heads c) dev (b_blocknr b) batch).
  { split; [|done]. exists b. split_and!; [done| |done]. unfold key. by rewrite Hd. }
  assert (Hnd2 : NoDup (batch ++ rest)) by done. apply NoDup_app in Hnd2 as (Hndb & Hdis & Hndr).
  assert (Hlive : all_live (heads c) batch).
  { apply Forall_forall. intros q Hq. destruct (consecutive_ge _ _ _ _ _ Hcons Hq) as (b' & ? & _). eauto. }
  destruct (each_ok c (set_dirty false) batch Hndb Hlive) as (m1 & -> & Hm1). ok_simpl.
  cbn [heads set_heads].
  assert (Hkp : key_at m1 p = (b_blocknr b, dev)).
  { rewrite (block_key_at _ _ _ (mapped_lookup _ _ _ _ _ _ Hm1 Hb)). unfold key. rewrite <- Hd. by destruct (decide _). }
  rewrite Hkp. cbn [fst].
  destruct (ide_write_batch_ok (set_heads m1 c) m1 dev (b_blocknr b) batch) as (pl1 & -> & Hin1 & Hout1).
  { by eapply (consecutive_mapped (set_dirty false)). }
  destruct (each_ok (set_platter pl1 (set_heads m1 c)) (fun b => set_ref (u32 (b_ref_count b - 1)) b) batch Hndb)
    as (m2 & -> & Hm2).
  { eapply Forall_impl; [exact Hlive|]. intros q [b' Hb']. cbn.
    rewrite (mapped_lookup _ _ _ _ _ _ Hm1 Hb'). eauto. }
  ok_simpl. cbn [heads set_platter set_heads] in Hm2.
  pose proof (mapped_compose _ _ _ _ _ _ Hm1 Hm2) as Hm12. fold unhold in Hm12.
  set (c2 := set_heads m2 _).
  assert (Hrest : forall q, q ∈ rest -> m2 !! q = heads c !! q).
  { intros q Hq. rewrite Hm12, decide_False; [done|]. intros Hqb. by apply (Hdis q). }
  assert (Hback : forall q b2, m2 !! q = Some b2 -> exists b0, heads c !! q = Some b0 /\ key b2 = key b0).
  { intros q b2 Hq. rewrite Hm12 in Hq. destruct (heads c !! q) as [b0|]; [|by destruct (decide _)].
    exists b0. split; [done|]. by destruct (decide (q ∈ batch)); injection Hq as <-. }
  destruct (IH c2 rest Hndr) as (m' & pl & -> & Hm' & Hin & Hout).
  - apply Forall_app in Hon as [_ Hon]. rewrite Forall_forall in Hon. apply Forall_forall. intros q Hq.
    destruct (Hon q Hq) as (b' & Hb' & H'). exists b'. cbn. by rewrite Hrest.
  - cbn in Hlen. rewrite length_app in Hlen. lia.
  - cbn. intros q q' b1 b2 Hq H1 (b3 & H3 & Hk3)%Hback Hk. rewrite Hrest in H1 by done.
    apply (Hinj q q' b1 b3); [right; apply elem_of_app; auto|done|done|congruence].
  - exists m', pl. split_and!; [done|..].
    + change (p :: more ++ rest) with (batch ++ rest). eapply mapped_app; [exact Hdis|exact Hm12|exact Hm'].
    + intros q bq Hq Hbq. change (p :: more ++ rest) with (batch ++ rest) in Hq.
      destruct (decide (q ∈ rest)) as [Hqr|Hqr]; [apply (Hin q); [done|]; cbn; by rewrite Hrest|].
      apply elem_of_app in Hq as [Hq|Hq]; [|done]. rewrite Hout.
      * pose proof (mapped_lookup _ _ _ _ _ _ Hm1 Hbq) as Hb1. rewrite decide_True in Hb1 by done.
        exact (Hin1 q _ Hq Hb1).
      * cbn. intros q' b' Hq' Hb' Hk. rewrite Hrest in Hb' by done. destruct Hqr.
        assert (q' = q) as <-; [|done]. apply (Hinj q' q b' bq); [right; apply elem_of_app; auto|done..].
    + intros k Hno. change (p :: more ++ rest) with (batch ++ rest) in Hno. rewrite Hout.
      * cbn. apply Hout1. intros q bq Hq Hbq. rewrite Hm1 in Hbq. rewrite decide_True in Hbq by done.
        destruct (heads c !! q) as [b0|] eqn:Hb0; [|done]. injection Hbq as <-.
        apply (Hno q b0); [apply elem_of_app; by left|done].
      * cbn. intros q bq Hq Hbq. rewrite Hrest in Hbq by done. apply (Hno q bq); [apply elem_of_app; by right|done].
Qed.

(** What a pass leaves: the blocks [ps] clean and on disk, everything else as it was. *)
Record flushed (c c' : ide_buffer) (dev : Z) (ps : list Z) : Prop := {
  fl_same : hash_table c' = hash_table c /\ lru_list c' = lru_list c /\ cur_blk_num c' = cur_blk_num c;
  fl_heads : mapped (set_dirty false) ps (heads c) (heads c');
  fl_disk : disk_ok (heads c') dev (disk_of c' dev) /\ forall dv, dv <> dev -> disk_of c' dv = disk_of c dv;
  fl_in : forall p b, p ∈ ps -> heads c !! p = Some b -> sector c' (key b) = b_data b;
  fl_out : forall k, (forall p b, p ∈ ps -> heads c !! p = Some b -> key b <> k) -> sector c' k = sector c k;
}.

Lemma flushed_ok c c' A dev ps :
  bc_inv c -> refs c A -> flushed c c' dev ps ->
  (forall p, p ∈ ps <-> exists b, heads c !! p = Some b /\ b_dirty b = true /\ b_dev b = dev) ->
  bc_inv c' /\ refs c' A /\ (forall k, logical c' k = logical c k) /\
  (forall p b, heads c' !! p = Some b -> b_dev b = dev -> b_dirty b = false).
Proof.
  intros Hc HA [(Hh & Hlru & Hcur) Hm [Hdk Hdo] Hin Hout] Hps. pose proof Hc as [Ht Hdom Hl Hcnt Hhd Hdk0 Hnull].
  assert (Hlook : forall q b', heads c' !! q = Some b' -> exists b, heads c !! q = Some b /\
    ((q ∈ ps /\ b' = set_dirty false b) \/ (q ∉ ps /\ b' = b))).
  { intros q b' Hq. rewrite Hm in Hq. destruct (decide (q ∈ ps)), (heads c !! q) as [b|]; try discriminate Hq;
      injection Hq as <-; eauto 6. }
  assert (Hsec : forall q b, heads c !! q = Some b -> q ∉ ps -> sector c' (key b) = sector c (key b)).
  { intros q b Hb Hq. apply Hout. intros p b0 Hp Hb0 Hk. destruct Hq. by rewrite (key_unique c q p b b0). }
  assert (Hkeys : forall e, key_at (heads c) e = key_at (heads c') e).
  { intros e. unfold key_at. rewrite Hm. destruct (decide (e ∈ ps)), (heads c !! e); done. }
  assert (Hclean : forall p b, heads c' !! p = Some b -> b_dev b = dev -> b_dirty b = false).
  { intros p b' (b & Hb & [[_ ->]|[Hn ->]])%Hlook Hd; [done|]. destruct (b_dirty b) eqn:E; [|done].
    destruct Hn. apply Hps. eauto. }
  assert (Hc' : bc_inv c').
  { constructor.
    - rewrite Hh. eapply table_inv_ext; [|exact Ht]. intros e _. apply Hkeys.
    - intros p. rewrite Hh, Hdom, Hm. destruct (decide (p ∈ ps)), (heads c !! p); cbn; split; intros [? ?]; eauto; done.
    - by rewrite Hlru, Hh.
    - by rewrite Hcur, Hlru.
    - intros p b' (b & Hb & [[Hp ->]|[Hp ->]])%Hlook; destruct (Hhd p b Hb) as [H1 H2 H3 H4].
      + split; [done|done|done|]. intros _ _. cbn. symmetry. by apply (Hin p b).
      + split; [done..|]. intros Hv Hd. rewrite (Hsec p b Hb Hp). auto.
    - intros dv. destruct (decide (dv = dev)) as [->|Hne]; [done|]. rewrite Hdo by done.
      destruct (Hdk0 dv) as [H1 H2 H3 H4]. split; [done..|]. intros p. rewrite H4, Hm.
      destruct (decide (p ∈ ps)) as [Hp|Hp]; [|done]. apply Hps in Hp as (b & -> & Hd & Hv).
      split; intros (b0 & E & E1 & E2); [congruence|]. injection E as <-. discriminate E1.
    - rewrite Hm, Hnull. by destruct (decide _). }
  split_and!; [done| | |done].
  - eapply refs_same; [|exact HA]. intros q. rewrite Hm. by destruct (decide (q ∈ ps)), (heads c !! q).
  - intros k. destruct (logical_cases c k Hc) as [(q & b & Hq & <- & ->)|[Hn ->]].
    + pose proof (mapped_lookup _ _ _ _ _ _ Hm Hq) as Hq'. destruct (decide (q ∈ ps)) as [Hp|Hp].
      * change (key b) with (key (set_dirty false b)). rewrite (logical_hit c' q _ Hc' Hq'). cbn [b_valid set_dirty].
        apply Hps in Hp as Hp'. destruct Hp' as (b0 & E & Hd & _). assert (b0 = b) as -> by congruence.
        by rewrite (ho_valid _ _ (Hhd q b Hq) Hd).
      * rewrite (logical_hit c' q _ Hc' Hq'). by rewrite (Hsec q b Hq Hp).
    + rewrite logical_miss; [apply Hout; intros p b _; apply Hn|].
      intros q b' (b & Hb & [[_ ->]|[_ ->]])%Hlook; [exact (Hn q b Hb)|exact (Hn q b Hb)].
Qed.

(** The lists after the switch, once the old list is drained. *)
Lemma switched m dev d :
  active_dirty_idx d = 0 \/ active_dirty_idx d = 1 -> dirty_list d (1 - active_dirty_idx d) = [] ->
  (forall p b, m !! p = Some b -> b_dev b = dev -> b_dirty b = false) ->
  disk_ok m dev (set_dirty_list (Disk (1 - active_dirty_idx d) (dirty_list0 d) (dirty_list1 d)) (active_dirty_idx d) []).
Proof.
  intros Hi Hz Hcl. destruct d as [i l0 l1]. unfold dirty_list, set_dirty_list in *.
  cbn [active_dirty_idx dirty_list0 dirty_list1] in *.
  assert (Hno : forall p, p ∈ @nil Z <-> exists b, m !! p = Some b /\ b_dirty b = true /\ b_dev b = dev).
  { intros p. split; [by intros ?%not_elem_of_nil|]. intros (b & Hb & E & Hv). by rewrite (Hcl p b Hb Hv) in E. }
  destruct Hi as [-> | ->]; [change (1 - 0 =? 0) with false in Hz; change (0 =? 0) with true|
    change (1 - 1 =? 0) with true in Hz; change (1 =? 0) with false]; cbv iota in *; subst; split; cbn;
    auto; by apply NoDup_nil_2.
Qed.

End cache.

(** ** The initial cache, and witnesses *)
Lemma ide_buffer_init_ok {D} (blank : D) mem total pl :
  exists c, ide_buffer_init (Some mem) total ∅ pl = Ok c /\ bc_inv blank c /\ refs c ∅ /\
    (forall k, logical blank c k = sector blank c k) /\ max_blk_num c = total / BUFFER_RATE / SECTOR_SIZE.
Proof.
  destruct (hash_init_ok buffer_hash (key_at (D := D) ∅) (Some mem) HASH_SIZE _ ltac:(done) eq_refl) as [Ht He].
  eexists. split; [reflexivity|]. split_and!; [|..|done|done].
  - constructor; cbn [heads hash_table lru_list cur_blk_num].
    + exact Ht.
    + intros p. rewrite He, lookup_empty. split; [by intros ?%not_elem_of_nil|by intros [? ?]].
    + by rewrite He.
    + done.
    + intros p b. by rewrite lookup_empty.
    + intros dev. unfold disk_of. cbn. rewrite lookup_empty. split; cbn; [by left|done|by apply NoDup_nil_2|].
      intros p. split; [by intros ?%not_elem_of_nil|]. intros (b & E & _). by rewrite lookup_empty in E.
    + by rewrite lookup_empty.
  - intros k p n. rewrite lookup_empty. split; [done|]. intros (_ & b & E & _). cbn in E. by rewrite lookup_empty in E.
Qed.

Definition ex_kmalloc (m : gmap Z (buffer_head (D := Z))) : Z * Z := (base.fresh (NULL :: (map_to_list m).*1), 0xdead).

Lemma ex_kmalloc_fresh m : m !! (ex_kmalloc m).1 = None /\ (ex_kmalloc m).1 <> NULL.
Proof.
  pose proof (infinite_is_fresh (NULL :: (map_to_list m).*1)) as [Hn Hf]%not_elem_of_cons. cbn. split; [|done].
  destruct (m !! _) as [b|] eqn:E; [|done]. destruct Hf. apply list_elem_of_fmap.
  eexists (_, b). split; [|by apply elem_of_map_to_list]. done.
Qed.

Lemma ex_room (c : ide_buffer (D := Z)) : max_blk_num c = 512000 / BUFFER_RATE / SECTOR_SIZE -> room c ∅.
Proof. intros Hm. split; [unfold reclaim_limit; rewrite Hm; vm_compute; reflexivity|]. intros k p n. by rewrite lookup_empty. Qed.

Lemma read_modify_write_witness :
  exists c p c1 c2 c3 c4, ide_buffer_init (Some 1) 512000 ∅ {[ (7, 0x1000) := 11 ]} = Ok c /\
    _bread 0 ex_kmalloc c 0x1000 7 = Ok (p, c1) /\ data_at 0 (heads c1) p = 11 /\
    with_head c1 p (set_data 12) = Ok c2 /\ bwrite c2 p = Ok c3 /\ brelse c3 p = Ok c4 /\
    logical 0 c4 (7, 0x1000) = 12.
Proof.
  destruct (ide_buffer_init_ok 0 1 512000 {[ (7, 0x1000) := 11 ]}) as (c & Hi & Hc & HA & Hl & Hm).
  destruct (read_modify_write 0 ex_kmalloc ex_kmalloc_fresh c ∅ 0x1000 7 Hc HA (ex_room c Hm)) as
    (p & c1 & A1 & b & Hr & _ & _ & _ & Hb & _ & Hd & _ & Hw); [lia|].
  destruct (Hw 12) as (c2 & c3 & c4 & H2 & H3 & H4 & _ & _ & Hl4).
  exists c, p, c1, c2, c3, c4. split_and!; [exact Hi|exact Hr| |exact H2|exact H3|exact H4|].
  - unfold data_at. rewrite Hb, Hd, Hl. injection Hi as <-. vm_compute. reflexivity.
  - rewrite Hl4. reflexivity.
Defined.

Lemma write_read_multi_witness :
  exists c c1 c2, ide_buffer_init (Some 1) 512000 ∅ {[ (9, 0x1000) := 11 ]} = Ok c /\
    bwrite_multi ex_kmalloc c 0x1000 7 [21; 22] = Ok c1 /\ bread_multi 0 ex_kmalloc 3 c1 0x1000 7 3 = Ok ([21; 22; 11], c2).
Proof.
  destruct (ide_buffer_init_ok 0 1 512000 {[ (9, 0x1000) := 11 ]}) as (c & Hi & Hc & HA & Hl & Hm).
  destruct (write_read_multi 0 ex_kmalloc ex_kmalloc_fresh c ∅ 0x1000 7 [21; 22] Hc HA (ex_room c Hm)) as
    (c1 & Hr & _ & _ & Hw & _ & Hrd); [lia|cbn; lia|].
  destruct (Hrd 0x1000 7 3%nat) as (c2 & H2 & _); [lia|cbn; lia|].
  exists c, c1, c2. split_and!; [exact Hi|exact Hr|]. rewrite H2, !reads_S, !Hw. unfold written.
  rewrite !decide_True by (split; [reflexivity|cbn; lia]).
  assert (Hx : logical 0 c (9, 0x1000) = 11) by (rewrite Hl; injection Hi as <-; vm_compute; reflexivity).
  change (7 + 1 + 1, 0x1000) with (9, 0x1000). rewrite Hx. reflexivity.
Defined.

