(* ===== verification/Vma.v ===== *)
(** * mm/vma.c: the virtual memory areas of a process

    A process's address space is a list of areas in address order; the page
    fault handler asks it what a page holds.  The list is modelled as the
    sequence of its nodes, each the address of the [struct vm_area] and its
    contents.  File-backed areas hold a reference on their inode; the inode
    layer is seen through the interface [InodeRefs], which the inode cache
    implements ([cache_refs] below).  Every operation runs with [mm_lock] held
    and is one step; what [kmalloc] answers is an argument. *)

From S2P Require Import Prelude DList ListView Hashtable InodeCache.

(** ** Data *)
Record vm_area := Vma {
  vma_start : Z;
  vma_end : Z;
  vma_flags : Z;
  vma_filesz : Z;
  vma_pgoff : Z;
  vma_inode : option Z;
}.

Definition set_start (x : Z) (v : vm_area) : vm_area :=
  Vma x (vma_end v) (vma_flags v) (vma_filesz v) (vma_pgoff v) (vma_inode v).
Definition set_end (x : Z) (v : vm_area) : vm_area :=
  Vma (vma_start v) x (vma_flags v) (vma_filesz v) (vma_pgoff v) (vma_inode v).
Definition set_pgoff (x : Z) (v : vm_area) : vm_area :=
  Vma (vma_start v) (vma_end v) (vma_flags v) (vma_filesz v) x (vma_inode v).
Definition set_flags (x : Z) (v : vm_area) : vm_area :=
  Vma (vma_start v) (vma_end v) x (vma_filesz v) (vma_pgoff v) (vma_inode v).

Abbreviation vlist := (list (Z * vm_area)).

Definition USER_VADDR_START : Z := 0x8048000.
Definition USER_STACK_SIZE : Z := 0x800000.
Definition USER_STACK_BASE : Z := 0xC0000000.
Definition USER_MMAP_SEARCH_TOP : Z := USER_STACK_BASE - USER_STACK_SIZE.

Definition VM_READ : Z := 0x0001.
Definition VM_WRITE : Z := 0x0002.
Definition VM_EXEC : Z := 0x0004.
Definition VM_SHARED : Z := 0x0008.
Definition VM_ANON : Z := 0x0010.
Definition VM_GROWSDOWN : Z := 0x0020.
Definition VM_GROWSUP : Z := 0x0040.
Definition VM_USER : Z := 0x0080.

(** ** What the areas need of the inode layer

    [iref_open s p] is [inode_open(get_part_by_rdev(p->i_dev), p->i_no)],
    [iref_close s p] is [inode_close(p)], [users_of s p] the number of users. *)
Class InodeRefs (S : Type) := {
  iref_open : S -> Z -> res (Z * S);
  iref_close : S -> Z -> res S;
  iref_inv : S -> Prop;
  users_of : S -> Z -> Z;
  iref_open_ok : forall s p, iref_inv s -> 0 < users_of s p -> users_of s p + 1 < 2 ^ 32 ->
    exists s', iref_open s p = Ok (p, s') /\ iref_inv s' /\
      forall q, users_of s' q = users_of s q + (if decide (q = p) then 1 else 0);
  iref_close_ok : forall s p, iref_inv s -> 0 < users_of s p ->
    exists s', iref_close s p = Ok s' /\ iref_inv s' /\
      forall q, users_of s' q = users_of s q - (if decide (q = p) then 1 else 0);
}.

(** ** Searching *)
Definition vma_contains_address (v : vm_area) (target_vaddr : Z) : bool :=
  (vma_start v <=? target_vaddr) && (target_vaddr <? vma_end v).

Definition find_vma (l : vlist) (vaddr : Z) : option (Z * vm_area) :=
  List.find (fun n => vma_contains_address n.2 vaddr) l.

Definition vma_after_address (v : vm_area) (new_start : Z) : bool := new_start <? vma_start v.

(** The list cut before the first area that starts after [start]: the last node
    of the first part is [prev], the first node of the second is [next]. *)
Fixpoint cut_after (start : Z) (l : vlist) : vlist * vlist :=
  match l with
  | [] => ([], [])
  | n :: l' => if vma_after_address n.2 start then ([], l)
               else let (a, b) := cut_after start l' in (n :: a, b)
  end.

(** [rev] to expose the last node of the first part. *)
Definition last_node (l : vlist) : option (vlist * (Z * vm_area)) :=
  match rev l with [] => None | n :: r => Some (rev r, n) end.

Section ops.
Context {S : Type} `{InodeRefs S}.

(** [remove_vma] on the node at address [p] *)
Definition remove_vma (l : vlist) (s : S) (p : Z) : res (vlist * S) :=
  n ← deref (List.find (fun n => n.1 =? p) l);
  s' ← match vma_inode n.2 with Some i => iref_close s i | None => Ok s end;
  Ok (filter (fun n => n.1 <> p) l, s').

Definition same_object (v : vm_area) (flags : Z) (inode : option Z) : bool :=
  (vma_flags v =? flags) && bool_decide (vma_inode v = inode).

Definition can_extend_prev (v : vm_area) (start pgoff : Z) (inode : option Z) (flags : Z) : bool :=
  (vma_end v =? start) && same_object v flags inode &&
  (bool_decide (inode = None) ||
   (u32 (vma_pgoff v + u32 (vma_end v - vma_start v) / PG_SIZE) =? pgoff)).

Definition can_join_next (v : vm_area) (end_ : Z) (inode : option Z) (flags : Z) : bool :=
  (vma_start v =? end_) && same_object v flags inode.

(** The tail of [add_vma_sorted]: a new node between the two parts. *)
Definition insert_vma (a b : vlist) (s : S) (mem : option Z)
    (start end_ pgoff : Z) (inode : option Z) (flags filesz : Z) : res (vlist * S) :=
  match mem with
  | None => Panic
  | Some p =>
      r ← match inode with
          | Some i => r ← iref_open s i; Ok (Some r.1, r.2)
          | None => Ok (None, s)
          end;
      Ok (a ++ (p, Vma start end_ flags filesz pgoff r.1) :: b, r.2)
  end.

Definition add_vma_sorted (l : vlist) (s : S) (mem : option Z)
    (start end_ pgoff : Z) (inode : option Z) (flags filesz : Z) : res (vlist * S) :=
  let (a, b) := cut_after start l in
  let insert_or_join :=
    match b with
    | (q, nx) :: b' =>
        if can_join_next nx end_ inode flags then Ok (a ++ (q, set_start start nx) :: b', s)
        else insert_vma a b s mem start end_ pgoff inode flags filesz
    | [] => insert_vma a b s mem start end_ pgoff inode flags filesz
    end in
  match last_node a with
  | Some (a', (p, pv)) =>
      if can_extend_prev pv start pgoff inode flags then
        match b with
        | (q, nx) :: _ =>
            if can_join_next nx end_ inode flags
            then remove_vma (a' ++ (p, set_end (vma_end nx) pv) :: b) s q
            else Ok (a' ++ (p, set_end end_ pv) :: b, s)
        | [] => Ok (a' ++ [(p, set_end end_ pv)], s)
        end
      else insert_or_join
  | None => insert_or_join
  end.

(** The loop of [clear_vma_list]: every node from the head on. *)
Fixpoint clear_loop (todo l : vlist) (s : S) : res (vlist * S) :=
  match todo with
  | [] => Ok (l, s)
  | n :: todo => r ← remove_vma l s n.1; clear_loop todo r.1 r.2
  end.

Definition clear_vma_list (l : vlist) (s : S) : res (vlist * S) := clear_loop l l s.

(** The loop of [copy_vma_list]; [mems] are the answers of [kmalloc] in order.  On
    failure the copies made so far stay on the child's list. *)
Fixpoint copy_loop (todo child : vlist) (s : S) (mems : list (option Z)) : res (bool * vlist * S) :=
  match todo with
  | [] => Ok (true, child, s)
  | (_, v) :: todo =>
      match mems with
      | Some p :: mems =>
          s' ← match vma_inode v with
               | Some i => r ← iref_open s i; Ok r.2
               | None => Ok s
               end;
          copy_loop todo (child ++ [(p, v)]) s' mems
      | _ => Ok (false, child, s)
      end
  end.

Definition copy_vma_list (parent child : vlist) (s : S) (mems : list (option Z))
  : res (bool * vlist * S) := copy_loop parent child s mems.

(** [vma_split] of the node at [p] *)
Definition vma_split (l : vlist) (s : S) (mem : option Z) (p addr : Z) : res (option Z * vlist * S) :=
  n ← deref (list_find (fun n : Z * vm_area => n.1 = p) l);
  let v := n.2.2 in
  match mem with
  | None => Ok (None, l, s)
  | Some q =>
      r ← match vma_inode v with
          | Some i => r ← iref_open s i; Ok (Some r.1, r.2)
          | None => Ok (None, s)
          end;
      let w := Vma addr (vma_end v) (vma_flags v) (vma_filesz v)
                 (u32 (vma_pgoff v + u32 (addr - vma_start v) / PG_SIZE)) r.1 in
      Ok (Some q, take n.1 l ++ (p, set_end addr v) :: (q, w) :: drop (Datatypes.S n.1) l, r.2)
  end.
End ops.

(** ** Gaps *)
Fixpoint gap_loop (l : vlist) (size search_ptr upper_limit : Z) : Z :=
  match l with
  | [] => if size <=? u32 (upper_limit - search_ptr) then search_ptr else 0
  | (_, v) :: l =>
      if (search_ptr <? vma_start v) && (size <=? u32 (vma_start v - search_ptr)) then search_ptr
      else gap_loop l size (if search_ptr <? vma_end v then vma_end v else search_ptr) upper_limit
  end.

Definition vma_find_gap (l : vlist) (pg_cnt : Z) : Z :=
  let size := u32 (pg_cnt * PG_SIZE) in
  match l with
  | [] => USER_VADDR_START
  | _ => gap_loop l size USER_VADDR_START (USER_STACK_BASE - USER_STACK_SIZE)
  end.

(** From the last area down; [l] is the list in reverse. *)
Fixpoint gap_reverse_loop (l : vlist) (size search_end lower_limit : Z) : Z :=
  match l with
  | [] => if (lower_limit <? search_end) && (size <=? u32 (search_end - lower_limit))
          then u32 (search_end - size) else 0
  | (_, v) :: l =>
      if (vma_end v <? search_end) && (size <=? u32 (search_end - vma_end v))
      then u32 (search_end - size)
      else gap_reverse_loop l size (if vma_start v <? search_end then vma_start v else search_end)
             lower_limit
  end.

Definition vma_find_gap_reverse (l : vlist) (pg_cnt : Z) : Z :=
  let size := u32 (pg_cnt * PG_SIZE) in
  let lower_limit := USER_VADDR_START in
  let search_end := USER_MMAP_SEARCH_TOP in
  if (search_end <=? lower_limit) || (u32 (search_end - lower_limit) <? size) then 0
  else match l with
       | [] => u32 (search_end - size)
       | _ => gap_reverse_loop (rev l) size search_end lower_limit
       end.

(** ** What a page holds

    The initialisation of a fresh page in [swap_page] (mm/swap.c): zeroes, or
    [n] bytes of a file from a byte offset, the rest of the page zero. *)
Inductive contents :=
  | Zeroes
  | FileBytes (inode off n : Z).

Definition fault_contents (v : vm_area) (page_vaddr : Z) : contents :=
  match vma_inode v with
  | None => Zeroes
  | Some i =>
      let offset_in_vma := u32 (page_vaddr - vma_start v) in
      if offset_in_vma <? vma_filesz v then
        let read_size :=
          if vma_filesz v <? u32 (offset_in_vma + PG_SIZE)
          then u32 (vma_filesz v - offset_in_vma) else PG_SIZE in
        FileBytes i (u32 (vma_pgoff v + offset_in_vma)) read_size
      else Zeroes
  end.

(** The rights and the initial contents of the page at [page], if it is mapped. *)
Definition page_view (l : vlist) (page : Z) : option (Z * contents) :=
  match find_vma l page with
  | Some (_, v) => Some (vma_flags v, fault_contents v page)
  | None => None
  end.

(** ** Well-formed address spaces: areas in address order, pairwise disjoint *)
Fixpoint areas_ok (lo : Z) (l : vlist) : Prop :=
  match l with
  | [] => lo < 2 ^ 32
  | (_, v) :: l => lo <= vma_start v /\ vma_start v <= vma_end v /\ areas_ok (vma_end v) l
  end.

Record vlist_ok (l : vlist) : Prop := {
  vl_areas : areas_ok 0 l;
  vl_ids : NoDup l.*1;
}.

Fixpoint last_end (lo : Z) (l : vlist) : Z :=
  match l with [] => lo | (_, v) :: l => last_end (vma_end v) l end.

Lemma areas_ok_lt lo l : areas_ok lo l -> lo < 2 ^ 32.
Proof.
  revert lo. induction l as [|[p v] l IH]; intros lo; cbn; [done|].
  intros (H1 & H2 & H3%IH). lia.
Qed.

Lemma areas_ok_app lo a b :
  areas_ok lo (a ++ b) <-> areas_ok lo a /\ areas_ok (last_end lo a) b.
Proof.
  revert lo. induction a as [|[p v] a IH]; intros lo; cbn.
  - split; [|tauto]. intros Hb. split; [by apply areas_ok_lt in Hb|done].
  - rewrite IH. tauto.
Qed.

Lemma areas_ok_weaken lo lo' l : areas_ok lo l -> lo' <= lo -> areas_ok lo' l.
Proof. destruct l as [|[p v] l]; cbn; lia || (intros (? & ? & ?) ?; split_and!; [lia|done|done]). Qed.

Lemma last_end_app lo a b : last_end lo (a ++ b) = last_end (last_end lo a) b.
Proof. revert lo. induction a as [|[p v] a IH]; intros lo; cbn; auto. Qed.

Lemma last_end_ge lo l : areas_ok lo l -> lo <= last_end lo l < 2 ^ 32.
Proof.
  revert lo. induction l as [|[p v] l IH]; intros lo; cbn; [lia|].
  intros (H1 & H2 & H3%IH). lia.
Qed.

(** The areas of a well-formed list lie between its bounds. *)
Lemma areas_ok_in lo l n : areas_ok lo l -> n ∈ l ->
  lo <= vma_start n.2 /\ vma_start n.2 <= vma_end n.2 <= last_end lo l.
Proof.
  revert lo. induction l as [|[p v] l IH]; intros lo Hl Hn; [by apply not_elem_of_nil in Hn|].
  cbn in *. destruct Hl as (H1 & H2 & H3). apply elem_of_cons in Hn as [->|Hn].
  - cbn. apply last_end_ge in H3. lia.
  - destruct (IH _ H3 Hn). lia.
Qed.

Lemma page_view_app a b x :
  page_view (a ++ b) x = match page_view a x with Some r => Some r | None => page_view b x end.
Proof.
  unfold page_view, find_vma. induction a as [|[p v] a IH]; [done|]. cbn.
  by destruct (vma_contains_address v x).
Qed.

Lemma page_view_cons p v l x :
  page_view ((p, v) :: l) x =
    if (vma_start v <=? x) && (x <? vma_end v) then Some (vma_flags v, fault_contents v x)
    else page_view l x.
Proof. unfold page_view, find_vma. cbn. by destruct (vma_contains_address v x) eqn:E; unfold vma_contains_address in E; rewrite E. Qed.

Lemma page_view_above lo l x : areas_ok lo l -> last_end lo l <= x -> page_view l x = None.
Proof.
  revert lo. induction l as [|[p v] l IH]; intros lo; cbn [areas_ok last_end]; [done|].
  intros (H1 & H2 & H3) Hx. rewrite page_view_cons. pose proof (last_end_ge _ _ H3).
  rewrite (proj2 (Z.ltb_ge _ _)), andb_false_r by lia. by apply (IH (vma_end v)).
Qed.

Lemma page_view_below lo l x : areas_ok lo l -> x < lo -> page_view l x = None.
Proof.
  revert lo. induction l as [|[p v] l IH]; intros lo; cbn [areas_ok]; [done|].
  intros (H1 & H2 & H3) Hx. rewrite page_view_cons.
  rewrite (proj2 (Z.leb_gt _ _)) by lia. cbn. apply (IH (vma_end v)); [done|lia].
Qed.

Lemma last_node_spec l :
  match last_node l with Some (l', n) => l = l' ++ [n] | None => l = [] end.
Proof.
  unfold last_node. destruct (rev l) as [|n r] eqn:Hr.
  - by apply (f_equal (@rev _)) in Hr; rewrite rev_involutive in Hr.
  - rewrite <- (rev_involutive l), Hr. done.
Qed.

(** [start, end_) lies in a gap of the list. *)
Definition in_gap (l : vlist) (start end_ : Z) : Prop :=
  Forall (fun n => vma_end n.2 <= start \/ (end_ <= vma_start n.2 /\ start < vma_start n.2)) l.

Lemma cut_after_gap lo l start end_ a b :
  areas_ok lo l -> in_gap l start end_ -> lo <= start -> start <= end_ < 2 ^ 32 ->
  cut_after start l = (a, b) ->
  l = a ++ b /\ areas_ok lo a /\ last_end lo a <= start /\ areas_ok end_ b /\
  Forall (fun n => start < vma_start n.2) b.
Proof.
  revert lo a b. induction l as [|[p v] l IH]; intros lo a b Hl Hg Hlo Hse Hc; cbn in Hc.
  - injection Hc as <- <-. cbn. split_and!; [done|lia|lia|lia|constructor].
  - cbn in Hl. destruct Hl as (H1 & H2 & H3). apply Forall_cons in Hg as [Hv Hg]. cbn in Hv.
    unfold vma_after_address in Hc. cbn in Hc. destruct (Z.ltb_spec start (vma_start v)).
    + injection Hc as <- <-. cbn. split_and!; [done|lia|done|lia|done|done|].
      constructor; [done|]. rewrite Forall_forall. intros n Hn.
      destruct (areas_ok_in _ _ _ H3 Hn). lia.
    + destruct (cut_after start l) as [a' b'] eqn:Hc'. injection Hc as <- <-.
      destruct (IH (vma_end v) a' b' H3 Hg) as (-> & Ha & Hle & Hb & Hf); [lia|done|done|].
      cbn. split_and!; done.
Qed.

(** A node put into a gap. *)
Lemma view_insert lo a b p v :
  areas_ok lo a -> last_end lo a <= vma_start v -> vma_start v <= vma_end v ->
  areas_ok (vma_end v) b ->
  areas_ok lo (a ++ (p, v) :: b) /\
  forall x, page_view (a ++ (p, v) :: b) x =
    if (vma_start v <=? x) && (x <? vma_end v) then Some (vma_flags v, fault_contents v x)
    else page_view (a ++ b) x.
Proof.
  intros Ha Hle Hse Hb. split.
  - apply areas_ok_app. cbn. auto.
  - intros x. rewrite !page_view_app, page_view_cons.
    destruct (Z.leb_spec (vma_start v) x); cbn; [|done].
    destruct (Z.ltb_spec x (vma_end v)); [|done]. by rewrite (page_view_above lo) by (done || lia).
Qed.

(** Two adjacent anonymous areas with the same rights and their union. *)
Record unites (v1 v2 v : vm_area) : Prop := {
  un_anon : vma_inode v1 = None /\ vma_inode v2 = None /\ vma_inode v = None;
  un_flags : vma_flags v1 = vma_flags v /\ vma_flags v2 = vma_flags v;
  un_range : vma_start v1 = vma_start v /\ vma_end v1 = vma_start v2 /\ vma_end v2 = vma_end v;
}.

Lemma view_unite lo a b p q r v1 v2 v :
  unites v1 v2 v -> areas_ok lo (a ++ (p, v1) :: (q, v2) :: b) ->
  areas_ok lo (a ++ (r, v) :: b) /\
  forall x, page_view (a ++ (r, v) :: b) x = page_view (a ++ (p, v1) :: (q, v2) :: b) x.
Proof.
  intros [(N1 & N2 & N) (F1 & F2) (R1 & R2 & R3)]. rewrite !areas_ok_app. cbn.
  intros (Ha & H1 & H2 & H3 & H4 & H5). split.
  - split_and!; [done|lia|lia|by rewrite <- R3].
  - intros x. rewrite !page_view_app, !page_view_cons. unfold fault_contents.
    rewrite N1, N2, N, F1, F2. destruct (page_view a x); [done|]. repeat bdestr; cbn; lia || done.
Qed.

Lemma NoDup_ids_mid (a b : vlist) p (v w : vm_area) :
  NoDup (a ++ (p, v) :: b).*1 -> NoDup (a ++ (p, w) :: b).*1.
Proof. by rewrite !fmap_app. Qed.

Lemma NoDup_ids_skip (a b : vlist) n : NoDup (a ++ n :: b).*1 -> NoDup (a ++ b).*1.
Proof. rewrite !fmap_app, fmap_cons, <- Permutation_middle. by intros [_ ?]%NoDup_cons. Qed.

Lemma NoDup_ids_add (a b : vlist) p v : NoDup (a ++ b).*1 -> p ∉ (a ++ b).*1 -> NoDup (a ++ (p, v) :: b).*1.
Proof. rewrite !fmap_app, fmap_cons, <- Permutation_middle. by constructor. Qed.

Lemma find_node (a b : vlist) q v :
  q ∉ a.*1 -> List.find (fun n => n.1 =? q) (a ++ (q, v) :: b) = Some (q, v).
Proof.
  induction a as [|[p w] a IH]; cbn.
  - by rewrite Z.eqb_refl.
  - intros [Hp Ha]%not_elem_of_cons. destruct (Z.eqb_spec p q); [congruence|]. by apply IH.
Qed.

Lemma filter_node (a b : vlist) q v :
  NoDup (a ++ (q, v) :: b).*1 -> filter (fun n => n.1 <> q) (a ++ (q, v) :: b) = a ++ b.
Proof.
  rewrite fmap_app, fmap_cons. intros Hnd.
  assert (Hid : forall l : vlist, q ∉ l.*1 -> filter (fun n => n.1 <> q) l = l).
  { induction l as [|[p w] l IH]; [done|]. rewrite fmap_cons. intros [Hp Hl]%not_elem_of_cons.
    cbn in Hp. rewrite filter_cons_True by (cbn; congruence). by rewrite IH. }
  apply NoDup_app in Hnd as (_ & Hd & [Hq _]%NoDup_cons).
  rewrite filter_app, filter_cons_False by (cbn; tauto). rewrite !Hid; [done|done|].
  intros Hin. apply (Hd q Hin). left.
Qed.

Section add.
Context {S : Type} `{InodeRefs S}.

Lemma remove_vma_node (a b : vlist) (s : S) q v :
  NoDup (a ++ (q, v) :: b).*1 ->
  remove_vma (a ++ (q, v) :: b) s q =
    (s' ← match vma_inode v with Some i => iref_close s i | None => Ok s end; Ok (a ++ b, s')).
Proof.
  intros Hnd. unfold remove_vma. rewrite find_node, filter_node; [done|done|].
  rewrite fmap_app, fmap_cons in Hnd. intros Hin.
  apply NoDup_app in Hnd as (_ & Hd & _). apply (Hd q Hin). left.
Qed.

Lemma same_object_ok v flags inode :
  same_object v flags inode = true <-> vma_flags v = flags /\ vma_inode v = inode.
Proof. unfold same_object. rewrite andb_true_iff, Z.eqb_eq, bool_decide_eq_true. done. Qed.

Lemma can_join_next_ok v end_ inode flags :
  can_join_next v end_ inode flags = true <->
  vma_start v = end_ /\ vma_flags v = flags /\ vma_inode v = inode.
Proof. unfold can_join_next. by rewrite andb_true_iff, Z.eqb_eq, same_object_ok. Qed.

Lemma can_extend_anon v start pgoff flags :
  can_extend_prev v start pgoff None flags = true <->
  vma_end v = start /\ vma_flags v = flags /\ vma_inode v = None.
Proof.
  unfold can_extend_prev. rewrite andb_true_r, andb_true_iff, Z.eqb_eq, same_object_ok. done.
Qed.

(** The new area as a node of its own between the two parts of the list: every
    way [add_vma_sorted] merges it shows the same pages. *)
Lemma add_anon_equiv (l a b : vlist) (s : S) p start end_ pgoff flags filesz :
  cut_after start l = (a, b) -> NoDup (a ++ b).*1 -> p ∉ (a ++ b).*1 ->
  let ref := a ++ (p, Vma start end_ flags filesz pgoff None) :: b in
  areas_ok 0 ref ->
  exists l', add_vma_sorted l s (Some p) start end_ pgoff None flags filesz = Ok (l', s) /\
    vlist_ok l' /\ forall x, page_view l' x = page_view ref x.
Proof.
  intros Hc Hnd Hp ref Hok. unfold add_vma_sorted. rewrite Hc.
  assert (Hins : exists l', insert_vma a b s (Some p) start end_ pgoff None flags filesz = Ok (l', s) /\
    vlist_ok l' /\ forall x, page_view l' x = page_view ref x).
  { exists ref. cbn. split_and!; [done| |done]. split; [done|]. by apply NoDup_ids_add. }
  assert (Hjoin : exists l', match b with
    | (q, nx) :: b' =>
        if can_join_next nx end_ None flags then Ok (a ++ (q, set_start start nx) :: b', s)
        else insert_vma a b s (Some p) start end_ pgoff None flags filesz
    | [] => insert_vma a b s (Some p) start end_ pgoff None flags filesz
    end = Ok (l', s) /\ vlist_ok l' /\ forall x, page_view l' x = page_view ref x).
  { destruct b as [|[q nx] b']; [done|].
    destruct (can_join_next nx end_ None flags) eqn:Hj; [|done].
    apply can_join_next_ok in Hj as (Hs & Hf & Hi). eexists. split; [done|].
    destruct (view_unite 0 a b' p q q (Vma start end_ flags filesz pgoff None) nx
      (set_start start nx)) as [Ho Hv]; [by repeat split; cbn|exact Hok|].
    split; [split; [done|by eapply NoDup_ids_mid]|done]. }
  pose proof (last_node_spec a) as Hl. destruct (last_node a) as [[a' [r pv]]|]; [|done].
  destruct (can_extend_prev pv start pgoff None flags) eqn:He; [|done]. clear Hins Hjoin.
  apply can_extend_anon in He as (Hs & Hf & Hi). subst a. unfold ref in *. clear ref.
  rewrite <- app_assoc in Hok. rewrite <- app_assoc in Hnd. cbn [app] in *.
  setoid_rewrite <- app_assoc. cbn [app].
  destruct (view_unite 0 a' b r p r pv (Vma start end_ flags filesz pgoff None)
    (set_end end_ pv)) as [Ho Hv]; [by repeat split; cbn|exact Hok|].
  destruct b as [|[q nx] b'].
  { eexists. split; [done|]. split; [split; [done|by eapply NoDup_ids_mid]|done]. }
  destruct (can_join_next nx end_ None flags) eqn:Hj.
  - apply can_join_next_ok in Hj as (Hs' & Hf' & Hi').
    destruct (view_unite 0 a' b' r q r (set_end end_ pv) nx (set_end (vma_end nx) pv))
      as [Ho' Hv']; [by repeat split; cbn; try congruence|exact Ho|].
    pose proof (remove_vma_node (a' ++ [(r, set_end (vma_end nx) pv)]) b' s q nx) as Hr.
    rewrite <- !app_assoc in Hr. cbn [app] in Hr. rewrite Hr by (by eapply NoDup_ids_mid).
    rewrite Hi'. ok_simpl. eexists. split; [done|]. split.
    + split; [done|]. pose proof (NoDup_ids_skip (a' ++ [(r, pv)]) b' (q, nx)) as Hn2.
      rewrite <- !app_assoc in Hn2. eapply NoDup_ids_mid, Hn2, Hnd.
    + intros x. by rewrite Hv', Hv.
  - eexists. split; [done|]. split; [split; [done|by eapply NoDup_ids_mid]|done].
Qed.

(** Adding an anonymous area in a gap of a well-formed address space, however
    it is merged with its neighbours: the address space stays well formed, the
    pages of the new range get the given rights and start as zeroes, every other
    page keeps its rights and contents, and no inode reference changes. *)
Lemma add_vma_anon_spec (l : vlist) (s : S) p start end_ pgoff flags filesz :
  vlist_ok l -> in_gap l start end_ -> 0 <= start <= end_ -> end_ < 2 ^ 32 -> p ∉ l.*1 ->
  exists l', add_vma_sorted l s (Some p) start end_ pgoff None flags filesz = Ok (l', s) /\
    vlist_ok l' /\
    forall x, page_view l' x =
      if (start <=? x) && (x <? end_) then Some (flags, Zeroes) else page_view l x.
Proof.
  intros [Hl Hnd] Hg Hse Hlt Hp. destruct (cut_after start l) as [a b] eqn:Hc.
  destruct (cut_after_gap 0 l start end_ a b) as (-> & Ha & Hle & Hb & _); [done|done|lia|lia|done|].
  destruct (view_insert 0 a b p (Vma start end_ flags filesz pgoff None)) as [Ho Hv];
    [done|done|cbn; lia|done|].
  destruct (add_anon_equiv (a ++ b) a b s p start end_ pgoff flags filesz Hc Hnd Hp Ho)
    as (l' & Hrun & Hok & Hview).
  exists l'. split_and!; [done|done|]. intros x. by rewrite Hview, Hv.
Qed.

(** Adding a file-backed area in a gap when neither neighbour maps the same
    inode up to the new range: the address space stays well formed, the pages of
    the new range start with the bytes of the file at their offset, every other
    page keeps its rights and contents, and the inode gains exactly one user. *)
Lemma add_vma_file_spec (l : vlist) (s : S) p start end_ pgoff i flags filesz :
  vlist_ok l -> in_gap l start end_ -> 0 <= start <= end_ -> end_ < 2 ^ 32 -> p ∉ l.*1 ->
  Forall (fun n => vma_inode n.2 = Some i -> vma_end n.2 <> start /\ vma_start n.2 <> end_) l ->
  iref_inv s -> 0 < users_of s i -> users_of s i + 1 < 2 ^ 32 ->
  exists l' s', add_vma_sorted l s (Some p) start end_ pgoff (Some i) flags filesz = Ok (l', s') /\
    vlist_ok l' /\
    (forall x, page_view l' x =
      if (start <=? x) && (x <? end_)
      then Some (flags, fault_contents (Vma start end_ flags filesz pgoff (Some i)) x)
      else page_view l x) /\
    iref_inv s' /\ forall q, users_of s' q = users_of s q + (if decide (q = i) then 1 else 0).
Proof.
  intros [Hl Hnd] Hg Hse Hlt Hp Hno Hs Hu Hu2. destruct (cut_after start l) as [a b] eqn:Hc.
  destruct (cut_after_gap 0 l start end_ a b) as (-> & Ha & Hle & Hb & _); [done|done|lia|lia|done|].
  destruct (view_insert 0 a b p (Vma start end_ flags filesz pgoff (Some i))) as [Ho Hv];
    [done|done|cbn; lia|done|].
  destruct (iref_open_ok s i Hs Hu Hu2) as (s' & Hopen & Hs' & Hus).
  exists (a ++ (p, Vma start end_ flags filesz pgoff (Some i)) :: b), s'.
  split; [|split_and!; [split; [done|by apply NoDup_ids_add]|exact Hv|done|done]].
  assert (Hins : insert_vma a b s (Some p) start end_ pgoff (Some i) flags filesz =
    Ok (a ++ (p, Vma start end_ flags filesz pgoff (Some i)) :: b, s')).
  { cbn. rewrite Hopen. done. }
  unfold add_vma_sorted. rewrite Hc. apply Forall_app in Hno as [Hna Hnb].
  assert (Hj : forall q nx b', b = (q, nx) :: b' -> can_join_next nx end_ (Some i) flags = false).
  { intros q nx b' ->. apply Forall_cons in Hnb as [Hn _]. apply not_true_iff_false.
    rewrite can_join_next_ok. cbn in Hn. intuition. }
  assert (He : forall pv, (exists a' r, a = a' ++ [(r, pv)]) ->
    can_extend_prev pv start pgoff (Some i) flags = false).
  { intros pv (a' & r & ->). apply Forall_app in Hna as [_ [Hn _]%Forall_cons].
    unfold can_extend_prev. destruct (Z.eqb_spec (vma_end pv) start); [|done].
    destruct (same_object pv flags (Some i)) eqn:Hso; [|done].
    apply same_object_ok in Hso. cbn in Hn. intuition. }
  pose proof (last_node_spec a) as Hln.
  destruct (last_node a) as [[a' [r pv]]|]; [rewrite (He pv) by eauto|];
    (destruct b as [|[q nx] b']; [exact Hins|]; rewrite (Hj q nx b') by done; exact Hins).
Qed.

(** ** Splitting *)
Lemma view_split lo a b p q r v1 v2 v :
  unites v1 v2 v -> vma_start v1 <= vma_end v1 <= vma_end v2 ->
  areas_ok lo (a ++ (r, v) :: b) -> areas_ok lo (a ++ (p, v1) :: (q, v2) :: b).
Proof.
  intros [_ _ (R1 & R2 & R3)]. rewrite !areas_ok_app. cbn. rewrite R1, R3. intuition lia.
Qed.

(** Splitting an anonymous area at an address inside it keeps the address
    space well formed and changes no page's rights or contents; the part below the
    address stays the old object and the part from it on is the new one. *)
Lemma vma_split_anon_spec (a b : vlist) (s : S) p q v addr :
  vlist_ok (a ++ (p, v) :: b) -> vma_inode v = None -> vma_start v <= addr <= vma_end v ->
  q ∉ (a ++ (p, v) :: b).*1 ->
  exists w, vma_split (a ++ (p, v) :: b) s (Some q) p addr =
      Ok (Some q, a ++ (p, set_end addr v) :: (q, w) :: b, s) /\
    vma_start w = addr /\ vma_end w = vma_end v /\
    vlist_ok (a ++ (p, set_end addr v) :: (q, w) :: b) /\
    forall x, page_view (a ++ (p, set_end addr v) :: (q, w) :: b) x =
      page_view (a ++ (p, v) :: b) x.
Proof.
  intros [Hl Hnd] Hi Haddr Hq.
  assert (Hf : list_find (fun n : Z * vm_area => n.1 = p) (a ++ (p, v) :: b) =
    Some (length a, (p, v))).
  { apply list_find_Some. split_and!; [by rewrite lookup_app_r, Nat.sub_diag by lia|done|].
    intros j y Hj Hlt Hy. rewrite lookup_app_l in Hj by done.
    rewrite fmap_app, fmap_cons in Hnd. apply NoDup_app in Hnd as (_ & Hd & _).
    apply (Hd p); [|left]. rewrite <- Hy. by eapply list_elem_of_fmap_2, list_elem_of_lookup_2. }
  unfold vma_split. rewrite Hf. ok_simpl. cbn [fst snd]. rewrite Hi. ok_simpl. cbn [fst snd].
  assert (Hdrop : drop (Datatypes.S (length a)) (a ++ (p, v) :: b) = b).
  { rewrite cons_middle, app_assoc. apply drop_app_length'. rewrite length_app. cbn. lia. }
  rewrite take_app_length, Hdrop.
  eexists. split; [done|]. split; [done|]. split; [done|].
  assert (Hun : unites (set_end addr v) (Vma addr (vma_end v) (vma_flags v) (vma_filesz v)
    (u32 (vma_pgoff v + u32 (addr - vma_start v) / PG_SIZE)) None) v) by (by repeat split).
  assert (Hok : areas_ok 0 (a ++ (p, set_end addr v) :: (q, Vma addr (vma_end v) (vma_flags v)
    (vma_filesz v) (u32 (vma_pgoff v + u32 (addr - vma_start v) / PG_SIZE)) None) :: b))
    by (by eapply view_split; [exact Hun|cbn|exact Hl]).
  split.
  - split; [done|]. eapply NoDup_ids_mid in Hnd. rewrite cons_middle, app_assoc in Hnd.
    rewrite cons_middle, app_assoc. apply NoDup_ids_add; [exact Hnd|].
    rewrite <- app_assoc. rewrite !fmap_app in *. exact Hq.
  - intros x. symmetry. by eapply view_unite.
Qed.
End add.

(** ** Inode references of a list of areas *)
Fixpoint refcount (i : Z) (l : vlist) : Z :=
  match l with
  | [] => 0
  | n :: l => (if decide (vma_inode n.2 = Some i) then 1 else 0) + refcount i l
  end.

Lemma refcount_nonneg i l : 0 <= refcount i l.
Proof. induction l as [|n l IH]; cbn; [lia|]. case_decide; lia. Qed.

Section refs.
Context {S : Type} `{InodeRefs S}.

Lemma clear_loop_ok (l : vlist) (s : S) :
  NoDup l.*1 -> iref_inv s -> (forall i, refcount i l <= users_of s i) ->
  exists s', clear_loop l l s = Ok ([], s') /\ iref_inv s' /\
    forall i, users_of s' i = users_of s i - refcount i l.
Proof.
  revert s. induction l as [|[p v] l IH]; intros s Hnd Hs Hr.
  - exists s. split_and!; [done|done|]. intros i. cbn. lia.
  - cbn [clear_loop fst]. rewrite (remove_vma_node [] l s p v Hnd). cbn [app].
    apply NoDup_cons in Hnd as [_ Hnd].
    destruct (vma_inode v) as [i|] eqn:Hi.
    + assert (Hpos : 0 < users_of s i).
      { specialize (Hr i). cbn in Hr. rewrite decide_True in Hr by done.
        pose proof (refcount_nonneg i l). lia. }
      destruct (iref_close_ok s i Hs Hpos) as (s1 & -> & Hs1 & Hu1). ok_simpl. cbn [fst snd].
      destruct (IH s1) as (s' & Hrun & Hs' & Hu'); [done|done| |].
      * intros j. rewrite Hu1. specialize (Hr j). cbn in Hr. rewrite Hi in Hr.
        repeat case_decide; simplify_eq; lia.
      * exists s'. split_and!; [done|done|]. intros j. rewrite Hu', Hu1. cbn. rewrite Hi.
        repeat case_decide; simplify_eq; lia.
    + ok_simpl. cbn [fst snd]. destruct (IH s) as (s' & Hrun & Hs' & Hu'); [done|done| |].
      * intros j. specialize (Hr j). cbn in Hr. rewrite Hi in Hr. case_decide; simplify_eq; lia.
      * exists s'. split_and!; [done|done|]. intros j. rewrite Hu'. cbn. rewrite Hi.
        case_decide; simplify_eq; lia.
Qed.

Lemma copy_loop_ok (l child : vlist) (s : S) (ps : list Z) :
  length ps = length l -> iref_inv s ->
  (forall i, 0 < refcount i l -> 0 < users_of s i) ->
  (forall i, users_of s i + refcount i l < 2 ^ 32) ->
  exists s', copy_loop l child s (Some <$> ps) = Ok (true, child ++ zip ps l.*2, s') /\ iref_inv s' /\
    forall i, users_of s' i = users_of s i + refcount i l.
Proof.
  revert child s ps. induction l as [|[p v] l IH]; intros child s ps Hlen Hs Hpos Hmax.
  - destruct ps; [|done]. exists s. cbn. rewrite app_nil_r. split_and!; [done|done|]. intros. lia.
  - destruct ps as [|q ps]; [done|]. injection Hlen as Hlen. cbn [copy_loop fmap list_fmap zip].
    assert (Hstep : exists s1, match vma_inode v with Some i => r ← iref_open s i; Ok r.2 | None => Ok s end
        = Ok s1 /\ iref_inv s1 /\
        forall i, users_of s1 i = users_of s i + (if decide (vma_inode v = Some i) then 1 else 0)).
    { destruct (vma_inode v) as [i|] eqn:Hi.
      - specialize (Hpos i). specialize (Hmax i). cbn in Hpos, Hmax. rewrite Hi in Hpos, Hmax.
        rewrite decide_True in Hpos, Hmax by done. pose proof (refcount_nonneg i l).
        destruct (iref_open_ok s i Hs) as (s1 & -> & Hs1 & Hu1); [apply Hpos; lia|lia|].
        ok_simpl. exists s1. split_and!; [done|done|]. intros j. rewrite Hu1.
        repeat case_decide; simplify_eq; lia.
      - exists s. split_and!; [done|done|]. intros j. case_decide; simplify_eq; lia. }
    destruct Hstep as (s1 & Hrun1 & Hs1 & Hu1).
    replace (match vma_inode v with Some i => r ← iref_open s i; Ok r.2 | None => Ok s end)
      with (Ok s1) by done. ok_simpl.
    destruct (IH (child ++ [(q, v)]) s1 ps Hlen Hs1) as (s' & Hrun & Hs' & Hu').
    + intros i Hi. rewrite Hu1. specialize (Hpos i). cbn in Hpos. case_decide; lia.
    + intros i. rewrite Hu1. specialize (Hmax i). cbn in Hmax. lia.
    + exists s'. split_and!; [|done|].
      * rewrite Hrun. by rewrite <- app_assoc.
      * intros i. rewrite Hu', Hu1. cbn. lia.
Qed.

Lemma page_view_ids (l : vlist) ps x : length ps = length l -> page_view (zip ps l.*2) x = page_view l x.
Proof.
  revert ps. induction l as [|[p v] l IH]; intros [|q ps] Hlen; try done.
  injection Hlen as Hlen. cbn [fmap list_fmap zip]. rewrite !page_view_cons. by rewrite IH.
Qed.

Lemma refcount_ids i (l : vlist) ps : length ps = length l -> refcount i (zip ps l.*2) = refcount i l.
Proof.
  revert ps. induction l as [|[p v] l IH]; intros [|q ps] Hlen; try done.
  injection Hlen as Hlen. cbn. by rewrite IH.
Qed.

(** C38. [fork] and [exit] balance: when the allocations succeed, [copy_vma_list]
    gives the child an address space with the same pages and one more user per
    file-backed area for each inode, and [clear_vma_list] on it removes exactly
    those users again. *)
Theorem fork_exit_references (parent : vlist) (s : S) ps :
  length ps = length parent -> NoDup ps -> iref_inv s ->
  (forall i, refcount i parent <= users_of s i) ->
  (forall i, users_of s i + refcount i parent < 2 ^ 32) ->
  exists child s1 s2,
    copy_vma_list parent [] s (Some <$> ps) = Ok (true, child, s1) /\
    (forall x, page_view child x = page_view parent x) /\
    (forall i, users_of s1 i = users_of s i + refcount i parent) /\
    clear_vma_list child s1 = Ok ([], s2) /\ forall i, users_of s2 i = users_of s i.
Proof.
  intros Hlen Hnd Hs Hr Hmax.
  destruct (copy_loop_ok parent [] s ps Hlen Hs) as (s1 & Hcopy & Hs1 & Hu1); [|done|].
  { intros i Hi. specialize (Hr i). lia. }
  destruct (clear_loop_ok (zip ps parent.*2) s1) as (s2 & Hclear & _ & Hu2); [|done| |].
  { change (fst <$> zip ps parent.*2) with (map fst (zip ps parent.*2)).
    rewrite fst_zip; [done|]. rewrite length_fmap. lia. }
  { intros i. rewrite Hu1, refcount_ids by done. specialize (Hr i). pose proof (refcount_nonneg i parent). lia. }
  exists (zip ps parent.*2), s1, s2. split_and!; [done| |done|done|].
  - intros x. by apply page_view_ids.
  - intros i. rewrite Hu2, Hu1, refcount_ids by done. lia.
Qed.
End refs.

(** ** Gap search *)

(** No area reaches into [t, e). *)
Definition free_range (l : vlist) (t e : Z) : Prop :=
  Forall (fun n => vma_end n.2 <= t \/ e <= vma_start n.2) l.

Lemma elem_of_rev {A} (x : A) l : x ∈ rev l <-> x ∈ l.
Proof. by rewrite !list_elem_of_In, <- in_rev. Qed.

(** [todo] reversed is the part of the list still to visit; the areas visited
    start at [search_end] or above, and no free range of the size ends above it. *)
Lemma gap_reverse_loop_ok todo lo size se :
  0 <= lo -> areas_ok lo (rev todo) -> 0 < size < 2 ^ 32 -> 0 <= se < 2 ^ 32 ->
  let r := gap_reverse_loop todo size se lo in
  (r = 0 /\ forall t, lo <= t -> t + size <= se -> ~ free_range todo t (t + size)) \/
  (lo <= r /\ r + size <= se /\ free_range todo r (r + size) /\
   forall t, lo <= t -> t + size <= se -> free_range todo t (t + size) -> t <= r).
Proof.
  intros Hlo. revert se. induction todo as [|[p v] todo IH]; intros se Ha Hsz Hse.
  - cbn. destruct (Z.ltb_spec lo se); cbn; [|left; split; [done|lia]].
    rewrite u32_small by lia. destruct (Z.leb_spec size (se - lo)); [|left; split; [done|lia]].
    right. rewrite u32_small by lia. split_and!; [lia|lia|constructor|lia].
  - cbn [rev] in Ha. apply areas_ok_app in Ha as [Ha Hv]. cbn in Hv. destruct Hv as (Hv1 & Hv2 & Hv3).
    pose proof (last_end_ge _ _ Ha) as Hle. cbn [gap_reverse_loop].
    assert (Hbelow : forall t, last_end lo (rev todo) <= t -> forall e, free_range todo t e).
    { intros t Ht e. apply Forall_forall. intros n Hn. left.
      destruct (areas_ok_in lo (rev todo) n Ha); [by rewrite elem_of_rev|].
      lia. }
    set (se' := if vma_start v <? se then vma_start v else se).
    assert (Hse' : se' = Z.min (vma_start v) se) by (unfold se'; bdestr; lia).
    destruct (Z.ltb_spec (vma_end v) se); cbn [andb].
    + rewrite u32_small by lia. destruct (Z.leb_spec size (se - vma_end v)).
      * right. rewrite u32_small by lia. split_and!; [lia|lia| |lia].
        constructor; [cbn; lia|]. apply Hbelow. lia.
      * destruct (IH se') as [[Hr Hno]|(Hr1 & Hr2 & Hr3 & Hr4)]; [done|done|lia| |].
        -- left. split; [done|]. intros t Ht1 Ht2 [Hf1 Hf2]%Forall_cons. cbn in Hf1.
           apply (Hno t Ht1); [lia|done].
        -- right. split_and!; [done|lia|constructor; [cbn; lia|done]|].
           intros t Ht1 Ht2 [Hf1 Hf2]%Forall_cons. cbn in Hf1. apply Hr4; [done|lia|done].
    + destruct (IH se') as [[Hr Hno]|(Hr1 & Hr2 & Hr3 & Hr4)]; [done|done|lia| |].
      * left. split; [done|]. intros t Ht1 Ht2 [Hf1 Hf2]%Forall_cons. cbn in Hf1.
        apply (Hno t Ht1); [lia|done].
      * right. split_and!; [done|lia|constructor; [cbn; lia|done]|].
        intros t Ht1 Ht2 [Hf1 Hf2]%Forall_cons. cbn in Hf1. apply Hr4; [done|lia|done].
Qed.

(** The search for an mmap range, from the top down: on an address space whose
    areas lie above [USER_VADDR_START] it returns the highest free range of the
    requested size between [USER_VADDR_START] and the stack reserve, and 0 exactly
    when there is none. *)
Lemma vma_find_gap_reverse_spec l pg_cnt :
  areas_ok USER_VADDR_START l -> 0 < pg_cnt -> pg_cnt * PG_SIZE < 2 ^ 32 ->
  let size := pg_cnt * PG_SIZE in
  let r := vma_find_gap_reverse l pg_cnt in
  let fits t := USER_VADDR_START <= t /\ t + size <= USER_MMAP_SEARCH_TOP /\ free_range l t (t + size) in
  (r = 0 /\ forall t, ~ fits t) \/ (fits r /\ forall t, fits t -> t <= r).
Proof.
  intros Hl Hp Hp2. unfold PG_SIZE in *. cbv zeta.
  unfold vma_find_gap_reverse, PG_SIZE. rewrite (u32_small (pg_cnt * 4096)) by lia.
  replace (USER_MMAP_SEARCH_TOP <=? USER_VADDR_START) with false by done. cbn [orb].
  rewrite (u32_small (USER_MMAP_SEARCH_TOP - USER_VADDR_START)) by (vm_compute; intuition discriminate).
  destruct (Z.ltb_spec (USER_MMAP_SEARCH_TOP - USER_VADDR_START) (pg_cnt * 4096)).
  { left. split; [done|]. lia. }
  destruct (decide (l = [])) as [->|Hne].
  - right. unfold USER_MMAP_SEARCH_TOP, USER_STACK_BASE, USER_STACK_SIZE, USER_VADDR_START in *.
    rewrite u32_small by lia. split; [split_and!; [lia|lia|constructor]|]. intros t (? & ? & _). lia.
  - replace (match l with [] => u32 (USER_MMAP_SEARCH_TOP - pg_cnt * 4096) | _ :: _ =>
      gap_reverse_loop (rev l) (pg_cnt * 4096) USER_MMAP_SEARCH_TOP USER_VADDR_START end)
      with (gap_reverse_loop (rev l) (pg_cnt * 4096) USER_MMAP_SEARCH_TOP USER_VADDR_START)
      by (by destruct l).
    assert (Hfr : forall t e, free_range (rev l) t e <-> free_range l t e).
    { intros t e. unfold free_range. by rewrite !Forall_forall; setoid_rewrite elem_of_rev. }
    destruct (gap_reverse_loop_ok (rev l) USER_VADDR_START (pg_cnt * 4096) USER_MMAP_SEARCH_TOP)
      as [[Hr Hno]|(Hr1 & Hr2 & Hr3 & Hr4)]; [done|by rewrite rev_involutive|lia|done| |].
    + left. split; [done|]. intros t (H1 & H2 & H3). by apply (Hno t H1 H2), Hfr.
    + right. split; [split_and!; [done|done|by apply Hfr]|]. intros t (H1 & H2 & H3).
      apply Hr4; [done|done|by apply Hfr].
Qed.

(** Everything below the stack reserve is mapped, and so is the stack. *)
Definition full_space : vlist :=
  [(1, Vma USER_VADDR_START USER_MMAP_SEARCH_TOP (VM_READ + VM_ANON) 0 0 None);
   (2, Vma USER_MMAP_SEARCH_TOP USER_STACK_BASE (VM_READ + VM_WRITE + VM_GROWSDOWN + VM_ANON) 0 0 None)].

(** The search from the bottom up leaves the user range: with the address space
    full up to the stack reserve and the stack area in its place, the last
    comparison wraps around and the search answers with the first address of the
    kernel instead of 0. *)
Lemma vma_find_gap_leaves_user_space :
  vlist_ok full_space /\ vma_find_gap full_space 1 = 0xC0000000 /\
  vma_find_gap_reverse full_space 1 = 0.
Proof.
  split; [|by vm_compute]. split; [cbn; unfold USER_VADDR_START, USER_MMAP_SEARCH_TOP, USER_STACK_BASE, USER_STACK_SIZE; lia|].
  apply (bool_decide_unpack _). vm_compute. exact I.
Qed.

(** ** The inode cache implements the interface

    An area's inode has a user, so it is in the cache and [inode_open] takes its
    hit path: no allocation, no disk read and no other task are involved. *)
Definition cached_users (c : inode_cache) (p : Z) : Z :=
  if decide (p ∈ elems (hash_table c)) then
    match inodes c !! p with Some i => i_open_cnts i | None => 0 end
  else 0.

Definition reopen (c : inode_cache) (p : Z) : res (Z * inode_cache) :=
  i ← deref (inodes c !! p);
  inode_open 0 None (fun c => c) c None (i_dev i) (i_no i).

Lemma cached_users_Some c p : 0 < cached_users c p ->
  p ∈ elems (hash_table c) /\ exists i, inodes c !! p = Some i /\ cached_users c p = i_open_cnts i.
Proof.
  unfold cached_users. case_decide as Hp; [|lia]. destruct (inodes c !! p) as [i|] eqn:Hi; [|lia].
  eauto.
Qed.

Lemma cached_users_update c p i j lru pages q :
  p ∈ elems (hash_table c) -> inodes c !! p = Some i ->
  cached_users (Cache (hash_table c) lru (<[p := j]> (inodes c)) pages) q =
    if decide (q = p) then i_open_cnts j else cached_users c q.
Proof.
  intros Hp Hi. unfold cached_users. cbn [hash_table inodes].
  destruct (decide (q = p)) as [->|Hne].
  - by rewrite decide_True, lookup_insert, decide_True by done.
  - by rewrite lookup_insert_ne by done.
Qed.

Lemma reopen_ok c p : cache_inv c -> 0 < cached_users c p -> cached_users c p + 1 < 2 ^ 32 ->
  exists c', reopen c p = Ok (p, c') /\ cache_inv c' /\
    forall q, cached_users c' q = cached_users c q + (if decide (q = p) then 1 else 0).
Proof.
  intros Hc (Hp & i & Hi & Hu)%cached_users_Some Hmax. rewrite Hu in Hmax.
  unfold reopen, inode_open. rewrite Hi. ok_simpl.
  destruct (cache_find c (i_dev i, i_no i) Hc) as (r & -> & Hr). ok_simpl.
  rewrite (proj2 (Hr p)) by eauto. rewrite Hi. ok_simpl. rewrite !Z.eqb_refl. cbn [andb]. ok_simpl.
  assert (Hcnt : 0 <= i_open_cnts i) by (destruct (ci_live _ Hc p Hp) as (_ & j & Hj & ?); simplify_eq; lia).
  assert (Hpl : p ∈ lru_list c) by (by rewrite (ci_lru _ Hc)).
  unfold inode_touch. rewrite Hi. ok_simpl.
  rewrite (proj2 (unlink_ok p (lru_list c) _) (conj Hpl eq_refl)). ok_simpl.
  rewrite u32_small by lia. eexists. split; [done|]. split.
  - apply (update_inv c p i); [done|done|done|done|cbn; lia|].
    rewrite (filter_ne_perm (lru_list c) p (lru_NoDup _ Hc) Hpl) at 2.
    by rewrite Permutation_app_comm.
  - intros q. rewrite (cached_users_update c p i) by done. case_decide as Hq; [subst; cbn|]; lia.
Qed.

Lemma release_ok c p : cache_inv c -> 0 < cached_users c p ->
  exists c', inode_close c p = Ok c' /\ cache_inv c' /\
    forall q, cached_users c' q = cached_users c q - (if decide (q = p) then 1 else 0).
Proof.
  intros Hc Hpos. pose proof Hpos as (Hp & i & Hi & Hu)%cached_users_Some.
  destruct (ci_live _ Hc p Hp) as (Hnull & j & Hj & Hcnt). simplify_eq.
  unfold inode_close. rewrite (proj2 (Z.eqb_neq _ _) Hnull), Hi. ok_simpl.
  rewrite u32_small by lia.
  pose proof (release_pipe_key (set_open_cnts (i_open_cnts i - 1) i) (freed_pages c)) as [Hk Hn].
  destruct (i_open_cnts i - 1 <=? 0); [destruct (release_pipe _ _) as [i' pages]|];
    (eexists; split; [done|]; split;
     [eapply (update_inv c p i); try done; cbn in *; lia|];
     intros q; rewrite (cached_users_update c p i) by done; case_decide as Hq; [subst; cbn in *|]; lia).
Qed.

#[global] Instance cache_refs : InodeRefs inode_cache := {
  iref_open := reopen;
  iref_close := inode_close;
  iref_inv := cache_inv;
  users_of := cached_users;
  iref_open_ok := reopen_ok;
  iref_close_ok := release_ok;
}.

(** ** File-backed areas: [vma_pgoff] is a byte offset

    The page fault handler, [ext2_mmap] and [load] keep a byte offset in
    [vma_pgoff]; [vma_split] and [add_vma_sorted] compute with it as a page
    number. *)

(** A regular file with two users, in a cache. *)
Definition ex_file : inode := Inode FT_REGULAR 0 2 1 2 false 0 0 0 0.
Definition ex_store : inode_cache :=
  Cache (Hashtable (<[Z.to_nat (inode_hash (1, 2) mod 32) := [8192]]> (replicate 32 [])) 32 1)
    [8192] {[ 8192 := ex_file ]} [].

Lemma ex_store_inv : cache_inv ex_store.
Proof.
  assert (He : elems (hash_table ex_store) = [8192]) by (by vm_compute).
  constructor.
  - constructor; try rewrite He.
    + done.
    + done.
    + vm_compute. repeat constructor. by apply not_elem_of_nil.
    + intros i b e Hb Hin. assert (e = 8192) as ->.
      { apply list_elem_of_singleton. rewrite <- He. apply elem_of_elems. eauto. }
      cbn [hash_table buckets ex_store] in Hb.
      apply list_lookup_insert_Some in Hb as [(<- & _ & _)|[_ [-> _]%lookup_replicate]]; [done|].
      by apply not_elem_of_nil in Hin.
    + done.
  - by rewrite He.
  - intros a Ha. rewrite He in Ha. apply list_elem_of_singleton in Ha as ->. split; [done|].
    exists ex_file. split; [done|]. cbn. lia.
Qed.

(** Sixteen pages of the file from its first byte. *)
Definition ex_area : vm_area :=
  Vma 0x40000000 0x40010000 (VM_READ + VM_WRITE) 0x10000 0 (Some 8192).

(** Splitting a file-backed area moves the file under the upper part: after a
    split of a mapping of a file's first sixteen pages at its ninth page, that page
    is loaded from byte 8 of the file and no longer from byte 0x8000. *)
Lemma vma_split_shifts_file :
  page_view [(1, ex_area)] 0x40008000 = Some (VM_READ + VM_WRITE, FileBytes 8192 0x8000 PG_SIZE) /\
  exists l' s', vma_split [(1, ex_area)] ex_store (Some 2) 1 0x40008000 = Ok (Some 2, l', s') /\
    page_view l' 0x40008000 = Some (VM_READ + VM_WRITE, FileBytes 8192 8 PG_SIZE).
Proof. split; [by vm_compute|]. eexists _, _. split; [vm_compute; reflexivity|]. by vm_compute. Qed.

(** Merging a file-backed area with the area above it ignores the offsets: a
    mapping of the file's bytes from 0x20000 placed just below a mapping of its
    first page takes that mapping's offset, so the new page is loaded from byte 0,
    and the page that was mapped before is now loaded from byte 0x1000. *)
Lemma add_vma_merge_shifts_file :
  let old := Vma 0x40001000 0x40002000 VM_READ 0x2000 0 (Some 8192) in
  page_view [(1, old)] 0x40001000 = Some (VM_READ, FileBytes 8192 0 PG_SIZE) /\
  exists l', add_vma_sorted [(1, old)] ex_store (Some 2) 0x40000000 0x40001000 0x20000 (Some 8192)
      VM_READ 0x1000 = Ok (l', ex_store) /\
    page_view l' 0x40000000 = Some (VM_READ, FileBytes 8192 0 PG_SIZE) /\
    page_view l' 0x40001000 = Some (VM_READ, FileBytes 8192 0x1000 PG_SIZE).
Proof. split; [by vm_compute|]. eexists. split; [vm_compute; reflexivity|]. by vm_compute. Qed.

(** ** Witnesses *)
Definition ex_heap_stack : vlist :=
  [(1, Vma 0x8050000 0x8052000 (VM_READ + VM_WRITE + VM_ANON) 0 0 None);
   (2, Vma 0x8060000 0x8061000 (VM_READ + VM_WRITE + VM_ANON) 0 0 None);
   (3, Vma USER_MMAP_SEARCH_TOP USER_STACK_BASE (VM_READ + VM_WRITE + VM_ANON) 0 0 None)].

Lemma ex_heap_stack_areas : areas_ok USER_VADDR_START ex_heap_stack.
Proof. cbn. unfold USER_VADDR_START, USER_MMAP_SEARCH_TOP, USER_STACK_BASE, USER_STACK_SIZE. lia. Qed.

Lemma ex_heap_stack_ok : vlist_ok ex_heap_stack.
Proof.
  split; [|apply (bool_decide_unpack _); vm_compute; exact I].
  eapply areas_ok_weaken; [apply ex_heap_stack_areas|done].
Qed.

Ltac solve_gap := repeat constructor; cbn; unfold USER_MMAP_SEARCH_TOP, USER_STACK_BASE, USER_STACK_SIZE; lia.

Lemma add_vma_file_spec_witness :
  exists l' s', add_vma_sorted ex_heap_stack ex_store (Some 9) 0x8052000 0x8060000 0x3000 (Some 8192)
      VM_READ 0x100 = Ok (l', s') /\ vlist_ok l' /\
    (forall x, page_view l' x =
      if (0x8052000 <=? x) && (x <? 0x8060000)
      then Some (VM_READ, fault_contents (Vma 0x8052000 0x8060000 VM_READ 0x100 0x3000 (Some 8192)) x)
      else page_view ex_heap_stack x) /\
    iref_inv s' /\ forall q, users_of s' q = users_of ex_store q + (if decide (q = 8192) then 1 else 0).
Proof.
  apply add_vma_file_spec;
    [apply ex_heap_stack_ok|solve_gap|lia|lia| |repeat constructor; done|apply ex_store_inv|done|done].
  apply (bool_decide_unpack _). vm_compute. exact I.
Defined.

Lemma fork_exit_references_witness :
  exists child s1 s2,
    copy_vma_list [(1, ex_area)] [] ex_store [Some 5] = Ok (true, child, s1) /\
    (forall x, page_view child x = page_view [(1, ex_area)] x) /\
    (forall i, users_of s1 i = users_of ex_store i + refcount i [(1, ex_area)]) /\
    clear_vma_list child s1 = Ok ([], s2) /\ forall i, users_of s2 i = users_of ex_store i.
Proof.
  assert (Hu : forall i, users_of ex_store i = if decide (i = 8192) then 2 else 0).
  { intros i. cbn. unfold cached_users. replace (elems (hash_table ex_store)) with [8192] by (by vm_compute).
    destruct (decide (i = 8192)) as [->|Hne]; [done|]. by rewrite decide_False by set_solver. }
  apply (fork_exit_references [(1, ex_area)] ex_store [5]);
    [done|repeat constructor; by apply not_elem_of_nil|apply ex_store_inv| |];
    intros i; rewrite Hu; cbn; repeat case_decide; simplify_eq; lia.
Defined.
