(* ===== verification/PageAlloc.v ===== *)
(** * mm/memory.c: physical pages

    The frame-level allocator on top of the two buddy pools: single frames with a
    reference count ([palloc], [pfree]), runs of frames of any length
    ([palloc_pages_exact], [malloc_page] for the kernel), and the window through
    which the kernel reaches frames above the direct map ([kmap], [kunmap]).
    The state is the frame array shared by the pools and the pools themselves;
    the code runs with interrupts off or under the pool's lock, so every
    operation is one step. *)

From S2P Require Import Prelude DList ListView BuddyGeo Buddy.

Record phys := Phys {
  pages : page_array;
  kernel_pool : buddy_pool;
  user_pool : buddy_pool;
}.

Definition set_ref (n : Z) (p : page) : page :=
  Page (flags p) n (order p) (slab_desc p) (slab_cnt p) (slab_large p) (first_owner p) (first_vaddr p).
Definition set_owner (o v : Z) (p : page) : page :=
  Page (flags p) (ref_count p) (order p) (slab_desc p) (slab_cnt p) (slab_large p) o v.

(** ** Runs of frames *)

(** [while ((1U << order) < pg_cnt) order++]: at 32 the shift has no defined value. *)
Fixpoint order_loop (fuel : nat) (pg_cnt order : Z) : res Z :=
  match fuel with
  | O => UB
  | S fuel => if Z.shiftl 1 order <? pg_cnt then order_loop fuel pg_cnt (order + 1) else Ok order
  end.

Definition pg_cnt_to_order (pg_cnt : Z) : res Z := order_loop 32 pg_cnt 0.

(** [(first_pg + i)->flags |= 1] for the [n] frames from [i] *)
Fixpoint lock_frames (n : nat) (pgs : page_array) (i : Z) : res page_array :=
  match n with
  | O => Ok pgs
  | S n => pgs ← upd_page pgs i (fun p => set_flags (Z.lor (flags p) 1) p); lock_frames n pgs (i + 1)
  end.

(** Give the [n] frames from [i] back one by one. *)
Fixpoint free_frames (n : nat) (pgs : page_array) (bp : buddy_pool) (i : Z)
    : res (page_array * buddy_pool) :=
  match n with
  | O => Ok (pgs, bp)
  | S n =>
      pgs ← upd_page pgs i (fun p => set_order 0 (set_flags (Z.land (flags p) (Z.lnot 1)) p));
      '(pgs, bp) ← pfree_pages pgs bp i 0;
      free_frames n pgs bp (i + 1)
  end.

Definition palloc_pages_exact (pgs : page_array) (bp : buddy_pool) (pg_cnt : Z)
    : res (option Z * page_array * buddy_pool) :=
  order ← pg_cnt_to_order pg_cnt;
  '(first_pg, pgs, bp) ← palloc_pages pgs bp order;
  match first_pg with
  | None => Ok (None, pgs, bp)
  | Some first_pg =>
      pgs ← lock_frames (Z.to_nat (2 ^ order)) pgs first_pg;
      '(pgs, bp) ← free_frames (Z.to_nat (2 ^ order - pg_cnt)) pgs bp (first_pg + pg_cnt);
      Ok (Some first_pg, pgs, bp)
  end.

(** ** Single frames *)
Definition palloc (pgs : page_array) (bp : buddy_pool) : res (Z * page_array * buddy_pool) :=
  '(pg, pgs, bp) ← palloc_pages pgs bp 0;
  match pg with
  | None => Ok (NULL, pgs, bp)
  | Some i => pgs ← upd_page pgs i (set_ref 1); Ok (page_to_addr bp (Some i), pgs, bp)
  end.

(** The frame leaves the active list when it is on it. *)
Definition deactivate (bp : buddy_pool) (i : Z) : buddy_pool :=
  BuddyPool (areas bp) (phy_addr_start bp) (pool_size bp) (null_index bp)
    (filter (fun x => x <> i) (activate_list bp)).

(** [pfree] called by the task [cur]; active frames are on [user_pool]'s list. *)
Definition pfree (m : phys) (cur pg_phy_addr : Z) : res phys :=
  let i := Z.shiftr pg_phy_addr 12 in
  p ← deref (pages m !! i);
  _ ← assert_ (0 <? ref_count p);
  let r := u32 (ref_count p - 1) in
  let p := set_ref r p in
  let orphan := (r =? 1) && negb (first_owner p =? NULL) && (first_owner p =? cur) in
  let p := if orphan then set_owner NULL (first_vaddr p) p else p in
  let up := if orphan then deactivate (user_pool m) i else user_pool m in
  if r =? 0 then
    let up := deactivate up i in
    let pgs := <[i := set_owner NULL 0 p]> (pages m) in
    if phy_addr_start up <=? pg_phy_addr then
      '(pgs, up) ← pfree_pages pgs up i 0; Ok (Phys pgs (kernel_pool m) up)
    else
      '(pgs, kp) ← pfree_pages pgs (kernel_pool m) i 0; Ok (Phys pgs kp up)
  else Ok (Phys (<[i := p]> (pages m)) (kernel_pool m) up).

(** ** Kernel memory *)
Definition KERNEL_PAGE_OFFSET : Z := 0xC0000000.
Definition KERNEL_DIRECT_SIZE : Z := 0x38000000.
Definition KERNEL_DIRECT_END : Z := KERNEL_PAGE_OFFSET + KERNEL_DIRECT_SIZE.
Definition KERNEL_KMAP_START : Z := KERNEL_DIRECT_END.
Definition KERNEL_KMAP_END : Z := 0xFFC00000.
Definition KMAP_SLOT_CNT : Z := (KERNEL_KMAP_END - KERNEL_KMAP_START) / PG_SIZE.

Definition paddr_is_lowmem (kernel_direct_map_limit paddr : Z) : bool := paddr <? kernel_direct_map_limit.
Definition vaddr_is_directmap (vaddr : Z) : bool :=
  (KERNEL_PAGE_OFFSET <=? vaddr) && (vaddr <? KERNEL_DIRECT_END).
Definition vaddr_is_kmap (vaddr : Z) : bool :=
  (KERNEL_KMAP_START <=? vaddr) && (vaddr <? KERNEL_KMAP_END).

Definition direct_map_ptr (limit paddr : Z) : res Z :=
  _ ← assert_ (paddr_is_lowmem limit paddr); Ok (u32 (KERNEL_PAGE_OFFSET + paddr)).

(** [(first_pg + i)->ref_count = 1] for the [n] frames from [i] *)
Fixpoint ref_frames (n : nat) (pgs : page_array) (i : Z) : res page_array :=
  match n with
  | O => Ok pgs
  | S n => pgs ← upd_page pgs i (set_ref 1); ref_frames n pgs (i + 1)
  end.

(** [malloc_page(PF_KERNEL, pg_cnt)] *)
Definition malloc_page_kernel (limit : Z) (m : phys) (pg_cnt : Z) : res (Z * phys) :=
  _ ← assert_ (0 <? pg_cnt);
  '(first_pg, pgs, kp) ← palloc_pages_exact (pages m) (kernel_pool m) pg_cnt;
  match first_pg with
  | None => Panic
  | Some i =>
      let paddr := page_to_addr kp (Some i) in
      if negb (paddr_is_lowmem limit paddr) ||
         negb (paddr_is_lowmem limit (u32 (paddr + (pg_cnt - 1) * PG_SIZE))) then Panic
      else
        pgs ← ref_frames (Z.to_nat pg_cnt) pgs i;
        v ← direct_map_ptr limit paddr;
        Ok (v, Phys pgs kp (user_pool m))
  end.

(** ** The highmem window *)

(** [slots]: kmap_slots; [ptes]: the page table entries of the window, by address. *)
Record kmap_state := KMap { kmap_slots : list Z; kmap_ptes : gmap Z Z }.

Definition pte_of (k : kmap_state) (vaddr : Z) : Z := default 0 (kmap_ptes k !! vaddr).

Fixpoint kmap_loop (n : nat) (k : kmap_state) (idx paddr : Z) : res (Z * kmap_state) :=
  match n with
  | O => Panic
  | S n =>
      s ← deref (kmap_slots k !! Z.to_nat idx);
      let vaddr := KERNEL_KMAP_START + idx * PG_SIZE in
      if negb (s =? 0) || Z.testbit (pte_of k vaddr) 0 then kmap_loop n k (idx + 1) paddr
      else Ok (vaddr, KMap (<[Z.to_nat idx := paddr]> (kmap_slots k))
                        (<[vaddr := Z.lor paddr 3]> (kmap_ptes k)))
  end.

Definition kmap (limit : Z) (k : kmap_state) (paddr : Z) : res (Z * kmap_state) :=
  if paddr_is_lowmem limit paddr then v ← direct_map_ptr limit paddr; Ok (v, k)
  else kmap_loop (Z.to_nat KMAP_SLOT_CNT) k 0 paddr.

Definition kunmap (k : kmap_state) (vaddr : Z) : res kmap_state :=
  if negb (vaddr_is_kmap vaddr) then Ok k else
  let idx := (vaddr - KERNEL_KMAP_START) / PG_SIZE in
  _ ← assert_ (idx <? KMAP_SLOT_CNT);
  s ← deref (kmap_slots k !! Z.to_nat idx);
  _ ← assert_ (negb (s =? 0));
  Ok (KMap (<[Z.to_nat idx := 0]> (kmap_slots k)) (<[KERNEL_KMAP_START + idx * PG_SIZE := 0]> (kmap_ptes k))).

(** ** Orders *)
Lemma order_loop_spec fuel n k :
  0 <= k -> k + Z.of_nat fuel = 32 -> n <= 2 ^ 31 -> (0 < k -> 2 ^ (k - 1) < n) ->
  (fuel <> 0)%nat ->
  exists r, order_loop fuel n k = Ok r /\ k <= r < 32 /\ n <= 2 ^ r /\ (0 < r -> 2 ^ (r - 1) < n).
Proof.
  revert k. induction fuel as [|fuel IH]; intros k Hk Hf Hn Hlow Hne; [done|]. cbn [order_loop].
  rewrite Z.shiftl_1_l. destruct (Z.ltb_spec (2 ^ k) n).
  - destruct (decide (fuel = 0)%nat) as [->|].
    { assert (k = 31) as -> by lia. lia. }
    destruct (IH (k + 1)) as (r & Hr & Hkr & H1 & H2); [lia|lia|done| |done|].
    { intros _. by replace (k + 1 - 1) with k by lia. }
    exists r. split_and!; [done|lia|lia|done|done].
  - exists k. split_and!; [done|lia|lia|lia|done].
Qed.

Lemma pg_cnt_to_order_ok n : n <= 2 ^ 31 ->
  exists r, pg_cnt_to_order n = Ok r /\ 0 <= r < 32 /\ n <= 2 ^ r /\ (0 < r -> 2 ^ (r - 1) < n).
Proof. intros Hn. apply order_loop_spec; lia. Qed.

(** ** Cutting an allocated block into single frames *)
Lemma shatter s e (n : nat) : forall B p, geo s e B -> coalesced B ->
  B !! p = Some (Z.of_nat n, true) ->
  exists B', geo s e B' /\ coalesced B' /\
    forall q, B' !! q = if decide (p <= q < p + 2 ^ Z.of_nat n) then Some (0, true) else B !! q.
Proof.
  induction n as [|n IH]; intros B p Hg Hc Hp.
  - exists B. split_and!; [done|done|]. intros q. case_decide; [|done].
    assert (q = p) as -> by (change (2 ^ Z.of_nat 0) with 1 in *; lia). done.
  - set (k := Z.of_nat n) in *. replace (Z.of_nat (S n)) with (k + 1) in * by lia.
    assert (Hk : 0 <= k) by lia. pose proof (pow2_pos k Hk). pose proof (pow2_succ k Hk) as Hs.
    pose proof (fun q => split_lookup s e B p k true true true q Hg Hp Hk) as Hl.
    pose proof (geo_split s e B p k true true true Hg Hp Hk) as Hg1.
    assert (Hno : forall q x, p < q < p + 2 ^ (k + 1) -> B !! q <> Some x).
    { intros q [k' a] Hq Hx. assert (q = p); [|lia]. eapply geo_head_only; [exact Hg|exact Hp|exact Hx|lia]. }
    assert (Hc1 : coalesced (split_block p k true true B)).
    { intros q k' Hq Hk'. rewrite Hl in Hq |- *. repeat case_decide; simplify_eq; try congruence.
      by apply Hc. }
    destruct (IH (split_block p k true true B) p Hg1 Hc1) as (B1 & Hg2 & Hc2 & Hl2).
    { rewrite Hl. by rewrite decide_True. }
    destruct (IH B1 (p + 2 ^ k) Hg2 Hc2) as (B2 & Hg3 & Hc3 & Hl3).
    { rewrite Hl2. rewrite decide_False by lia. rewrite Hl, decide_False, decide_True by lia. done. }
    exists B2. split_and!; [done|done|]. intros q. rewrite Hl3, Hl2, Hl.
    repeat case_decide; try done; try lia.
Qed.

(** The frames [p, p + n) as single allocated blocks. *)
Definition frames (p : Z) (n : Z) : gmap Z Z := list_to_map ((fun q => (q, 0)) <$> seqZ p n).

Lemma frames_lookup p n q : 0 <= n ->
  frames p n !! q = if decide (p <= q < p + n) then Some 0 else None.
Proof.
  intros Hn. unfold frames. case_decide as Hq.
  - apply elem_of_list_to_map_1.
    + rewrite <- list_fmap_compose. cbn. rewrite list_fmap_id. apply NoDup_seqZ.
    + apply list_elem_of_fmap. exists q. split; [done|]. by apply elem_of_seqZ.
  - apply not_elem_of_list_to_map_1. rewrite <- list_fmap_compose. cbn. rewrite list_fmap_id.
    by rewrite elem_of_seqZ.
Qed.

Lemma lock_frames_ok n pgs i :
  (forall x, i <= x < i + Z.of_nat n -> is_Some (pgs !! x)) ->
  exists pgs', lock_frames n pgs i = Ok pgs' /\
    forall x, pgs' !! x =
      if decide (i <= x < i + Z.of_nat n)
      then (fun p => set_flags (Z.lor (flags p) 1) p) <$> pgs !! x else pgs !! x.
Proof.
  revert pgs i. induction n as [|n IH]; intros pgs i Hlive.
  - exists pgs. split; [done|]. intros x. by rewrite decide_False by lia.
  - cbn [lock_frames]. destruct (Hlive i) as [p Hp]; [lia|]. unfold upd_page. rewrite Hp. ok_simpl.
    destruct (IH (<[i := set_flags (Z.lor (flags p) 1) p]> pgs) (i + 1)) as (pgs' & -> & Hl).
    { intros x Hx. rewrite lookup_insert_ne by lia. apply Hlive. lia. }
    exists pgs'. split; [done|]. intros x. rewrite Hl. destruct (decide (x = i)) as [->|Hne].
    + rewrite decide_False by lia. rewrite decide_True by lia.
      by rewrite lookup_insert_eq, Hp.
    + rewrite lookup_insert_ne by done. repeat case_decide; done || lia.
Qed.

Lemma lists_ok_ext bp B B' :
  (forall q k, B' !! q = Some (k, false) <-> B !! q = Some (k, false)) -> lists_ok bp B -> lists_ok bp B'.
Proof.
  intros He [Hlen Hl]. split; [done|]. intros k Hk. destruct (Hl k Hk) as (a & Ha & Hok).
  exists a. split; [done|]. by apply (area_ok_ext B).
Qed.

(** Frames of the pool whose owner's fields are left alone. *)
Lemma keeps_pages pgs pgs' bp :
  (forall x, ~ (start_pfn bp <= x < end_pfn bp) -> pgs' !! x = pgs !! x) ->
  (forall x, meta <$> pgs' !! x = meta <$> pgs !! x) -> keeps pgs bp pgs' bp.
Proof. split; [by destruct bp|done|done]. Qed.

Lemma shatter_inv pgs bp B p r :
  inv_but pgs bp B None -> B !! p = Some (r, true) ->
  exists pgs' B', lock_frames (Z.to_nat (2 ^ r)) pgs p = Ok pgs' /\ inv_but pgs' bp B' None /\
    keeps pgs bp pgs' bp /\
    forall q, B' !! q = if decide (p <= q < p + 2 ^ r) then Some (0, true) else B !! q.
Proof.
  intros [Hpool Hg Hco Hl [Hlive Hpg]] Hp.
  pose proof (geo_ord _ _ _ Hg _ _ _ Hp) as Hr. pose proof (geo_rng _ _ _ Hg _ _ _ Hp) as Hrng.
  pose proof (pow2_pos r) as Hpos.
  destruct (shatter _ _ (Z.to_nat r) B p Hg Hco) as (B' & Hg' & Hco' & HB').
  { by rewrite Z2Nat.id by lia. }
  rewrite Z2Nat.id in HB' by lia.
  destruct (lock_frames_ok (Z.to_nat (2 ^ r)) pgs p) as (pgs' & Hrun & Hpgs').
  { intros x Hx. apply Hlive. lia. }
  rewrite Z2Nat.id in Hpgs' by lia.
  exists pgs', B'. split_and!; [done| | |done].
  - split; [done|done|done| |split].
    + eapply lists_ok_ext; [|exact Hl]. intros q k. rewrite HB'. case_decide as Hq; [|done].
      split; [done|]. intros Hq2. assert (q = p) by (eapply geo_head_only; [exact Hg|exact Hp|exact Hq2|lia]).
      congruence.
    + intros x Hx. rewrite Hpgs'. case_decide; [|by apply Hlive].
      destruct (Hlive x Hx) as [y ->]. done.
    + intros q k a Hq _. rewrite HB' in Hq. case_decide as Hin.
      * injection Hq as <- <-. destruct (Hlive q) as [y Hy]; [lia|].
        exists (set_flags (Z.lor (flags y) 1) y). rewrite Hpgs', decide_True, Hy by done.
        split_and!; [done|apply flags_lor_alloc|done].
      * destruct (Hpg q k a Hq) as (y & Hy & Hya & Hyo); [done|]. exists y.
        by rewrite Hpgs', decide_False by done.
  - apply keeps_pages.
    + intros x Hx. rewrite Hpgs', decide_False; [done|]. lia.
    + intros x. rewrite Hpgs'. case_decide; [|done]. by destruct (pgs !! x).
Qed.

Lemma free_frames_inv n pgs bp B i :
  inv_but pgs bp B None -> (forall x, i <= x < i + Z.of_nat n -> B !! x = Some (0, true)) ->
  exists pgs' bp' B', free_frames n pgs bp i = Ok (pgs', bp') /\ inv_but pgs' bp' B' None /\
    keeps pgs bp pgs' bp' /\
    forall q, alloc_of B' !! q = if decide (i <= q < i + Z.of_nat n) then None else alloc_of B !! q.
Proof.
  revert pgs bp B i. induction n as [|n IH]; intros pgs bp B i Hinv Hall.
  - exists pgs, bp, B. split_and!; [done|done|apply keeps_refl|]. intros q. by rewrite decide_False by lia.
  - cbn [free_frames]. assert (Hi : B !! i = Some (0, true)) by (apply Hall; lia).
    pose proof (geo_rng _ _ _ (inv_geo _ _ _ _ Hinv) _ _ _ Hi) as Hrng.
    destruct (proj1 (inv_pages _ _ _ _ Hinv) i) as [p Hp]; [lia|].
    unfold upd_page. rewrite Hp. ok_simpl.
    set (p' := set_order 0 (set_flags (Z.land (flags p) (Z.lnot 1)) p)).
    assert (Hinv1 : inv_but (<[i := p']> pgs) bp B (Some i)).
    { destruct Hinv as [? ? ? ? [Hlive Hpg]]. split; [done..|]. split.
      - intros x Hx. destruct (decide (x = i)) as [->|]; [by rewrite lookup_insert_eq|].
        rewrite lookup_insert_ne by done. by apply Hlive.
      - intros q k a Hq Hne. destruct (Hpg q k a Hq) as (y & Hy & Hya & Hyo); [done|].
        exists y. by rewrite lookup_insert_ne by congruence. }
    destruct (pfree_pages_inv _ bp B i 0 Hinv1 Hi) as (pgs1 & bp1 & B1 & -> & Hinv2 & Hk1 & Hal1).
    ok_simpl. destruct (IH pgs1 bp1 B1 (i + 1) Hinv2) as (pgs2 & bp2 & B2 & -> & Hinv3 & Hk2 & Hal2).
    { intros x Hx. apply alloc_of_lookup. rewrite Hal1, lookup_delete_ne by lia.
      apply alloc_of_lookup, Hall. lia. }
    exists pgs2, bp2, B2. split_and!; [done|done| |].
    + eapply keeps_trans; [|eapply keeps_trans; [exact Hk1|exact Hk2]].
      exact (keeps_upd pgs bp i (fun p => set_order 0 (set_flags (Z.land (flags p) (Z.lnot 1)) p)) p
               ltac:(lia) Hp eq_refl).
    + intros q. rewrite Hal2, Hal1. destruct (decide (q = i)) as [->|].
      * rewrite decide_False by lia. rewrite decide_True by lia. apply lookup_delete_eq.
      * rewrite lookup_delete_ne by done. repeat case_decide; done || lia.
Qed.

Lemma palloc_pages_exact_inv pgs bp B pg_cnt :
  inv_but pgs bp B None -> 0 < pg_cnt <= 1024 ->
  (palloc_pages_exact pgs bp pg_cnt = Ok (None, pgs, bp) /\
   forall p k, 0 <= k -> pg_cnt <= 2 ^ k -> B !! p <> Some (k, false)) \/
  exists p pgs' bp' B', palloc_pages_exact pgs bp pg_cnt = Ok (Some p, pgs', bp') /\
    inv_but pgs' bp' B' None /\ keeps pgs bp pgs' bp' /\
    start_pfn bp <= p /\ p + pg_cnt <= end_pfn bp /\ alloc_of B' = frames p pg_cnt ∪ alloc_of B /\
    forall x, p <= x < p + pg_cnt -> free_at B x.
Proof.
  intros Hinv Hcnt. unfold palloc_pages_exact.
  destruct (pg_cnt_to_order_ok pg_cnt) as (r & -> & Hr & Hle & Hlow); [lia|]. ok_simpl.
  assert (Hr10 : r <= 10).
  { destruct (Z.le_gt_cases r 10); [done|]. assert (2 ^ 10 <= 2 ^ (r - 1)) by (apply Z.pow_le_mono_r; lia). lia. }
  destruct (palloc_pages_inv pgs bp B r Hinv) as
    [[-> Hno]|(p & k & pgs1 & bp1 & B1 & -> & HBp & Hk & Hinv1 & Hk1 & Hp1 & Hal1)];
    [unfold MAX_ORDER; lia| |].
  { ok_simpl. left. split; [done|]. intros p k Hk0 Hk. apply Hno.
    destruct (Z.le_gt_cases r k); [done|]. assert (2 ^ k <= 2 ^ (r - 1)) by (apply Z.pow_le_mono_r; lia).
    lia. }
  ok_simpl. right.
  destruct (shatter_inv pgs1 bp1 B1 p r Hinv1 Hp1) as (pgs2 & B2 & -> & Hinv2 & Hk2 & HB2). ok_simpl.
  destruct (free_frames_inv (Z.to_nat (2 ^ r - pg_cnt)) pgs2 bp1 B2 (p + pg_cnt) Hinv2)
    as (pgs3 & bp3 & B3 & -> & Hinv3 & Hk3 & Hal3).
  { intros x Hx. rewrite HB2. by rewrite decide_True by lia. }
  ok_simpl. rewrite Z2Nat.id in Hal3 by lia.
  pose proof (geo_rng _ _ _ (inv_geo _ _ _ _ Hinv) _ _ _ HBp) as Hrng.
  assert (H2 : 2 ^ r <= 2 ^ k) by (apply Z.pow_le_mono_r; lia).
  exists p, pgs3, bp3, B3. split_and!; [done|done| |lia|lia| |].
  - eapply keeps_trans; [exact Hk1|]. eapply keeps_trans; [exact Hk2|exact Hk3].
  - apply map_eq. intros q. rewrite Hal3, lookup_union, frames_lookup by lia.
    assert (HalB : forall q, alloc_of B2 !! q = if decide (p <= q < p + 2 ^ r) then Some 0 else alloc_of B1 !! q).
    { intros x. unfold alloc_of. rewrite !lookup_omap, HB2. by case_decide. }
    assert (Hnone : p <= q < p + 2 ^ r -> alloc_of B !! q = None).
    { intros Hq. apply eq_None_not_Some. intros [k' Hk']. apply alloc_of_lookup in Hk'.
      assert (q = p) by (eapply geo_head_only; [exact (inv_geo _ _ _ _ Hinv)|exact HBp|exact Hk'|lia]).
      congruence. }
    rewrite HalB, Hal1. repeat case_decide; try lia.
    + by rewrite Hnone by lia.
    + by rewrite Hnone by lia.
    + rewrite lookup_insert_ne by lia. by destruct (alloc_of B !! q).
  - intros x Hx. exists p, k. split; [done|]. lia.
Qed.

(** ** The two pools together *)

(** Two page arrays that agree on the allocator's fields of a pool's frames. *)
Lemma valid_agree pgs pgs' bp A :
  valid pgs bp A ->
  (forall x, start_pfn bp <= x < end_pfn bp ->
     (fun p => (flags p, order p)) <$> pgs' !! x = (fun p => (flags p, order p)) <$> pgs !! x) ->
  valid pgs' bp A.
Proof.
  intros (B & [Hpool Hg Hco Hl [Hlive Hpg]] & HA) Hag. exists B. split; [|done].
  split; [done|done|done|done|split].
  - intros x Hx. specialize (Hag x Hx). destruct (Hlive x Hx) as [p Hp]. rewrite Hp in Hag.
    destruct (pgs' !! x); [by eexists|discriminate Hag].
  - intros q k a Hq Hne. destruct (Hpg q k a Hq Hne) as (p & Hp & Hpa & Hpo).
    pose proof (geo_rng _ _ _ Hg _ _ _ Hq). pose proof (geo_ord _ _ _ Hg _ _ _ Hq) as Hk.
    pose proof (pow2_pos k). specialize (Hag q ltac:(lia)). rewrite Hp in Hag.
    destruct (pgs' !! q) as [p'|] eqn:Hp'; [|discriminate Hag].
    exists p'. split; [done|]. unfold page_is_allocated in *.
    cbn in Hag. injection Hag as -> ->. done.
Qed.

Lemma valid_frame pgs pgs' bp A :
  valid pgs bp A -> (forall x, start_pfn bp <= x < end_pfn bp -> pgs' !! x = pgs !! x) ->
  valid pgs' bp A.
Proof. intros Hv Heq. eapply valid_agree; [exact Hv|]. intros x Hx. by rewrite Heq. Qed.

Lemma valid_upd pgs bp A i p p' :
  valid pgs bp A -> pgs !! i = Some p -> flags p' = flags p -> order p' = order p ->
  valid (<[i := p']> pgs) bp A.
Proof.
  intros Hv Hp Hf Ho. eapply valid_agree; [exact Hv|]. intros x Hx.
  destruct (decide (x = i)) as [->|]; [|by rewrite lookup_insert_ne].
  rewrite lookup_insert_eq, Hp. cbn. by rewrite Hf, Ho.
Qed.

Lemma valid_deactivate pgs bp A i : valid pgs bp A -> valid pgs (deactivate bp i) A.
Proof.
  intros (B & [[? ? ? ?] ? ? ? ?] & HA). exists B. split; [|done]. by split; [split|..].
Qed.

(** The kernel's frames lie below the user's. *)
Record phys_ok (m : phys) (AK AU : gmap Z Z) : Prop := {
  ph_kernel : valid (pages m) (kernel_pool m) AK;
  ph_user : valid (pages m) (user_pool m) AU;
  ph_split : end_pfn (kernel_pool m) <= start_pfn (user_pool m);
}.

Definition ref_at (m : phys) (x : Z) : option Z := ref_count <$> pages m !! x.

Lemma keeps_pool_eq pgs bp pgs' bp' : keeps pgs bp pgs' bp' ->
  start_pfn bp' = start_pfn bp /\ end_pfn bp' = end_pfn bp.
Proof. intros [-> _ _]. done. Qed.

Lemma keeps_ref pgs bp pgs' bp' x : keeps pgs bp pgs' bp' ->
  ref_count <$> pgs' !! x = ref_count <$> pgs !! x.
Proof.
  intros [_ _ Hm]. specialize (Hm x). destruct (pgs' !! x), (pgs !! x); cbn in *; try done.
  unfold meta in Hm. congruence.
Qed.

(** The fields of the kernel heap *)
Definition slab_fields (p : page) : option nat * Z * bool := (slab_desc p, slab_cnt p, slab_large p).

Lemma keeps_slab pgs bp pgs' bp' x : keeps pgs bp pgs' bp' -> slab_fields <$> pgs' !! x = slab_fields <$> pgs !! x.
Proof.
  intros [_ _ Hm]. specialize (Hm x). destruct (pgs' !! x), (pgs !! x); cbn in *; try done.
  unfold meta, slab_fields in *. congruence.
Qed.

(** What an operation on kernel frames [R] leaves alone. *)
Record kernel_keeps (m m' : phys) (R : Z -> Prop) : Prop := {
  kk_pool : kernel_pool m' = set_areas (areas (kernel_pool m')) (kernel_pool m);
  kk_ref : forall y, ~ R y -> ref_at m' y = ref_at m y;
  kk_slab : forall y, slab_fields <$> pages m' !! y = slab_fields <$> pages m !! y;
}.

Lemma alloc_range pgs bp A x k : valid pgs bp A -> A !! x = Some k ->
  start_pfn bp <= x < end_pfn bp /\ is_Some (pgs !! x) /\ pool_ok bp.
Proof.
  intros (B & [Hpool Hg Hco Hl [Hlive Hpg]] & <-) Hx. apply alloc_of_lookup in Hx.
  pose proof (geo_rng _ _ _ Hg _ _ _ Hx). pose proof (geo_ord _ _ _ Hg _ _ _ Hx).
  pose proof (pow2_pos k). split_and!; [lia|lia|apply Hlive; lia|done].
Qed.

Lemma pfree_pages_valid pgs bp A pg ord :
  valid pgs bp A -> A !! pg = Some ord ->
  exists pgs' bp', pfree_pages pgs bp pg ord = Ok (pgs', bp') /\
    valid pgs' bp' (delete pg A) /\ keeps pgs bp pgs' bp'.
Proof.
  intros (B & Hinv & <-) Hp. apply alloc_of_lookup in Hp.
  destruct (pfree_pages_inv pgs bp B pg ord) as (pgs' & bp' & B' & Hrun & Hinv' & Hk & Hal);
    [by apply inv_weaken|done|].
  exists pgs', bp'. split; [done|]. split; [by exists B'|done].
Qed.

(** What freeing does to the pools. *)
Definition drop_if (last : bool) (x : Z) (A : gmap Z Z) : gmap Z Z := if last then delete x A else A.

Lemma shiftr_frame x : 0 <= x -> Z.shiftr (x * 2 ^ 12) 12 = x.
Proof. intros Hx. rewrite Z.shiftr_div_pow2 by lia. apply Z.div_mul. lia. Qed.

(** The common part of [pfree]: everything but the return of the frame. *)
Lemma pfree_shape m cur x p :
  0 <= x -> pages m !! x = Some p -> 0 < ref_count p < 2 ^ 32 ->
  exists p' up, flags p' = flags p /\ order p' = order p /\ ref_count p' = ref_count p - 1 /\ slab_fields p' = slab_fields p /\
    (up = user_pool m \/ up = deactivate (user_pool m) x \/
     up = deactivate (deactivate (user_pool m) x) x) /\
    (ref_count p = 1 -> x ∉ activate_list up) /\
    pfree m cur (x * 2 ^ 12) =
      if ref_count p =? 1 then
        if phy_addr_start (user_pool m) <=? x * 2 ^ 12 then
          '(pgs, up) ← pfree_pages (<[x := p']> (pages m)) up x 0; Ok (Phys pgs (kernel_pool m) up)
        else
          '(pgs, kp) ← pfree_pages (<[x := p']> (pages m)) (kernel_pool m) x 0; Ok (Phys pgs kp up)
      else Ok (Phys (<[x := p']> (pages m)) (kernel_pool m) up).
Proof.
  intros Hx Hp Hr. unfold pfree. rewrite shiftr_frame, Hp by done. ok_simpl.
  rewrite (proj2 (Z.ltb_lt _ _)) by lia. ok_simpl. rewrite u32_small by lia.
  replace (ref_count p - 1 =? 0) with (ref_count p =? 1) by (repeat bdestr; lia).
  set (orphan := (ref_count p - 1 =? 1) && _ && _).
  set (p1 := if orphan then set_owner _ _ _ else _).
  set (up := if orphan then deactivate (user_pool m) x else user_pool m).
  assert (Hup : up = user_pool m \/ up = deactivate (user_pool m) x) by (unfold up; destruct orphan; auto).
  assert (Hstart : phy_addr_start up = phy_addr_start (user_pool m)) by (by destruct Hup as [-> | ->]).
  assert (Hp1 : flags p1 = flags p /\ order p1 = order p /\ ref_count p1 = ref_count p - 1 /\ slab_fields p1 = slab_fields p)
    by (unfold p1; destruct orphan; done).
  destruct Hp1 as (Hf & Ho & Hrc & Hsf). destruct (Z.eqb_spec (ref_count p) 1) as [H1|H1].
  - exists (set_owner NULL 0 p1), (deactivate up x). split_and!; [done|done|done|done| | |].
    + destruct Hup as [-> | ->]; auto.
    + intros _. cbn. intros Hin. apply list_elem_of_filter in Hin as [Hne _]. done.
    + cbn [deactivate phy_addr_start]. by rewrite Hstart.
  - exists p1, up. split_and!; [done|done|done|done|tauto|lia|done].
Qed.

Lemma user_pool_variant m up x AU :
  up = user_pool m \/ up = deactivate (user_pool m) x \/ up = deactivate (deactivate (user_pool m) x) x ->
  valid (pages m) (user_pool m) AU ->
  valid (pages m) up AU /\ start_pfn up = start_pfn (user_pool m) /\ end_pfn up = end_pfn (user_pool m).
Proof. intros [-> | [-> | ->]] Hv; (split; [auto using valid_deactivate|done]). Qed.

Lemma pfree_user_ok m AK AU cur x p :
  phys_ok m AK AU -> AU !! x = Some 0 -> pages m !! x = Some p -> 0 < ref_count p < 2 ^ 32 ->
  exists m', pfree m cur (x * 2 ^ 12) = Ok m' /\
    phys_ok m' AK (drop_if (ref_count p =? 1) x AU) /\
    ref_at m' x = Some (ref_count p - 1) /\ (forall y, y <> x -> ref_at m' y = ref_at m y) /\
    (ref_count p = 1 -> x ∉ activate_list (user_pool m')) /\
    start_pfn (user_pool m') = start_pfn (user_pool m) /\
    (forall y, y ∈ activate_list (user_pool m') -> y ∈ activate_list (user_pool m)).
Proof.
  intros [Hk Hu Hs] Hx Hp Hr.
  destruct (alloc_range _ _ _ _ _ Hu Hx) as (Hrng & _ & Hpool).
  pose proof (pfn_range _ Hpool) as (Hs0 & Hsa & _).
  destruct (pfree_shape m cur x p) as (p' & up & Hf & Ho & Hrc & Hsf & Hup & Hact & ->); [lia|done|done|].
  destruct (user_pool_variant m up x AU Hup Hu) as (Hu' & Hus & Hue).
  assert (Hsub : forall y, y ∈ activate_list up -> y ∈ activate_list (user_pool m)).
  { intros y. destruct Hup as [-> | [-> | ->]]; cbn; rewrite ?list_elem_of_filter; tauto. }
  assert (Hv1 : valid (<[x := p']> (pages m)) up AU) by (by eapply valid_upd).
  assert (Hk1 : valid (<[x := p']> (pages m)) (kernel_pool m) AK) by (by eapply valid_upd).
  assert (Hrx : forall y, ref_count <$> <[x := p']> (pages m) !! y =
    if decide (y = x) then Some (ref_count p - 1) else ref_at m y).
  { intros y. case_decide as Hy; [subst; by rewrite lookup_insert_eq, <- Hrc|by rewrite lookup_insert_ne]. }
  rewrite (proj2 (Z.leb_le _ _)) by lia. destruct (Z.eqb_spec (ref_count p) 1) as [H1|H1].
  - destruct (pfree_pages_valid _ up AU x 0 Hv1 Hx) as (pgs' & up' & -> & Hv2 & Hkp). ok_simpl.
    destruct (keeps_pool_eq _ _ _ _ Hkp) as [Hs2 He2].
    eexists. split; [done|]. split_and!.
    + split; cbn [pages kernel_pool user_pool]; [|done|lia].
      eapply valid_frame; [exact Hk1|]. intros y Hy. apply (keep_out _ _ _ _ Hkp). lia.
    + unfold ref_at. cbn [pages]. by rewrite (keeps_ref _ _ _ _ x Hkp), Hrx, decide_True.
    + intros y Hy. unfold ref_at. cbn [pages]. by rewrite (keeps_ref _ _ _ _ y Hkp), Hrx, decide_False.
    + intros _. cbn [user_pool]. rewrite (keep_pool _ _ _ _ Hkp). cbn. auto.
    + cbn [user_pool]. lia.
    + intros y. cbn [user_pool]. rewrite (keep_pool _ _ _ _ Hkp). cbn. auto.
  - eexists. split; [done|]. split_and!.
    + split; cbn [pages kernel_pool user_pool]; [done|done|lia].
    + unfold ref_at. cbn [pages]. by rewrite Hrx, decide_True.
    + intros y Hy. unfold ref_at. cbn [pages]. by rewrite Hrx, decide_False.
    + done.
    + done.
    + done.
Qed.

Lemma valid_pool_ok pgs bp A : valid pgs bp A -> pool_ok bp.
Proof. by intros (B & [? _ _ _ _] & _). Qed.

Lemma pfree_kernel_full m AK AU cur x p :
  phys_ok m AK AU -> AK !! x = Some 0 -> pages m !! x = Some p -> 0 < ref_count p < 2 ^ 32 ->
  exists m', pfree m cur (x * 2 ^ 12) = Ok m' /\
    phys_ok m' (drop_if (ref_count p =? 1) x AK) AU /\
    ref_at m' x = Some (ref_count p - 1) /\ (forall y, y <> x -> ref_at m' y = ref_at m y) /\
    (ref_count p = 1 -> x ∉ activate_list (user_pool m')) /\ kernel_keeps m m' (fun y => y = x).
Proof.
  intros [Hk Hu Hs] Hx Hp Hr.
  destruct (alloc_range _ _ _ _ _ Hk Hx) as (Hrng & _ & Hpool).
  pose proof (pfn_range _ (valid_pool_ok _ _ _ Hu)) as (Hs0 & Hsa & _).
  pose proof (pfn_range _ Hpool) as (Hs1 & _).
  destruct (pfree_shape m cur x p) as (p' & up & Hf & Ho & Hrc & Hsf & Hup & Hact & ->); [lia|done|done|].
  destruct (user_pool_variant m up x AU Hup Hu) as (Hu' & Hus & Hue).
  assert (Hv1 : valid (<[x := p']> (pages m)) up AU) by (by eapply valid_upd).
  assert (Hk1 : valid (<[x := p']> (pages m)) (kernel_pool m) AK) by (by eapply valid_upd).
  assert (Hrx : forall y, ref_count <$> <[x := p']> (pages m) !! y =
    if decide (y = x) then Some (ref_count p - 1) else ref_at m y).
  { intros y. case_decide as Hy; [subst; by rewrite lookup_insert_eq, <- Hrc|by rewrite lookup_insert_ne]. }
  assert (Hsx : forall y, slab_fields <$> <[x := p']> (pages m) !! y = slab_fields <$> pages m !! y).
  { intros y. destruct (decide (y = x)) as [->|]; [by rewrite lookup_insert_eq, Hp; cbn; rewrite Hsf|by rewrite lookup_insert_ne]. }
  rewrite (proj2 (Z.leb_gt _ _)) by lia. destruct (Z.eqb_spec (ref_count p) 1) as [H1|H1].
  - destruct (pfree_pages_valid _ (kernel_pool m) AK x 0 Hk1 Hx) as (pgs' & kp' & -> & Hv2 & Hkp). ok_simpl.
    destruct (keeps_pool_eq _ _ _ _ Hkp) as [Hs2 He2].
    eexists. split; [done|]. split_and!.
    + split; cbn [pages kernel_pool user_pool]; [done| |lia].
      eapply valid_frame; [exact Hv1|]. intros y Hy. apply (keep_out _ _ _ _ Hkp). lia.
    + unfold ref_at. cbn [pages]. by rewrite (keeps_ref _ _ _ _ x Hkp), Hrx, decide_True.
    + intros y Hy. unfold ref_at. cbn [pages]. by rewrite (keeps_ref _ _ _ _ y Hkp), Hrx, decide_False.
    + intros _. cbn [user_pool]. auto.
    + split; cbn [kernel_pool pages]; [apply Hkp| |].
      * intros y Hy. unfold ref_at. cbn [pages]. by rewrite (keeps_ref _ _ _ _ y Hkp), Hrx, decide_False.
      * intros y. by rewrite (keeps_slab _ _ _ _ y Hkp).
  - eexists. split; [done|]. split_and!.
    + split; cbn [pages kernel_pool user_pool]; [done|done|lia].
    + unfold ref_at. cbn [pages]. by rewrite Hrx, decide_True.
    + intros y Hy. unfold ref_at. cbn [pages]. by rewrite Hrx, decide_False.
    + done.
    + split; cbn [kernel_pool pages]; [by destruct (kernel_pool m)| |done]. intros y Hy. unfold ref_at. cbn [pages]. by rewrite Hrx, decide_False.
Qed.

Lemma pfree_kernel_ok m AK AU cur x p :
  phys_ok m AK AU -> AK !! x = Some 0 -> pages m !! x = Some p -> 0 < ref_count p < 2 ^ 32 ->
  exists m', pfree m cur (x * 2 ^ 12) = Ok m' /\
    phys_ok m' (drop_if (ref_count p =? 1) x AK) AU /\
    ref_at m' x = Some (ref_count p - 1) /\ (forall y, y <> x -> ref_at m' y = ref_at m y) /\
    (ref_count p = 1 -> x ∉ activate_list (user_pool m')).
Proof. intros. edestruct pfree_kernel_full as (m' & ? & ? & ? & ? & ? & _); [done..|]. by exists m'. Qed.

Lemma not_both m AK AU x k : phys_ok m AK AU -> AU !! x = Some k -> AK !! x = None.
Proof.
  intros [Hk Hu Hs] Hx. apply eq_None_not_Some. intros [k' Hk'].
  destruct (alloc_range _ _ _ _ _ Hu Hx). destruct (alloc_range _ _ _ _ _ Hk Hk'). lia.
Qed.

Lemma drop_if_absent b x (A : gmap Z Z) : A !! x = None -> drop_if b x A = A.
Proof. intros H. unfold drop_if. destruct b; [by apply delete_id|done]. Qed.

(** C39. [pfree] of a frame in use, of either pool: its reference count drops by
    one; when that was the last reference the frame goes back to the pool it came
    from and is on no active list, otherwise no pool changes; the other frames keep
    their counts and both pools stay valid and apart. *)
Theorem pfree_spec m AK AU cur x p :
  phys_ok m AK AU -> AK !! x = Some 0 \/ AU !! x = Some 0 ->
  pages m !! x = Some p -> 0 < ref_count p < 2 ^ 32 ->
  exists m', pfree m cur (x * 2 ^ 12) = Ok m' /\
    phys_ok m' (drop_if (ref_count p =? 1) x AK) (drop_if (ref_count p =? 1) x AU) /\
    ref_at m' x = Some (ref_count p - 1) /\ (forall y, y <> x -> ref_at m' y = ref_at m y) /\
    (ref_count p = 1 -> x ∉ activate_list (user_pool m')).
Proof.
  intros Hm [Hx|Hx] Hp Hr.
  - rewrite (drop_if_absent _ x AU); [by apply pfree_kernel_ok|].
    apply eq_None_not_Some. intros [k Hk]. pose proof (not_both m AK AU x k Hm Hk). congruence.
  - rewrite (drop_if_absent _ x AK) by (by eapply not_both).
    destruct (pfree_user_ok m AK AU cur x p) as (m' & ? & ? & ? & ? & ? & _); [done..|]. by exists m'.
Qed.

(** ** Kernel memory: allocation and release *)

(** The direct-map branch of [mfree_physical_pages], [n] pages from [vaddr]. *)
Fixpoint mfree_direct (n : nat) (m : phys) (cur vaddr : Z) : res phys :=
  match n with
  | O => Ok m
  | S n => m ← pfree m cur (u32 (vaddr - KERNEL_PAGE_OFFSET)); mfree_direct n m cur (u32 (vaddr + PG_SIZE))
  end.

Lemma ref_frames_ok n pgs i :
  (forall x, i <= x < i + Z.of_nat n -> is_Some (pgs !! x)) ->
  exists pgs', ref_frames n pgs i = Ok pgs' /\
    forall x, pgs' !! x = if decide (i <= x < i + Z.of_nat n) then set_ref 1 <$> pgs !! x else pgs !! x.
Proof.
  revert pgs i. induction n as [|n IH]; intros pgs i Hlive.
  - exists pgs. split; [done|]. intros x. by rewrite decide_False by lia.
  - cbn [ref_frames]. destruct (Hlive i) as [p Hp]; [lia|]. unfold upd_page. rewrite Hp. ok_simpl.
    destruct (IH (<[i := set_ref 1 p]> pgs) (i + 1)) as (pgs' & -> & Hl).
    { intros x Hx. rewrite lookup_insert_ne by lia. apply Hlive. lia. }
    exists pgs'. split; [done|]. intros x. rewrite Hl. destruct (decide (x = i)) as [->|Hne].
    + rewrite decide_False by lia. rewrite decide_True by lia. by rewrite lookup_insert_eq, Hp.
    + rewrite lookup_insert_ne by done. repeat case_decide; done || lia.
Qed.

Lemma mfree_direct_ok n m AK AU cur i :
  phys_ok m AK AU -> (forall x, i <= x < i + Z.of_nat n -> AK !! x = Some 0 /\ ref_at m x = Some 1) ->
  0 <= i -> (i + Z.of_nat n) * PG_SIZE <= KERNEL_DIRECT_SIZE ->
  exists m' AK', mfree_direct n m cur (KERNEL_PAGE_OFFSET + i * 2 ^ 12) = Ok m' /\ phys_ok m' AK' AU /\
    (forall q, AK' !! q = if decide (i <= q < i + Z.of_nat n) then None else AK !! q) /\
    kernel_keeps m m' (fun y => i <= y < i + Z.of_nat n).
Proof.
  unfold KERNEL_DIRECT_SIZE, KERNEL_PAGE_OFFSET, PG_SIZE.
  revert m AK i. induction n as [|n IH]; intros m AK i Hm Hall Hi Hlim.
  - exists m, AK. split_and!; [done|done|intros q; by rewrite decide_False by lia|]. split; try done. by destruct (kernel_pool m).
  - cbn [mfree_direct]. destruct (Hall i) as [Ha Hr]; [lia|].
    unfold ref_at in Hr. destruct (pages m !! i) as [p|] eqn:Hp; [|done]. injection Hr as Hr.
    unfold KERNEL_PAGE_OFFSET, PG_SIZE. rewrite !u32_small by lia.
    replace (3221225472 + i * 2 ^ 12 - 3221225472) with (i * 2 ^ 12) by lia.
    destruct (pfree_kernel_full m AK AU cur i p Hm Ha Hp) as (m1 & -> & Hm1 & _ & Hoth & _ & Hk1); [lia|].
    ok_simpl. rewrite Hr in Hm1. cbn [drop_if Z.eqb Pos.eqb] in Hm1.
    replace (3221225472 + i * 2 ^ 12 + 4096) with (3221225472 + (i + 1) * 2 ^ 12) by lia.
    destruct (IH m1 (delete i AK) (i + 1) Hm1) as (m2 & AK2 & -> & Hm2 & Hal & Hk2).
    + intros x Hx. rewrite lookup_delete_ne, Hoth by lia. apply Hall. lia.
    + lia.
    + lia.
    + exists m2, AK2. split_and!; [done|done| |].
      * intros q. rewrite Hal. destruct (decide (q = i)) as [->|].
        -- rewrite decide_False by lia. rewrite decide_True by lia. apply lookup_delete_eq.
        -- rewrite lookup_delete_ne by done. repeat case_decide; done || lia.
      * destruct Hk1 as [P1 R1 S1], Hk2 as [P2 R2 S2]. split.
        -- rewrite P2 at 1. by rewrite P1.
        -- intros y Hy. rewrite R2 by lia. apply R1. lia.
        -- intros y. by rewrite S2.
Qed.

(** An aligned run of [2 ^ o] frames of the pool with no allocated frame. *)
Definition free_run (bp : buddy_pool) (A : gmap Z Z) (r o : Z) : Prop :=
  0 <= o <= 10 /\ r mod 2 ^ o = 0 /\ start_pfn bp <= r /\ r + 2 ^ o <= end_pfn bp /\
  forall x, r <= x < r + 2 ^ o -> ~ allocated A x.

Lemma free_run_block pgs bp B r o : inv_but pgs bp B None -> free_run bp (alloc_of B) r o ->
  exists p k, B !! p = Some (k, false) /\ o <= k.
Proof.
  intros Hinv (Ho & Hr & Hs & He & Hf). pose proof (inv_geo _ _ _ _ Hinv) as Hg.
  apply (coalesced_complete _ _ _ r o Hg (inv_coal _ _ _ _ Hinv)); [done|lia|done|done|].
  intros x Hx. destruct (geo_cov _ _ _ Hg x) as (q & kq & a & Hq & Hin); [lia|].
  destruct a; [|by exists q, kq]. destruct (Hf x Hx). exists q, kq. by rewrite alloc_of_lookup.
Qed.

Lemma free_not_allocated pgs bp B x : inv_but pgs bp B None -> free_at B x -> ~ allocated (alloc_of B) x.
Proof.
  intros Hinv (p & k & Hp & Hin) (q & kq & Hq & Hin'). apply alloc_of_lookup in Hq.
  assert (p = q) as -> by (by eapply (geo_dis _ _ _ (inv_geo _ _ _ _ Hinv) p _ _ q _ _ x)). congruence.
Qed.

Lemma malloc_page_kernel_ok limit m AK AU pg_cnt r o :
  phys_ok m AK AU -> 0 < pg_cnt <= 2 ^ o -> free_run (kernel_pool m) AK r o ->
  end_pfn (kernel_pool m) * PG_SIZE <= limit -> limit <= KERNEL_DIRECT_SIZE ->
  exists p m1, malloc_page_kernel limit m pg_cnt = Ok (KERNEL_PAGE_OFFSET + p * 2 ^ 12, m1) /\
    phys_ok m1 (frames p pg_cnt ∪ AK) AU /\ 0 <= p /\ (p + pg_cnt) * PG_SIZE <= limit /\
    (forall x, p <= x < p + pg_cnt -> ref_at m1 x = Some 1 /\ ~ allocated AK x) /\
    kernel_keeps m m1 (fun y => p <= y < p + pg_cnt).
Proof.
  intros [(B & Hinv & <-) Hu Hs] Hcnt Hrun Hlim Hdir.
  destruct (free_run_block _ _ _ _ _ Hinv Hrun) as (pb & kb & Hpb & Hkb).
  pose proof (inv_geo _ _ _ _ Hinv) as Hg. pose proof (geo_ord _ _ _ Hg _ _ _ Hpb) as Hkb2.
  destruct Hrun as (Ho & _). unfold PG_SIZE in *.
  assert (2 ^ o <= 2 ^ kb) by (apply Z.pow_le_mono_r; lia).
  assert (2 ^ o <= 2 ^ 10) by (apply Z.pow_le_mono_r; lia).
  unfold malloc_page_kernel. rewrite (proj2 (Z.ltb_lt _ _)) by lia. ok_simpl.
  destruct (palloc_pages_exact_inv _ _ B pg_cnt Hinv) as
    [[_ Hno]|(p & pgs1 & kp1 & B1 & -> & Hinv1 & Hk1 & Hps & Hpe & Hal & Hfree)];
    [lia|by destruct (Hno pb kb); [lia|lia|]|]. ok_simpl.
  pose proof (pfn_range _ (inv_pool _ _ _ _ Hinv)) as (Hsp & _ & Hend & _).
  destruct (keeps_pool_eq _ _ _ _ Hk1) as [Hs1 He1].
  rewrite (proj1 (addr_in_pool kp1 (inv_pool _ _ _ _ Hinv1) p ltac:(lia))).
  unfold paddr_is_lowmem, PG_SIZE, KERNEL_DIRECT_SIZE in *.
  rewrite u32_small by lia. rewrite !(proj2 (Z.ltb_lt _ limit)) by lia. cbn [negb orb].
  destruct (ref_frames_ok (Z.to_nat pg_cnt) pgs1 p) as (pgs2 & -> & Hpgs2).
  { intros x Hx. apply (inv_pages _ _ _ _ Hinv1). lia. }
  rewrite Z2Nat.id in Hpgs2 by lia. ok_simpl. unfold direct_map_ptr, paddr_is_lowmem.
  rewrite !(proj2 (Z.ltb_lt _ limit)) by lia. ok_simpl. unfold KERNEL_PAGE_OFFSET at 1.
  rewrite u32_small by lia.
  exists p, (Phys pgs2 kp1 (user_pool m)). split_and!; [done| |lia|lia| |].
  - split; cbn [pages kernel_pool user_pool]; [| |lia].
    + eapply valid_agree; [exists B1; split; [exact Hinv1|exact Hal]|]. intros x Hx. rewrite Hpgs2.
      case_decide; [|done]. by destruct (pgs1 !! x).
    + eapply valid_frame; [exact Hu|]. intros x Hx. rewrite Hpgs2, decide_False by lia.
      apply (keep_out _ _ _ _ Hk1). lia.
  - intros x Hx. split; [|eapply free_not_allocated; [exact Hinv|by apply Hfree]].
    unfold ref_at. cbn [pages]. rewrite Hpgs2, decide_True by done.
    destruct (proj1 (inv_pages _ _ _ _ Hinv1) x) as [y ->]; [lia|done].
  - split; cbn [kernel_pool pages]; [apply Hk1| |].
    + intros y Hy. unfold ref_at. cbn [pages]. rewrite Hpgs2, decide_False by done. apply (keeps_ref _ _ _ _ y Hk1).
    + intros y. rewrite Hpgs2, <- (keeps_slab _ _ _ _ y Hk1). case_decide; [|done]. by destruct (pgs1 !! y).
Qed.

(** Kernel pages: while the kernel pool has an aligned free run that is long
    enough, [malloc_page] returns the direct-map address of [pg_cnt] consecutive
    frames that were free, each now allocated on its own with one reference, the
    surplus of the power-of-two block being back in the pool; and freeing these
    pages brings the pool's allocated frames back to what they were. *)
Lemma kernel_pages_roundtrip limit m AK AU cur pg_cnt r o :
  phys_ok m AK AU -> 0 < pg_cnt <= 2 ^ o -> free_run (kernel_pool m) AK r o ->
  end_pfn (kernel_pool m) * PG_SIZE <= limit -> limit <= KERNEL_DIRECT_SIZE ->
  exists p m1 m2, malloc_page_kernel limit m pg_cnt = Ok (KERNEL_PAGE_OFFSET + p * 2 ^ 12, m1) /\
    phys_ok m1 (frames p pg_cnt ∪ AK) AU /\
    (forall x, p <= x < p + pg_cnt -> ref_at m1 x = Some 1 /\ ~ allocated AK x) /\
    mfree_direct (Z.to_nat pg_cnt) m1 cur (KERNEL_PAGE_OFFSET + p * 2 ^ 12) = Ok m2 /\
    phys_ok m2 AK AU.
Proof.
  intros Hm Hcnt Hrun Hlim Hdir.
  destruct (malloc_page_kernel_ok limit m AK AU pg_cnt r o Hm Hcnt Hrun Hlim Hdir)
    as (p & m1 & Hmal & Hm1 & Hp0 & Hpl & Hx & _).
  destruct (mfree_direct_ok (Z.to_nat pg_cnt) m1 _ AU cur p Hm1) as (m2 & AK' & Hrun2 & Hm2 & HAK' & _).
  { intros x Hx'. split; [|apply Hx; lia]. rewrite lookup_union, frames_lookup, decide_True by lia.
    by destruct (AK !! x). }
  { lia. }
  { rewrite Z2Nat.id by lia. lia. }
  exists p, m1, m2. split_and!; [done|done|done|done|].
  replace AK with AK'; [done|]. apply map_eq. intros q.
  rewrite HAK', lookup_union, frames_lookup by lia. rewrite Z2Nat.id by lia.
  case_decide as Hq; [|by destruct (AK !! q)]. symmetry. apply eq_None_not_Some.
  intros [k Hk]. destruct (Hx q Hq) as [_ Hna]. apply Hna. exists q, k. split; [done|].
  destruct (ph_kernel _ _ _ Hm) as (B & Hinv & <-). apply alloc_of_lookup in Hk.
  pose proof (geo_ord _ _ _ (inv_geo _ _ _ _ Hinv) _ _ _ Hk). pose proof (pow2_pos k). lia.
Qed.

(** ** The highmem window *)

(** A slot is taken exactly when its page table entry is present. *)
Record kmap_ok (k : kmap_state) : Prop := {
  km_len : Z.of_nat (length (kmap_slots k)) = KMAP_SLOT_CNT;
  km_pte : forall i, 0 <= i < KMAP_SLOT_CNT ->
    kmap_slots k !! Z.to_nat i = Some 0 -> pte_of k (KERNEL_KMAP_START + i * PG_SIZE) = 0;
}.

Lemma kmap_loop_ok n k idx paddr :
  kmap_ok k -> 0 <= idx -> idx + Z.of_nat n = KMAP_SLOT_CNT ->
  (exists i, idx <= i < KMAP_SLOT_CNT /\ kmap_slots k !! Z.to_nat i = Some 0) ->
  exists i, idx <= i < KMAP_SLOT_CNT /\ kmap_slots k !! Z.to_nat i = Some 0 /\
    kmap_loop n k idx paddr = Ok (KERNEL_KMAP_START + i * PG_SIZE,
      KMap (<[Z.to_nat i := paddr]> (kmap_slots k))
        (<[KERNEL_KMAP_START + i * PG_SIZE := Z.lor paddr 3]> (kmap_ptes k))).
Proof.
  intros Hk. revert idx. induction n as [|n IH]; intros idx Hi Hn (i & Hir & Hfree); [lia|].
  cbn [kmap_loop]. destruct (lookup_lt_is_Some_2 (kmap_slots k) (Z.to_nat idx)) as [s Hs].
  { pose proof (km_len _ Hk). lia. }
  rewrite Hs. ok_simpl. destruct (Z.eqb_spec s 0) as [->|Hs0]; cbn [negb orb].
  - rewrite (km_pte _ Hk idx) by (lia || done). cbn [Z.testbit]. exists idx.
    split_and!; [lia|lia|done|done].
  - destruct (IH (idx + 1)) as (j & Hj & Hjf & Hrun); [lia|lia| |].
    + exists i. split; [|done]. assert (i <> idx) by congruence. lia.
    + exists j. split_and!; [lia|lia|done|done].
Qed.

(** C40. The highmem window: while a slot is free, [kmap] of a frame above the
    direct map returns an address of the window through which the page table leads
    to that frame, in a slot that was free; [kunmap] of the address gives the slots
    back as they were and clears the entry, and neither panics. *)
Theorem kmap_roundtrip limit k paddr :
  kmap_ok k -> limit <= paddr < 2 ^ 32 -> 0 < paddr ->
  (exists i, 0 <= i < KMAP_SLOT_CNT /\ kmap_slots k !! Z.to_nat i = Some 0) ->
  exists v k1 k2, kmap limit k paddr = Ok (v, k1) /\ vaddr_is_kmap v = true /\
    pte_of k v = 0 /\ pte_of k1 v = Z.lor paddr 3 /\
    kunmap k1 v = Ok k2 /\ kmap_slots k2 = kmap_slots k /\
    (forall w, pte_of k2 w = pte_of k w) /\ kmap_ok k2.
Proof.
  intros Hk Hp Hp0 Hfree. unfold kmap, paddr_is_lowmem. rewrite (proj2 (Z.ltb_ge _ _)) by lia.
  destruct (kmap_loop_ok (Z.to_nat KMAP_SLOT_CNT) k 0 paddr Hk) as (i & Hi & Hs & Hrun);
    [done|done|done|]. set (v := KERNEL_KMAP_START + i * PG_SIZE) in *.
  assert (Hcnt : KMAP_SLOT_CNT = 31744) by reflexivity.
  assert (Hv : vaddr_is_kmap v = true).
  { unfold vaddr_is_kmap, v, PG_SIZE. change KERNEL_KMAP_START with 4160749568.
    unfold KERNEL_KMAP_END. rewrite (proj2 (Z.leb_le _ _)), (proj2 (Z.ltb_lt _ _)) by lia. done. }
  eexists v, _, _. split; [exact Hrun|]. split; [done|].
  assert (Hv0 : pte_of k v = 0) by (by apply (km_pte _ Hk)).
  split; [done|]. split; [by unfold pte_of; cbn; rewrite lookup_insert_eq|].
  unfold kunmap. rewrite Hv. cbn [negb kmap_slots kmap_ptes].
  replace ((v - KERNEL_KMAP_START) / PG_SIZE) with i
    by (unfold v, PG_SIZE; rewrite Z.add_simpl_l, Z.div_mul by lia; done).
  rewrite (proj2 (Z.ltb_lt _ _)) by lia. ok_simpl.
  rewrite list_lookup_insert_eq by (by eapply lookup_lt_Some). ok_simpl.
  rewrite (proj2 (Z.eqb_neq _ _)) by lia. cbn [negb]. ok_simpl. fold v.
  split; [done|]. cbn [kmap_slots]. rewrite list_insert_insert_eq, list_insert_id by done.
  assert (Hpte : forall w, pte_of (KMap (kmap_slots k) (<[v := 0]> (<[v := Z.lor paddr 3]> (kmap_ptes k)))) w
    = pte_of k w).
  { intros w. unfold pte_of at 1. cbn. destruct (decide (w = v)) as [->|].
    - by rewrite lookup_insert_eq.
    - by rewrite !lookup_insert_ne by done. }
  split; [done|]. split; [exact Hpte|]. split; [apply Hk|].
  intros j Hj Hsj. rewrite Hpte. by apply (km_pte _ Hk).
Qed.

(** ** Witnesses: the kernel owns the frames 3..7, the user 8..15 *)
Definition ex_upool0 : buddy_pool :=
  BuddyPool (replicate (Z.to_nat MAX_ORDER) (FreeArea [] 0)) 32768 32768 ex_null [].

Definition ex_phys : phys :=
  match buddy_init ex_init.1 ex_null 32768 32768 with
  | Ok (pgs, up) => Phys pgs ex_init.2 up
  | _ => Phys ∅ ex_pool0 ex_pool0
  end.

Lemma ex_phys_ok : phys_ok ex_phys ∅ ∅.
Proof.
  assert (Hpool : pool_ok ex_upool0).
  { split; try (vm_compute; congruence); vm_compute; try done. by right. }
  destruct (buddy_init_ok ex_init.1 ex_null 32768 32768 Hpool) as (pgs & bp & Hrun & Hv & Hk).
  { intros x Hx. change (8 <= x < 16) in Hx.
    assert (Hc : x = 8 \/ x = 9 \/ x = 10 \/ x = 11 \/ x = 12 \/ x = 13 \/ x = 14 \/ x = 15) by lia.
    repeat (destruct Hc as [-> | Hc]; [vm_compute; by eexists|]). subst. vm_compute. by eexists. }
  unfold ex_phys. rewrite Hrun. split; cbn [pages kernel_pool user_pool].
  - eapply valid_frame; [exact ex_init_valid|]. intros x Hx. apply (keep_out _ _ _ _ Hk).
    change (3 <= x < 8) in Hx. change (~ (8 <= x < 16)). lia.
  - exact Hv.
  - destruct (keeps_pool_eq _ _ _ _ Hk) as [-> _]. vm_compute. congruence.
Qed.

Lemma ex_free_run : free_run (kernel_pool ex_phys) ∅ 4 2.
Proof.
  split_and!; [lia|lia|done|vm_compute; congruence|vm_compute; congruence|].
  intros x _ (q & k & Hq & _). by rewrite lookup_empty in Hq.
Qed.

Lemma kernel_pages_roundtrip_witness :
  exists p m1 m2, malloc_page_kernel 65536 ex_phys 3 = Ok (KERNEL_PAGE_OFFSET + p * 2 ^ 12, m1) /\
    phys_ok m1 (frames p 3 ∪ ∅) ∅ /\
    (forall x, p <= x < p + 3 -> ref_at m1 x = Some 1 /\ ~ allocated ∅ x) /\
    mfree_direct 3 m1 0 (KERNEL_PAGE_OFFSET + p * 2 ^ 12) = Ok m2 /\ phys_ok m2 ∅ ∅.
Proof.
  apply (kernel_pages_roundtrip 65536 ex_phys ∅ ∅ 0 3 4 2);
    [exact ex_phys_ok|lia|exact ex_free_run|vm_compute; congruence|vm_compute; congruence].
Defined.

Lemma pfree_spec_witness :
  exists m p m', malloc_page_kernel 65536 ex_phys 1 = Ok (KERNEL_PAGE_OFFSET + p * 2 ^ 12, m) /\
    pfree m 0 (p * 2 ^ 12) = Ok m' /\ ref_at m' p = Some 0 /\ p ∉ activate_list (user_pool m').
Proof.
  destruct (malloc_page_kernel_ok 65536 ex_phys ∅ ∅ 1 4 2) as (p & m & Hrun & Hm & _ & _ & Hx & _);
    [exact ex_phys_ok|lia|exact ex_free_run|vm_compute; congruence|vm_compute; congruence|].
  destruct (Hx p) as [Hr _]; [lia|]. unfold ref_at in Hr.
  destruct (pages m !! p) as [pg|] eqn:Hp; [|discriminate Hr]. injection Hr as Hr.
  destruct (pfree_spec m (frames p 1 ∪ ∅) ∅ 0 p pg) as (m' & Hfree & _ & Href & _ & Hact);
    [exact Hm| |exact Hp|lia|].
  - left. rewrite lookup_union, frames_lookup, decide_True by lia. reflexivity.
  - exists m, p, m'. split; [exact Hrun|]. split; [exact Hfree|].
    rewrite Hr in Href. split; [exact Href|]. by apply Hact.
Defined.

Lemma kmap_roundtrip_witness :
  exists v k1 k2, kmap 0x38000000 (KMap (replicate (Z.to_nat KMAP_SLOT_CNT) 0) ∅) 0x40000000 = Ok (v, k1) /\
    vaddr_is_kmap v = true /\ pte_of k1 v = 0x40000003 /\ kunmap k1 v = Ok k2 /\
    kmap_slots k2 = replicate (Z.to_nat KMAP_SLOT_CNT) 0.
Proof.
  destruct (kmap_roundtrip 0x38000000 (KMap (replicate (Z.to_nat KMAP_SLOT_CNT) 0) ∅) 0x40000000)
    as (v & k1 & k2 & Hrun & Hv & _ & Hpte & Hun & Hs & _).
  - split; [cbn [kmap_slots]; rewrite length_replicate, Z2Nat.id; [reflexivity|done]|].
    intros i _ _. unfold pte_of. cbn [kmap_ptes]. by rewrite lookup_empty.
  - lia.
  - lia.
  - exists 0. split; [vm_compute; split; congruence|]. apply lookup_replicate_2.
    change KMAP_SLOT_CNT with 31744. lia.
  - exists v, k1, k2. split; [exact Hrun|]. split; [exact Hv|]. split; [exact Hpte|].
    split; [exact Hun|exact Hs].
Defined.
