(* ===== verification/Kmalloc.v ===== *)
(** * mm/memory.c: the kernel heap

    [kmalloc] and [kfree].  Requests of more than 1024 bytes get pages of their own;
    smaller ones get a block of one of seven sizes, carved from a page (an arena) whose
    [struct page] says which size it is cut in and how many of its blocks are free.  The
    free blocks of a size are on one list, over all arenas.  An arena whose blocks are all
    free goes back to the page allocator.  The pool's lock is held, so each operation is
    one step.

    The heap uses the page allocator through the interface [SlabPages], which the pools of
    [PageAlloc] implement. *)

From S2P Require Import Prelude DList ListView BuddyGeo Buddy PageAlloc.

(** ** Data *)
Definition DESC_TYPE_CNT : nat := 7.

(** The heap's fields of a [struct page] *)
Record slab := Slab { s_desc : option nat; s_cnt : Z; s_large : bool }.
Definition no_slab : slab := Slab None 0 false.
#[export] Instance slab_eq_dec : EqDecision slab.
Proof. solve_decision. Defined.

Record mem_block_desc := Desc { block_size : Z; block_per_arena : Z; blocks : list Z }.
Definition set_blocks (l : list Z) (d : mem_block_desc) : mem_block_desc := Desc (block_size d) (block_per_arena d) l.

(** [block_desc_init] for the last [n] descriptors *)
Fixpoint desc_loop (n : nat) (block_size : Z) : list mem_block_desc :=
  match n with
  | O => []
  | S n => Desc block_size (PG_SIZE / block_size) [] :: desc_loop n (u16 (block_size * 2))
  end.

Definition block_desc_init : list mem_block_desc := desc_loop DESC_TYPE_CNT 16.

(** ** What the heap needs of the page allocator

    [sp_alloc s n] is [vmalloc_page(PF_KERNEL, n, false)], [sp_free s v n] is
    [mfree_page(PF_KERNEL, v, n)]; [sp_slab] and [sp_set] are the heap's fields of a frame;
    [sp_inv s A] says that the heap owns the frames [A]. *)
Definition run (p n : Z) : gset Z := list_to_set (seqZ p n).
Definition va (i : Z) : Z := KERNEL_PAGE_OFFSET + i * PG_SIZE.

Class SlabPages (S : Type) := {
  sp_limit : Z;
  sp_pool_size : S -> Z;
  sp_alloc : S -> Z -> res (Z * S);
  sp_free : S -> Z -> Z -> res S;
  sp_slab : S -> Z -> slab;
  sp_set : S -> Z -> slab -> res S;
  sp_inv : S -> gset Z -> Prop;
  sp_room : S -> Z -> Prop;
  sp_limit_ok : sp_limit <= KERNEL_DIRECT_SIZE;
  sp_bound : forall s A i, sp_inv s A -> i ∈ A -> 0 <= i /\ (i + 1) * PG_SIZE <= sp_limit;
  sp_alloc_ok : forall s A n, sp_inv s A -> 0 < n -> sp_room s n ->
    exists p s', sp_alloc s n = Ok (va p, s') /\ sp_inv s' (A ∪ run p n) /\ A ## run p n /\
      (forall x, sp_slab s' x = sp_slab s x) /\ sp_pool_size s' = sp_pool_size s;
  sp_free_ok : forall s A p n, sp_inv s A -> 0 < n -> run p n ⊆ A ->
    exists s', sp_free s (va p) n = Ok s' /\ sp_inv s' (A ∖ run p n) /\
      (forall x, sp_slab s' x = sp_slab s x) /\ sp_pool_size s' = sp_pool_size s;
  sp_set_ok : forall s A i v, sp_inv s A -> i ∈ A ->
    exists s', sp_set s i v = Ok s' /\ sp_inv s' A /\ sp_pool_size s' = sp_pool_size s /\
      forall x, sp_slab s' x = if decide (x = i) then v else sp_slab s x;
}.

(** ** Operations *)
Section heap.
Context {S : Type} `{SlabPages S}.

(** The page table entry of an address, [None] without a table. *)
Context (pte : Z -> option Z).

(** [bytes]: the contents of kernel memory. *)
Record heap := Heap { hp : S; k_block_descs : list mem_block_desc; bytes : Z -> Z }.

Definition memset0 (m : Z -> Z) (a n : Z) : Z -> Z := fun x => if (a <=? x) && (x <? a + n) then 0 else m x.

Definition addr_v2p (vaddr : Z) : res Z :=
  if vaddr_is_directmap vaddr && (u32 (vaddr - KERNEL_PAGE_OFFSET) <? sp_limit) then Ok (u32 (vaddr - KERNEL_PAGE_OFFSET))
  else w ← deref (pte vaddr); Ok (u32 (Z.land w 0xfffff000 + Z.land vaddr 0xfff)).

(** Frames are named by their index in [global_pages]. *)
Definition arena2block (h : heap) (a idx : Z) : res Z :=
  match s_desc (sp_slab (hp h) a) with
  | None => Panic
  | Some k =>
      d ← deref (k_block_descs h !! k);
      v ← direct_map_ptr sp_limit (u32 (a * PG_SIZE));
      Ok (u32 (v + u32 (idx * block_size d)))
  end.

Definition block2arena (b : Z) : res Z :=
  p ← addr_v2p (Z.land b 0xfffff000); Ok (Z.shiftr p 12).

Definition put_desc (h : heap) (k : nat) (d : mem_block_desc) : heap := Heap (hp h) (<[k := d]> (k_block_descs h)) (bytes h).

(** The loop that puts the [n] blocks of arena [a] from [idx] on the free list *)
Fixpoint carve (n : nat) (h : heap) (a idx : Z) (k : nat) : res heap :=
  match n with
  | O => Ok h
  | Datatypes.S n =>
      b ← arena2block h a idx;
      d ← deref (k_block_descs h !! k);
      _ ← assert_ (negb (bool_decide (b ∈ blocks d)));
      carve n (put_desc h k (set_blocks (blocks d ++ [b]) d)) a (idx + 1) k
  end.

(** The index of the first size that fits *)
Fixpoint find_desc (l : list mem_block_desc) (size : Z) : nat :=
  match l with
  | [] => O
  | d :: l => if size <=? block_size d then O else Datatypes.S (find_desc l size)
  end.

Definition alloc_large (h : heap) (size : Z) : res (Z * heap) :=
  let page_cnt := u32 (size + (PG_SIZE - 1)) / PG_SIZE in
  r ← sp_alloc (hp h) page_cnt;
  if r.1 =? NULL then Ok (NULL, h) else
  let m := memset0 (bytes h) r.1 (page_cnt * PG_SIZE) in
  p ← addr_v2p r.1;
  let a := Z.shiftr p 12 in
  s ← sp_set r.2 a (Slab None page_cnt true);
  v ← direct_map_ptr sp_limit (u32 (a * PG_SIZE));
  Ok (v, Heap s (k_block_descs h) m).

(** A new arena for descriptor [k], all its blocks on the free list *)
Definition new_arena (h : heap) (k : nat) : res (option heap) :=
  d ← deref (k_block_descs h !! k);
  r ← sp_alloc (hp h) 1;
  if r.1 =? NULL then Ok None else
  p ← addr_v2p r.1;
  let a := Z.shiftr p 12 in
  s ← sp_set r.2 a (Slab (Some k) (block_per_arena d) false);
  h' ← carve (Z.to_nat (block_per_arena d)) (Heap s (k_block_descs h) (memset0 (bytes h) r.1 PG_SIZE)) a 0 k;
  Ok (Some h').

(** The head of the free list of descriptor [k], zeroed and taken from its arena *)
Definition take_block (h : heap) (k : nat) : res (Z * heap) :=
  d ← deref (k_block_descs h !! k);
  match blocks d with
  | [] => UB
  | b :: l =>
      a ← block2arena b;
      let s := sp_slab (hp h) a in
      s' ← sp_set (hp h) a (Slab (s_desc s) (u32 (s_cnt s - 1)) (s_large s));
      Ok (b, Heap s' (<[k := set_blocks l d]> (k_block_descs h)) (memset0 (bytes h) b (block_size d)))
  end.

Definition do_alloc (h : heap) (size : Z) : res (Z * heap) :=
  if negb ((0 <? size) && (size <? sp_pool_size (hp h))) then Ok (NULL, h) else
  if 1024 <? size then alloc_large h size else
  let k := find_desc (k_block_descs h) size in
  d ← deref (k_block_descs h !! k);
  match blocks d with
  | [] => r ← new_arena h k; match r with Some h' => take_block h' k | None => Ok (NULL, h) end
  | _ => take_block h k
  end.

Definition kmalloc (h : heap) (size : Z) : res (Z * heap) := do_alloc h size.

(** The loop that takes the [n] blocks of arena [a] from [idx] off the free list *)
Fixpoint uncarve (n : nat) (h : heap) (a idx : Z) (k : nat) : res heap :=
  match n with
  | O => Ok h
  | Datatypes.S n =>
      b ← arena2block h a idx;
      d ← deref (k_block_descs h !! k);
      _ ← assert_ (bool_decide (b ∈ blocks d));
      l ← unlink b (blocks d);
      uncarve n (put_desc h k (set_blocks l d)) a (idx + 1) k
  end.

(** [do_free]; [has_area] says where the running task has an area, and the flag of the
    result whether the pool's lock has been released. *)
Definition do_free (has_area : Z -> bool) (h : heap) (ptr : Z) : res (bool * heap) :=
  _ ← assert_ (negb (ptr =? NULL));
  a ← block2arena ptr;
  if match pte ptr with None => true | Some w => Z.land w 1 =? 0 end then
    if has_area ptr then Ok (false, h) else Panic
  else
    let s := sp_slab (hp h) a in
    match s_desc s with
    | None =>
        if s_large s then
          v ← direct_map_ptr sp_limit (u32 (a * PG_SIZE));
          s' ← sp_set (hp h) a (Slab None 0 false);
          s' ← sp_free s' v (s_cnt s);
          Ok (true, Heap s' (k_block_descs h) (bytes h))
        else UB
    | Some k =>
        d ← deref (k_block_descs h !! k);
        let cnt := u32 (s_cnt s + 1) in
        s' ← sp_set (hp h) a (Slab (Some k) cnt (s_large s));
        let h := Heap s' (<[k := set_blocks (blocks d ++ [ptr]) d]> (k_block_descs h)) (bytes h) in
        if cnt =? block_per_arena d then
          h ← uncarve (Z.to_nat (block_per_arena d)) h a 0 k;
          s' ← sp_set (hp h) a (Slab None 0 false);
          v ← direct_map_ptr sp_limit (u32 (a * PG_SIZE));
          s' ← sp_free s' v 1;
          Ok (true, Heap s' (k_block_descs h) (bytes h))
        else Ok (true, h)
    end.

Definition kfree (has_area : Z -> bool) (h : heap) (ptr : Z) : res (bool * heap) :=
  if ptr =? NULL then Ok (true, h) else do_free has_area h ptr.

(** ** Invariant *)
Definition bs (k : nat) : Z := 16 * 2 ^ Z.of_nat k.
Definition bpa (k : nat) : Z := PG_SIZE / bs k.
Definition blk (k : nat) (i idx : Z) : Z := va i + idx * bs k.
Definition page_of (b : Z) : Z := (b - KERNEL_PAGE_OFFSET) / PG_SIZE.

Definition free_of (h : heap) (k : nat) : list Z := match k_block_descs h !! k with Some d => blocks d | None => [] end.
Definition slab_at (h : heap) (i : Z) : slab := sp_slab (hp h) i.
Definition in_page (i : Z) (l : list Z) : list Z := filter (fun b => page_of b = i) l.
Definition nfree (h : heap) (k : nat) (i : Z) : Z := Z.of_nat (length (in_page i (free_of h k))).

(** The number of frames of an arena *)
Definition width (s : slab) : Z := match s_desc s with Some _ => 1 | None => if s_large s then s_cnt s else 0 end.
Definition slab_wf (s : slab) : Prop :=
  match s_desc s with Some k => (k < DESC_TYPE_CNT)%nat /\ s_large s = false | None => s_large s = true -> 0 < s_cnt s end.

Definition descs_ok (l : list mem_block_desc) : Prop :=
  length l = DESC_TYPE_CNT /\ forall k d, l !! k = Some d -> block_size d = bs k /\ block_per_arena d = bpa k.

Record heap_pre (A : gset Z) (h : heap) : Prop := {
  hk_inv : sp_inv (hp h) A;
  hk_descs : descs_ok (k_block_descs h);
  hk_wf : forall i, slab_wf (slab_at h i);
  hk_own : forall i, run i (width (slab_at h i)) ⊆ A;
  hk_disj : forall i j, i <> j -> run i (width (slab_at h i)) ## run j (width (slab_at h j));
  hk_nodup : forall k, NoDup (free_of h k);
  hk_free : forall k b, b ∈ free_of h k -> exists i idx, b = blk k i idx /\ 0 <= idx < bpa k /\ s_desc (slab_at h i) = Some k;
  hk_cnt : forall i k, s_desc (slab_at h i) = Some k -> s_cnt (slab_at h i) = nfree h k i;
}.

(** No arena has only free blocks. *)
Definition heap_ok (h : heap) : Prop :=
  exists A, heap_pre A h /\ forall i k, s_desc (slab_at h i) = Some k -> nfree h k i < bpa k.

(** The allocation at [b] has [n] bytes. *)
Definition live (h : heap) (b n : Z) : Prop :=
  (exists i k idx, s_desc (slab_at h i) = Some k /\ 0 <= idx < bpa k /\ b = blk k i idx /\ b ∉ free_of h k /\ n = bs k) \/
  (exists i, s_desc (slab_at h i) = None /\ s_large (slab_at h i) = true /\ b = va i /\ n = s_cnt (slab_at h i) * PG_SIZE).

(** ** Addresses *)
Lemma size_cases k : (k < DESC_TYPE_CNT)%nat -> (k = 0 \/ k = 1 \/ k = 2 \/ k = 3 \/ k = 4 \/ k = 5 \/ k = 6)%nat.
Proof. unfold DESC_TYPE_CNT. lia. Qed.

(** The blocks of a page fill it. *)
Lemma block_fit k : (k < DESC_TYPE_CNT)%nat -> bpa k * bs k = PG_SIZE /\ 16 <= bs k <= 1024 /\ 4 <= bpa k <= 256.
Proof. intros Hk. by destruct (size_cases k Hk) as [-> |[-> |[-> |[-> |[-> |[-> | ->]]]]]]; vm_compute. Qed.

Lemma elem_run x p n : x ∈ run p n <-> p <= x < p + n.
Proof. unfold run. rewrite elem_of_list_to_set, elem_of_seqZ. done. Qed.

Lemma block_inside k i idx : (k < DESC_TYPE_CNT)%nat -> 0 <= idx < bpa k ->
  va i <= blk k i idx /\ blk k i idx + bs k <= va i + PG_SIZE.
Proof. intros Hk Hi. destruct (block_fit k Hk) as (E & B & _). unfold blk. rewrite <- E. nia. Qed.

Lemma page_of_blk k i idx : (k < DESC_TYPE_CNT)%nat -> 0 <= idx < bpa k -> page_of (blk k i idx) = i.
Proof.
  intros Hk Hi. pose proof (block_inside k i idx Hk Hi). destruct (block_fit k Hk) as (_ & ? & _). unfold page_of, va, PG_SIZE in *.
  symmetry. apply (Z.div_unique _ _ _ (blk k i idx - KERNEL_PAGE_OFFSET - i * 4096)); lia.
Qed.

Lemma page_of_va i : page_of (va i) = i.
Proof. unfold page_of, va. rewrite Z.add_simpl_l. by apply Z.div_mul. Qed.

Lemma blk_inj k i j idx jdx : (k < DESC_TYPE_CNT)%nat -> 0 <= idx < bpa k -> 0 <= jdx < bpa k -> blk k i idx = blk k j jdx -> i = j /\ idx = jdx.
Proof.
  intros Hk Hi Hj E. assert (i = j) as -> by (rewrite <- (page_of_blk k i idx), <- (page_of_blk k j jdx) by done; by rewrite E).
  split; [done|]. destruct (block_fit k Hk) as (_ & ? & _). unfold blk in E. nia.
Qed.

Lemma direct_va A s i : sp_inv s A -> i ∈ A -> direct_map_ptr sp_limit (u32 (i * PG_SIZE)) = Ok (va i).
Proof.
  intros Hs Hi. destruct (sp_bound _ _ _ Hs Hi) as [H1 H2]. pose proof sp_limit_ok. unfold direct_map_ptr, paddr_is_lowmem, va.
  unfold KERNEL_PAGE_OFFSET, KERNEL_DIRECT_SIZE, PG_SIZE in *. rewrite (u32_small (i * 4096)) by lia. rewrite (proj2 (Z.ltb_lt _ _)) by lia. ok_simpl. by rewrite u32_small by lia.
Qed.

Lemma v2p_va A s i : sp_inv s A -> i ∈ A -> addr_v2p (va i) = Ok (i * PG_SIZE).
Proof.
  intros Hs Hi. destruct (sp_bound _ _ _ Hs Hi) as [H1 H2]. pose proof sp_limit_ok. unfold addr_v2p, vaddr_is_directmap, KERNEL_DIRECT_END, va.
  unfold KERNEL_PAGE_OFFSET, KERNEL_DIRECT_SIZE, PG_SIZE in *. rewrite u32_small by lia.
  rewrite (proj2 (Z.leb_le _ _)), !(proj2 (Z.ltb_lt _ _)) by lia. cbn [andb]. f_equal. lia.
Qed.

Lemma frame_of_va i : 0 <= i -> Z.shiftr (i * PG_SIZE) 12 = i.
Proof. apply shiftr_frame. Qed.

Lemma block2arena_ok A s k i idx : sp_inv s A -> i ∈ A -> (k < DESC_TYPE_CNT)%nat -> 0 <= idx < bpa k -> block2arena (blk k i idx) = Ok i.
Proof.
  intros Hs Hi Hk Hx. pose proof (block_inside k i idx Hk Hx) as Hin. destruct (block_fit k Hk) as (_ & Hb & _).
  destruct (sp_bound _ _ _ Hs Hi) as [H1 H2]. pose proof sp_limit_ok. unfold block2arena.
  assert (Hm : Z.land (blk k i idx) 0xfffff000 = va i).
  { unfold va, KERNEL_PAGE_OFFSET, KERNEL_DIRECT_SIZE, PG_SIZE in *. rewrite land_page_mask by lia. unfold PG_SIZE.
    rewrite <- (Z.div_unique (blk k i idx) 4096 (786432 + i) (blk k i idx - 4096 * (786432 + i))); lia. }
  rewrite Hm, (v2p_va A s i) by done. ok_simpl. by rewrite frame_of_va.
Qed.

Lemma arena2block_ok A h i k idx : sp_inv (hp h) A -> i ∈ A -> (k < DESC_TYPE_CNT)%nat -> descs_ok (k_block_descs h) ->
  s_desc (slab_at h i) = Some k -> 0 <= idx < bpa k -> arena2block h i idx = Ok (blk k i idx).
Proof.
  intros Hs Hi Hk [Hlen Hds] Hd Hx. unfold arena2block. unfold slab_at in Hd. rewrite Hd.
  destruct (lookup_lt_is_Some_2 (k_block_descs h) k) as [d Hdk]; [by rewrite Hlen|]. rewrite Hdk. ok_simpl. destruct (Hds k d Hdk) as [-> _].
  rewrite (direct_va A (hp h) i) by done. ok_simpl. destruct (sp_bound _ _ _ Hs Hi) as [H1 H2]. pose proof sp_limit_ok.
  pose proof (block_inside k i idx Hk Hx) as Hin. destruct (block_fit k Hk) as (_ & Hb & _).
  unfold blk in *. unfold va, KERNEL_PAGE_OFFSET, KERNEL_DIRECT_SIZE, PG_SIZE in *. rewrite (u32_small (idx * bs k)) by nia. by rewrite u32_small by lia.
Qed.

(** ** Changing one frame *)
Lemma descs_put l k d b : descs_ok l -> l !! k = Some d -> descs_ok (<[k := set_blocks b d]> l).
Proof.
  intros [H1 H2] Hd. split; [by rewrite length_insert|]. intros j e. rewrite list_lookup_insert. case_decide as Hj; [|apply H2].
  intros [= <-]. destruct Hj as [-> _]. exact (H2 _ _ Hd).
Qed.

Lemma desc_some A h k : heap_pre A h -> (k < DESC_TYPE_CNT)%nat ->
  exists d, k_block_descs h !! k = Some d /\ block_size d = bs k /\ block_per_arena d = bpa k /\ free_of h k = blocks d.
Proof.
  intros Hh Hk. destruct (hk_descs _ _ Hh) as [Hl Hd]. destruct (lookup_lt_is_Some_2 (k_block_descs h) k) as [d E]; [by rewrite Hl|].
  exists d. destruct (Hd k d E). unfold free_of. by rewrite E.
Qed.

(** The invariant after frame [i] has got the fields [v] and the free lists have changed. *)
Lemma pre_change A A' h h' i v : heap_pre A h -> sp_inv (hp h') A' -> descs_ok (k_block_descs h') ->
  (forall x, slab_at h' x = if decide (x = i) then v else slab_at h x) -> slab_wf v -> run i (width v) ⊆ A' ->
  (forall x, x <> i -> run x (width (slab_at h x)) ⊆ A' /\ run x (width (slab_at h x)) ## run i (width v)) ->
  (forall k, NoDup (free_of h' k)) ->
  (forall k b, b ∈ free_of h' k -> exists j idx, b = blk k j idx /\ 0 <= idx < bpa k /\ s_desc (slab_at h' j) = Some k) ->
  (forall j k, s_desc (slab_at h' j) = Some k -> s_cnt (slab_at h' j) = nfree h' k j) -> heap_pre A' h'.
Proof.
  intros Hh Hi Hd Hs Hwf Hown Hoth Hnd Hfr Hcn. split; try done.
  - intros x. rewrite Hs. case_decide; [done|]. apply (hk_wf _ _ Hh).
  - intros x. rewrite Hs. case_decide as Hx; [by subst|]. by apply Hoth.
  - intros x y Hxy. rewrite !Hs. repeat case_decide; subst; try done; [symmetry|..]; try (by apply Hoth). by apply (hk_disj _ _ Hh).
Qed.

(** A frame with fields is the heap's. *)
Lemma arena_owned A h i k : heap_pre A h -> s_desc (slab_at h i) = Some k -> i ∈ A /\ (k < DESC_TYPE_CNT)%nat /\ slab_at h i = Slab (Some k) (nfree h k i) false.
Proof.
  intros Hh Hd. split_and!.
  - apply (hk_own _ _ Hh i), elem_run. unfold width. rewrite Hd. lia.
  - pose proof (hk_wf _ _ Hh i) as Hw. unfold slab_wf in Hw. rewrite Hd in Hw. by destruct Hw.
  - pose proof (hk_wf _ _ Hh i) as Hw. unfold slab_wf in Hw. rewrite Hd in Hw. pose proof (hk_cnt _ _ Hh i k Hd) as Hc.
    destruct (slab_at h i) as [x c lg]; cbn in *. by destruct Hw as [_ ->]; subst.
Qed.

Lemma nfree_ext h h' k i : free_of h' k = free_of h k -> nfree h' k i = nfree h k i.
Proof. unfold nfree. by intros ->. Qed.

(** The free blocks of an arena are some of its blocks; when there are as many, all. *)
Definition all_blocks (k : nat) (i : Z) : list Z := blk k i <$> seqZ 0 (bpa k).

Lemma elem_all_blocks k i b : b ∈ all_blocks k i <-> exists idx, b = blk k i idx /\ 0 <= idx < bpa k.
Proof. unfold all_blocks. rewrite list_elem_of_fmap. setoid_rewrite elem_of_seqZ. done. Qed.

Lemma length_all_blocks k i : (k < DESC_TYPE_CNT)%nat -> Z.of_nat (length (all_blocks k i)) = bpa k.
Proof. intros Hk. destruct (block_fit k Hk) as (_ & _ & Hb). unfold all_blocks. rewrite length_fmap, length_seqZ. lia. Qed.

Lemma in_page_incl A h k i : heap_pre A h -> (k < DESC_TYPE_CNT)%nat -> incl (in_page i (free_of h k)) (all_blocks k i).
Proof.
  intros Hh Hk b Hb. apply list_elem_of_In in Hb. apply list_elem_of_In, elem_all_blocks. apply list_elem_of_filter in Hb as [Hp Hin].
  destruct (hk_free _ _ Hh k b Hin) as (j & idx & -> & Hx & _). rewrite page_of_blk in Hp by done. subst j. eauto.
Qed.

Lemma in_page_NoDup A h k i : heap_pre A h -> List.NoDup (in_page i (free_of h k)).
Proof. intros Hh. apply NoDup_ListNoDup, NoDup_filter, (hk_nodup _ _ Hh). Qed.

Lemma nfree_bound A h k i : heap_pre A h -> (k < DESC_TYPE_CNT)%nat -> 0 <= nfree h k i <= bpa k.
Proof.
  intros Hh Hk. unfold nfree. split; [lia|]. rewrite <- (length_all_blocks k i Hk). apply inj_le.
  apply NoDup_incl_length; [by apply (in_page_NoDup A)|by apply (in_page_incl A)].
Qed.

Lemma full_arena A h k i b : heap_pre A h -> (k < DESC_TYPE_CNT)%nat -> nfree h k i = bpa k -> b ∈ all_blocks k i -> b ∈ free_of h k.
Proof.
  intros Hh Hk Hn Hb. assert (Hin : b ∈ in_page i (free_of h k)); [|by apply list_elem_of_filter in Hin as [_ ?]].
  apply list_elem_of_In. apply list_elem_of_In in Hb. revert b Hb. apply NoDup_length_incl; [by apply (in_page_NoDup A)| |by apply (in_page_incl A)].
  pose proof (length_all_blocks k i Hk). unfold nfree in Hn. lia.
Qed.

(** The lists of an arena's page seen from one place: descriptor [k] and its list [l]. *)
Lemma counts_change A h h' i k c : heap_pre A h -> (forall j, j <> k -> free_of h' j = free_of h j) ->
  (forall x, slab_at h' x = if decide (x = i) then Slab (Some k) c false else slab_at h x) ->
  c = nfree h' k i -> (forall j, j <> i -> nfree h' k j = nfree h k j) ->
  forall j q, s_desc (slab_at h' j) = Some q -> s_cnt (slab_at h' j) = nfree h' q j.
Proof.
  intros Hh Hf Hs Hc Hn j q. rewrite Hs. case_decide as Hj; [subst j; cbn; by intros [= <-]|].
  intros Hd. rewrite (hk_cnt _ _ Hh j q Hd). destruct (decide (q = k)) as [->|Hq]; [symmetry; auto|]. symmetry. apply nfree_ext; auto.
Qed.

(** ** Taking a block *)
Lemma in_page_cons i b l : in_page i (b :: l) = if decide (page_of b = i) then b :: in_page i l else in_page i l.
Proof. unfold in_page. rewrite filter_cons. done. Qed.

(** What an operation on descriptor [k] and frame [i] leaves alone. *)
Record touched (h h' : heap) (k : nat) (i : Z) (v : slab) (l : list Z) : Prop := {
  to_slab : forall x, slab_at h' x = if decide (x = i) then v else slab_at h x;
  to_list : free_of h' k = l;
  to_other : forall j, j <> k -> free_of h' j = free_of h j;
  to_size : sp_pool_size (hp h') = sp_pool_size (hp h);
}.

Lemma take_ok A h k b l : heap_pre A h -> (k < DESC_TYPE_CNT)%nat -> free_of h k = b :: l ->
  exists i idx h', b = blk k i idx /\ 0 <= idx < bpa k /\ s_desc (slab_at h i) = Some k /\ take_block h k = Ok (b, h') /\ heap_pre A h' /\
    touched h h' k i (Slab (Some k) (nfree h k i - 1) false) l /\ bytes h' = memset0 (bytes h) b (bs k).
Proof.
  intros Hh Hk Hl. destruct (desc_some A h k Hh Hk) as (d & Hd & Hbs & _ & Hfd). rewrite Hl in Hfd.
  destruct (hk_free _ _ Hh k b) as (i & idx & -> & Hx & Hi); [rewrite Hl; by left|].
  destruct (arena_owned A h i k Hh Hi) as (HiA & _ & Hsl). pose proof (nfree_bound A h k i Hh Hk) as Hn.
  assert (Hcons : nfree h k i = 1 + Z.of_nat (length (in_page i l))).
  { unfold nfree. rewrite Hl, in_page_cons, decide_True by (by apply page_of_blk). cbn [length]. lia. }
  destruct (sp_set_ok (hp h) A i (Slab (Some k) (nfree h k i - 1) false) (hk_inv _ _ Hh) HiA) as (s' & Hset & Hinv & Hsz & Hsl').
  destruct (block_fit k Hk) as (_ & _ & Hbpa).
  exists i, idx, (Heap s' (<[k := set_blocks l d]> (k_block_descs h)) (memset0 (bytes h) (blk k i idx) (bs k))).
  set (h' := Heap _ _ _).
  assert (Ht : touched h h' k i (Slab (Some k) (nfree h k i - 1) false) l).
  { split; [exact Hsl'| | |exact Hsz]; unfold h', free_of; cbn [k_block_descs].
    - rewrite list_lookup_insert_eq; [done|]. by apply lookup_lt_Some in Hd.
    - intros j Hj. by rewrite list_lookup_insert_ne by auto. }
  split_and!; try done; try lia.
  - unfold take_block. rewrite Hd. ok_simpl. rewrite <- Hfd. rewrite (block2arena_ok A (hp h)) by (done || apply Hh). ok_simpl.
    change (sp_slab (hp h) i) with (slab_at h i). rewrite Hsl. cbn [s_desc s_cnt s_large]. rewrite u32_small by lia. rewrite Hset. ok_simpl. by rewrite Hbs.
  - destruct Ht as [T1 T2 T3 _]. apply (pre_change A A h h' i (Slab (Some k) (nfree h k i - 1) false)); try done.
    + apply descs_put; [apply Hh|done].
    + pose proof (hk_own _ _ Hh i) as Ho. by rewrite Hsl in Ho.
    + intros x Hxi. split; [apply (hk_own _ _ Hh)|]. pose proof (hk_disj _ _ Hh x i Hxi) as Hdj. by rewrite Hsl in Hdj.
    + intros j. destruct (decide (j = k)) as [->|Hj]; [|rewrite T3 by done; apply (hk_nodup _ _ Hh)].
      rewrite T2. pose proof (hk_nodup _ _ Hh k) as Hnd. rewrite Hl in Hnd. by apply NoDup_cons in Hnd as [_ ?].
    + intros j b Hb. assert (Hb' : b ∈ free_of h j).
      { destruct (decide (j = k)) as [->|Hj]; [rewrite Hl; rewrite T2 in Hb; by right|by rewrite T3 in Hb]. }
      destruct (hk_free _ _ Hh j b Hb') as (i0 & x0 & -> & Hx0 & Hd0). exists i0, x0. split_and!; try done; try lia.
      rewrite T1. case_decide as E; [rewrite E in Hd0; cbn; congruence|done].
    + apply (counts_change A h h' i k (nfree h k i - 1)); try done.
      * unfold nfree at 2. rewrite T2. lia.
      * intros j Hj. unfold nfree. rewrite T2, Hl, in_page_cons, decide_False; [done|]. rewrite page_of_blk by done. done.
Qed.

(** A new live block and no other change *)
Lemma live_take A h h' k i idx l : heap_pre A h -> s_desc (slab_at h i) = Some k -> 0 <= idx < bpa k -> free_of h k = blk k i idx :: l ->
  touched h h' k i (Slab (Some k) (nfree h k i - 1) false) l ->
  forall b n, live h' b n <-> live h b n \/ (b = blk k i idx /\ n = bs k).
Proof.
  intros Hh Hi Hx Hl [T1 T2 T3 _] b n. destruct (arena_owned A h i k Hh Hi) as (_ & Hk & Hsl).
  assert (Hdesc : forall x, s_desc (slab_at h' x) = s_desc (slab_at h x)) by (intros x; rewrite T1; case_decide; [subst; by rewrite Hi|done]).
  assert (Hfree : forall j b, b ∈ free_of h j <-> b ∈ free_of h' j \/ (j = k /\ b = blk k i idx)).
  { intros j b'. destruct (decide (j = k)) as [->|Hj]; [rewrite T2, Hl, elem_of_cons; naive_solver|rewrite T3 by done; naive_solver]. }
  assert (Hnd : blk k i idx ∉ free_of h' k).
  { pose proof (hk_nodup _ _ Hh k) as H0. rewrite Hl in H0. apply NoDup_cons in H0 as [? _]. by rewrite T2. }
  unfold live. split.
  - intros [(i0 & k0 & x0 & H1 & H2 & -> & H4 & ->)|(i0 & H1 & H2 & -> & ->)].
    + rewrite Hdesc in H1. destruct (arena_owned A h i0 k0 Hh H1) as (_ & Hk0 & _).
      destruct (decide (k0 = k /\ blk k0 i0 x0 = blk k i idx)) as [[-> E]|Hne]; [right; done|]. left. left. exists i0, k0, x0. split_and!; try done; try lia.
      rewrite Hfree. naive_solver.
    + left. right. exists i0. rewrite Hdesc in H1. rewrite T1 in H2 |- *. case_decide; [subst; congruence|]. done.
  - intros [[(i0 & k0 & x0 & H1 & H2 & -> & H4 & ->)|(i0 & H1 & H2 & -> & ->)]|[-> ->]].
    + left. exists i0, k0, x0. rewrite Hdesc. split_and!; try done; try lia. intros Hin. apply H4, Hfree. by left.
    + right. exists i0. rewrite Hdesc, T1. case_decide; [subst; congruence|]. done.
    + left. exists i, k, idx. rewrite Hdesc. by split_and!; try lia.
Qed.

Lemma filter_all_elems (P : Z -> Prop) `{!forall x, Decision (P x)} (l : list Z) : (forall x, x ∈ l -> P x) -> filter P l = l.
Proof.
  induction l as [|x l IH]; intros Hp; [done|]. rewrite filter_cons, decide_True by (apply Hp; by left). f_equal. apply IH. intros y Hy. apply Hp. by right.
Qed.

(** ** Cutting a page *)
Definition cut (k : nat) (i idx : Z) (n : nat) : list Z := blk k i <$> seqZ idx (Z.of_nat n).

Lemma cut_cons k i idx n : cut k i idx (Datatypes.S n) = blk k i idx :: cut k i (idx + 1) n.
Proof. unfold cut. rewrite seqZ_cons by lia. cbn [fmap list_fmap]. f_equal. f_equal. f_equal; lia. Qed.

Lemma elem_cut k i idx n b : b ∈ cut k i idx n <-> exists x, b = blk k i x /\ idx <= x < idx + Z.of_nat n.
Proof. unfold cut. rewrite list_elem_of_fmap. setoid_rewrite elem_of_seqZ. done. Qed.

Lemma put_desc_free h k d l j : k_block_descs h !! k = Some d -> free_of (put_desc h k (set_blocks l d)) j = if decide (j = k) then l else free_of h j.
Proof.
  intros Hd. unfold free_of, put_desc. cbn [k_block_descs]. case_decide as Hj; [subst|by rewrite list_lookup_insert_ne by auto].
  rewrite list_lookup_insert_eq; [done|]. by apply lookup_lt_Some in Hd.
Qed.

Lemma carve_ok A k i n : forall h idx, sp_inv (hp h) A -> i ∈ A -> (k < DESC_TYPE_CNT)%nat -> descs_ok (k_block_descs h) ->
  s_desc (slab_at h i) = Some k -> 0 <= idx -> idx + Z.of_nat n <= bpa k -> (forall b, b ∈ cut k i idx n -> b ∉ free_of h k) ->
  exists h', carve n h i idx k = Ok h' /\ hp h' = hp h /\ bytes h' = bytes h /\ descs_ok (k_block_descs h') /\
    forall j, free_of h' j = if decide (j = k) then free_of h k ++ cut k i idx n else free_of h j.
Proof.
  induction n as [|n IH]; intros h idx Hs Hi Hk Hd Ha H0 Hn Hfresh; cbn [carve].
  { exists h. split_and!; try done. intros j. case_decide; [subst|done]. by rewrite app_nil_r. }
  rewrite cut_cons in Hfresh |- *. rewrite (arena2block_ok A h i k idx) by (done || lia). ok_simpl.
  destruct Hd as [Hlen Hds]. destruct (lookup_lt_is_Some_2 (k_block_descs h) k) as [d Hdk]; [by rewrite Hlen|]. rewrite Hdk. ok_simpl.
  assert (Hfd : free_of h k = blocks d) by (unfold free_of; by rewrite Hdk).
  rewrite <- Hfd, bool_decide_false by (apply Hfresh; by left). cbn [negb]. ok_simpl.
  pose proof (put_desc_free h k d (free_of h k ++ [blk k i idx])) as Hput.
  destruct (IH (put_desc h k (set_blocks (free_of h k ++ [blk k i idx]) d)) (idx + 1)) as (h' & -> & E1 & E2 & E3 & E4); try done.
  - by apply descs_put.
  - lia.
  - lia.
  - intros b Hb. rewrite Hput, decide_True, elem_of_app, list_elem_of_singleton by done. intros [Hin|E]; [apply (Hfresh b); [by right|done]|].
    apply elem_cut in Hb as (x & -> & Hx). apply (blk_inj k) in E as [_ ?]; try done; lia.
  - exists h'. split_and!; try done. intros j. rewrite E4, !Hput by done. case_decide; [|done]. rewrite decide_True by done. by rewrite <- app_assoc.
Qed.

Lemma uncarve_ok A k i n : forall h idx, sp_inv (hp h) A -> i ∈ A -> (k < DESC_TYPE_CNT)%nat -> descs_ok (k_block_descs h) ->
  s_desc (slab_at h i) = Some k -> 0 <= idx -> idx + Z.of_nat n <= bpa k -> (forall b, b ∈ cut k i idx n -> b ∈ free_of h k) ->
  exists h', uncarve n h i idx k = Ok h' /\ hp h' = hp h /\ bytes h' = bytes h /\ descs_ok (k_block_descs h') /\
    forall j, free_of h' j = if decide (j = k) then filter (fun b => b ∉ cut k i idx n) (free_of h k) else free_of h j.
Proof.
  induction n as [|n IH]; intros h idx Hs Hi Hk Hd Ha H0 Hn Hin; cbn [uncarve].
  { exists h. split_and!; try done. intros j. case_decide; [subst|done]. symmetry. apply filter_all_elems. intros x _. apply not_elem_of_nil. }
  rewrite cut_cons in Hin. rewrite (arena2block_ok A h i k idx) by (done || lia). ok_simpl.
  destruct Hd as [Hlen Hds]. destruct (lookup_lt_is_Some_2 (k_block_descs h) k) as [d Hdk]; [by rewrite Hlen|]. rewrite Hdk. ok_simpl.
  assert (Hfd : free_of h k = blocks d) by (unfold free_of; by rewrite Hdk). rewrite <- Hfd.
  assert (Hb : blk k i idx ∈ free_of h k) by (apply Hin; by left). rewrite bool_decide_true by done. ok_simpl.
  rewrite (proj2 (unlink_ok _ _ _) (conj Hb eq_refl)). ok_simpl.
  pose proof (put_desc_free h k d (filter (fun x => x <> blk k i idx) (free_of h k))) as Hput.
  destruct (IH (put_desc h k (set_blocks (filter (fun x => x <> blk k i idx) (free_of h k)) d)) (idx + 1)) as (h' & -> & E1 & E2 & E3 & E4); try done.
  - by apply descs_put.
  - lia.
  - lia.
  - intros b Hb'. rewrite Hput, decide_True by done. apply list_elem_of_filter. split; [|apply Hin; by right].
    apply elem_cut in Hb' as (x & -> & Hx). intros E. apply (blk_inj k) in E as [_ ?]; try done; lia.
  - exists h'. split_and!; try done. intros j. rewrite E4, !Hput by done. case_decide; [|done]. rewrite decide_True by done. subst.
    rewrite list_filter_filter. apply list_filter_iff. intros x. rewrite cut_cons, elem_of_cons. tauto.
Qed.

Lemma cut_NoDup k i idx n : (k < DESC_TYPE_CNT)%nat -> 0 <= idx -> idx + Z.of_nat n <= bpa k -> NoDup (cut k i idx n).
Proof.
  intros Hk H0 Hn. unfold cut. apply NoDup_fmap_2_strong; [|apply NoDup_seqZ]. intros x y Hx%elem_of_seqZ Hy%elem_of_seqZ E.
  apply (blk_inj k) in E as [_ ?]; try done; lia.
Qed.

Lemma in_page_cut k i j : (k < DESC_TYPE_CNT)%nat -> in_page j (cut k i 0 (Z.to_nat (bpa k))) = if decide (j = i) then cut k i 0 (Z.to_nat (bpa k)) else [].
Proof.
  intros Hk. destruct (block_fit k Hk) as (_ & _ & Hb).
  assert (Hp : forall b, b ∈ cut k i 0 (Z.to_nat (bpa k)) -> page_of b = i) by (intros b (x & -> & Hx)%elem_cut; apply page_of_blk; [done|lia]).
  unfold in_page. case_decide as Hj.
  - apply filter_all_elems. intros b Hb'. by rewrite Hp.
  - apply elem_of_nil_inv. intros b [E Hb']%list_elem_of_filter. rewrite (Hp b Hb') in E. done.
Qed.

Lemma va_range A s i : sp_inv s A -> i ∈ A -> 0 < va i < 2 ^ 32.
Proof.
  intros Hs Hi. destruct (sp_bound _ _ _ Hs Hi). pose proof sp_limit_ok. unfold va, KERNEL_PAGE_OFFSET, KERNEL_DIRECT_SIZE, PG_SIZE in *. lia.
Qed.

Lemma new_arena_ok A h k : heap_pre A h -> (k < DESC_TYPE_CNT)%nat -> free_of h k = [] -> sp_room (hp h) 1 ->
  exists p h', new_arena h k = Ok (Some h') /\ p ∉ A /\ heap_pre (A ∪ run p 1) h' /\
    touched h h' k p (Slab (Some k) (bpa k) false) (cut k p 0 (Z.to_nat (bpa k))) /\ bytes h' = memset0 (bytes h) (va p) PG_SIZE.
Proof.
  intros Hh Hk Hnil Hroom. destruct (desc_some A h k Hh Hk) as (d & Hd & _ & Hbpa & _). destruct (block_fit k Hk) as (_ & _ & Hb).
  destruct (sp_alloc_ok (hp h) A 1 (hk_inv _ _ Hh)) as (p & s1 & Hal & Hinv1 & Hdj & Hsl1 & Hsz1); [lia|done|].
  assert (HpR : p ∈ run p 1) by (apply elem_run; lia). assert (HpA : p ∈ A ∪ run p 1) by set_solver.
  destruct (sp_set_ok s1 _ p (Slab (Some k) (bpa k) false) Hinv1 HpA) as (s2 & Hset & Hinv2 & Hsz2 & Hsl2).
  pose proof (va_range _ s1 p Hinv1 HpA) as Hva. destruct (sp_bound _ _ _ Hinv1 HpA) as [Hp0 _].
  destruct (carve_ok (A ∪ run p 1) k p (Z.to_nat (bpa k)) (Heap s2 (k_block_descs h) (memset0 (bytes h) (va p) PG_SIZE)) 0) as (h' & Hc & E1 & E2 & E3 & E4); try done.
  { apply Hh. }
  { unfold slab_at. cbn. by rewrite Hsl2, decide_True. }
  { lia. }
  { intros b _. change (b ∉ free_of h k). rewrite Hnil. apply not_elem_of_nil. }
  exists p, h'. assert (Hp : p ∉ A) by (intros Hin; by apply (Hdj p)).
  assert (Ht : touched h h' k p (Slab (Some k) (bpa k) false) (cut k p 0 (Z.to_nat (bpa k)))).
  { split; [|rewrite E4, decide_True by done; change (free_of _ k) with (free_of h k); by rewrite Hnil|intros j Hj; by rewrite E4, decide_False by done|by rewrite E1; cbn; rewrite Hsz2].
    intros x. unfold slab_at. rewrite E1. cbn [hp]. rewrite Hsl2. by case_decide; rewrite ?Hsl1. }
  split_and!; [|done| |done|done].
  - unfold new_arena. rewrite Hd. ok_simpl. rewrite Hal. ok_simpl. cbn [fst snd]. rewrite (proj2 (Z.eqb_neq _ _)) by (unfold NULL; lia).
    rewrite (v2p_va _ s1 p) by done. ok_simpl. rewrite frame_of_va by done. rewrite Hbpa, Hset. ok_simpl. rewrite Hc. by ok_simpl.
  - destruct Ht as [T1 T2 T3 _]. apply (pre_change A _ h h' p (Slab (Some k) (bpa k) false)); try done.
    + by rewrite E1.
    + cbn. set_solver.
    + intros x Hx. pose proof (hk_own _ _ Hh x). cbn. set_solver.
    + intros j. destruct (decide (j = k)) as [->|Hj]; [rewrite T2; apply cut_NoDup; [done|lia|lia]|rewrite T3 by done; apply (hk_nodup _ _ Hh)].
    + intros j b Hb'. destruct (decide (j = k)) as [->|Hj].
      * rewrite T2 in Hb'. apply elem_cut in Hb' as (x & -> & Hx). exists p, x. rewrite T1, decide_True by done. split_and!; try done; lia.
      * rewrite T3 in Hb' by done. destruct (hk_free _ _ Hh j b Hb') as (i0 & x0 & -> & Hx0 & Hd0). exists i0, x0. split_and!; try done; try lia.
        destruct (arena_owned A h i0 j Hh Hd0) as (Hi0 & _). rewrite T1, decide_False; [done|]. intros ->. done.
    + apply (counts_change A h h' p k (bpa k)); try done.
      * unfold nfree. rewrite T2, in_page_cut, decide_True by done. unfold cut. rewrite length_fmap, length_seqZ. lia.
      * intros j Hj. unfold nfree. by rewrite T2, Hnil, in_page_cut, decide_False.
Qed.

(** A new arena has no live block. *)
Lemma live_new_arena A h h' k p : heap_pre A h -> (k < DESC_TYPE_CNT)%nat -> free_of h k = [] -> p ∉ A ->
  touched h h' k p (Slab (Some k) (bpa k) false) (cut k p 0 (Z.to_nat (bpa k))) -> forall b n, live h' b n <-> live h b n.
Proof.
  intros Hh Hk Hnil Hp [T1 T2 T3 _] b n. destruct (block_fit k Hk) as (_ & _ & Hb).
  assert (Hin : forall i, (s_desc (slab_at h i) <> None \/ s_large (slab_at h i) = true) -> i <> p).
  { intros i Hi ->. apply Hp, (hk_own _ _ Hh p), elem_run. pose proof (hk_wf _ _ Hh p) as Hw. unfold slab_wf, width in *.
    destruct (s_desc (slab_at h p)); [lia|]. destruct Hi as [?|Hl]; [done|]. rewrite Hl. specialize (Hw Hl). lia. }
  assert (Hfr : forall q i x, (q < DESC_TYPE_CNT)%nat -> i <> p -> 0 <= x < bpa q -> blk q i x ∈ free_of h' q <-> blk q i x ∈ free_of h q).
  { intros q i x Hq Hi Hx. destruct (decide (q = k)) as [->|Hne]; [|by rewrite T3]. rewrite T2, Hnil. split; [|by intros ?%not_elem_of_nil].
    intros (y & E & Hy)%elem_cut. apply (blk_inj k) in E as [? _]; try done; lia. }
  unfold live. split.
  - intros [(i0 & k0 & x0 & H1 & H2 & -> & H4 & ->)|(i0 & H1 & H2 & -> & ->)].
    + rewrite T1 in H1. case_decide as Hi0.
      * subst i0. injection H1 as <-. destruct H4. rewrite T2. apply elem_cut. exists x0. split; [done|lia].
      * left. exists i0, k0, x0. destruct (arena_owned A h i0 k0 Hh H1) as (_ & Hk0 & _). rewrite Hfr in H4 by done. by split_and!; try lia.
    + rewrite T1 in H1, H2 |- *. case_decide; [done|]. right. by exists i0.
  - intros [(i0 & k0 & x0 & H1 & H2 & -> & H4 & ->)|(i0 & H1 & H2 & -> & ->)].
    + assert (i0 <> p) by (apply Hin; left; congruence). destruct (arena_owned A h i0 k0 Hh H1) as (_ & Hk0 & _).
      left. exists i0, k0, x0. rewrite T1, decide_False by done. rewrite Hfr by done. by split_and!; try lia.
    + assert (i0 <> p) by (apply Hin; auto). right. exists i0. by rewrite T1, decide_False by done.
Qed.

(** ** Allocations do not overlap *)

(** An allocation lies in the frames of its arena. *)
Lemma live_frames A h b n : heap_pre A h -> live h b n ->
  exists i, 0 < n /\ 0 < width (slab_at h i) /\ va i <= b /\ b + n <= va (i + width (slab_at h i)) /\
    (s_desc (slab_at h i) = None -> b = va i /\ n = s_cnt (slab_at h i) * PG_SIZE).
Proof.
  intros Hh [(i & k & idx & H1 & H2 & -> & H4 & ->)|(i & H1 & H2 & -> & ->)]; exists i.
  - destruct (arena_owned A h i k Hh H1) as (_ & Hk & _). pose proof (block_inside k i idx Hk H2). destruct (block_fit k Hk) as (_ & ? & _).
    unfold width. rewrite H1. unfold va, PG_SIZE in *. split_and!; try lia. done.
  - pose proof (hk_wf _ _ Hh i) as Hw. unfold slab_wf in Hw. rewrite H1 in Hw. specialize (Hw H2). unfold width. rewrite H1, H2.
    unfold va, PG_SIZE. split_and!; try lia; try done.
Qed.

Lemma run_apart i j n m : 0 < n -> 0 < m -> run i n ## run j m -> i + n <= j \/ j + m <= i.
Proof.
  intros Hn Hm Hd. destruct (decide (i + n <= j)); [auto|]. destruct (decide (j + m <= i)); [auto|]. exfalso.
  apply (Hd (Z.max i j)); apply elem_run; lia.
Qed.

Lemma live_disjoint A h b n b' n' : heap_pre A h -> live h b n -> live h b' n' -> b <> b' -> b + n <= b' \/ b' + n' <= b.
Proof.
  intros Hh L L' Hne. destruct (live_frames A h b n Hh L) as (i & N & W & B1 & B2 & B3). destruct (live_frames A h b' n' Hh L') as (j & N' & W' & C1 & C2 & C3).
  destruct (decide (i = j)) as [->|Hij].
  - destruct (s_desc (slab_at h j)) as [k|] eqn:E; [|destruct (B3 eq_refl), (C3 eq_refl); congruence]. unfold width in *. rewrite E in *.
    assert (Hblk : forall x m, va j <= x -> x + m <= va (j + 1) -> 0 < m -> live h x m -> exists idx, 0 <= idx < bpa k /\ x = blk k j idx /\ m = bs k).
    { intros x m X1 X2 X3 [(i0 & k0 & idx & H1 & H2 & -> & _ & ->)|(i0 & H1 & H2 & -> & ->)].
      - destruct (arena_owned A h i0 k0 Hh H1) as (_ & Hk0 & _). assert (i0 = j) as ->; [|assert (k0 = k) as -> by congruence; eauto].
        pose proof (block_inside k0 i0 idx Hk0 H2). destruct (block_fit k0 Hk0) as (_ & ? & _). unfold va, PG_SIZE in *. lia.
      - assert (i0 = j) as -> by (unfold va, PG_SIZE in *; lia). congruence. }
    destruct (Hblk b n) as (x & X1 & -> & ->); try done. destruct (Hblk b' n') as (y & Y1 & -> & ->); try done.
    destruct (arena_owned A h j k Hh E) as (_ & Hk & _). destruct (block_fit k Hk) as (_ & ? & _). assert (x <> y) by congruence. unfold blk in *. nia.
  - pose proof (run_apart i j _ _ W W' (hk_disj _ _ Hh i j Hij)). unfold va, PG_SIZE in *. lia.
Qed.

(** ** Large allocations *)
Definition pages_for (size : Z) : Z := if 1024 <? size then (size + 4095) / 4096 else 1.

Lemma alloc_large_ok A h size : heap_pre A h -> 1024 < size -> size + 4095 < 2 ^ 32 -> sp_room (hp h) (pages_for size) ->
  exists p h', alloc_large h size = Ok (va p, h') /\ A ## run p (pages_for size) /\ heap_pre (A ∪ run p (pages_for size)) h' /\
    size <= pages_for size * PG_SIZE /\ (forall x, slab_at h' x = if decide (x = p) then Slab None (pages_for size) true else slab_at h x) /\
    (forall k, free_of h' k = free_of h k) /\ bytes h' = memset0 (bytes h) (va p) (pages_for size * PG_SIZE).
Proof.
  intros Hh H1 H2 Hroom. assert (Hn : pages_for size = (size + 4095) / 4096) by (unfold pages_for; by rewrite (proj2 (Z.ltb_lt _ _))).
  set (n := pages_for size) in *. assert (Hn0 : 0 < n /\ size <= n * 4096) by (pose proof (Z.div_mod (size + 4095) 4096); pose proof (Z.mod_pos_bound (size + 4095) 4096); lia).
  destruct (sp_alloc_ok (hp h) A n (hk_inv _ _ Hh)) as (p & s1 & Hal & Hinv1 & Hdj & Hsl1 & _); [lia|done|].
  assert (HpR : p ∈ run p n) by (apply elem_run; lia). assert (HpA : p ∈ A ∪ run p n) by set_solver.
  destruct (sp_set_ok s1 _ p (Slab None n true) Hinv1 HpA) as (s2 & Hset & Hinv2 & _ & Hsl2).
  pose proof (va_range _ s1 p Hinv1 HpA) as Hva. destruct (sp_bound _ _ _ Hinv1 HpA) as [Hp0 _].
  exists p, (Heap s2 (k_block_descs h) (memset0 (bytes h) (va p) (n * PG_SIZE))). set (h' := Heap _ _ _).
  assert (Hsl : forall x, slab_at h' x = if decide (x = p) then Slab None n true else slab_at h x).
  { intros x. unfold slab_at, h'. cbn [hp]. rewrite Hsl2. case_decide; [done|apply Hsl1]. }
  assert (Hout : forall k i, s_desc (slab_at h i) = Some k -> i <> p).
  { intros k i Hi ->. destruct (arena_owned A h p k Hh Hi) as (Hin & _). by apply (Hdj p). }
  split_and!; try done; [| |unfold PG_SIZE; lia].
  - unfold alloc_large. cbv zeta. rewrite u32_small by (unfold PG_SIZE; lia).
    assert (E : (size + (PG_SIZE - 1)) / PG_SIZE = n) by (rewrite Hn; reflexivity). rewrite E, Hal. ok_simpl. cbn [fst snd].
    rewrite (proj2 (Z.eqb_neq _ _)) by (unfold NULL; lia). rewrite (v2p_va _ s1 p) by done. ok_simpl. rewrite frame_of_va, Hset by done. ok_simpl.
    rewrite (direct_va _ s1 p) by done. by ok_simpl.
  - apply (pre_change A _ h h' p (Slab None n true)); try done; try apply Hh.
    + cbn. lia.
    + cbn. set_solver.
    + intros x Hx. pose proof (hk_own _ _ Hh x). cbn. set_solver.
    + intros k b Hb. destruct (hk_free _ _ Hh k b Hb) as (i & idx & -> & Hx & Hi). exists i, idx. split_and!; try done; try lia.
      rewrite Hsl, decide_False; [done|]. by apply (Hout k).
    + intros j k. rewrite Hsl. case_decide; [done|]. apply (hk_cnt _ _ Hh).
Qed.

Lemma live_large A h h' p n : heap_pre A h -> 0 < n -> A ## run p n -> (forall k, free_of h' k = free_of h k) ->
  (forall x, slab_at h' x = if decide (x = p) then Slab None n true else slab_at h x) ->
  forall b m, live h' b m <-> live h b m \/ (b = va p /\ m = n * PG_SIZE).
Proof.
  intros Hh Hn Hdj Hf Hsl b m. assert (Hp : p ∉ A) by (intros Hin; apply (Hdj p Hin), elem_run; lia).
  assert (Hin : forall i, 0 < width (slab_at h i) -> i <> p).
  { intros i Hi ->. apply Hp, (hk_own _ _ Hh p), elem_run. lia. }
  unfold live. setoid_rewrite Hf. split.
  - intros [(i0 & k0 & x0 & H1 & H2 & H3)|(i0 & H1 & H2 & -> & ->)]; rewrite !Hsl in *.
    + case_decide; [done|]. left. left. eauto 10.
    + case_decide; [subst; by right|]. left. right. eauto.
  - intros [[(i0 & k0 & x0 & H1 & H2 & H3)|(i0 & H1 & H2 & -> & ->)]|[-> ->]].
    + left. exists i0, k0, x0. rewrite Hsl, decide_False; [done|]. apply Hin. unfold width. rewrite H1. lia.
    + right. exists i0. rewrite Hsl, decide_False; [done|]. apply Hin. pose proof (hk_wf _ _ Hh i0) as Hw. unfold slab_wf, width in *. rewrite H1, H2 in *. auto.
    + right. exists p. by rewrite Hsl, decide_True.
Qed.

(** ** kmalloc *)
Lemma find_desc_spec l size : (find_desc l size <= length l)%nat /\
  (forall d, l !! find_desc l size = Some d -> size <= block_size d) /\
  (find_desc l size = length l -> forall k d, l !! k = Some d -> block_size d < size).
Proof.
  induction l as [|d l (I1 & I2 & I3)]; cbn [find_desc length]; [by split_and!|]. destruct (size <=? block_size d) eqn:E.
  - split_and!; [lia|cbn; intros e [= <-]; lia|lia].
  - split_and!; [lia|exact I2|]. intros [= E2] [|k] e; cbn; [intros [= <-]; lia|by apply I3].
Qed.

Lemma find_desc_ok l size : descs_ok l -> size <= 1024 -> (find_desc l size < DESC_TYPE_CNT)%nat /\ size <= bs (find_desc l size).
Proof.
  intros [Hl Hd] Hs. destruct (find_desc_spec l size) as (F1 & F2 & F3).
  assert (Hlt : (find_desc l size < DESC_TYPE_CNT)%nat).
  { destruct (decide (find_desc l size = length l)) as [E|]; [|lia]. destruct (lookup_lt_is_Some_2 l 6%nat) as [d E6]; [rewrite Hl; unfold DESC_TYPE_CNT; lia|].
    pose proof (F3 E 6%nat d E6). destruct (Hd 6%nat d E6) as [E7 _]. change (bs 6) with 1024 in E7. lia. }
  split; [done|]. destruct (lookup_lt_is_Some_2 l (find_desc l size)) as [d E]; [by rewrite Hl|]. destruct (Hd _ d E) as [<- _]. by apply F2.
Qed.

Lemma memset0_in m a n x : a <= x < a + n -> memset0 m a n x = 0.
Proof. intros Hx. unfold memset0. by rewrite (proj2 (Z.leb_le _ _)), (proj2 (Z.ltb_lt _ _)) by lia. Qed.

Lemma memset0_out m a n x : ~ (a <= x < a + n) -> memset0 m a n x = m x.
Proof. intros Hx. unfold memset0. destruct (a <=? x) eqn:E1, (x <? a + n) eqn:E2; cbn; try done. lia. Qed.

(** The result of an allocation. *)
Definition allocated_block (h : heap) (size b : Z) (h' : heap) : Prop :=
  exists n, size <= n /\ (forall b' n', live h' b' n' <-> live h b' n' \/ (b' = b /\ n' = n)) /\
    (forall b' n', live h b' n' -> b' + n' <= b \/ b + n <= b') /\
    (forall x, b <= x < b + n -> bytes h' x = 0) /\
    (forall b' n' x, live h b' n' -> b' <= x < b' + n' -> bytes h' x = bytes h x).

Lemma take_result A h k b l size : heap_pre A h -> (k < DESC_TYPE_CNT)%nat -> free_of h k = b :: l -> size <= bs k ->
  (forall i q, s_desc (slab_at h i) = Some q -> i <> page_of b \/ q <> k -> nfree h q i < bpa q) ->
  exists h', take_block h k = Ok (b, h') /\ heap_ok h' /\ allocated_block h size b h' /\ 0 < b.
Proof.
  intros Hh Hk Hl Hsz Hnf. destruct (take_ok A h k b l Hh Hk Hl) as (i & idx & h' & -> & Hx & Hi & Hrun & Hh' & Ht & Hby).
  destruct (arena_owned A h i k Hh Hi) as (HiA & _). pose proof (nfree_bound A h k i Hh Hk) as Hn. pose proof (block_inside k i idx Hk Hx) as Hin.
  pose proof (va_range A (hp h) i (hk_inv _ _ Hh) HiA). destruct (block_fit k Hk) as (_ & Hbs & _).
  pose proof (live_take A h h' k i idx l Hh Hi Hx Hl Ht) as Hlive. exists h'. split_and!; [done| | |lia].
  - exists A. split; [done|]. intros j q Hj. pose proof Ht as [T1 T2 T3 _]. rewrite T1 in Hj. case_decide as E.
    + subst j. injection Hj as <-. rewrite <- (hk_cnt _ _ Hh' i k) by (by rewrite T1, decide_True). rewrite T1, decide_True by done. cbn. lia.
    + assert (nfree h' q j <= nfree h q j); [|pose proof (Hnf j q Hj); rewrite page_of_blk in * by done; naive_solver lia].
      destruct (decide (q = k)) as [->|Hq]; [|rewrite (nfree_ext h); [lia|by apply T3]].
      unfold nfree. rewrite T2, Hl, in_page_cons. case_decide; cbn [length]; lia.
  - exists (bs k). rewrite Hby.
    assert (Hdj : forall b' n', live h b' n' -> b' + n' <= blk k i idx \/ blk k i idx + bs k <= b').
    { intros b' n' Hb'. apply (live_disjoint A h' b' n' (blk k i idx) (bs k) Hh'); [apply Hlive; by left|apply Hlive; by right|].
      intros ->. destruct Hb' as [(i0 & k0 & x0 & H1 & H2 & E & H4 & _)|(i0 & H1 & H2 & E & _)].
      - destruct (arena_owned A h i0 k0 Hh H1) as (_ & Hk0 & _). pose proof (page_of_blk k0 i0 x0 Hk0 H2) as E0. rewrite <- E, page_of_blk in E0 by done.
        subst i0. assert (k0 = k) as -> by congruence. apply H4. rewrite Hl. by left.
      - pose proof (page_of_blk k i idx Hk Hx) as E0. rewrite E, page_of_va in E0. congruence. }
    split_and!; [done|exact Hlive|exact Hdj|intros x Hx'; by apply memset0_in|].
    intros b' n' x Hb' Hx'. apply memset0_out. destruct (Hdj b' n' Hb'); lia.
Qed.

Lemma kmalloc_ok h size : heap_ok h -> 0 < size < sp_pool_size (hp h) -> size + 4095 < 2 ^ 32 -> sp_room (hp h) (pages_for size) ->
  exists b h', kmalloc h size = Ok (b, h') /\ 0 < b /\ heap_ok h' /\ allocated_block h size b h'.
Proof.
  intros (A & Hh & Hnf) Hsz Hlt Hroom. unfold kmalloc, do_alloc. rewrite !(proj2 (Z.ltb_lt _ _)) by lia. cbn [andb negb].
  unfold pages_for in *. destruct (1024 <? size) eqn:Ebig.
  - destruct (alloc_large_ok A h size) as (p & h' & Hrun & Hdj & Hh' & Hfit & Hsl & Hf & Hby); [done|lia|done|by unfold pages_for; rewrite Ebig|].
    unfold pages_for in *. rewrite Ebig in *. set (n := (size + 4095) / 4096) in *.
    assert (Hn : 0 < n) by (unfold PG_SIZE in Hfit; lia).
    assert (HpA : p ∈ A ∪ run p n) by (apply elem_of_union_r, elem_run; lia).
    pose proof (va_range _ (hp h') p (hk_inv _ _ Hh') HpA). pose proof (live_large A h h' p n Hh Hn Hdj Hf Hsl) as Hlive.
    exists (va p), h'. split_and!; [done|lia| |].
    + exists (A ∪ run p n). split; [done|]. intros j q. rewrite Hsl. case_decide; [done|]. rewrite (nfree_ext h) by auto. apply Hnf.
    + exists (n * PG_SIZE). rewrite Hby. assert (Hd : forall b' n', live h b' n' -> b' + n' <= va p \/ va p + n * PG_SIZE <= b').
      { intros b' n' Hb'. destruct (live_frames A h b' n' Hh Hb') as (i & _ & W & B1 & B2 & _).
        assert (run i (width (slab_at h i)) ## run p n) as Hd by (pose proof (hk_own _ _ Hh i); set_solver).
        pose proof (run_apart i p _ n W Hn Hd). unfold va, PG_SIZE in *. lia. }
      split_and!; [done|exact Hlive|exact Hd|intros x Hx; by apply memset0_in|]. intros b' n' x Hb' Hx. apply memset0_out. destruct (Hd b' n' Hb'); lia.
  - destruct (find_desc_ok (k_block_descs h) size) as [Hk Hfit]; [apply Hh|lia|]. set (k := find_desc _ _) in *.
    destruct (desc_some A h k Hh Hk) as (d & Hd & _ & _ & Hfd). rewrite Hd. ok_simpl. destruct (blocks d) as [|b l].
    + destruct (new_arena_ok A h k Hh Hk Hfd Hroom) as (p & h1 & -> & Hp & Hh1 & Ht & Hby). ok_simpl.
      destruct (block_fit k Hk) as (_ & _ & Hbpa). pose proof (live_new_arena A h h1 k p Hh Hk Hfd Hp Ht) as Hlive.
      assert (Hcut : free_of h1 k = blk k p 0 :: cut k p 1 (Z.to_nat (bpa k) - 1)).
      { rewrite (to_list _ _ _ _ _ _ Ht). replace (Z.to_nat (bpa k)) with (Datatypes.S (Z.to_nat (bpa k) - 1)) at 1 by lia. by rewrite cut_cons. }
      destruct (take_result _ h1 k _ _ size Hh1 Hk Hcut Hfit) as (h' & -> & Hok & (n & N1 & N2 & N3 & N4 & N5) & Hpos).
      * intros i q Hi Hne. rewrite (to_slab _ _ _ _ _ _ Ht) in Hi. rewrite page_of_blk in Hne by (done || lia). case_decide as E; [subst; injection Hi as <-; tauto|].
        destruct (decide (q = k)) as [->|Hq]; [|rewrite (nfree_ext h); [by apply Hnf|by apply (to_other _ _ _ _ _ _ Ht)]].
        unfold nfree. rewrite (to_list _ _ _ _ _ _ Ht), in_page_cut, decide_False by done. cbn. lia.
      * eexists _, _. split_and!; [done|done|done|]. exists n. setoid_rewrite Hlive in N2. setoid_rewrite Hlive in N3. split_and!; try done.
        intros b' n' x Hb' Hx. rewrite (N5 b' n' x) by (by rewrite ?Hlive). rewrite Hby. apply memset0_out.
        destruct (live_frames A h b' n' Hh Hb') as (i & _ & W & B1 & B2 & _). pose proof (hk_own _ _ Hh i) as Ho.
        assert (run i (width (slab_at h i)) ## run p 1) as Hd1 by (intros y Hy Hy1; apply elem_run in Hy1; assert (y = p) as -> by lia; by apply Hp, Ho).
        pose proof (run_apart i p _ 1 W ltac:(lia) Hd1). unfold va, PG_SIZE in *. lia.
    + destruct (take_result A h k b l size Hh Hk Hfd Hfit) as (h' & -> & Hok & Ha & Hpos); [intros i q Hi _; by apply Hnf|]. eauto 10.
Qed.

(** ** Giving a block back *)
Lemma in_page_app i l l' : in_page i (l ++ l') = in_page i l ++ in_page i l'.
Proof. apply filter_app. Qed.

(** The free list with the block on it. *)
Lemma push_ok A h k i idx d s' : heap_pre A h -> s_desc (slab_at h i) = Some k -> 0 <= idx < bpa k -> blk k i idx ∉ free_of h k ->
  k_block_descs h !! k = Some d -> sp_inv s' A -> sp_pool_size s' = sp_pool_size (hp h) ->
  (forall x, sp_slab s' x = if decide (x = i) then Slab (Some k) (nfree h k i + 1) false else sp_slab (hp h) x) ->
  let h' := Heap s' (<[k := set_blocks (blocks d ++ [blk k i idx]) d]> (k_block_descs h)) (bytes h) in
  heap_pre A h' /\ touched h h' k i (Slab (Some k) (nfree h k i + 1) false) (free_of h k ++ [blk k i idx]) /\
  nfree h' k i = nfree h k i + 1 /\ forall j, j <> i -> nfree h' k j = nfree h k j.
Proof.
  intros Hh Hi Hx Hnot Hd Hinv Hsz Hsl h'. destruct (arena_owned A h i k Hh Hi) as (HiA & Hk & Hsi).
  assert (Hfd : free_of h k = blocks d) by (unfold free_of; by rewrite Hd).
  assert (Ht : touched h h' k i (Slab (Some k) (nfree h k i + 1) false) (free_of h k ++ [blk k i idx])).
  { split; [exact Hsl| | |exact Hsz]; unfold h', free_of; cbn [k_block_descs].
    - rewrite list_lookup_insert_eq by (by apply lookup_lt_Some in Hd). cbn. by rewrite Hd.
    - intros j Hj. by rewrite list_lookup_insert_ne by auto. }
  pose proof Ht as [T1 T2 T3 _].
  assert (Hni : nfree h' k i = nfree h k i + 1).
  { unfold nfree. rewrite T2, in_page_app, length_app. cbn [in_page]. unfold in_page at 2. rewrite filter_cons, decide_True by (by apply page_of_blk). cbn. lia. }
  assert (Hnj : forall j, j <> i -> nfree h' k j = nfree h k j).
  { intros j Hj. unfold nfree. rewrite T2, in_page_app, length_app. unfold in_page at 2. rewrite filter_cons, decide_False; [cbn; lia|]. rewrite page_of_blk by done. auto. }
  split_and!; try done. apply (pre_change A A h h' i (Slab (Some k) (nfree h k i + 1) false)); try done.
  - apply descs_put; [apply Hh|done].
  - pose proof (hk_own _ _ Hh i) as Ho. by rewrite Hsi in Ho.
  - intros x Hxi. split; [apply (hk_own _ _ Hh)|]. pose proof (hk_disj _ _ Hh x i Hxi) as Hdj. by rewrite Hsi in Hdj.
  - intros j. destruct (decide (j = k)) as [->|Hj]; [|rewrite T3 by done; apply (hk_nodup _ _ Hh)]. rewrite T2. apply NoDup_app.
    split_and!; [apply (hk_nodup _ _ Hh)| |apply NoDup_singleton]. intros x Hx1 Hx2%list_elem_of_singleton. by subst.
  - intros j b Hb. assert (Hd' : forall x, s_desc (slab_at h' x) = s_desc (slab_at h x)) by (intros x; rewrite T1; case_decide as E; [by rewrite E, Hi|done]).
    destruct (decide (j = k)) as [->|Hj].
    + rewrite T2 in Hb. apply elem_of_app in Hb as [Hb|Hb%list_elem_of_singleton]; [|exists i, idx; by rewrite Hd'].
      destruct (hk_free _ _ Hh k b Hb) as (i0 & x0 & E & H1 & H2). exists i0, x0. by rewrite Hd'.
    + rewrite T3 in Hb by done. destruct (hk_free _ _ Hh j b Hb) as (i0 & x0 & E & H1 & H2). exists i0, x0. by rewrite Hd'.
  - apply (counts_change A h h' i k (nfree h k i + 1)); done.
Qed.

Lemma live_push A h h' k i idx c : heap_pre A h -> s_desc (slab_at h i) = Some k -> 0 <= idx < bpa k ->
  touched h h' k i (Slab (Some k) c false) (free_of h k ++ [blk k i idx]) ->
  forall b n, live h' b n <-> live h b n /\ b <> blk k i idx.
Proof.
  intros Hh Hi Hx [T1 T2 T3 _] b n. destruct (arena_owned A h i k Hh Hi) as (_ & Hk & Hsl).
  assert (Hdesc : forall x, s_desc (slab_at h' x) = s_desc (slab_at h x)) by (intros x; rewrite T1; case_decide as E; [by rewrite E, Hi|done]).
  assert (Hfree : forall j b, b ∈ free_of h' j <-> b ∈ free_of h j \/ (j = k /\ b = blk k i idx)).
  { intros j b'. destruct (decide (j = k)) as [->|Hj]; [rewrite T2, elem_of_app, list_elem_of_singleton; naive_solver|rewrite T3 by done; naive_solver]. }
  unfold live. split.
  - intros [(i0 & k0 & x0 & H1 & H2 & -> & H4 & ->)|(i0 & H1 & H2 & -> & ->)].
    + rewrite Hdesc in H1. destruct (arena_owned A h i0 k0 Hh H1) as (_ & Hk0 & _). rewrite Hfree in H4. split; [left; exists i0, k0, x0; split_and!; try done; try lia; tauto|].
      intros E. apply H4. right. split; [|done]. pose proof (page_of_blk k0 i0 x0 Hk0 H2) as E0. rewrite E, page_of_blk in E0 by done. subst i0. congruence.
    + rewrite Hdesc in H1. rewrite T1 in H2 |- *. case_decide as E; [subst; congruence|]. split; [right; by exists i0|].
      intros E2. pose proof (page_of_blk k i idx Hk Hx) as E0. by rewrite <- E2, page_of_va in E0.
  - intros [[(i0 & k0 & x0 & H1 & H2 & -> & H4 & ->)|(i0 & H1 & H2 & -> & ->)] Hne].
    + left. exists i0, k0, x0. rewrite Hdesc, Hfree. split_and!; try done; try lia. intros [?|[-> ?]]; done.
    + right. exists i0. rewrite Hdesc, T1. case_decide; [subst; congruence|]. done.
Qed.

(** ** Giving an arena back *)
Lemma free_page A h q b : heap_pre A h -> b ∈ free_of h q -> s_desc (slab_at h (page_of b)) = Some q.
Proof.
  intros Hh Hb. destruct (hk_free _ _ Hh q b Hb) as (i & x & -> & Hx & Hi). destruct (arena_owned A h i q Hh Hi) as (_ & Hq & _). by rewrite page_of_blk.
Qed.

Lemma in_page_other i j l : i <> j -> in_page j (filter (fun b => page_of b <> i) l) = in_page j l.
Proof. intros Hij. unfold in_page. rewrite list_filter_filter. apply list_filter_iff. intros x. split; [tauto|]. intros <-. auto. Qed.

Lemma clear_ok A h h' i : heap_pre A h -> sp_inv (hp h') (A ∖ run i (width (slab_at h i))) -> descs_ok (k_block_descs h') ->
  (forall x, slab_at h' x = if decide (x = i) then no_slab else slab_at h x) ->
  (forall k, free_of h' k = filter (fun b => page_of b <> i) (free_of h k)) ->
  heap_pre (A ∖ run i (width (slab_at h i))) h' /\
  (forall j k, j <> i -> nfree h' k j = nfree h k j) /\
  forall b n, live h' b n <-> live h b n /\ page_of b <> i.
Proof.
  intros Hh Hinv Hd Hsl Hf. assert (Hn : forall j k, j <> i -> nfree h' k j = nfree h k j) by (intros j k Hj; unfold nfree; by rewrite Hf, in_page_other by auto).
  split_and!; [|done|].
  - apply (pre_change A _ h h' i no_slab); try done.
    + intros x Hx. split; [|intros y _ Hy%elem_run; cbn in Hy; lia]. pose proof (hk_own _ _ Hh x). pose proof (hk_disj _ _ Hh x i Hx). set_solver.
    + intros k. rewrite Hf. apply NoDup_filter, (hk_nodup _ _ Hh).
    + intros k b Hb. rewrite Hf in Hb. apply list_elem_of_filter in Hb as [Hp Hb]. destruct (hk_free _ _ Hh k b Hb) as (j & x & -> & Hx & Hj).
      destruct (arena_owned A h j k Hh Hj) as (_ & Hk & _). rewrite page_of_blk in Hp by done. exists j, x. by rewrite Hsl, decide_False.
    + intros j k. rewrite Hsl. case_decide as Hj; [done|]. intros Hd'. rewrite Hn by done. by apply (hk_cnt _ _ Hh).
  - intros b n. unfold live. split.
    + intros [(i0 & k0 & x0 & H1 & H2 & -> & H4 & ->)|(i0 & H1 & H2 & -> & ->)]; rewrite Hsl in *; case_decide as E; try done.
      * destruct (arena_owned A h i0 k0 Hh H1) as (_ & Hk0 & _). rewrite page_of_blk by done. split; [|done]. left. exists i0, k0, x0. split_and!; try done; try lia.
        intros Hin. apply H4. rewrite Hf. apply list_elem_of_filter. by rewrite page_of_blk.
      * rewrite page_of_va. split; [|done]. right. by exists i0.
    + intros [[(i0 & k0 & x0 & H1 & H2 & -> & H4 & ->)|(i0 & H1 & H2 & -> & ->)] Hp].
      * destruct (arena_owned A h i0 k0 Hh H1) as (_ & Hk0 & _). rewrite page_of_blk in Hp by done. left. exists i0, k0, x0. rewrite Hsl, decide_False by done.
        split_and!; try done; try lia. rewrite Hf. intros [_ ?]%list_elem_of_filter. done.
      * rewrite page_of_va in Hp. right. exists i0. by rewrite Hsl, decide_False.
Qed.

(** The page table has the direct map. *)
Hypothesis direct_present : forall v, KERNEL_PAGE_OFFSET <= v < KERNEL_PAGE_OFFSET + sp_limit -> exists w, pte v = Some w /\ Z.land w 1 <> 0.

Lemma present_ok A s b i : sp_inv s A -> i ∈ A -> va i <= b < va i + PG_SIZE -> exists w, pte b = Some w /\ (Z.land w 1 =? 0) = false.
Proof.
  intros Hs Hi Hb. destruct (sp_bound _ _ _ Hs Hi). destruct (direct_present b) as (w & E & Hw); [unfold va, PG_SIZE in *; lia|].
  exists w. split; [done|]. by apply Z.eqb_neq.
Qed.

(** The arena's blocks, all free, off the list, and the page back to the allocator. *)
Lemma release_arena_ok A h i k : heap_pre A h -> s_desc (slab_at h i) = Some k -> nfree h k i = bpa k ->
  exists h1 s1 s2, uncarve (Z.to_nat (bpa k)) h i 0 k = Ok h1 /\ sp_set (hp h1) i no_slab = Ok s1 /\ sp_free s1 (va i) 1 = Ok s2 /\
    let h' := Heap s2 (k_block_descs h1) (bytes h1) in
    heap_pre (A ∖ run i 1) h' /\ (forall x, slab_at h' x = if decide (x = i) then no_slab else slab_at h x) /\
    (forall j q, j <> i -> nfree h' q j = nfree h q j) /\ bytes h1 = bytes h /\ forall b n, live h' b n <-> live h b n.
Proof.
  intros Hh Hi Hfull. destruct (arena_owned A h i k Hh Hi) as (HiA & Hk & Hsl). destruct (block_fit k Hk) as (_ & _ & Hb).
  assert (Hw : width (slab_at h i) = 1) by (unfold width; by rewrite Hi). pose proof (hk_own _ _ Hh i) as Hown. rewrite Hw in Hown.
  assert (Hcut : forall b, b ∈ cut k i 0 (Z.to_nat (bpa k)) <-> b ∈ all_blocks k i).
  { intros b. rewrite elem_cut, elem_all_blocks. rewrite Z2Nat.id by lia. setoid_rewrite Z.add_0_l. done. }
  destruct (uncarve_ok A k i (Z.to_nat (bpa k)) h 0) as (h1 & Hun & E1 & E2 & E3 & E4); try done; [apply Hh|apply Hh|lia| |].
  { intros b Hb'. apply (full_arena A h k i); try done. by apply Hcut. }
  destruct (sp_set_ok (hp h1) A i no_slab) as (s1 & Hset & Hinv1 & _ & Hsl1); [rewrite E1; apply Hh|done|].
  destruct (sp_free_ok s1 A i 1 Hinv1) as (s2 & Hfree & Hinv2 & Hsl2 & _); [lia|done|].
  exists h1, s1, s2. split_and!; try done. intros h'.
  assert (Hslab : forall x, slab_at h' x = if decide (x = i) then no_slab else slab_at h x).
  { intros x. unfold slab_at, h'. cbn [hp]. by rewrite Hsl2, Hsl1, E1. }
  destruct (clear_ok A h h' i) as (C1 & C2 & C3); try done; [by rewrite Hw| |].
  - intros q. change (free_of h' q) with (free_of h1 q). rewrite E4. case_decide as Hq.
    + subst q. rewrite <- (filter_all_elems (fun b => b ∈ free_of h k) (free_of h k)) at 2 by done. rewrite <- (filter_all_elems (fun b => b ∈ free_of h k) (free_of h k)) at 1 by done.
      rewrite !list_filter_filter. apply list_filter_iff. intros b. rewrite Hcut. split; intros [H1 H2]; (split; [|done]); intros H3; apply H1.
      * apply elem_all_blocks. destruct (hk_free _ _ Hh k b H2) as (j & x & -> & Hx & _). rewrite page_of_blk in H3 by done. subst j. eauto.
      * apply elem_all_blocks in H3 as (x & -> & Hx). by apply page_of_blk.
    + symmetry. apply filter_all_elems. intros b Hb' Hp. pose proof (free_page A h q b Hh Hb') as Hq'. rewrite Hp in Hq'. congruence.
  - rewrite Hw in C1. split_and!; try done. intros b n. rewrite C3. split; [by intros [? _]|]. intros Hl. split; [done|]. intros Hp.
    destruct Hl as [(i0 & k0 & x0 & H1 & H2 & -> & H4 & _)|(i0 & H1 & H2 & -> & _)].
    + destruct (arena_owned A h i0 k0 Hh H1) as (_ & Hk0 & _). rewrite page_of_blk in Hp by done. subst i0. assert (k0 = k) as -> by congruence.
      apply H4. apply (full_arena A h k i); try done. apply elem_all_blocks. eauto.
    + rewrite page_of_va in Hp. subst i0. congruence.
Qed.

(** ** kfree *)
Lemma kfree_small has_area A h i k idx : heap_pre A h -> (forall j q, s_desc (slab_at h j) = Some q -> nfree h q j < bpa q) ->
  s_desc (slab_at h i) = Some k -> 0 <= idx < bpa k -> blk k i idx ∉ free_of h k ->
  exists h', kfree has_area h (blk k i idx) = Ok (true, h') /\ heap_ok h' /\ bytes h' = bytes h /\
    forall b n, live h' b n <-> live h b n /\ b <> blk k i idx.
Proof.
  intros Hh Hnf Hi Hx Hnot. destruct (arena_owned A h i k Hh Hi) as (HiA & Hk & Hsl). destruct (desc_some A h k Hh Hk) as (d & Hd & Hbs & Hbpa & Hfd).
  pose proof (va_range A (hp h) i (hk_inv _ _ Hh) HiA). pose proof (block_inside k i idx Hk Hx). destruct (block_fit k Hk) as (_ & Hb1 & Hb2).
  unfold kfree, do_free. rewrite (proj2 (Z.eqb_neq _ NULL)) by (unfold NULL; lia). cbn [negb]. ok_simpl.
  rewrite (block2arena_ok A (hp h)) by (done || apply Hh). ok_simpl.
  destruct (present_ok A (hp h) (blk k i idx) i) as (w & -> & ->); [apply Hh|done|lia|].
  change (sp_slab (hp h) i) with (slab_at h i). rewrite Hsl. cbn [s_desc s_cnt s_large]. rewrite Hd. ok_simpl.
  pose proof (nfree_bound A h k i Hh Hk). rewrite u32_small by lia.
  destruct (sp_set_ok (hp h) A i (Slab (Some k) (nfree h k i + 1) false) (hk_inv _ _ Hh) HiA) as (s' & -> & Hinv & Hsz & Hsl'). ok_simpl.
  destruct (push_ok A h k i idx d s' Hh Hi Hx Hnot Hd Hinv Hsz Hsl') as (Hh1 & Ht & Hn1 & Hn2). set (h1 := Heap s' _ _) in *.
  pose proof (live_push A h h1 k i idx _ Hh Hi Hx Ht) as Hlive. pose proof Ht as [T1 T2 T3 _]. rewrite Hbpa.
  assert (Hi1 : s_desc (slab_at h1 i) = Some k) by (by rewrite T1, decide_True).
  destruct (nfree h k i + 1 =? bpa k) eqn:Efull.
  - destruct (release_arena_ok A h1 i k Hh1 Hi1) as (h2 & s1 & s2 & -> & R2 & R3 & R4 & R5 & R6 & R7 & R8); [lia|]. ok_simpl.
    change (Slab None 0 false) with no_slab. rewrite R2. ok_simpl. rewrite (direct_va A (hp h) i) by (done || apply Hh). ok_simpl. rewrite R3. ok_simpl.
    eexists. split; [done|]. split_and!; [|done|].
    + exists (A ∖ run i 1). split; [done|]. intros j q Hj. rewrite R5 in Hj. case_decide as E; [done|]. rewrite R6 by done.
      rewrite T1, decide_False in Hj by done. destruct (decide (q = k)) as [->|Hq]; [rewrite Hn2 by done|rewrite (nfree_ext h) by auto]; auto.
    + intros b n. by rewrite R8, Hlive.
  - eexists. split; [done|]. split_and!; [|done|done]. exists A. split; [done|]. intros j q Hj. rewrite T1 in Hj. case_decide as E.
    + subst j. injection Hj as <-. rewrite Hn1. pose proof (Hnf i k Hi). lia.
    + destruct (decide (q = k)) as [->|Hq]; [rewrite Hn2 by done|rewrite (nfree_ext h) by auto]; auto.
Qed.

Lemma kfree_large has_area A h i : heap_pre A h -> (forall j q, s_desc (slab_at h j) = Some q -> nfree h q j < bpa q) ->
  s_desc (slab_at h i) = None -> s_large (slab_at h i) = true ->
  exists h', kfree has_area h (va i) = Ok (true, h') /\ heap_ok h' /\ bytes h' = bytes h /\ forall b n, live h' b n <-> live h b n /\ b <> va i.
Proof.
  intros Hh Hnf Hi Hlg. pose proof (hk_wf _ _ Hh i) as Hwf. unfold slab_wf in Hwf. rewrite Hi in Hwf. specialize (Hwf Hlg).
  assert (Hw : width (slab_at h i) = s_cnt (slab_at h i)) by (unfold width; by rewrite Hi, Hlg). pose proof (hk_own _ _ Hh i) as Hown. rewrite Hw in Hown.
  assert (HiA : i ∈ A) by (apply Hown, elem_run; lia). pose proof (va_range A (hp h) i (hk_inv _ _ Hh) HiA).
  unfold kfree, do_free. rewrite (proj2 (Z.eqb_neq _ NULL)) by (unfold NULL; lia). cbn [negb]. ok_simpl.
  assert (H0k : (0 < DESC_TYPE_CNT)%nat) by (unfold DESC_TYPE_CNT; lia). destruct (block_fit 0 H0k) as (_ & _ & Hb0).
  assert (Eb : block2arena (va i) = Ok i).
  { replace (va i) with (blk 0 i 0) by (unfold blk; lia). apply (block2arena_ok A (hp h)); [apply Hh|done|done|lia]. }
  rewrite Eb. ok_simpl. destruct (present_ok A (hp h) (va i) i) as (w & -> & ->); [apply Hh|done|unfold PG_SIZE; lia|].
  change (sp_slab (hp h) i) with (slab_at h i). rewrite Hi, Hlg. rewrite (direct_va A (hp h) i) by (done || apply Hh). ok_simpl.
  destruct (sp_set_ok (hp h) A i (Slab None 0 false) (hk_inv _ _ Hh) HiA) as (s1 & -> & Hinv1 & _ & Hsl1). ok_simpl.
  destruct (sp_free_ok s1 A i (s_cnt (slab_at h i)) Hinv1) as (s2 & -> & Hinv2 & Hsl2 & _); [lia|done|]. ok_simpl.
  eexists. split; [done|]. set (h' := Heap s2 _ _).
  assert (Hslab : forall x, slab_at h' x = if decide (x = i) then no_slab else slab_at h x) by (intros x; unfold slab_at, h'; cbn [hp]; by rewrite Hsl2, Hsl1).
  destruct (clear_ok A h h' i) as (C1 & C2 & C3); try done; [by rewrite Hw|apply Hh| |].
  - intros k. symmetry. apply filter_all_elems. intros b Hb Hp. pose proof (free_page A h k b Hh Hb) as Hq. rewrite Hp in Hq. congruence.
  - split_and!; [|done|].
    + exists (A ∖ run i (width (slab_at h i))). split; [done|]. intros j q. rewrite Hslab. case_decide as E; [done|]. rewrite C2 by done. apply Hnf.
    + intros b n. rewrite C3. split; intros [Hl Hp]; (split; [done|]); intros E; apply Hp; [by rewrite E, page_of_va|].
      destruct Hl as [(i0 & k0 & x0 & H1 & H2 & -> & _)|(i0 & _ & _ & -> & _)]; [|rewrite page_of_va in E; by subst].
      destruct (arena_owned A h i0 k0 Hh H1) as (_ & Hk0 & _). rewrite page_of_blk in E by done. subst. congruence.
Qed.

(** C5. [kmalloc]: a request of 0 bytes, or of the whole pool or more, gives NULL and
    changes nothing.  Any other, while the page allocator has a run of frames that is long
    enough, gives a block of at least the size asked for that overlaps no live
    allocation, filled with zeros; it is live afterwards, the live allocations before stay
    live with their contents, and there are no others; and the heap stays well formed. *)
Theorem kmalloc_spec h size : heap_ok h -> size + 4095 < 2 ^ 32 -> sp_room (hp h) (pages_for size) ->
  if (0 <? size) && (size <? sp_pool_size (hp h))
  then exists b h', kmalloc h size = Ok (b, h') /\ 0 < b /\ heap_ok h' /\ allocated_block h size b h'
  else kmalloc h size = Ok (NULL, h).
Proof.
  intros Hh Hlt Hroom. destruct (_ && _) eqn:E; [|unfold kmalloc, do_alloc; by rewrite E].
  apply andb_true_iff in E as [E1 E2]. apply kmalloc_ok; try done; lia.
Qed.

(** C6. [kfree] of a live allocation, of a small block or of whole pages, succeeds and
    releases the pool's lock: exactly this allocation is no longer live, no byte of another
    one changes, and the heap stays well formed, which includes that an arena without
    live blocks has gone back to the page allocator. *)
Theorem kfree_spec has_area h b n : heap_ok h -> live h b n ->
  exists h', kfree has_area h b = Ok (true, h') /\ heap_ok h' /\ bytes h' = bytes h /\ forall b' n', live h' b' n' <-> live h b' n' /\ b' <> b.
Proof.
  intros (A & Hh & Hnf) [(i & k & idx & H1 & H2 & -> & H4 & ->)|(i & H1 & H2 & -> & ->)].
  - by apply (kfree_small has_area A).
  - by apply (kfree_large has_area A).
Qed.
End heap.

(** ** The page allocator implements the interface *)
Section phys_pages.
Context (limit cur : Z).
Hypothesis Hlimit : limit <= KERNEL_DIRECT_SIZE.

Definition phys_slab (m : phys) (i : Z) : slab :=
  match pages m !! i with Some p => Slab (slab_desc p) (slab_cnt p) (slab_large p) | None => no_slab end.

(** The stores to the heap's fields of [global_pages[i]] *)
Definition set_slab (m : phys) (i : Z) (v : slab) : res phys :=
  pgs ← upd_page (pages m) i (fun p => Page (flags p) (ref_count p) (order p) (s_desc v) (s_cnt v) (s_large v) (first_owner p) (first_vaddr p));
  Ok (Phys pgs (kernel_pool m) (user_pool m)).

Definition phys_inv (m : phys) (A : gset Z) : Prop :=
  exists AK AU, phys_ok m AK AU /\ end_pfn (kernel_pool m) * PG_SIZE <= limit /\ forall x, x ∈ A -> AK !! x = Some 0 /\ ref_at m x = Some 1.

(** The kernel pool has a free block of at least [n] frames. *)
Definition phys_room (m : phys) (n : Z) : Prop :=
  exists o a r, 0 <= o < MAX_ORDER /\ areas (kernel_pool m) !! Z.to_nat o = Some a /\ r ∈ free_list a /\ n <= 2 ^ o.

Lemma room_run m AK AU n : phys_ok m AK AU -> phys_room m n -> exists r o, n <= 2 ^ o /\ free_run (kernel_pool m) AK r o.
Proof.
  intros [(B & Hinv & <-) _ _] (o & a & r & Ho & Ha & Hr & Hn). exists r, o. split; [done|]. pose proof (inv_geo _ _ _ _ Hinv) as Hg.
  destruct (inv_lists _ _ _ _ Hinv) as [_ Hl]. destruct (Hl o Ho) as (a' & Ha' & Hok). assert (a' = a) as -> by congruence.
  assert (Hb : B !! r = Some (o, false)) by (by apply Hok).
  split_and!; [unfold MAX_ORDER in Ho; lia|unfold MAX_ORDER in Ho; lia|apply (geo_aln _ _ _ Hg _ _ _ Hb)|apply (geo_rng _ _ _ Hg _ _ _ Hb)|apply (geo_rng _ _ _ Hg _ _ _ Hb)|].
  intros x Hx. apply (free_not_allocated _ _ _ _ Hinv). by exists r, o.
Qed.

Lemma slab_fields_eq m m' x : slab_fields <$> pages m' !! x = slab_fields <$> pages m !! x -> phys_slab m' x = phys_slab m x.
Proof. unfold phys_slab, slab_fields. destruct (pages m' !! x), (pages m !! x); cbn; intros E; try done. by injection E as -> -> ->. Qed.

Lemma kept_pool m m' R : kernel_keeps m m' R -> end_pfn (kernel_pool m') = end_pfn (kernel_pool m) /\ pool_size (kernel_pool m') = pool_size (kernel_pool m).
Proof. intros [E _ _]. by rewrite E. Qed.

Lemma phys_bound m A i : phys_inv m A -> i ∈ A -> 0 <= i /\ (i + 1) * PG_SIZE <= limit.
Proof.
  intros (AK & AU & Hm & He & HA) Hi. destruct (HA i Hi) as [Ha _]. destruct (alloc_range _ _ _ _ _ (ph_kernel _ _ _ Hm) Ha) as (Hr & _ & Hp).
  pose proof (pfn_range _ Hp) as (Hs & _). unfold PG_SIZE in *. lia.
Qed.

Lemma phys_alloc m A n : phys_inv m A -> 0 < n -> phys_room m n ->
  exists p m', malloc_page_kernel limit m n = Ok (va p, m') /\ phys_inv m' (A ∪ run p n) /\ A ## run p n /\
    (forall x, phys_slab m' x = phys_slab m x) /\ pool_size (kernel_pool m') = pool_size (kernel_pool m).
Proof.
  intros (AK & AU & Hm & He & HA) Hn Hroom. destruct (room_run m AK AU n Hm Hroom) as (r & o & Ho & Hrun).
  destruct (malloc_page_kernel_ok limit m AK AU n r o) as (p & m1 & Hrun1 & Hm1 & Hp0 & Hpl & Hx & Hk); try done.
  exists p, m1. destruct (kept_pool _ _ _ Hk) as [E1 E2]. split_and!; [done| | |intros x; by apply slab_fields_eq, (kk_slab _ _ _ Hk)|done].
  - exists (frames p n ∪ AK), AU. split_and!; [done|by rewrite E1|]. intros x [HxA|Hxr]%elem_of_union.
    + destruct (HA x HxA) as [H1 H2]. split.
      * rewrite lookup_union, frames_lookup by lia. rewrite H1. by case_decide.
      * rewrite (kk_ref _ _ _ Hk); [done|]. intros Hxp. destruct (Hx x Hxp) as [_ Hna]. apply Hna. exists x, 0. split; [done|lia].
    + apply elem_run in Hxr. split; [|by apply Hx]. rewrite lookup_union, frames_lookup, decide_True by lia. by destruct (AK !! x).
  - intros x HxA Hxr%elem_run. destruct (HA x HxA) as [H1 _]. destruct (Hx x Hxr) as [_ Hna]. apply Hna. exists x, 0. split; [done|lia].
Qed.

Lemma phys_free m A p n : phys_inv m A -> 0 < n -> run p n ⊆ A ->
  exists m', mfree_direct (Z.to_nat n) m cur (va p) = Ok m' /\ phys_inv m' (A ∖ run p n) /\
    (forall x, phys_slab m' x = phys_slab m x) /\ pool_size (kernel_pool m') = pool_size (kernel_pool m).
Proof.
  intros Hi Hn Hsub. pose proof Hi as (AK & AU & Hm & He & HA).
  assert (Hin : forall x, p <= x < p + n -> x ∈ A) by (intros x Hx; by apply Hsub, elem_run).
  destruct (phys_bound m A p Hi) as [Hp0 _]; [apply Hin; lia|]. destruct (phys_bound m A (p + n - 1) Hi) as [_ Hpl]; [apply Hin; lia|].
  destruct (mfree_direct_ok (Z.to_nat n) m AK AU cur p Hm) as (m' & AK' & Hrun & Hm' & HAK & Hk); [intros x Hx; apply HA, Hin; lia|done|unfold PG_SIZE in *; lia|].
  rewrite Z2Nat.id in HAK, Hk by lia. destruct (kept_pool _ _ _ Hk) as [E1 E2].
  exists m'. split_and!; [done| |intros x; by apply slab_fields_eq, (kk_slab _ _ _ Hk)|done].
  exists AK', AU. split_and!; [done|by rewrite E1|]. intros x [HxA Hxr]%elem_of_difference. rewrite elem_run in Hxr.
  rewrite HAK, decide_False by done. rewrite (kk_ref _ _ _ Hk) by done. by apply HA.
Qed.

Lemma phys_set m A i v : phys_inv m A -> i ∈ A ->
  exists m', set_slab m i v = Ok m' /\ phys_inv m' A /\ pool_size (kernel_pool m') = pool_size (kernel_pool m) /\
    forall x, phys_slab m' x = if decide (x = i) then v else phys_slab m x.
Proof.
  intros (AK & AU & Hm & He & HA) Hi. destruct (HA i Hi) as [_ Hr]. unfold ref_at in Hr. destruct (pages m !! i) as [p|] eqn:Hp; [|done].
  unfold set_slab, upd_page. rewrite Hp. ok_simpl. eexists. split; [done|]. destruct Hm as [M1 M2 M3]. split_and!; [|done|].
  - exists AK, AU. split_and!; [|done|].
    + split; cbn [pages kernel_pool user_pool]; [by eapply valid_upd|by eapply valid_upd|done].
    + intros x Hx. destruct (HA x Hx) as [H1 H2]. split; [done|]. unfold ref_at in *. cbn [pages].
      destruct (decide (x = i)) as [->|]; [rewrite lookup_insert_eq; by rewrite Hp in H2|by rewrite lookup_insert_ne].
  - intros x. unfold phys_slab. cbn [pages]. case_decide as Hx; [subst; rewrite lookup_insert_eq; by destruct v|by rewrite lookup_insert_ne].
Qed.

#[local] Instance phys_pages : SlabPages phys := {
  sp_limit := limit;
  sp_pool_size := fun m => pool_size (kernel_pool m);
  sp_alloc := malloc_page_kernel limit;
  sp_free := fun m v n => mfree_direct (Z.to_nat n) m cur v;
  sp_slab := phys_slab;
  sp_set := set_slab;
  sp_inv := phys_inv;
  sp_room := phys_room;
  sp_limit_ok := Hlimit;
  sp_bound := phys_bound;
  sp_alloc_ok := phys_alloc;
  sp_free_ok := phys_free;
  sp_set_ok := phys_set;
}.

(** [mem_init]: an empty heap over the pools. *)
Lemma heap_init_ok m AK AU b : phys_ok m AK AU -> end_pfn (kernel_pool m) * PG_SIZE <= limit -> (forall i, phys_slab m i = no_slab) ->
  heap_ok (Heap m block_desc_init b) /\ forall x n, ~ live (Heap m block_desc_init b) x n.
Proof.
  intros Hm He Hs. assert (Hsl : forall i, slab_at (Heap m block_desc_init b) i = no_slab) by exact Hs.
  assert (Hfree : forall k, free_of (Heap m block_desc_init b) k = []) by (intros k; unfold free_of; cbn; by do 8 (destruct k as [|k]; [done|])).
  assert (Hrun : forall i, run i 0 = ∅) by done. split.
  - exists ∅. split; [|intros i k; by rewrite Hsl]. split.
    + exists AK, AU. by split_and!.
    + split; [done|]. intros k d. unfold block_desc_init. cbn. intros Hd. do 7 (destruct k as [|k]; [injection Hd as <-; by vm_compute|]). done.
    + intros i. by rewrite Hsl.
    + intros i. rewrite Hsl. cbn. by rewrite Hrun.
    + intros i j _. rewrite !Hsl. cbn. rewrite !Hrun. done.
    + intros k. rewrite Hfree. constructor.
    + intros k x. rewrite Hfree. by intros ?%not_elem_of_nil.
    + intros i k. by rewrite Hsl.
  - intros x n [(i & k & idx & H1 & _)|(i & _ & H2 & _)]; by rewrite Hsl in *.
Qed.
End phys_pages.

(** ** Examples *)

(** [do_free] of an address without a page returns with the pool's lock held. *)
Lemma free_keeps_lock {S} `{SlabPages S} (pte : Z -> option Z) has_area h b a : b <> NULL ->
  block2arena pte b = Ok a -> pte b = Some 0 -> has_area b = true -> kfree pte has_area h b = Ok (false, h).
Proof.
  intros Hb Ha Hp Harea. unfold kfree, do_free. rewrite (proj2 (Z.eqb_neq _ _) Hb). cbn [negb]. ok_simpl. rewrite Ha. ok_simpl. rewrite Hp. cbn. by rewrite Harea.
Qed.

(** An empty heap on a pool of five frames. *)
Lemma ex_limit : 65536 <= KERNEL_DIRECT_SIZE.
Proof. vm_compute. congruence. Qed.

Definition ex_pages : SlabPages phys := phys_pages 65536 0 ex_limit.
#[local] Existing Instance ex_pages.
Definition ex_pte (v : Z) : option Z := Some 3.
Definition ex_heap : heap := Heap ex_phys block_desc_init (fun _ => 255).

Lemma ex_heap_ok : heap_ok ex_heap /\ forall x n, ~ live ex_heap x n.
Proof.
  apply (heap_init_ok 65536 0 ex_limit ex_phys ∅ ∅); [exact ex_phys_ok|vm_compute; congruence|].
  intros i. unfold phys_slab. destruct (pages ex_phys !! i) as [p|] eqn:E; [|done].
  assert (Hall : map_Forall (fun _ p => Slab (slab_desc p) (slab_cnt p) (slab_large p) = no_slab) (pages ex_phys)).
  { apply (bool_decide_unpack _). vm_compute. exact I. }
  exact (Hall i p E).
Qed.

Lemma ex_phys_room : phys_room ex_phys 1.
Proof. exists 2, (FreeArea [4] 1), 4. split_and!; try done. left. Qed.

Lemma kmalloc_spec_witness : exists b h', kmalloc ex_pte ex_heap 20 = Ok (b, h') /\ heap_ok h' /\ allocated_block ex_heap 20 b h'.
Proof.
  pose proof (kmalloc_spec ex_pte ex_heap 20 (proj1 ex_heap_ok) ltac:(lia) ex_phys_room) as H.
  change ((0 <? 20) && _) with true in H. destruct H as (b & h' & H1 & _ & H2 & H3). eauto.
Defined.

Lemma kfree_spec_witness : exists b h1 h2, kmalloc ex_pte ex_heap 20 = Ok (b, h1) /\ kfree ex_pte (fun _ => false) h1 b = Ok (true, h2) /\
  heap_ok h2 /\ forall b' n', ~ live h2 b' n'.
Proof.
  destruct (kmalloc_ok ex_pte ex_heap 20 (proj1 ex_heap_ok)) as (b & h1 & H1 & _ & Hok & (n & _ & Hl & _)); [vm_compute; split; congruence|lia|exact ex_phys_room|].
  assert (Hd : forall v, KERNEL_PAGE_OFFSET <= v < KERNEL_PAGE_OFFSET + sp_limit -> exists w, ex_pte v = Some w /\ Z.land w 1 <> 0)
    by (intros v _; exists 3; split; [reflexivity|discriminate]).
  destruct (kfree_spec ex_pte Hd (fun _ => false) h1 b n Hok (proj2 (Hl b n) (or_intror (conj eq_refl eq_refl)))) as (h2 & H2 & Hok2 & _ & Hl2).
  exists b, h1, h2. split; [exact H1|]. split; [exact H2|]. split; [exact Hok2|].
  intros b' n' HL. destruct (proj1 (Hl2 b' n') HL) as [HL1 Hne]. destruct (proj1 (Hl b' n') HL1) as [HL0|[E _]]; [exact (proj2 ex_heap_ok b' n' HL0)|exact (Hne E)].
Defined.
