(* ===== verification/Paging.v ===== *)
(** * mm/memory.c, mm/swap.c: page tables, sharing and copy-on-write

    The page tables of all processes are one map from (process, page address) to
    the page table entry; the two-level layout and the frames of the tables
    themselves are not represented.  Together with the frames of [PageAlloc] and
    the contents of the frames this is the state on which the page fault
    handlers, [fork] and the release of pages work.  The handlers run with
    interrupts off, so each is one step. *)

From S2P Require Import Prelude DList ListView BuddyGeo Buddy PageAlloc Vma.

Definition PG_P_1 : Z := 1.
Definition PG_RW_W : Z := 2.
Definition PG_US_U : Z := 4.

Definition present (pte : Z) : bool := Z.testbit pte 0.
Definition writable (pte : Z) : bool := Z.testbit pte 1.
(** [ADDR_TO_PAGE(global_pages, pte & 0xfffff000)] *)
Definition frame (pte : Z) : Z := Z.shiftr pte 12.

Section paging.
(** The contents of a page. *)
Context {D : Type}.

Record vm := Vm {
  pt : gmap (Z * Z) Z;
  mem : phys;
  data : gmap Z D;
}.

Definition pte_at (v : vm) (pid va : Z) : Z := default 0 (pt v !! (pid, va)).

Definition set_user_pool (up : buddy_pool) (m : phys) : phys := Phys (pages m) (kernel_pool m) up.

Definition activate (bp : buddy_pool) (i : Z) : buddy_pool :=
  BuddyPool (areas bp) (phy_addr_start bp) (pool_size bp) (null_index bp) (activate_list bp ++ [i]).

(** ** Mapping a fresh page *)

(** [page_table_add] of a user address whose page table exists *)
Definition page_table_add (v : vm) (pid va paddr : Z) : res vm :=
  _ ← assert_ (negb (present (pte_at v pid va)));
  Ok (Vm (<[(pid, va) := Z.lor paddr (PG_P_1 + PG_RW_W + PG_US_U)]> (pt v)) (mem v) (data v)).

(** [mapping_v2p] for the running task [pid] *)
Definition mapping_v2p (v : vm) (pid va paddr : Z) : res vm :=
  if (va =? NULL) || (paddr =? NULL) then Panic else
  v ← page_table_add v pid va paddr;
  let i := Z.shiftr paddr 12 in
  pgs ← upd_page (pages (mem v)) i (fun p => set_ref 1 (set_owner pid va p));
  let up := user_pool (mem v) in
  _ ← assert_ (negb (bool_decide (i ∈ activate_list up)));
  Ok (Vm (pt v) (Phys pgs (kernel_pool (mem v)) (activate up i)) (data v)).

(** [swap_page] for a page that is mapped by the area [area] and neither present
    nor swapped out: allocate, map and fill it.  [fill] reads the file; [None] when
    no frame is free (the handler then swaps a page out and tries again). *)
Definition demand_page (fill : contents -> D) (v : vm) (pid va : Z) (area : vm_area) : res (option vm) :=
  '(paddr, pgs, up) ← palloc (pages (mem v)) (user_pool (mem v));
  if paddr =? NULL then Ok None else
  v ← mapping_v2p (Vm (pt v) (Phys pgs (kernel_pool (mem v)) up) (data v)) pid va paddr;
  Ok (Some (Vm (pt v) (mem v) (<[Z.shiftr paddr 12 := fill (fault_contents area va)]> (data v)))).

(** ** Copy-on-write *)
Definition do_copy_on_write (v : vm) (cur va old_pa : Z) : res vm :=
  '(new_pa, pgs, up) ← palloc (pages (mem v)) (user_pool (mem v));
  if new_pa =? NULL then Panic else
  let j := Z.shiftr new_pa 12 in
  d ← deref (data v !! Z.shiftr old_pa 12);
  let pt' := <[(cur, va) := Z.lor new_pa (PG_P_1 + PG_RW_W + PG_US_U)]> (pt v) in
  pgs ← upd_page pgs j (set_owner cur va);
  m ← pfree (Phys pgs (kernel_pool (mem v)) up) cur old_pa;
  Ok (Vm pt' m (<[j := d]> (data v))).

Inductive fault_result :=
  | Resumed (v : vm)
  | SegFault.

(** [write_protect] at the page [va] of the task [cur]; [area] is [find_vma]'s answer. *)
Definition write_protect (v : vm) (cur va : Z) (area : option vm_area) : res fault_result :=
  if KERNEL_PAGE_OFFSET <=? va then Panic else
  match area with
  | None => Panic
  | Some a =>
      if Z.land (vma_flags a) VM_WRITE =? 0 then Ok SegFault else
      let pte := pte_at v cur va in
      let i := frame pte in
      p ← deref (pages (mem v) !! i);
      if 1 <? ref_count p then v ← do_copy_on_write v cur va (i * 2 ^ 12); Ok (Resumed v)
      else if ref_count p =? 1 then
        let up := user_pool (mem v) in
        let up := if bool_decide (i ∈ activate_list up) then up else activate up i in
        Ok (Resumed (Vm (<[(cur, va) := Z.lor pte PG_RW_W]> (pt v))
              (Phys (<[i := set_owner cur va p]> (pages (mem v))) (kernel_pool (mem v)) up) (data v)))
      else Panic
  end.

(** ** [copy_page_tables]: fork shares every present page read-only *)
Definition USER_PDE_NR : Z := 768.
Definition USER_PTE_NR : Z := 1024.
Definition user_pages : list Z := (fun i => i * PG_SIZE) <$> seqZ 0 (USER_PDE_NR * USER_PTE_NR).

Fixpoint copy_ptes (vas : list Z) (v : vm) (from to : Z) : res vm :=
  match vas with
  | [] => Ok v
  | va :: vas =>
      let pte := pte_at v from va in
      if present pte then
        pgs ← upd_page (pages (mem v)) (frame pte) (fun p => set_ref (u32 (ref_count p + 1)) p);
        let pte' := Z.ldiff pte PG_RW_W in
        copy_ptes vas (Vm (<[(to, va) := pte']> (<[(from, va) := pte']> (pt v)))
                         (Phys pgs (kernel_pool (mem v)) (user_pool (mem v))) (data v)) from to
      else copy_ptes vas v from to
  end.

Definition copy_page_tables (v : vm) (from to : Z) : res vm := copy_ptes user_pages v from to.

(** ** Releasing pages: the page-table branch of [mfree_physical_pages] *)
Fixpoint mfree_physical_pages (n : nat) (v : vm) (cur va : Z) : res vm :=
  match n with
  | O => Ok v
  | S n =>
      let pte := pte_at v cur va in
      if present pte then
        m ← pfree (mem v) cur (frame pte * 2 ^ 12);
        mfree_physical_pages n (Vm (delete (cur, va) (pt v)) m (data v)) cur (u32 (va + PG_SIZE))
      else mfree_physical_pages n v cur (u32 (va + PG_SIZE))
  end.

(** ** What a process sees *)
Definition view (v : vm) (pid va : Z) : option D :=
  let pte := pte_at v pid va in
  if present pte then data v !! frame pte else None.

(** A store of the process to a page it may write. *)
Definition user_write (v : vm) (pid va : Z) (d : D) : option vm :=
  let pte := pte_at v pid va in
  if present pte && writable pte then Some (Vm (pt v) (mem v) (<[frame pte := d]> (data v))) else None.

(** ** How often a frame is mapped *)
Definition maps (pte x : Z) : Prop := present pte = true /\ frame pte = x.

#[global] Instance maps_dec pte x : Decision (maps pte x).
Proof. unfold maps. apply _. Defined.

Definition mappers (t : gmap (Z * Z) Z) (x : Z) : Z :=
  Z.of_nat (size (filter (fun kv : Z * Z * Z => maps kv.2 x) t)).

Definition hit (pte x : Z) : Z := if decide (maps pte x) then 1 else 0.

Lemma mappers_nonneg t x : 0 <= mappers t x.
Proof. unfold mappers. lia. Qed.

Lemma mappers_delete t k pte x : t !! k = Some pte -> mappers t x = mappers (delete k t) x + hit pte x.
Proof.
  intros Hk. unfold mappers, hit.
  rewrite <- (insert_id t k pte Hk) at 1. rewrite <- insert_delete_eq.
  case_decide as Hm.
  - rewrite map_filter_insert_True by done. rewrite map_size_insert_None; [lia|].
    rewrite map_lookup_filter_None. left. apply lookup_delete_eq.
  - rewrite map_filter_insert_False by done. rewrite delete_delete_eq. lia.
Qed.

Lemma mappers_delete_None t k x : t !! k = None -> mappers (delete k t) x = mappers t x.
Proof. intros Hk. by rewrite delete_id. Qed.

Lemma mappers_insert t k pte x : mappers (<[k := pte]> t) x = mappers (delete k t) x + hit pte x.
Proof.
  rewrite (mappers_delete (<[k := pte]> t) k pte x) by apply lookup_insert_eq.
  by rewrite delete_insert_eq.
Qed.

Lemma mappers_pos t k pte : t !! k = Some pte -> present pte = true -> 0 < mappers t (frame pte).
Proof.
  intros Hk Hp. rewrite (mappers_delete t k pte) by done. unfold hit.
  rewrite decide_True by done. pose proof (mappers_nonneg (delete k t) (frame pte)). lia.
Qed.

(** Only one entry maps a frame. *)
Lemma mappers_unique t k k' pte pte' :
  mappers t (frame pte) = 1 -> t !! k = Some pte -> present pte = true ->
  t !! k' = Some pte' -> present pte' = true -> frame pte' = frame pte -> k' = k.
Proof.
  intros H1 Hk Hp Hk' Hp' Hf. destruct (decide (k' = k)) as [|Hne]; [done|].
  rewrite (mappers_delete t k pte) in H1 by done.
  rewrite (mappers_delete (delete k t) k' pte') in H1 by (by rewrite lookup_delete_ne by done).
  unfold hit in H1. rewrite !decide_True in H1 by done.
  pose proof (mappers_nonneg (delete k' (delete k t)) (frame pte)). lia.
Qed.

(** ** The invariant: reference counts are the numbers of mappings, and a page that
    can be written is mapped once *)
Record vm_ok (v : vm) (AK AU : gmap Z Z) : Prop := {
  vo_phys : phys_ok (mem v) AK AU;
  vo_low : 0 < start_pfn (user_pool (mem v));
  vo_refs : forall k pte, pt v !! k = Some pte -> present pte = true ->
    AU !! frame pte = Some 0 /\ ref_at (mem v) (frame pte) = Some (mappers (pt v) (frame pte)) /\
    mappers (pt v) (frame pte) < 2 ^ 32 - 1;
  vo_write : forall k pte, pt v !! k = Some pte -> present pte = true -> writable pte = true ->
    mappers (pt v) (frame pte) = 1;
  vo_act : forall x, x ∈ activate_list (user_pool (mem v)) -> is_Some (AU !! x);
}.

Lemma pte_at_Some v pid va : present (pte_at v pid va) = true -> pt v !! (pid, va) = Some (pte_at v pid va).
Proof. unfold pte_at. by destruct (pt v !! (pid, va)). Qed.

Lemma frame_lor x f : 0 <= x -> 0 <= f < 2 ^ 12 -> frame (Z.lor (x * 2 ^ 12) f) = x.
Proof.
  intros Hx Hf. unfold frame. rewrite Z.shiftr_lor, !Z.shiftr_div_pow2, Z.div_mul by lia.
  rewrite (Z.div_small f) by lia. apply Z.lor_0_r.
Qed.

Lemma low_bit_shift x n : 0 <= n < 12 -> Z.testbit (x * 2 ^ 12) n = false.
Proof. intros Hn. apply Z.mul_pow2_bits_low. lia. Qed.

Lemma fresh_pte x : 0 <= x ->
  let pte := Z.lor (x * 2 ^ 12) (PG_P_1 + PG_RW_W + PG_US_U) in
  present pte = true /\ writable pte = true /\ frame pte = x.
Proof.
  intros Hx pte. unfold pte, present, writable. rewrite !Z.lor_spec. cbn.
  rewrite !orb_true_r. split_and!; [done|done|]. by apply frame_lor.
Qed.

Lemma frame_ldiff pte : frame (Z.ldiff pte PG_RW_W) = frame pte.
Proof.
  unfold frame. rewrite Z.shiftr_ldiff. change (Z.shiftr PG_RW_W 12) with 0. apply Z.ldiff_0_r.
Qed.

Lemma present_ldiff pte : present (Z.ldiff pte PG_RW_W) = present pte.
Proof. unfold present. rewrite Z.ldiff_spec. cbn. by rewrite andb_true_r. Qed.

Lemma writable_ldiff pte : writable (Z.ldiff pte PG_RW_W) = false.
Proof. unfold writable. rewrite Z.ldiff_spec. cbn. by rewrite andb_false_r. Qed.

Lemma grant_pte pte : present (Z.lor pte PG_RW_W) = present pte /\
  writable (Z.lor pte PG_RW_W) = true /\ frame (Z.lor pte PG_RW_W) = frame pte.
Proof.
  unfold present, writable, frame. rewrite !Z.lor_spec, Z.shiftr_lor.
  change (Z.shiftr PG_RW_W 12) with 0. rewrite Z.lor_0_r. cbn.
  by rewrite orb_false_r, orb_true_r.
Qed.

Lemma hit_same pte pte' x : present pte' = present pte -> frame pte' = frame pte -> hit pte' x = hit pte x.
Proof. intros Hp Hf. unfold hit. apply decide_ext. unfold maps. by rewrite Hp, Hf. Qed.

(** Changing an entry without changing the frame it maps. *)
Lemma mappers_same t k pte pte' x :
  t !! k = Some pte -> present pte' = present pte -> frame pte' = frame pte ->
  mappers (<[k := pte']> t) x = mappers t x.
Proof.
  intros Hk Hp Hf. rewrite mappers_insert, (mappers_delete t k pte) by done. by rewrite (hit_same pte pte').
Qed.

(** ** Allocation from the user pool *)
Lemma palloc_user_ok m AK AU :
  phys_ok m AK AU -> 0 < start_pfn (user_pool m) ->
  palloc (pages m) (user_pool m) = Ok (NULL, pages m, user_pool m) \/
  exists x pgs up, palloc (pages m) (user_pool m) = Ok (x * 2 ^ 12, pgs, up) /\ 0 < x /\
    x * 2 ^ 12 < 2 ^ 32 /\ AU !! x = None /\ phys_ok (Phys pgs (kernel_pool m) up) AK (<[x := 0]> AU) /\
    start_pfn up = start_pfn (user_pool m) /\ activate_list up = activate_list (user_pool m) /\
    (exists p, pgs !! x = Some p /\ ref_count p = 1) /\
    forall y, y <> x -> ref_count <$> pgs !! y = ref_at m y.
Proof.
  intros [Hk (B & Hinv & <-) Hs] Hlow. unfold palloc.
  destruct (palloc_pages_inv (pages m) (user_pool m) B 0 Hinv) as
    [[-> _]|(x & k & pgs & up & B' & -> & HBx & Hkk & Hinv' & Hkeep & HBx' & Hal)];
    [unfold MAX_ORDER; lia|by left|]. ok_simpl. right.
  pose proof (geo_rng _ _ _ (inv_geo _ _ _ _ Hinv') _ _ _ HBx') as Hrng.
  destruct (keeps_pool_eq _ _ _ _ Hkeep) as [Hs' He'].
  destruct (proj1 (inv_pages _ _ _ _ Hinv') x) as [p Hp]; [lia|].
  destruct (addr_in_pool up (inv_pool _ _ _ _ Hinv') x) as [Haddr _]; [lia|].
  pose proof (pfn_range _ (inv_pool _ _ _ _ Hinv')) as (_ & _ & Hend & _).
  unfold upd_page. rewrite Hp. ok_simpl. rewrite Haddr.
  exists x, (<[x := set_ref 1 p]> pgs), up. split_and!; [done|lia|lia| | |done| | |].
  - apply eq_None_not_Some. intros [j Hj%alloc_of_lookup]. congruence.
  - assert (Hv : valid pgs up (<[x := 0]> (alloc_of B))) by (by exists B').
    split; cbn [pages kernel_pool user_pool]; [|by eapply valid_upd|lia].
    eapply valid_frame; [exact Hk|]. intros y Hy. rewrite lookup_insert_ne by lia.
    apply (keep_out _ _ _ _ Hkeep). lia.
  - by rewrite (keep_pool _ _ _ _ Hkeep).
  - exists (set_ref 1 p). by rewrite lookup_insert_eq.
  - intros y Hy. rewrite lookup_insert_ne by done. by apply (keeps_ref _ _ _ _ y Hkeep).
Qed.

(** A frame no entry maps: a new mapping of it leaves the invariant of the others. *)
Lemma unmapped v AK AU x : vm_ok v AK AU -> AU !! x = None -> mappers (pt v) x = 0.
Proof.
  intros [_ _ Hr _ _] Hx. destruct (decide (mappers (pt v) x = 0)) as [|Hne]; [done|].
  unfold mappers in Hne.
  destruct (map_choose (filter (fun kv : Z * Z * Z => maps kv.2 x) (pt v))) as (k & pte & Hk).
  { intros He. rewrite He, map_size_empty in Hne. lia. }
  apply map_lookup_filter_Some in Hk as [Hk [Hp Hf]]. cbn in Hp, Hf. subst x.
  destruct (Hr k pte Hk Hp) as (Ha & _). congruence.
Qed.

(** Frames whose allocation and count are what they were keep their part of the
    invariant. *)
Lemma vm_ok_change v AK AU v' AU' :
  vm_ok v AK AU -> phys_ok (mem v') AK AU' -> start_pfn (user_pool (mem v')) = start_pfn (user_pool (mem v)) ->
  (forall k pte, pt v' !! k = Some pte -> present pte = true ->
     AU' !! frame pte = Some 0 /\ ref_at (mem v') (frame pte) = Some (mappers (pt v') (frame pte)) /\
     mappers (pt v') (frame pte) < 2 ^ 32 - 1 /\
     (writable pte = true -> mappers (pt v') (frame pte) = 1)) ->
  (forall x, x ∈ activate_list (user_pool (mem v')) -> is_Some (AU' !! x)) ->
  vm_ok v' AK AU'.
Proof.
  intros [Hp Hl Hr Hw _] Hp' Hl' H Hact. split; [done|by rewrite Hl'| | |done].
  - intros k pte Hk Hpr. destruct (H k pte Hk Hpr) as (? & ? & ? & _). done.
  - intros k pte Hk Hpr. destruct (H k pte Hk Hpr) as (_ & _ & _ & ?). done.
Qed.

Lemma valid_activate pgs bp A i : valid pgs bp A -> valid pgs (activate bp i) A.
Proof. intros (B & [[? ? ? ?] ? ? ? ?] & HA). exists B. split; [|done]. by split; [split|..]. Qed.

(** ** Writing to a page: the two ways [write_protect] resolves a fault *)
Lemma grant_write_ok v AK AU cur va pte p up :
  vm_ok v AK AU -> pt v !! (cur, va) = Some pte -> present pte = true -> pages (mem v) !! frame pte = Some p -> ref_count p = 1 ->
  (up = user_pool (mem v) \/ up = activate (user_pool (mem v)) (frame pte)) ->
  let v' := Vm (<[(cur, va) := Z.lor pte PG_RW_W]> (pt v))
    (Phys (<[frame pte := set_owner cur va p]> (pages (mem v))) (kernel_pool (mem v)) up) (data v) in
  vm_ok v' AK AU /\ forall q a, view v' q a = view v q a.
Proof.
  intros Hv Hk Hpr Hp Hr Hup v'.
  destruct (grant_pte pte) as (Hgp & Hgw & Hgf).
  assert (Hm : forall x, mappers (pt v') x = mappers (pt v) x) by (intros x; by apply (mappers_same _ _ pte)).
  assert (Href : forall x, ref_at (mem v') x = ref_at (mem v) x).
  { intros x. unfold ref_at. cbn. destruct (decide (x = frame pte)) as [->|].
    - rewrite lookup_insert_eq, Hp. done.
    - by rewrite lookup_insert_ne. }
  pose proof (vo_refs _ _ _ Hv _ _ Hk Hpr) as (_ & Hrk & _).
  unfold ref_at in Hrk. rewrite Hp in Hrk. cbn in Hrk. injection Hrk as Hrk. rewrite Hr in Hrk.
  split.
  - eapply (vm_ok_change v AK AU v' AU Hv).
    + destruct (vo_phys _ _ _ Hv) as [H1 H2 H3].
      assert (H2' : valid (pages (mem v)) up AU /\ start_pfn up = start_pfn (user_pool (mem v)))
        by (destruct Hup as [-> | ->]; auto using valid_activate). destruct H2' as [H2' Hs].
      split; cbn [pages kernel_pool user_pool mem v']; [by eapply valid_upd|by eapply valid_upd|lia].
    + cbn. by destruct Hup as [-> | ->].
    + intros k q Hkq Hq. rewrite Href, Hm. cbn in Hkq. destruct (decide (k = (cur, va))) as [->|Hne].
      * rewrite lookup_insert_eq in Hkq. injection Hkq as <-. rewrite Hgf.
        destruct (vo_refs _ _ _ Hv _ _ Hk Hpr) as (? & ? & ?). done.
      * rewrite lookup_insert_ne in Hkq by done.
        destruct (vo_refs _ _ _ Hv _ _ Hkq Hq) as (? & ? & ?). split_and!; [done..|].
        by apply (vo_write _ _ _ Hv k).
    + cbn. intros x Hx. destruct Hup as [-> | ->]; [by apply (vo_act _ _ _ Hv)|]. cbn in Hx.
      apply elem_of_app in Hx as [Hx | ->%list_elem_of_singleton]; [by apply (vo_act _ _ _ Hv)|].
      destruct (vo_refs _ _ _ Hv _ _ Hk Hpr) as (-> & _). by eexists.
  - intros q a. unfold view, pte_at, v'. cbn [pt data].
    destruct (decide ((q, a) = (cur, va))) as [E|Hne]; [|by rewrite lookup_insert_ne].
    injection E as -> ->. rewrite lookup_insert_eq, Hk. cbn [default from_option id].
    by rewrite Hgp, Hgf.
Qed.

Lemma cow_mappers v AK AU k pte x y :
  vm_ok v AK AU -> pt v !! k = Some pte -> present pte = true -> AU !! x = None -> 0 <= x ->
  mappers (<[k := Z.lor (x * 2 ^ 12) (PG_P_1 + PG_RW_W + PG_US_U)]> (pt v)) y =
    if decide (y = x) then 1 else mappers (pt v) y - (if decide (y = frame pte) then 1 else 0).
Proof.
  intros Hv Hk Hp Hx H0. destruct (fresh_pte x H0) as (Hp' & _ & Hf').
  rewrite mappers_insert. pose proof (mappers_delete (pt v) k pte y Hk) as Hd.
  assert (Hne : frame pte <> x). { destruct (vo_refs _ _ _ Hv _ _ Hk Hp) as (? & _). congruence. }
  assert (H1 : hit (Z.lor (x * 2 ^ 12) (PG_P_1 + PG_RW_W + PG_US_U)) y = if decide (y = x) then 1 else 0).
  { unfold hit. apply decide_ext. unfold maps. rewrite Hp', Hf'. intuition. }
  assert (H2 : hit pte y = if decide (y = frame pte) then 1 else 0).
  { unfold hit. apply decide_ext. unfold maps. rewrite Hp. intuition. }
  rewrite H1. rewrite H2 in Hd. pose proof (unmapped v AK AU x Hv Hx).
  repeat case_decide; subst; try congruence; lia.
Qed.

Lemma do_cow_ok v AK AU cur va pte d :
  vm_ok v AK AU -> pt v !! (cur, va) = Some pte -> present pte = true -> 1 < mappers (pt v) (frame pte) ->
  data v !! frame pte = Some d ->
  (forall pgs up, palloc (pages (mem v)) (user_pool (mem v)) <> Ok (NULL, pgs, up)) ->
  exists v' AU', do_copy_on_write v cur va (frame pte * 2 ^ 12) = Ok v' /\ vm_ok v' AK AU' /\
    (forall q a, view v' q a = view v q a) /\
    present (pte_at v' cur va) = true /\ writable (pte_at v' cur va) = true.
Proof.
  intros Hv Hk Hpr Hm Hd Hfree.
  pose proof (vo_refs _ _ _ Hv _ _ Hk Hpr) as (HA & Href & Hmax).
  unfold do_copy_on_write.
  destruct (palloc_user_ok (mem v) AK AU (vo_phys _ _ _ Hv) (vo_low _ _ _ Hv)) as
    [Hn|(x & pgs & up & -> & Hx0 & Hx32 & HAx & Hph & Hst & Hal & (p & Hp & Hp1) & Hoth)];
    [by destruct (Hfree _ _ Hn)|]. ok_simpl.
  rewrite (proj2 (Z.eqb_neq _ _)) by (unfold NULL; lia).
  assert (Hne : frame pte <> x) by congruence.
  destruct (alloc_range _ _ _ _ _ (ph_user _ _ _ (vo_phys _ _ _ Hv)) HA) as (Hrng & _ & _).
  pose proof (vo_low _ _ _ Hv) as Hlow.
  rewrite !shiftr_frame by lia. rewrite Hd. ok_simpl. unfold upd_page. rewrite Hp. ok_simpl.
  set (m1 := Phys (<[x := set_owner cur va p]> pgs) (kernel_pool (mem v)) up).
  assert (Hm1 : phys_ok m1 AK (<[x := 0]> AU)).
  { destruct Hph as [H1 H2 H3]. split; [by eapply valid_upd|by eapply valid_upd|done]. }
  assert (Hr1 : forall y, ref_at m1 y = if decide (y = x) then Some 1 else ref_at (mem v) y).
  { intros y. unfold ref_at at 1. cbn. case_decide as Hy.
    - subst. rewrite lookup_insert_eq. cbn. by rewrite Hp1.
    - rewrite lookup_insert_ne by done. by apply Hoth. }
  assert (Hold : exists po, pages m1 !! frame pte = Some po /\ ref_count po = mappers (pt v) (frame pte)).
  { pose proof (Hr1 (frame pte)) as Ho. rewrite decide_False, Href in Ho by done. unfold ref_at in Ho.
    destruct (pages m1 !! frame pte) as [po|]; [|done]. cbn in Ho. exists po. split; [done|congruence]. }
  destruct Hold as (po & Hpo & Hpor).
  destruct (pfree_user_ok m1 AK (<[x := 0]> AU) cur (frame pte) po Hm1) as
    (m2 & -> & Hm2 & Hr2 & Hr2' & _ & Hs2 & Hact2); [by rewrite lookup_insert_ne|done|lia|]. ok_simpl.
  rewrite Hpor in Hm2, Hr2. rewrite (proj2 (Z.eqb_neq _ _)) in Hm2 by lia. cbn [drop_if] in Hm2.
  destruct (fresh_pte x) as (Hfp & Hfw & Hff); [lia|].
  set (pte' := Z.lor (x * 2 ^ 12) (PG_P_1 + PG_RW_W + PG_US_U)) in *.
  assert (Hmx : forall k' q, pt v !! k' = Some q -> present q = true -> frame q <> x).
  { intros k' q Hk' Hq. destruct (vo_refs _ _ _ Hv _ _ Hk' Hq) as (? & _). congruence. }
  eexists _, _. split; [done|]. split; [|split].
  - eapply (vm_ok_change v AK AU); [done|exact Hm2| | |].
    + cbn [mem]. rewrite Hs2. exact Hst.
    + intros k' q Hk' Hq. cbn [pt] in *.
      rewrite (cow_mappers v AK AU _ pte x _ Hv Hk Hpr HAx) by lia.
      destruct (decide (k' = (cur, va))) as [->|Hnk].
      * rewrite lookup_insert_eq in Hk'. injection Hk' as <-. rewrite Hff, decide_True by done.
        split_and!; [by rewrite lookup_insert_eq| |lia|done].
        cbn [mem]. rewrite Hr2' by done. by rewrite Hr1, decide_True.
      * rewrite lookup_insert_ne in Hk' by done. pose proof (Hmx k' q Hk' Hq) as Hqx.
        destruct (vo_refs _ _ _ Hv _ _ Hk' Hq) as (HqA & Hqr & Hqm).
        rewrite decide_False by done. split_and!.
        -- by rewrite lookup_insert_ne.
        -- cbn [mem]. case_decide as Hqf.
           ++ by rewrite Hqf, Hr2.
           ++ rewrite Hr2' by done. rewrite Hr1, decide_False, Hqr by done. f_equal. lia.
        -- case_decide; lia.
        -- intros Hw. pose proof (vo_write _ _ _ Hv _ _ Hk' Hq Hw). case_decide as Hqf; [|lia].
           rewrite Hqf in *. lia.
    + cbn [mem]. intros y Hy. apply Hact2 in Hy. cbn in Hy. rewrite Hal in Hy.
      rewrite lookup_insert_is_Some'. right. by apply (vo_act _ _ _ Hv).
  - intros q a. unfold view, pte_at. cbn [pt data].
    destruct (decide ((q, a) = (cur, va))) as [E|Hnk].
    + injection E as -> ->. rewrite lookup_insert_eq, Hk. cbn [default from_option id].
      by rewrite Hfp, Hff, Hpr, lookup_insert_eq.
    + rewrite lookup_insert_ne by done. destruct (pt v !! (q, a)) as [r|] eqn:Hr; [|done].
      cbn [default from_option id]. destruct (present r) eqn:Hrp; [|done].
      rewrite lookup_insert_ne; [done|]. pose proof (Hmx _ _ Hr Hrp). congruence.
  - unfold pte_at. cbn [pt]. by rewrite lookup_insert_eq.
Qed.

(** A store through a writable entry is seen through that entry only. *)
Lemma user_write_ok v AK AU pid va d :
  vm_ok v AK AU -> present (pte_at v pid va) = true -> writable (pte_at v pid va) = true ->
  exists v', user_write v pid va d = Some v' /\ vm_ok v' AK AU /\
    forall q a, view v' q a = if decide ((q, a) = (pid, va)) then Some d else view v q a.
Proof.
  intros Hv Hp Hw. pose proof (pte_at_Some _ _ _ Hp) as Hk. unfold user_write. rewrite Hp, Hw.
  eexists. split; [done|]. split; [by destruct Hv|]. intros q a. unfold view, pte_at at 1 2.
  cbn [pt data]. fold (pte_at v q a). case_decide as E.
  - injection E as -> ->. by rewrite Hp, lookup_insert_eq.
  - destruct (present (pte_at v q a)) eqn:Hq; [|done]. rewrite lookup_insert_ne; [done|].
    intros Hf. apply E. eapply (mappers_unique (pt v)); [|exact Hk|done|by apply pte_at_Some|done|done].
    by apply (vo_write _ _ _ Hv (pid, va)).
Qed.

(** C1. Copy-on-write: a write fault on a present page of a writable area is
    resolved (while a frame is free) without changing what any process sees on any
    page, the faulting page becomes writable, and the store that follows is seen at
    that page of that process and nowhere else, whoever shared the frame. *)
Theorem cow_isolation v AK AU cur va area d d' :
  vm_ok v AK AU -> 0 <= va < KERNEL_PAGE_OFFSET -> present (pte_at v cur va) = true ->
  Z.land (vma_flags area) VM_WRITE <> 0 -> view v cur va = Some d ->
  (forall pgs up, palloc (pages (mem v)) (user_pool (mem v)) <> Ok (NULL, pgs, up)) ->
  exists v1 v2 AU', write_protect v cur va (Some area) = Ok (Resumed v1) /\
    vm_ok v1 AK AU' /\ (forall q a, view v1 q a = view v q a) /\
    user_write v1 cur va d' = Some v2 /\ vm_ok v2 AK AU' /\
    forall q a, view v2 q a = if decide ((q, a) = (cur, va)) then Some d' else view v q a.
Proof.
  intros Hv Hva Hp Hw Hd Hfree. pose proof (pte_at_Some _ _ _ Hp) as Hk.
  set (pte := pte_at v cur va) in *.
  assert (Hstep : exists v1 AU', write_protect v cur va (Some area) = Ok (Resumed v1) /\
    vm_ok v1 AK AU' /\ (forall q a, view v1 q a = view v q a) /\
    present (pte_at v1 cur va) = true /\ writable (pte_at v1 cur va) = true).
  { unfold write_protect. rewrite (proj2 (Z.leb_gt _ _)) by lia.
    rewrite (proj2 (Z.eqb_neq _ _)) by done. fold pte.
    pose proof (vo_refs _ _ _ Hv _ _ Hk Hp) as (HA & Href & _). unfold ref_at in Href.
    destruct (pages (mem v) !! frame pte) as [p|] eqn:Hpg; [|done]. injection Href as Href. ok_simpl.
    pose proof (mappers_pos _ _ _ Hk Hp) as Hpos. rewrite Href.
    destruct (Z.ltb_spec 1 (mappers (pt v) (frame pte))) as [H1|H1].
    - unfold view in Hd. fold pte in Hd. rewrite Hp in Hd.
      destruct (do_cow_ok v AK AU cur va pte d Hv Hk Hp H1 Hd Hfree) as (v1 & AU' & -> & H2 & H3 & H4).
      ok_simpl. by exists v1, AU'.
    - rewrite (proj2 (Z.eqb_eq _ 1)) by lia.
      destruct (grant_write_ok v AK AU cur va pte p
        (if bool_decide (frame pte ∈ activate_list (user_pool (mem v))) then user_pool (mem v)
         else activate (user_pool (mem v)) (frame pte)) Hv Hk Hp Hpg) as [H2 H3];
        [lia|case_bool_decide; auto|].
      eexists _, AU. split; [done|]. split; [exact H2|]. split; [exact H3|].
      destruct (grant_pte pte) as (Hgp & Hgw & _).
      unfold pte_at. cbn [pt]. rewrite lookup_insert_eq. cbn [default from_option id]. by rewrite Hgp. }
  destruct Hstep as (v1 & AU' & Hrun & Hv1 & Hsame & Hp1 & Hw1).
  destruct (user_write_ok v1 AK AU' cur va d' Hv1 Hp1 Hw1) as (v2 & Hwr & Hv2 & Hview).
  exists v1, v2, AU'. split_and!; [done|done|done|done|done|].
  intros q a. rewrite Hview. case_decide; [done|apply Hsame].
Qed.

(** ** fork *)
Lemma share_mappers t from to va pte x :
  from <> to -> t !! (from, va) = Some pte -> present pte = true -> t !! (to, va) = None ->
  mappers (<[(to, va) := Z.ldiff pte PG_RW_W]> (<[(from, va) := Z.ldiff pte PG_RW_W]> t)) x =
    mappers t x + (if decide (x = frame pte) then 1 else 0).
Proof.
  intros Hne Hk Hp Hto. rewrite mappers_insert, mappers_delete_None
    by (rewrite lookup_insert_ne by congruence; done).
  rewrite (mappers_same t (from, va) pte) by (done || apply present_ldiff || apply frame_ldiff).
  f_equal. unfold hit. apply decide_ext. unfold maps. rewrite present_ldiff, frame_ldiff, Hp. intuition.
Qed.

Lemma share_step v AK AU from to va pte :
  vm_ok v AK AU -> from <> to -> pt v !! (from, va) = Some pte -> present pte = true ->
  pt v !! (to, va) = None -> mappers (pt v) (frame pte) + 1 < 2 ^ 32 - 1 ->
  exists pgs, upd_page (pages (mem v)) (frame pte) (fun p => set_ref (u32 (ref_count p + 1)) p) = Ok pgs /\
    let v' := Vm (<[(to, va) := Z.ldiff pte PG_RW_W]> (<[(from, va) := Z.ldiff pte PG_RW_W]> (pt v)))
                (Phys pgs (kernel_pool (mem v)) (user_pool (mem v))) (data v) in
    vm_ok v' AK AU /\ forall q a, view v' q a = if decide ((q, a) = (to, va)) then view v from va else view v q a.
Proof.
  intros Hv Hne Hk Hp Hto Hmax. pose proof (vo_refs _ _ _ Hv _ _ Hk Hp) as (HA & Href & _).
  unfold ref_at in Href. destruct (pages (mem v) !! frame pte) as [p|] eqn:Hpg; [|done].
  injection Href as Href. pose proof (mappers_pos _ _ _ Hk Hp) as Hpos.
  unfold upd_page. rewrite Hpg. ok_simpl. rewrite u32_small by lia.
  eexists. split; [done|]. set (pte' := Z.ldiff pte PG_RW_W).
  pose proof (share_mappers (pt v) from to va pte) as Hm. fold pte' in Hm.
  assert (Hkt : (to, va) <> (from, va)) by congruence.
  assert (Hlook : forall k q, <[(to, va) := pte']> (<[(from, va) := pte']> (pt v)) !! k = Some q ->
    q = pte' \/ k <> (to, va) /\ k <> (from, va) /\ pt v !! k = Some q).
  { intros k q. destruct (decide (k = (to, va))) as [->|Hk1]; [rewrite lookup_insert_eq; naive_solver|].
    rewrite lookup_insert_ne by done.
    destruct (decide (k = (from, va))) as [->|Hk2]; [rewrite lookup_insert_eq; naive_solver|].
    rewrite lookup_insert_ne by done. auto. }
  split.
  - eapply (vm_ok_change v AK AU); [done| |done| |by apply (vo_act _ _ _ Hv)].
    + destruct (vo_phys _ _ _ Hv) as [H1 H2 H3]. cbn [mem].
      split; [by eapply valid_upd|by eapply valid_upd|done].
    + intros k q Hkq Hq. cbn [pt mem] in *. rewrite !Hm by done. unfold ref_at. cbn [pages].
      destruct (Hlook k q Hkq) as [->|(Hk1 & Hk2 & Hk3)].
      * rewrite (frame_ldiff pte : frame pte' = frame pte). rewrite lookup_insert_eq, decide_True by done.
        split_and!; [done|cbn; f_equal; lia|lia|]. unfold pte'. by rewrite writable_ldiff.
      * destruct (vo_refs _ _ _ Hv _ _ Hk3 Hq) as (HqA & Hqr & Hqm). split; [done|].
        case_decide as Hf.
        -- rewrite Hf, lookup_insert_eq. split_and!; [cbn; f_equal; lia|lia|]. intros Hw.
           destruct Hk2. symmetry. apply (mappers_unique (pt v) k (from, va) q pte); try done.
           by apply (vo_write _ _ _ Hv k).
        -- rewrite lookup_insert_ne by done. split_and!; [by rewrite Z.add_0_r|lia|].
           intros Hw. rewrite Z.add_0_r. by apply (vo_write _ _ _ Hv k).
  - intros q a. unfold view, pte_at. cbn [pt data]. rewrite Hk. cbn [default from_option id]. rewrite Hp.
    destruct (decide ((q, a) = (to, va))) as [->|Hn1].
    + rewrite lookup_insert_eq. cbn [default from_option id]. unfold pte'.
      by rewrite present_ldiff, Hp, frame_ldiff.
    + rewrite lookup_insert_ne by done. destruct (decide ((q, a) = (from, va))) as [->|Hn2].
      * rewrite lookup_insert_eq, Hk. cbn [default from_option id]. unfold pte'.
        by rewrite present_ldiff, Hp, frame_ldiff.
      * by rewrite lookup_insert_ne.
Qed.

Lemma copy_ptes_ok vas v AK AU from to :
  vm_ok v AK AU -> from <> to -> NoDup vas -> (forall a, a ∈ vas -> pt v !! (to, a) = None) ->
  (forall x, mappers (pt v) x + Z.of_nat (length vas) < 2 ^ 32 - 1) ->
  exists v', copy_ptes vas v from to = Ok v' /\ vm_ok v' AK AU /\
    forall q a, view v' q a = if decide (q = to /\ a ∈ vas) then view v from a else view v q a.
Proof.
  revert v. induction vas as [|va vas IH]; intros v Hv Hne Hnd Hto Hmax.
  - exists v. split_and!; [done|done|]. intros q a. rewrite decide_False; [done|].
    intros [_ Ha]. by apply not_elem_of_nil in Ha.
  - apply NoDup_cons in Hnd as [Hva Hnd]. cbn [copy_ptes length] in *.
    assert (Htov : pt v !! (to, va) = None) by (apply Hto; left).
    destruct (present (pte_at v from va)) eqn:Hp.
    + pose proof (pte_at_Some _ _ _ Hp) as Hk. set (pte := pte_at v from va) in *.
      destruct (share_step v AK AU from to va pte) as (pgs & -> & Hv1 & Hview1); try done.
      { specialize (Hmax (frame pte)). lia. }
      ok_simpl. edestruct IH as (v' & Hrun & Hv' & Hview'); [exact Hv1|done|done| | |].
      * intros a Ha. cbn [pt]. rewrite !lookup_insert_ne by congruence. apply Hto. by right.
      * intros x. cbn [pt]. rewrite share_mappers by done. specialize (Hmax x). case_decide; lia.
      * exists v'. split_and!; [exact Hrun|done|]. intros q a. rewrite Hview'.
        pose proof (Hview1 from a) as Hf. rewrite decide_False in Hf by congruence.
        destruct (decide (q = to /\ a ∈ va :: vas)) as [[-> Ha]|Hn].
        -- apply elem_of_cons in Ha as [->|Ha].
           ++ rewrite decide_False by tauto. rewrite Hview1. by rewrite decide_True.
           ++ rewrite decide_True by done. exact Hf.
        -- rewrite decide_False by set_solver. rewrite Hview1, decide_False; [done|]. intros E.
           apply Hn. injection E as -> ->. split; [done|left].
    + destruct (IH v) as (v' & Hrun & Hv' & Hview'); [done|done|done| | |].
      * intros a Ha. apply Hto. by right.
      * intros x. specialize (Hmax x). lia.
      * exists v'. split_and!; [done|done|]. intros q a. rewrite Hview'.
        destruct (decide (a = va)) as [->|Hna].
        -- rewrite decide_False by tauto. case_decide as Hq; [|done]. destruct Hq as [-> _].
           transitivity (@None D); [unfold view, pte_at; by rewrite Htov|unfold view; by rewrite Hp].
        -- apply decide_ext. set_solver.
Qed.

Lemma user_pages_NoDup : NoDup user_pages.
Proof. apply NoDup_fmap_2_strong; [|apply NoDup_seqZ]. intros x y _ _ Hxy. unfold PG_SIZE in Hxy. lia. Qed.

Lemma elem_of_user_pages a :
  a ∈ user_pages <-> exists i, a = i * PG_SIZE /\ 0 <= i < USER_PDE_NR * USER_PTE_NR.
Proof. unfold user_pages. rewrite list_elem_of_fmap. by setoid_rewrite elem_of_seqZ. Qed.


Lemma copy_ptes_absent vas v from to va v' :
  copy_ptes vas v from to = Ok v' -> present (pte_at v from va) = false -> from <> to ->
  pt v' !! (to, va) = pt v !! (to, va).
Proof.
  revert v. induction vas as [|a vas IH]; intros v Hrun Hp Hne;
    cbn [copy_ptes] in Hrun; [by injection Hrun as ->|].
  destruct (present (pte_at v from a)) eqn:Ha; [|by apply IH].
  apply bind_ok in Hrun as (pgs & _ & Hrun).
  assert (a <> va) by congruence. apply IH in Hrun; [|unfold pte_at in *; cbn [pt]|done].
  - rewrite Hrun. cbn [pt]. by rewrite !lookup_insert_ne by congruence.
  - by rewrite !lookup_insert_ne by congruence.
Qed.

(** [fork] loses pages that are swapped out: a page of the parent whose entry
    holds a swap slot (present bit clear, entry not zero) has no entry in the child,
    so the child's first access gets a fresh page instead of the saved contents. *)
Lemma fork_drops_swapped_pages v from to va v' :
  copy_page_tables v from to = Ok v' -> from <> to -> pt v !! (to, va) = None ->
  pte_at v from va <> 0 -> present (pte_at v from va) = false ->
  pte_at v' to va = 0.
Proof.
  unfold copy_page_tables. generalize user_pages. intros vas Hrun Hne Hto _ Hp. unfold pte_at at 1.
  by rewrite (copy_ptes_absent vas v from to va v' Hrun Hp Hne), Hto.
Qed.

(** ** Demand paging *)
Lemma map_fresh_mappers v pid va x y :
  present (pte_at v pid va) = false -> 0 <= x ->
  mappers (<[(pid, va) := Z.lor (x * 2 ^ 12) (PG_P_1 + PG_RW_W + PG_US_U)]> (pt v)) y =
    mappers (pt v) y + (if decide (y = x) then 1 else 0).
Proof.
  intros Hp Hx. destruct (fresh_pte x Hx) as (Hp' & _ & Hf'). rewrite mappers_insert. f_equal.
  - unfold pte_at in Hp. destruct (pt v !! (pid, va)) as [pte|] eqn:Hk; [|by apply mappers_delete_None].
    rewrite (mappers_delete (pt v) (pid, va) pte y Hk). unfold hit.
    rewrite decide_False; [lia|]. intros [Hm _]. change (present pte = false) in Hp. congruence.
  - unfold hit. apply decide_ext. unfold maps. rewrite Hp', Hf'. intuition.
Qed.


(** ** Releasing a range of pages *)
Definition pages_from (va : Z) (n : nat) : list Z := (fun i => va + i * PG_SIZE) <$> seqZ 0 (Z.of_nat n).

Lemma pages_from_S va n : pages_from va (S n) = va :: pages_from (va + PG_SIZE) n.
Proof.
  unfold pages_from. rewrite seqZ_cons by lia. cbn [fmap list_fmap].
  replace (va + 0 * PG_SIZE) with va by lia. apply (f_equal (cons va)).
  replace (Z.pred (Z.of_nat (S n))) with (Z.of_nat n) by lia.
  change (Z.succ 0) with (0 + 1). rewrite <- (fmap_add_seqZ 1 0), <- list_fmap_compose.
  apply list_fmap_ext. intros i x _. cbn. lia.
Qed.

Lemma drop_mapping_ok v AK AU cur va pte :
  vm_ok v AK AU -> pt v !! (cur, va) = Some pte -> present pte = true ->
  exists m AU', pfree (mem v) cur (frame pte * 2 ^ 12) = Ok m /\
    vm_ok (Vm (delete (cur, va) (pt v)) m (data v)) AK AU'.
Proof.
  intros Hv Hk Hp. pose proof (vo_refs _ _ _ Hv _ _ Hk Hp) as (HA & Href & Hmax).
  pose proof (mappers_pos _ _ _ Hk Hp) as Hpos. unfold ref_at in Href.
  destruct (pages (mem v) !! frame pte) as [p|] eqn:Hpg; [|done]. injection Href as Href.
  destruct (pfree_user_ok (mem v) AK AU cur (frame pte) p (vo_phys _ _ _ Hv) HA Hpg)
    as (m & Hrun & Hm & Hr & Hr' & Hact & Hst & Hsub); [lia|].
  eexists m, _. split; [done|]. eapply (vm_ok_change v AK AU); [done|exact Hm|exact Hst| |].
  - intros k q Hkq Hq. cbn [pt mem] in *.
    destruct (decide (k = (cur, va))) as [->|Hne]; [by rewrite lookup_delete_eq in Hkq|].
    pose proof (mappers_pos _ _ _ Hkq Hq) as Hpos'.
    rewrite lookup_delete_ne in Hkq by done.
    destruct (vo_refs _ _ _ Hv _ _ Hkq Hq) as (HqA & Hqr & Hqm).
    pose proof (mappers_delete (pt v) (cur, va) pte (frame q) Hk) as Hd. unfold hit in Hd.
    destruct (decide (maps pte (frame q))) as [[_ Hf]|Hf].
    + rewrite <- Hf in *. rewrite Href, (proj2 (Z.eqb_neq _ _)) by lia. cbn [drop_if].
      split_and!; [done|rewrite Hr; f_equal; lia|lia|]. intros Hw.
      pose proof (vo_write _ _ _ Hv _ _ Hkq Hq Hw) as H1. rewrite <- Hf in H1. lia.
    + assert (Hf' : frame q <> frame pte) by (intros E; apply Hf; split; [done|by rewrite E]).
      rewrite Hr' by done. split_and!; [|rewrite Hqr; f_equal; lia|lia|].
      * unfold drop_if. destruct (_ =? _); [by rewrite lookup_delete_ne|done].
      * intros Hw. pose proof (vo_write _ _ _ Hv _ _ Hkq Hq Hw). lia.
  - cbn [mem]. intros y Hy. pose proof (vo_act _ _ _ Hv y (Hsub y Hy)) as Hs. unfold drop_if.
    destruct (Z.eqb_spec (ref_count p) 1); [|done].
    assert (y <> frame pte) by (intros ->; by apply Hact). by rewrite lookup_delete_ne.
Qed.

Lemma delete_view v m cur va q a :
  view (Vm (delete (cur, va) (pt v)) m (data v)) q a =
    if decide (q = cur /\ a = va) then None else view v q a.
Proof.
  unfold view, pte_at. cbn [pt data]. case_decide as E.
  - destruct E as [-> ->]. by rewrite lookup_delete_eq.
  - by rewrite lookup_delete_ne by naive_solver.
Qed.

(** Releasing the pages of a range: the process's pages in the range are
    unmapped, every other page of every process keeps its contents, and a frame goes
    back to its pool exactly when its last mapping went (the invariant: counts are
    mappings, mapped frames are allocated). *)
Lemma mfree_physical_pages_spec n v AK AU cur va :
  vm_ok v AK AU -> 0 <= va -> va + Z.of_nat n * PG_SIZE < 2 ^ 32 ->
  exists v' AU', mfree_physical_pages n v cur va = Ok v' /\ vm_ok v' AK AU' /\
    forall q a, view v' q a =
      if decide (q = cur /\ a ∈ pages_from va n) then None else view v q a.
Proof.
  revert v AU va. induction n as [|n IH]; intros v AU va Hv H0 Hlim.
  - exists v, AU. split_and!; [done|done|]. intros q a. rewrite decide_False; [done|].
    intros [_ Ha]. by apply not_elem_of_nil in Ha.
  - cbn [mfree_physical_pages]. unfold PG_SIZE in Hlim. rewrite pages_from_S.
    rewrite u32_small by (unfold PG_SIZE; lia).
    destruct (present (pte_at v cur va)) eqn:Hp.
    + pose proof (pte_at_Some _ _ _ Hp) as Hk.
      destruct (drop_mapping_ok v AK AU cur va _ Hv Hk Hp) as (m & AU1 & -> & Hv1). ok_simpl.
      destruct (IH _ AU1 (va + PG_SIZE) Hv1) as (v' & AU' & -> & Hv' & Hview);
        [unfold PG_SIZE; lia|unfold PG_SIZE; lia|].
      exists v', AU'. split_and!; [done|done|]. intros q a. rewrite Hview, delete_view.
      repeat case_decide; try done; exfalso; set_unfold; naive_solver.
    + destruct (IH v AU (va + PG_SIZE) Hv) as (v' & AU' & -> & Hv' & Hview);
        [unfold PG_SIZE; lia|unfold PG_SIZE; lia|].
      exists v', AU'. split_and!; [done|done|]. intros q a. rewrite Hview.
      assert (Hn : view v cur va = None) by (unfold view; by rewrite Hp).
      case_decide as H1; case_decide as H2; try done; [exfalso; set_unfold; naive_solver|].
      destruct H2 as [-> [->|Ha]%elem_of_cons]; [done|]. exfalso. auto.
Qed.

End paging.

(** ** Witnesses: one page of process 1, then shared with process 2 *)
Definition ex_va : Z := 0x8048000.

Definition ex_vm0 : vm (D := Z) := Vm ∅ ex_phys ∅.

Definition ex_vm1 : vm (D := Z) :=
  match palloc (pages ex_phys) (user_pool ex_phys) with
  | Ok (pa, pgs, up) =>
      Vm {[ (1, ex_va) := Z.lor pa 7 ]} (Phys pgs (kernel_pool ex_phys) up) {[ Z.shiftr pa 12 := 42 ]}
  | _ => ex_vm0
  end.

Definition ex_vm2 : vm (D := Z) :=
  match copy_ptes [ex_va] ex_vm1 1 2 with Ok v => v | _ => ex_vm0 end.

Lemma ex_phys_active : activate_list (user_pool ex_phys) = [].
Proof. vm_compute. reflexivity. Qed.

Lemma ex_vm0_ok : vm_ok ex_vm0 ∅ ∅.
Proof.
  split; [exact ex_phys_ok|by vm_compute|..].
  - intros k pte Hk. cbn in Hk. by rewrite lookup_empty in Hk.
  - intros k pte Hk. cbn in Hk. by rewrite lookup_empty in Hk.
  - intros x Hx. cbn [mem ex_vm0] in Hx. rewrite ex_phys_active in Hx. destruct (not_elem_of_nil _ Hx).
Qed.

Lemma ex_vm1_ok : exists x, vm_ok ex_vm1 ∅ {[ x := 0 ]}.
Proof.
  unfold ex_vm1.
  destruct (palloc_user_ok ex_phys ∅ ∅ ex_phys_ok) as
    [Hn|(x & pgs & up & -> & Hx0 & _ & _ & Hph & Hst & Hal & (p & Hpg & Hp1) & _)];
    [by vm_compute|exfalso; vm_compute in Hn; discriminate|].
  rewrite shiftr_frame by lia. destruct (fresh_pte x) as (Hfp & _ & Hff); [lia|].
  change (PG_P_1 + PG_RW_W + PG_US_U) with 7 in *.
  assert (Hm : mappers {[ (1, ex_va) := Z.lor (x * 2 ^ 12) 7 ]} x = 1).
  { rewrite <- insert_empty, mappers_insert, delete_empty. unfold hit.
    rewrite decide_True by done. reflexivity. }
  exists x. split; cbn [pt mem data pages user_pool].
  - by rewrite <- insert_empty.
  - rewrite Hst. by vm_compute.
  - intros k pte [<- <-]%lookup_singleton_Some _. rewrite Hff, Hm. unfold ref_at. cbn [pages].
    rewrite Hpg. cbn. rewrite Hp1. split_and!; [apply lookup_singleton_eq|done|lia].
  - intros k pte [<- <-]%lookup_singleton_Some _ _. by rewrite Hff.
  - intros y Hy. rewrite Hal, ex_phys_active in Hy. destruct (not_elem_of_nil _ Hy).
Qed.

Lemma ex_vm1_pt : exists pte, pt ex_vm1 = {[ (1, ex_va) := pte ]}.
Proof. eexists. vm_compute. reflexivity. Qed.

Lemma ex_vm1_mappers x : 0 <= mappers (pt ex_vm1) x <= 1.
Proof.
  destruct ex_vm1_pt as [pte ->]. rewrite <- insert_empty, mappers_insert, delete_empty.
  change (mappers ∅ x) with 0. unfold hit. case_decide; lia.
Qed.

Lemma ex_vm2_ok : exists x, vm_ok ex_vm2 ∅ {[ x := 0 ]}.
Proof.
  destruct ex_vm1_ok as [x Hv]. exists x.
  destruct (copy_ptes_ok [ex_va] ex_vm1 ∅ {[ x := 0 ]} 1 2) as (v' & Hrun & Hv' & _);
    [done|done|apply NoDup_singleton| | |].
  - intros a _. destruct ex_vm1_pt as [pte ->]. by rewrite lookup_singleton_ne.
  - intros y. pose proof (ex_vm1_mappers y). cbn. lia.
  - unfold ex_vm2. by rewrite Hrun.
Qed.

Lemma cow_isolation_witness :
  exists v1 v2, write_protect ex_vm2 1 ex_va (Some (Vma 0x8048000 0x8049000 VM_WRITE 0 0 None)) =
      Ok (Resumed v1) /\ user_write v1 1 ex_va 43 = Some v2 /\
    view v2 1 ex_va = Some 43 /\ view v2 2 ex_va = Some 42.
Proof.
  destruct ex_vm2_ok as [x Hv].
  destruct (cow_isolation ex_vm2 ∅ {[ x := 0 ]} 1 ex_va (Vma 0x8048000 0x8049000 VM_WRITE 0 0 None) 42 43)
    as (v1 & v2 & AU' & Hrun & _ & _ & Hw & _ & Hview);
    [exact Hv|vm_compute; intuition congruence|by vm_compute|by vm_compute|by vm_compute| |].
  - intros pgs up Hn. vm_compute in Hn. discriminate.
  - exists v1, v2. split; [exact Hrun|]. split; [exact Hw|]. rewrite !Hview. split; [reflexivity|by vm_compute].
Defined.


(** Process 1 has a page in swap slot 5 of device 1. *)
Definition ex_swapped : vm (D := Z) := Vm {[ (1, ex_va) := 0x5002 ]} ex_phys ∅.

Lemma copy_ptes_none vas (v : vm (D := Z)) from to :
  (forall a, present (pte_at v from a) = false) -> copy_ptes vas v from to = Ok v.
Proof. intros Hp. induction vas as [|a vas IH]; [done|]. cbn [copy_ptes]. by rewrite Hp. Qed.

Lemma fork_drops_swapped_pages_witness :
  copy_page_tables ex_swapped 1 2 = Ok ex_swapped /\ pte_at ex_swapped 1 ex_va = 0x5002 /\
  pte_at ex_swapped 2 ex_va = 0.
Proof.
  assert (Hrun : copy_page_tables ex_swapped 1 2 = Ok ex_swapped).
  { unfold copy_page_tables. generalize user_pages. intros vas. apply copy_ptes_none. intros a.
    unfold pte_at, ex_swapped. cbn [pt]. destruct (decide (a = ex_va)) as [->|Hne].
    - by rewrite lookup_singleton_eq.
    - by rewrite lookup_singleton_ne by congruence. }
  split; [exact Hrun|]. split; [reflexivity|].
  apply (fork_drops_swapped_pages ex_swapped 1 2 ex_va ex_swapped Hrun); by vm_compute.
Defined.

