(* ===== verification/Mmap.v ===== *)
(** * mm/memory.c: the address-space system calls

    [sys_brk], [do_mmap] with its two entry points, and [sys_munmap], on top of the
    area list ([Vma]) and the page tables ([Paging]).  Each is one step on the
    process's area list, its heap limit, the page tables and the inode references:
    [sys_brk] runs under the process's [mm_lock], the other two have no lock of
    their own, so the steps describe a process whose other threads do not change
    its address space meanwhile. *)

From S2P Require Import Prelude DList ListView Hashtable InodeCache Vma BuddyGeo Buddy PageAlloc Paging.

Definition PROT_READ : Z := 0x1.
Definition PROT_WRITE : Z := 0x2.
Definition PROT_EXEC : Z := 0x4.
Definition MAP_PRIVATE : Z := 0x02.
Definition MAP_ANON : Z := 0x20.
Definition MAP_FAILED : Z := 0xffffffff.
Definition EINVAL : Z := 22.

Definition PAGE_ALIGN_UP (x : Z) : Z := Z.land (u32 (x + PG_SIZE - 1)) 0xfffff000.

(** The fields of [struct mm_struct] these calls use. *)
Record mm_struct := Mm {
  vma_list : vlist;
  end_data : Z;
  brk : Z;
}.

Definition set_vmas (l : vlist) (t : mm_struct) : mm_struct := Mm l (end_data t) (brk t).
Definition set_brk (b : Z) (t : mm_struct) : mm_struct := Mm (vma_list t) (end_data t) b.

Definition has (flags f : Z) : bool := negb (Z.land flags f =? 0).

Definition prot_to_vm_flags (prot flags : Z) (anon : bool) : Z :=
  let f := 0 in
  let f := if has prot PROT_READ then Z.lor f VM_READ else f in
  let f := if has prot PROT_WRITE then Z.lor f VM_WRITE else f in
  let f := if has prot PROT_EXEC then Z.lor f VM_EXEC else f in
  let f := if has flags MAP_PRIVATE then f else Z.lor f VM_SHARED in
  if anon then Z.lor f VM_ANON else f.

Definition HEAP_FLAGS : Z := VM_READ + VM_WRITE + VM_GROWSUP + VM_ANON.

Definition is_heap (t : mm_struct) (v : vm_area) : bool :=
  (vma_start v =? end_data t) && bool_decide (vma_inode v = None) && (vma_flags v =? HEAP_FLAGS).

Definition find_heap_vma (t : mm_struct) : option (nat * (Z * vm_area)) :=
  list_find (fun n => Is_true (is_heap t n.2)) (vma_list t).

Definition find_covering_or_next_vma (l : vlist) (vaddr : Z) : option (Z * vm_area) :=
  List.find (fun n => vaddr <? vma_end n.2) l.

(** A store to a field of the node at address [p]. *)
Definition upd_vma (l : vlist) (p : Z) (f : vm_area -> vm_area) : vlist :=
  (fun n => if n.1 =? p then (p, f n.2) else n) <$> l.

Section calls.
Context {S D : Type} `{InodeRefs S}.

(** The state of a call: the caller's address space, page tables and frames, inodes. *)
Record world := World { tmm : mm_struct; tvm : vm (D := D); ino : S }.

(** ** [sys_brk] of the task [cur] *)
Definition sys_brk (w : world) (cur new_brk : Z) : res (Z * world) :=
  let t := tmm w in
  let ret t v := Ok (brk t, World t v (ino w)) in
  if (new_brk =? 0) || (new_brk <? end_data t) || (USER_STACK_BASE <=? new_brk) then ret t (tvm w) else
  match find_heap_vma t with
  | None => Panic
  | Some (i, (p, heap)) =>
      let old_aligned := PAGE_ALIGN_UP (brk t) in
      let new_aligned := PAGE_ALIGN_UP new_brk in
      if (new_aligned <? new_brk) || (USER_STACK_BASE <=? new_aligned) then ret t (tvm w)
      else if new_brk <? brk t then
        if new_aligned <? old_aligned then
          v ← mfree_physical_pages (Z.to_nat ((old_aligned - new_aligned) / PG_SIZE)) (tvm w) cur new_aligned;
          ret (Mm (upd_vma (vma_list t) p (set_end new_aligned)) (end_data t) new_brk) v
        else ret (set_brk new_brk t) (tvm w)
      else if new_aligned <=? old_aligned then ret (set_brk new_brk t) (tvm w)
      else match vma_list t !! Datatypes.S i with
           | Some (_, next_vma) =>
               if vma_start next_vma <? new_aligned then ret t (tvm w)
               else ret (Mm (upd_vma (vma_list t) p (set_end new_aligned)) (end_data t) new_brk) (tvm w)
           | None => ret (Mm (upd_vma (vma_list t) p (set_end new_aligned)) (end_data t) new_brk) (tvm w)
           end
  end.

(** ** [do_mmap]; [file] is the inode behind [fd] and its size when [fd] is an open
    regular file of an ext2 file system, [None] otherwise *)
Definition ext2_file_mmap (w : world) (mem : option Z) (inode i_size addr len prot flags offset : Z)
    : res (Z * world) :=
  if negb (has flags MAP_PRIVATE) || has flags MAP_ANON || negb (Z.land offset (PG_SIZE - 1) =? 0)
  then Ok (- EINVAL, w) else
  let file_visible_bytes :=
    if offset <? i_size then Z.min (i_size - offset) len else 0 in
  let vma_flags := prot_to_vm_flags prot MAP_PRIVATE false in
  r ← add_vma_sorted (vma_list (tmm w)) (ino w) mem addr (u32 (addr + len)) offset (Some inode)
        vma_flags file_visible_bytes;
  Ok (0, World (set_vmas r.1 (tmm w)) (tvm w) r.2).

Definition do_mmap (w : world) (mem : option Z) (addr len prot flags fd offset : Z)
    (file : option (Z * Z)) : res (Z * world) :=
  let failed := Ok (MAP_FAILED, w) in
  if (len =? 0) || negb (addr =? 0) || negb (has flags MAP_PRIVATE) ||
     has flags (Z.lnot (MAP_PRIVATE + MAP_ANON)) || has prot (Z.lnot (PROT_READ + PROT_WRITE + PROT_EXEC))
  then failed else
  let size := PAGE_ALIGN_UP len in
  if size =? 0 then failed else
  let vaddr := vma_find_gap_reverse (vma_list (tmm w)) (size / PG_SIZE) in
  if (vaddr =? 0) || (vaddr <? USER_VADDR_START) || (u32 (vaddr + size) <=? vaddr) ||
     (USER_STACK_BASE - USER_STACK_SIZE <? u32 (vaddr + size)) then failed else
  if has flags MAP_ANON then
    if negb (fd =? -1) || negb (offset =? 0) then failed else
    r ← add_vma_sorted (vma_list (tmm w)) (ino w) mem vaddr (u32 (vaddr + size)) 0 None
          (prot_to_vm_flags prot flags true) 0;
    Ok (vaddr, World (set_vmas r.1 (tmm w)) (tvm w) r.2)
  else
    if negb (Z.land offset (PG_SIZE - 1) =? 0) then failed else
    match file with
    | None => failed
    | Some (inode, i_size) =>
        r ← ext2_file_mmap w mem inode i_size vaddr size prot flags offset;
        if r.1 <? 0 then Ok (MAP_FAILED, r.2) else Ok (vaddr, r.2)
    end.

(** [sys_mmap]: [user_args] is the argument block the process left at [user_mmap_args] *)
Record mmap_args := MmapArgs {
  ma_addr : Z; ma_len : Z; ma_prot : Z; ma_flags : Z; ma_fd : Z; ma_offset : Z;
}.
Definition sizeof_mmap_args : Z := 24.

Definition sys_mmap (w : world) (mem : option Z) (user_mmap_args : Z) (user_args : mmap_args)
    (file : option (Z * Z)) : res (Z * world) :=
  let args_end := u32 (user_mmap_args + sizeof_mmap_args) in
  if (user_mmap_args =? 0) || (user_mmap_args <? USER_VADDR_START) || (args_end <=? user_mmap_args) ||
     (USER_STACK_BASE <? args_end) then Ok (MAP_FAILED, w)
  else do_mmap w mem (ma_addr user_args) (ma_len user_args) (ma_prot user_args) (ma_flags user_args)
         (ma_fd user_args) (ma_offset user_args) file.

(** ** Unmapping *)

(** [vaddr_remove(PF_USER, start, pg_cnt)] *)
Definition vaddr_remove (w : world) (mem : option Z) (start pg_cnt : Z) : res world :=
  let t := tmm w in
  let l := vma_list t in
  let end_ := u32 (start + pg_cnt * PG_SIZE) in
  match find_vma l start with
  | None => Ok w
  | Some (p, v) =>
      r ← (if (start =? vma_start v) && (end_ =? vma_end v) then remove_vma l (ino w) p
           else if (start =? vma_start v) && (end_ <? vma_end v) then
             Ok (upd_vma l p (fun v => let v := set_start end_ v in
                   match vma_inode v with Some _ => set_pgoff (u32 (vma_pgoff v + pg_cnt)) v | None => v end),
                 ino w)
           else if (vma_start v <? start) && (end_ =? vma_end v) then
             Ok (upd_vma l p (set_end start), ino w)
           else if (vma_start v <? start) && (end_ <? vma_end v) then
             '(q, l', s') ← vma_split l (ino w) mem p end_;
             match q with
             | None => Panic
             | Some _ => Ok (upd_vma l' p (set_end start), s')
             end
           else Ok (l, ino w));
      let b := if (brk t <=? end_) && (start <? brk t) then start else brk t in
      Ok (World (Mm r.1 (end_data t) b) (tvm w) r.2)
  end.

(** [mfree_page(PF_USER, vaddr, pg_cnt)] *)
Definition mfree_page (w : world) (mem : option Z) (cur vaddr pg_cnt : Z) : res world :=
  v ← mfree_physical_pages (Z.to_nat pg_cnt) (tvm w) cur vaddr;
  vaddr_remove (World (tmm w) v (ino w)) mem vaddr pg_cnt.

(** The first pass: is a heap or stack area in the range? *)
Fixpoint munmap_check (fuel : nat) (l : vlist) (cursor end_ : Z) : res bool :=
  match fuel with
  | O => Fuel
  | Datatypes.S fuel =>
      if end_ <=? cursor then Ok true else
      match find_covering_or_next_vma l cursor with
      | None => Ok true
      | Some (_, v) =>
          if end_ <=? vma_start v then Ok true
          else if has (vma_flags v) (VM_GROWSUP + VM_GROWSDOWN) then Ok false
          else munmap_check fuel l (if end_ <? vma_end v then end_ else vma_end v) end_
      end
  end.

(** The second pass. *)
Fixpoint munmap_loop (fuel : nat) (w : world) (mem : option Z) (cur cursor end_ : Z) : res world :=
  match fuel with
  | O => Fuel
  | Datatypes.S fuel =>
      if end_ <=? cursor then Ok w else
      match find_covering_or_next_vma (vma_list (tmm w)) cursor with
      | None => Ok w
      | Some (_, v) =>
          if end_ <=? vma_start v then Ok w else
          let cursor := if cursor <? vma_start v then vma_start v else cursor in
          let seg_end := if end_ <? vma_end v then end_ else vma_end v in
          w ← mfree_page w mem cur cursor ((seg_end - cursor) / PG_SIZE);
          munmap_loop fuel w mem cur seg_end end_
      end
  end.

(** The fuel: one iteration per area of the range, one more to leave the loop. *)
Definition sys_munmap (w : world) (mem : option Z) (cur addr len : Z) : res (Z * world) :=
  if (len =? 0) || negb (Z.land addr (PG_SIZE - 1) =? 0) then Ok (-1, w) else
  let size := PAGE_ALIGN_UP len in
  if size =? 0 then Ok (-1, w) else
  let end_ := u32 (addr + size) in
  if (addr <? USER_VADDR_START) || (end_ <=? addr) || (USER_STACK_BASE <? end_) then Ok (-1, w) else
  let fuel := Datatypes.S (length (vma_list (tmm w))) in
  ok ← munmap_check fuel (vma_list (tmm w)) addr end_;
  if negb ok then Ok (-1, w) else
  w ← munmap_loop fuel w mem cur addr end_; Ok (0, w).
End calls.

(** ** List lemmas *)
Lemma upd_vma_node (a b : vlist) p v f :
  NoDup (a ++ (p, v) :: b).*1 -> upd_vma (a ++ (p, v) :: b) p f = a ++ (p, f v) :: b.
Proof.
  intros Hnd. unfold upd_vma. rewrite fmap_app, fmap_cons. cbn [fst snd]. rewrite Z.eqb_refl.
  assert (Hid : forall l : vlist, p ∉ l.*1 ->
    (fun n => if n.1 =? p then (p, f n.2) else n) <$> l = l).
  { induction l as [|[q w] l IH]; [done|]. rewrite !fmap_cons. cbn [fst].
    intros [Hp Hl]%not_elem_of_cons. destruct (Z.eqb_spec q p); [congruence|]. by rewrite IH. }
  rewrite fmap_app, fmap_cons in Hnd. apply NoDup_app in Hnd as (_ & Hd & [Hq _]%NoDup_cons).
  rewrite !Hid; [done|done|]. intros Hin. apply (Hd p Hin). left.
Qed.

(** Areas that end at or below [c]. *)
Definition below (c : Z) (l : vlist) : Prop := Forall (fun n => vma_end n.2 <= c) l.

Lemma find_vma_skip a l c x : below c a -> c <= x -> find_vma (a ++ l) x = find_vma l x.
Proof.
  intros Ha Hx. induction Ha as [|[p v] a Hv _ IH]; [done|]. unfold find_vma in *. cbn in *.
  unfold vma_contains_address at 1. rewrite (proj2 (Z.ltb_ge x _)), andb_false_r by lia. exact IH.
Qed.

Lemma find_covering_split a l c : below c a ->
  match find_covering_or_next_vma (a ++ l) c with
  | Some (p, v) => exists l1 l2, l = l1 ++ (p, v) :: l2 /\ below c l1 /\ c < vma_end v
  | None => below c l
  end.
Proof.
  unfold find_covering_or_next_vma. intros Ha. induction Ha as [|[p v] a Hv _ IH]; cbn.
  - induction l as [|[p v] l IH]; cbn; [constructor|]. destruct (Z.ltb_spec c (vma_end v)).
    + exists [], l. split_and!; [done|constructor|done].
    + destruct (List.find _ l) as [[q w]|].
      * destruct IH as (l1 & l2 & -> & H1 & H2). exists ((p, v) :: l1), l2.
        split_and!; [done|by constructor|done].
      * constructor; [cbn; lia|done].
  - cbn in Hv. rewrite (proj2 (Z.ltb_ge _ _)) by lia. exact IH.
Qed.

(** The page view of a list without the range [s, e). *)
Definition cleared (l l' : vlist) (s e : Z) : Prop :=
  forall x, page_view l' x = if (s <=? x) && (x <? e) then None else page_view l x.

Lemma cleared_trans l1 l2 l3 s m e :
  s <= m <= e -> cleared l1 l2 s m -> cleared l2 l3 m e -> cleared l1 l3 s e.
Proof.
  intros Hm H1 H2 x. rewrite H2, H1. repeat bdestr; cbn; lia || done.
Qed.

(** Nothing is mapped in a range between two parts of the list. *)
Lemma hole lo a b s e :
  areas_ok lo (a ++ b) -> below s a -> Forall (fun n => e <= vma_start n.2) b -> cleared (a ++ b) (a ++ b) s e.
Proof.
  intros Hok Ha Hb x. destruct (Z.leb_spec s x); cbn; [|done].
  destruct (Z.ltb_spec x e); [|done]. rewrite page_view_app.
  assert (Hna : page_view a x = None).
  { clear Hok. induction Ha as [|[p v] a Hv _ IH]; [done|]. rewrite page_view_cons. cbn in Hv.
    rewrite (proj2 (Z.ltb_ge x _)), andb_false_r by lia. exact IH. }
  assert (Hnb : page_view b x = None).
  { clear Hok Hna. induction Hb as [|[p v] b Hv _ IH]; [done|]. rewrite page_view_cons. cbn in Hv.
    rewrite (proj2 (Z.leb_gt _ x)) by lia. exact IH. }
  by rewrite Hna, Hnb.
Qed.

Lemma below_view c a x : below c a -> c <= x -> page_view a x = None.
Proof.
  intros Ha Hx. induction Ha as [|[p v] a Hv _ IH]; [done|]. rewrite page_view_cons. cbn in Hv.
  rewrite (proj2 (Z.ltb_ge x _)), andb_false_r by lia. exact IH.
Qed.

Lemma below_mono c c' a : below c a -> c <= c' -> below c' a.
Proof. intros Ha Hc. eapply Forall_impl; [exact Ha|]. cbn. lia. Qed.

(** Replacing one node by nodes that map the same pages but [s, e). *)
Lemma cleared_node a b p v m c s e :
  below c a -> c <= s -> vma_start v <= s -> e <= vma_end v -> areas_ok (vma_end v) b ->
  (forall x, page_view (m ++ b) x = if (s <=? x) && (x <? e) then None else page_view ((p, v) :: b) x) ->
  cleared (a ++ (p, v) :: b) (a ++ m ++ b) s e.
Proof.
  intros Ha Hc Hs He Hb Hm x. rewrite !(page_view_app a), Hm.
  destruct (page_view a x) as [r|] eqn:Hr; [|done].
  destruct (Z.leb_spec s x); [|done]. rewrite (below_view c) in Hr by (done || lia). done.
Qed.

Lemma ids_skip (a b : vlist) n q : q ∉ (a ++ n :: b).*1 -> q ∉ (a ++ b).*1.
Proof. rewrite !fmap_app, fmap_cons. set_solver. Qed.

Section remove.
Context {S D : Type} `{InodeRefs S}.

Lemma vaddr_remove_ok (w : world (S := S) (D := D)) (a b : vlist) p q v c s n :
  let e := s + n * PG_SIZE in
  vma_list (tmm w) = a ++ (p, v) :: b -> vlist_ok (a ++ (p, v) :: b) -> below c a -> c <= s ->
  vma_inode v = None -> vma_start v <= s -> s < e <= vma_end v -> q ∉ (a ++ (p, v) :: b).*1 ->
  exists a' b' brk', vaddr_remove w (Some q) s n =
      Ok (World (Mm (a' ++ b') (end_data (tmm w)) brk') (tvm w) (ino w)) /\
    vlist_ok (a' ++ b') /\ cleared (a ++ (p, v) :: b) (a' ++ b') s e /\ below e a' /\
    (e = vma_end v -> b' = b /\ q ∉ (a' ++ b').*1).
Proof.
  intros e Hl Hok Hbel Hcs Hi Hvs Hse Hq. pose proof Hok as [Har Hnd].
  pose proof Har as [Ha Hvb]%areas_ok_app. cbn in Hvb. destruct Hvb as (Hlo & Hve & Hb).
  pose proof (areas_ok_lt _ _ Hb) as H32. pose proof (last_end_ge _ _ Ha) as Hle.
  unfold vaddr_remove. rewrite Hl.
  rewrite (u32_small (s + n * PG_SIZE)) by (fold e; lia). fold e.
  rewrite (find_vma_skip a _ c) by done. unfold find_vma. cbn [List.find snd].
  unfold vma_contains_address. rewrite (proj2 (Z.leb_le _ _)), (proj2 (Z.ltb_lt _ _)) by lia. cbn [andb].
  assert (Hbx : forall x, x < vma_end v -> page_view b x = None).
  { intros x Hx. by apply (page_view_below (vma_end v)). }
  assert (Hfc : forall (w' : vm_area) x, vma_inode w' = None -> fault_contents w' x = Zeroes)
    by (intros w' x Hw; unfold fault_contents; by rewrite Hw).
  destruct (Z.eqb_spec s (vma_start v)) as [->|Hsv]; cbn [andb].
  - destruct (Z.eqb_spec e (vma_end v)) as [Hee|Hee].
    + rewrite (remove_vma_node a b (ino w) p v Hnd), Hi. ok_simpl. cbn [fst snd].
      eexists a, b, _. split; [done|]. split_and!.
      * split; [|by eapply NoDup_ids_skip]. apply areas_ok_app. split; [done|].
        eapply areas_ok_weaken; [exact Hb|lia].
      * apply (cleared_node a b p v [] c); [done|done|lia|lia|done|]. intros x. cbn [app].
        rewrite page_view_cons, <- Hee. destruct (_ && _) eqn:Hx; [|done]. apply Hbx.
        apply andb_true_iff in Hx as [_ Hx%Z.ltb_lt]. lia.
      * eapply below_mono; [exact Hbel|lia].
      * intros _. split; [done|]. by apply (ids_skip a b (p, v)).
    + rewrite (proj2 (Z.ltb_lt e (vma_end v))) by lia. ok_simpl. cbn [fst snd]. rewrite upd_vma_node by done.
      cbn [vma_inode set_start]. rewrite Hi. eexists a, ((p, set_start e v) :: b), _. split; [done|]. split_and!.
      * split; [|by eapply NoDup_ids_mid]. apply areas_ok_app. cbn. split_and!; [done|lia|lia|done].
      * apply (cleared_node a b p v [(p, set_start e v)] c); [done|done|lia|lia|done|]. intros x. cbn [app].
        rewrite !page_view_cons, !Hfc by done. cbn. repeat bdestr; cbn; try lia; done || (apply Hbx; lia).
      * eapply below_mono; [exact Hbel|lia].
      * done.
  - rewrite (proj2 (Z.ltb_lt (vma_start v) s)) by lia. cbn [andb].
    assert (Hbel' : below e (a ++ [(p, set_end s v)])).
    { apply Forall_app. split; [eapply below_mono; [exact Hbel|lia]|]. constructor; [cbn; lia|constructor]. }
    destruct (Z.eqb_spec e (vma_end v)) as [Hee|Hee].
    + ok_simpl. cbn [fst snd]. rewrite upd_vma_node by done.
      eexists (a ++ [(p, set_end s v)]), b, _. rewrite <- app_assoc. split; [done|].
      split_and!; [| |done|by intros _; rewrite !fmap_app in *].
      * split; [|by eapply NoDup_ids_mid]. apply areas_ok_app. cbn. split_and!; [done|lia|lia|].
        eapply areas_ok_weaken; [exact Hb|lia].
      * apply (cleared_node a b p v [(p, set_end s v)] c); [done|done|lia|lia|done|]. intros x. cbn [app].
        rewrite !page_view_cons, !Hfc by done. cbn. repeat bdestr; cbn; try lia; done || (apply Hbx; lia).
    + rewrite (proj2 (Z.ltb_lt e (vma_end v))) by lia.
      destruct (vma_split_anon_spec a b (ino w) p q v e Hok Hi) as (u & -> & Hu1 & Hu2 & [Hua Hund] & Huv);
        [lia|done|]. ok_simpl. rewrite upd_vma_node by done. cbn [fst snd].
      eexists (a ++ [(p, set_end s v)]), ((q, u) :: b), _. rewrite <- app_assoc. split; [done|].
      split_and!; [| |done|done].
      * split; [|by eapply NoDup_ids_mid]. apply areas_ok_app in Hua as [_ Hua]. cbn in Hua.
        apply areas_ok_app. cbn. rewrite Hu1. rewrite Hu2 in *. split_and!; [done|lia|lia|lia|lia|done].
      * intros x. rewrite <- (Huv x). rewrite !(page_view_app a).
        destruct (page_view a x) as [r|] eqn:Hr.
        { destruct (Z.leb_spec s x); [|done]. rewrite (below_view c) in Hr by (done || lia). done. }
        cbn [app]. rewrite !page_view_cons. rewrite Hu1, Hu2. cbn. rewrite !(Hfc (set_end _ v)) by done.
        repeat bdestr; cbn; try lia; done || (apply Hbx; lia).
Qed.

(** ** [sys_munmap] *)
Definition grows (v : vm_area) : bool := has (vma_flags v) (VM_GROWSUP + VM_GROWSDOWN).

Lemma munmap_check_ok fuel (a c : vlist) lo cursor end_ :
  areas_ok lo (a ++ c) -> below cursor a -> (length c < fuel)%nat ->
  cursor < end_ \/ areas_ok cursor c ->
  Forall (fun n => cursor < vma_end n.2 -> vma_start n.2 < end_ -> vma_start n.2 < vma_end n.2) c ->
  exists b, munmap_check fuel (a ++ c) cursor end_ = Ok b /\
    (b = true -> Forall (fun n => cursor < vma_end n.2 -> vma_start n.2 < end_ -> grows n.2 = false) c) /\
    (b = false -> Exists (fun n => cursor < vma_end n.2 /\ vma_start n.2 < end_ /\ grows n.2 = true) c).
Proof.
  revert a c cursor. induction fuel as [|fuel IH]; intros a c cursor Hok Ha Hlen Hcur Hne; [lia|].
  cbn [munmap_check]. destruct (Z.leb_spec end_ cursor) as [He|He].
  { exists true. split_and!; [done| |done]. intros _. apply Forall_forall. intros n Hn H1 H2.
    destruct Hcur as [Hcur|Hcur]; [lia|]. destruct (areas_ok_in _ _ _ Hcur Hn). lia. }
  pose proof (find_covering_split a c cursor Ha) as Hf.
  destruct (find_covering_or_next_vma (a ++ c) cursor) as [[p v]|].
  2: { exists true. split_and!; [done| |done]. intros _. eapply Forall_impl; [exact Hf|]. cbn. lia. }
  destruct Hf as (c1 & c2 & -> & Hc1 & Hv).
  assert (Hpre : forall P, Forall (fun n : Z * vm_area => cursor < vma_end n.2 -> P n) c1).
  { intros P. eapply Forall_impl; [exact Hc1|]. cbn. lia. }
  pose proof Hok as Hok2. rewrite app_assoc in Hok2. apply areas_ok_app in Hok2 as [_ (Hs & Hse & Hc2)].
  assert (Hin2 : forall n, n ∈ c2 -> vma_end v <= vma_start n.2 <= vma_end n.2).
  { intros n Hn. destruct (areas_ok_in _ _ _ Hc2 Hn). lia. }
  destruct (Z.leb_spec end_ (vma_start v)).
  { exists true. split_and!; [done| |done]. intros _. apply Forall_app. split; [apply Hpre|].
    constructor; [cbn; lia|]. apply Forall_forall. intros n Hn%Hin2. lia. }
  fold (grows v). destruct (grows v) eqn:Hg.
  { exists false. split_and!; [done|done|]. intros _. apply Exists_app. right. left. cbn. done. }
  rewrite length_app in Hlen. cbn in Hlen. destruct (Z.ltb_spec end_ (vma_end v)).
  - exists true. split_and!; [| |done].
    + destruct fuel; [lia|]. cbn [munmap_check]. by rewrite (proj2 (Z.leb_le _ _)) by lia.
    + intros _. apply Forall_app. split; [apply Hpre|]. constructor; [done|].
      apply Forall_forall. intros n Hn%Hin2. lia.
  - assert (Hl : a ++ c1 ++ (p, v) :: c2 = (a ++ c1 ++ [(p, v)]) ++ c2) by (by rewrite <- !app_assoc).
    rewrite Hl. rewrite Hl in Hok.
    apply Forall_app in Hne as [_ [_ Hne]%Forall_cons].
    destruct (IH (a ++ c1 ++ [(p, v)]) c2 (vma_end v)) as (b & Hrun & Ht & Hff); [done| |lia|by right| |].
    { apply Forall_app. split; [eapply below_mono; [exact Ha|lia]|]. apply Forall_app.
      split; [eapply below_mono; [exact Hc1|lia]|]. constructor; [cbn; lia|constructor]. }
    { eapply Forall_impl; [exact Hne|]. cbn. intros n Hn ? ?. apply Hn; lia. }
    exists b. split_and!; [done| |].
    + intros Hb. apply Forall_app. split; [apply Hpre|]. constructor; [done|].
      specialize (Ht Hb). rewrite Forall_forall in Ht, Hne. apply Forall_forall. intros n Hn Hn1 Hn2.
      specialize (Hne n Hn Hn1 Hn2). destruct (Hin2 n Hn). apply Ht; [done|lia|done].
    + intros Hb. apply Exists_app. right. right. eapply Exists_impl; [exact (Hff Hb)|].
      cbn. intros n (? & ? & ?). split_and!; [lia|done|done].
Qed.

Definition aligned (v : vm_area) : Prop := vma_start v mod PG_SIZE = 0 /\ vma_end v mod PG_SIZE = 0.

(** What the areas from [c] on must be for a range up to [end_] to be unmapped. *)
Definition plain (end_ : Z) (n : Z * vm_area) : Prop :=
  vma_start n.2 < end_ -> vma_inode n.2 = None /\ vma_start n.2 < vma_end n.2 /\ aligned n.2.

(** What unmapping [s, e) does to the pages. *)
Definition unmapped_views (l : vlist) (cur s e : Z) (v v' : vm (D := D)) : Prop :=
  (forall pid x, pid <> cur \/ ~ (s <= x < e) -> view v' pid x = view v pid x) /\
  (forall x, s <= x < e -> x mod PG_SIZE = 0 ->
     view v' cur x = if page_view l x then None else view v cur x).

Lemma aligned_page x s n : s mod PG_SIZE = 0 -> x mod PG_SIZE = 0 -> s <= x < s + Z.of_nat n * PG_SIZE ->
  x ∈ pages_from s n.
Proof.
  unfold PG_SIZE. intros Hs Hx Hr. apply Z.mod_divide in Hs as [i ->]; [|lia].
  apply Z.mod_divide in Hx as [j ->]; [|lia]. apply list_elem_of_fmap. exists (j - i).
  split; [unfold PG_SIZE; lia|]. apply elem_of_seqZ. lia.
Qed.

Lemma pages_from_range x s n : x ∈ pages_from s n -> s <= x < s + Z.of_nat n * PG_SIZE.
Proof. intros (i & -> & Hi%elem_of_seqZ)%list_elem_of_fmap. unfold PG_SIZE. lia. Qed.

(** One segment. *)
Lemma mfree_page_ok (w : world (S := S) (D := D)) AK AU (a b : vlist) p q v c s e cur :
  vma_list (tmm w) = a ++ (p, v) :: b -> vlist_ok (a ++ (p, v) :: b) -> below c a -> c <= s ->
  vma_inode v = None -> vma_start v <= s -> s < e <= vma_end v -> q ∉ (a ++ (p, v) :: b).*1 ->
  s mod PG_SIZE = 0 -> e mod PG_SIZE = 0 -> vm_ok (tvm w) AK AU ->
  exists a' b' brk' v' AU', mfree_page w (Some q) cur s ((e - s) / PG_SIZE) =
      Ok (World (Mm (a' ++ b') (end_data (tmm w)) brk') v' (ino w)) /\
    vm_ok v' AK AU' /\ unmapped_views (a ++ (p, v) :: b) cur s e (tvm w) v' /\
    vlist_ok (a' ++ b') /\ cleared (a ++ (p, v) :: b) (a' ++ b') s e /\ below e a' /\
    (e = vma_end v -> b' = b /\ q ∉ (a' ++ b').*1).
Proof.
  intros Hl Hok Hbel Hcs Hi Hvs Hse Hq Hsa Hea Hv.
  assert (He : s + (e - s) / PG_SIZE * PG_SIZE = e).
  { unfold PG_SIZE in *. apply Z.mod_divide in Hsa as [i ->]; [|lia]. apply Z.mod_divide in Hea as [j ->]; [|lia].
    replace (j * 4096 - i * 4096) with ((j - i) * 4096) by lia. rewrite Z.div_mul by lia. lia. }
  assert (Hn : 0 <= (e - s) / PG_SIZE) by (apply Z.div_pos; unfold PG_SIZE; lia).
  pose proof (vl_areas _ Hok) as [Ha (Hlo & _ & Hb)]%areas_ok_app. pose proof (areas_ok_lt _ _ Hb).
  pose proof (last_end_ge _ _ Ha).
  unfold mfree_page.
  destruct (mfree_physical_pages_spec (Z.to_nat ((e - s) / PG_SIZE)) (tvm w) AK AU cur s Hv) as
    (v' & AU' & -> & Hv' & Hview); [lia|rewrite Z2Nat.id by lia; lia|]. ok_simpl.
  destruct (vaddr_remove_ok (World (tmm w) v' (ino w)) a b p q v c s ((e - s) / PG_SIZE)) as
    (a' & b' & brk' & Hrun & Hok' & Hcl & Hbl & Hb'); try done; [rewrite He; done|].
  rewrite He in *. exists a', b', brk', v', AU'. split_and!; [done|done| |done|done|done|done].
  assert (Hin : forall x, x ∈ pages_from s (Z.to_nat ((e - s) / PG_SIZE)) -> s <= x < e).
  { intros x Hx%pages_from_range. rewrite Z2Nat.id in Hx by lia. lia. }
  split.
  - intros pid x Hx. rewrite Hview, decide_False; [done|]. intros [-> Hp%Hin]. tauto.
  - intros x Hx Hxa. rewrite Hview, decide_True.
    + rewrite page_view_app, (below_view c) by (done || lia). rewrite page_view_cons.
      by rewrite (proj2 (Z.leb_le _ _)), (proj2 (Z.ltb_lt _ _)) by lia.
    + split; [done|]. apply aligned_page; [done|done|]. rewrite Z2Nat.id by lia. lia.
Qed.

Lemma unmapped_trans l l' cur s m e v1 v2 v3 :
  s <= m <= e -> unmapped_views l cur s m v1 v2 -> cleared l l' s m ->
  unmapped_views l' cur m e v2 v3 -> unmapped_views l cur s e v1 v3.
Proof.
  intros Hm [A1 A2] Hc [B1 B2]. split.
  - intros pid x Hx. rewrite B1, A1; [done|..]; destruct Hx; [by left|right; lia|by left|right; lia].
  - intros x Hx Hxa. destruct (Z.lt_ge_cases x m).
    + rewrite B1 by (right; lia). apply A2; [lia|done].
    + rewrite B2 by (lia || done). rewrite A1 by (right; lia). specialize (Hc x).
      rewrite (proj2 (Z.ltb_ge x m)), andb_false_r in Hc by lia. by rewrite Hc.
Qed.

Lemma unmapped_hole l cur s e v : cleared l l s e -> unmapped_views l cur s e v v.
Proof.
  intros Hc. split; [done|]. intros x Hx _. specialize (Hc x).
  rewrite (proj2 (Z.leb_le _ _)), (proj2 (Z.ltb_lt _ _)) in Hc by lia. cbn in Hc. by rewrite Hc.
Qed.

Lemma empty_range l cur s e v : e <= s -> cleared l l s e /\ unmapped_views l cur s e v v.
Proof.
  intros He. assert (Hc : cleared l l s e).
  { intros x. destruct (Z.leb_spec s x), (Z.ltb_spec x e); done || lia. }
  split; [done|by apply unmapped_hole].
Qed.

Lemma munmap_loop_ok fuel (w : world (S := S) (D := D)) AK AU (a c : vlist) q cur cursor end_ :
  vma_list (tmm w) = a ++ c -> vlist_ok (a ++ c) -> below cursor a -> (length c < fuel)%nat ->
  cursor mod PG_SIZE = 0 -> end_ mod PG_SIZE = 0 -> Forall (plain end_) c -> q ∉ (a ++ c).*1 ->
  vm_ok (tvm w) AK AU ->
  exists w' AU', munmap_loop fuel w (Some q) cur cursor end_ = Ok w' /\
    vlist_ok (vma_list (tmm w')) /\ cleared (a ++ c) (vma_list (tmm w')) cursor end_ /\
    vm_ok (tvm w') AK AU' /\ unmapped_views (a ++ c) cur cursor end_ (tvm w) (tvm w') /\
    ino w' = ino w.
Proof.
  revert w AU a c cursor. induction fuel as [|fuel IH];
    intros w AU a c cursor Hl Hok Ha Hlen Hca Hea Hpl Hq Hv; [lia|]. cbn [munmap_loop].
  destruct (Z.leb_spec end_ cursor) as [He|He].
  { destruct (empty_range (a ++ c) cur cursor end_ (tvm w) He). exists w, AU. rewrite Hl. by split_and!. }
  rewrite Hl. pose proof (find_covering_split a c cursor Ha) as Hf.
  destruct (find_covering_or_next_vma (a ++ c) cursor) as [[p v]|].
  2: { assert (Hc : cleared (a ++ c) (a ++ c) cursor end_).
       { pose proof (hole 0 (a ++ c) [] cursor end_) as Hh. rewrite app_nil_r in Hh. apply Hh;
           [apply Hok|by apply Forall_app|constructor]. }
       exists w, AU. rewrite Hl. split_and!; try done. by apply unmapped_hole. }
  destruct Hf as (c1 & c2 & -> & Hc1 & Hvc). rewrite app_assoc in *.
  assert (Hb1 : below cursor (a ++ c1)) by (by apply Forall_app).
  pose proof (vl_areas _ Hok) as Hao. pose proof Hao as [_ (Hs & Hse & Hc2)]%areas_ok_app.
  assert (Hhole : forall s, s <= vma_start v -> cleared ((a ++ c1) ++ (p, v) :: c2) ((a ++ c1) ++ (p, v) :: c2) cursor s).
  { intros s Hsv. eapply hole; [exact Hao|done|]. constructor; [cbn; lia|]. apply Forall_forall.
    intros n Hn. destruct (areas_ok_in _ _ _ Hc2 Hn). lia. }
  destruct (Z.leb_spec end_ (vma_start v)).
  { exists w, AU. rewrite Hl. split_and!; try done; [by apply Hhole|]. by apply unmapped_hole, Hhole. }
  apply Forall_app in Hpl as [_ [Hpv Hpl]%Forall_cons].
  destruct Hpv as (Hi & Hne & Hal1 & Hal2); [done|]. cbn [snd] in Hi, Hne, Hal1, Hal2.
  set (s := if cursor <? vma_start v then vma_start v else cursor).
  set (e := if end_ <? vma_end v then end_ else vma_end v).
  assert (Hsm : s = Z.max cursor (vma_start v)) by (unfold s; bdestr; lia).
  assert (Hem : e = Z.min end_ (vma_end v)) by (unfold e; bdestr; lia).
  assert (Hsa : s mod PG_SIZE = 0) by (unfold s; destruct (cursor <? vma_start v); [exact Hal1|exact Hca]).
  assert (Hee : e mod PG_SIZE = 0) by (unfold e; destruct (end_ <? vma_end v); [exact Hea|exact Hal2]).
  destruct (mfree_page_ok w AK AU (a ++ c1) c2 p q v cursor s e cur) as
    (a' & b' & brk' & v' & AU' & -> & Hv' & Hun & Hok' & Hcl & Hbl & Hb'); [done|done|done|lia|done|lia|lia|done..|].
  ok_simpl. rewrite length_app in Hlen. cbn in Hlen.
  assert (Hpre : cleared ((a ++ c1) ++ (p, v) :: c2) ((a ++ c1) ++ (p, v) :: c2) cursor s).
  { destruct (Z.ltb_spec cursor (vma_start v)); [apply Hhole; lia|].
    by apply (empty_range _ cur cursor s (tvm w)); lia. }
  assert (Hcl1 : cleared ((a ++ c1) ++ (p, v) :: c2) (a' ++ b') cursor e).
  { eapply cleared_trans; [|exact Hpre|exact Hcl]. lia. }
  assert (Hun1 : unmapped_views ((a ++ c1) ++ (p, v) :: c2) cur cursor e (tvm w) v').
  { eapply unmapped_trans; [|by apply unmapped_hole|exact Hpre|exact Hun]. lia. }
  destruct (Z.ltb_spec end_ (vma_end v)).
  - destruct fuel; [lia|]. cbn [munmap_loop]. assert (Hx : e = end_) by lia. rewrite Hx in *.
    rewrite (proj2 (Z.leb_le _ _)) by lia. eexists _, AU'. split; [done|]. by split_and!.
  - destruct (Hb' ltac:(lia)) as [-> Hq'].
    edestruct (IH (World (Mm (a' ++ c2) (end_data (tmm w)) brk') v' (ino w)) AU' a' c2 e) as
      (w' & AU2 & Hrun & Hok2 & Hcl2 & Hv2 & Hun2 & Hino); try done; [lia|].
    exists w', AU2. split_and!; [done|done| |done| |done].
    + eapply cleared_trans; [|exact Hcl1|exact Hcl2]. lia.
    + eapply unmapped_trans; [|exact Hun1|exact Hcl1|exact Hun2]. lia.
Qed.

Lemma page_align_up x : 0 <= x -> x + PG_SIZE - 1 < 2 ^ 32 ->
  PAGE_ALIGN_UP x mod PG_SIZE = 0 /\ x <= PAGE_ALIGN_UP x < x + PG_SIZE.
Proof.
  intros H0 Hx. unfold PAGE_ALIGN_UP. rewrite u32_small, land_page_mask by (rewrite ?u32_small; unfold PG_SIZE in *; lia).
  unfold PG_SIZE in *. rewrite Z.mod_mul by lia. pose proof (Z.div_mod (x + 4096 - 1) 4096).
  pose proof (Z.mod_pos_bound (x + 4096 - 1) 4096). lia.
Qed.

Lemma page_offset x : (Z.land x (PG_SIZE - 1) =? 0) = (x mod PG_SIZE =? 0).
Proof. change (PG_SIZE - 1) with (Z.ones 12). by rewrite Z.land_ones by lia. Qed.

Lemma split_below lo l x : areas_ok lo l ->
  exists a c, l = a ++ c /\ below x a /\ Forall (fun n => x < vma_end n.2) c.
Proof.
  revert lo. induction l as [|[p v] l IH]; intros lo Hl; [exists [], []; split_and!; [done|apply Forall_nil_2|apply Forall_nil_2]|].
  cbn in Hl. destruct Hl as (H1 & H2 & H3). destruct (Z.lt_ge_cases x (vma_end v)).
  - exists [], ((p, v) :: l). split_and!; [done|constructor|]. constructor; [done|].
    apply Forall_forall. intros n Hn. destruct (areas_ok_in _ _ _ H3 Hn). lia.
  - destruct (IH _ H3) as (a & c & -> & Ha & Hc). exists ((p, v) :: a), c.
    split_and!; [done|by constructor|done].
Qed.

(** C26. [sys_munmap] of a page-aligned user range whose areas are anonymous: when a
    heap or stack area reaches into the range it answers -1 and changes nothing;
    otherwise it answers 0, the area list stays well formed, no address of the range
    is mapped afterwards (areas are removed, trimmed or split as needed), every other
    address keeps its rights and contents, the process's mapped pages of the range
    are gone, nothing else of any process changes, and reference counts are still
    the numbers of mappings. *)
Theorem sys_munmap_spec (w : world (S := S) (D := D)) AK AU q cur addr len :
  let l := vma_list (tmm w) in let e := addr + PAGE_ALIGN_UP len in
  vlist_ok l -> vm_ok (tvm w) AK AU -> q ∉ l.*1 ->
  addr mod PG_SIZE = 0 -> 0 < len -> len + PG_SIZE - 1 < 2 ^ 32 -> USER_VADDR_START <= addr -> e <= USER_STACK_BASE ->
  Forall (fun n => addr < vma_end n.2 -> plain e n) l ->
  exists r w' AU', sys_munmap w (Some q) cur addr len = Ok (r, w') /\
    (Exists (fun n => addr < vma_end n.2 /\ vma_start n.2 < e /\ grows n.2 = true) l -> r = -1 /\ w' = w) /\
    (Forall (fun n => addr < vma_end n.2 -> vma_start n.2 < e -> grows n.2 = false) l ->
      r = 0 /\ vlist_ok (vma_list (tmm w')) /\ cleared l (vma_list (tmm w')) addr e /\
      vm_ok (tvm w') AK AU' /\ unmapped_views l cur addr e (tvm w) (tvm w') /\ ino w' = ino w).
Proof.
  intros l e Hok Hv Hq Ha Hlen Hlen2 Hlo Hhi Hpl. unfold sys_munmap. fold l.
  destruct (page_align_up len) as [Hal Hle]; [lia|lia|].
  assert (He32 : 0 <= e < 2 ^ 32) by (unfold e, USER_STACK_BASE, USER_VADDR_START in *; lia).
  rewrite (proj2 (Z.eqb_neq len 0)), page_offset, (proj2 (Z.eqb_eq _ _) Ha) by lia. cbn [orb negb].
  rewrite (proj2 (Z.eqb_neq (PAGE_ALIGN_UP len) 0)) by lia. rewrite (u32_small (addr + _)) by done. fold e.
  rewrite (proj2 (Z.ltb_ge addr _)), (proj2 (Z.leb_gt e addr)), (proj2 (Z.ltb_ge _ e)) by lia. cbn [orb].
  destruct (split_below 0 l addr (vl_areas _ Hok)) as (a & c & Hl & Hba & Hc).
  assert (Hplc : Forall (plain e) c).
  { rewrite Hl in Hpl. apply Forall_app in Hpl as [_ Hpl]. rewrite Forall_forall in *. intros n Hn.
    apply Hpl; auto. }
  assert (Hlen3 : (length c < Datatypes.S (length l))%nat) by (rewrite Hl, length_app; lia).
  destruct (munmap_check_ok (Datatypes.S (length l)) a c 0 addr e) as (b & Hrun & Ht & Hf);
    [rewrite <- Hl; apply Hok|done|done|left; lia| |].
  { eapply Forall_impl; [exact Hplc|]. intros n Hn _ Hs. by apply Hn. }
  rewrite <- Hl in Hrun. rewrite Hrun. ok_simpl. destruct b; cbn [negb].
  - destruct (munmap_loop_ok (Datatypes.S (length l)) w AK AU a c q cur addr e) as
      (w' & AU' & -> & H1 & H2 & H3 & H4 & H5); try (rewrite <- ?Hl; done).
    { unfold e. rewrite Z.add_mod, Ha, Hal by (unfold PG_SIZE; lia). done. }
    ok_simpl. exists 0, w', AU'. split; [done|]. rewrite <- Hl in H2, H4. split; [|intros _; by split_and!].
    intros Hex. apply Exists_exists in Hex as (n & Hn & Hn1 & Hn2 & Hg). exfalso.
    specialize (Ht eq_refl). rewrite Forall_forall in Ht. rewrite Hl in Hn.
    apply elem_of_app in Hn as [Hn|Hn]; [|rewrite (Ht n Hn Hn1 Hn2) in Hg; done].
    unfold below in Hba. rewrite Forall_forall in Hba. specialize (Hba n Hn). cbn in Hba. lia.
  - exists (-1), w, AU. split; [done|]. split; [done|]. intros Hall. exfalso.
    specialize (Hf eq_refl). apply Exists_exists in Hf as (n & Hn & Hn1 & Hn2 & Hg).
    rewrite Forall_forall in Hall. rewrite Hall in Hg; [done| |done|done]. rewrite Hl. set_solver.
Qed.
End remove.

(** ** [do_mmap] and [sys_brk] *)
Section grow.
Context {S D : Type} `{InodeRefs S}.

(** A range of the mmap area that no area reaches into. *)
Definition fits (l : vlist) (size t : Z) : Prop :=
  USER_VADDR_START <= t /\ t + size <= USER_MMAP_SEARCH_TOP /\ free_range l t (t + size).

(** C27. An anonymous private [do_mmap]: it answers the highest free page range of the
    size between [USER_VADDR_START] and the stack reserve, maps exactly that range
    with the rights asked for and zero contents, and changes nothing else; it answers
    [MAP_FAILED], and changes nothing, exactly when there is no such range. *)
Theorem do_mmap_anon_spec (w : world (S := S) (D := D)) q len prot :
  let l := vma_list (tmm w) in let size := PAGE_ALIGN_UP len in
  areas_ok USER_VADDR_START l -> NoDup l.*1 -> q ∉ l.*1 -> 0 < len -> len + PG_SIZE - 1 < 2 ^ 32 ->
  has prot (Z.lnot (PROT_READ + PROT_WRITE + PROT_EXEC)) = false ->
  exists r w', do_mmap w (Some q) 0 len prot (MAP_PRIVATE + MAP_ANON) (-1) 0 None = Ok (r, w') /\
    ((r = MAP_FAILED /\ w' = w /\ forall t, ~ fits l size t) \/
     (fits l size r /\ (forall t, fits l size t -> t <= r) /\
      exists l', w' = World (set_vmas l' (tmm w)) (tvm w) (ino w) /\ vlist_ok l' /\
        forall x, page_view l' x =
          if (r <=? x) && (x <? r + size)
          then Some (prot_to_vm_flags prot (MAP_PRIVATE + MAP_ANON) true, Zeroes) else page_view l x)).
Proof.
  intros l size Hl Hnd Hq Hlen Hlen2 Hprot. unfold do_mmap. fold size l.
  destruct (page_align_up len) as [Hal Hle]; [lia|lia|]. fold size in Hal, Hle.
  rewrite (proj2 (Z.eqb_neq len 0)), Hprot, (proj2 (Z.eqb_neq size 0)) by lia.
  change (negb (0 =? 0)) with false. change (negb (has (MAP_PRIVATE + MAP_ANON) MAP_PRIVATE)) with false.
  change (has (MAP_PRIVATE + MAP_ANON) (Z.lnot (MAP_PRIVATE + MAP_ANON))) with false.
  change (has (MAP_PRIVATE + MAP_ANON) MAP_ANON) with true. cbn [orb negb].
  assert (Hpg : size / PG_SIZE * PG_SIZE = size).
  { unfold PG_SIZE in *. pose proof (Z.div_mod size 4096). lia. }
  assert (Hpos : 0 < size / PG_SIZE) by (unfold PG_SIZE in *; lia).
  destruct (vma_find_gap_reverse_spec l (size / PG_SIZE) Hl Hpos) as [[Hr Hno]|[Hf Hmax]];
    rewrite ?Hpg in *; [unfold PG_SIZE in *; lia|rewrite Hr|].
  { exists MAP_FAILED, w. split; [done|]. left. split_and!; [done|done|exact Hno]. }
  set (r := vma_find_gap_reverse l (size / PG_SIZE)) in *. fold (fits l size r) in Hf.
  pose proof Hf as (Hf1 & Hf2 & Hf3).
  change USER_MMAP_SEARCH_TOP with (USER_STACK_BASE - USER_STACK_SIZE) in Hf2.
  unfold USER_STACK_BASE, USER_STACK_SIZE, USER_VADDR_START in Hf1, Hf2 |- *.
  rewrite (u32_small (r + size)) by lia.
  rewrite (proj2 (Z.eqb_neq r 0)), (proj2 (Z.ltb_ge r _)), (proj2 (Z.leb_gt _ r)), (proj2 (Z.ltb_ge _ (r + size))) by lia.
  change (negb (-1 =? -1)) with false. change (negb (0 =? 0)) with false. cbn [orb].
  destruct (add_vma_anon_spec l (ino w) q r (r + size) 0 (prot_to_vm_flags prot (MAP_PRIVATE + MAP_ANON) true) 0)
    as (l' & -> & Hok & Hv); [|..|done|].
  - split; [|done]. eapply areas_ok_weaken; [exact Hl|done].
  - eapply Forall_impl; [exact Hf3|]. cbn. lia.
  - lia.
  - lia.
  - ok_simpl. eexists r, _. split; [done|]. right. split_and!; [done|exact Hmax|].
    exists l'. by split_and!.
Qed.

(** The heap area and the heap limit: the area ends at the first page boundary at or
    above the limit. *)
Record heap_ok (t : mm_struct) (a : vlist) (p : Z) (heap : vm_area) (b : vlist) : Prop := {
  ho_list : vma_list t = a ++ (p, heap) :: b;
  ho_first : Forall (fun n => is_heap t n.2 = false) a;
  ho_heap : is_heap t heap = true;
  ho_brk : end_data t <= brk t <= USER_STACK_BASE - PG_SIZE;
  ho_end : vma_end heap = PAGE_ALIGN_UP (brk t);
}.

Lemma find_heap_ok t a p heap b : heap_ok t a p heap b -> find_heap_vma t = Some (length a, (p, heap)).
Proof.
  intros [Hl Ha Hh _ _]. unfold find_heap_vma. rewrite Hl, list_find_app_r.
  - cbn. rewrite decide_True by (by rewrite Hh). done.
  - apply list_find_None. eapply Forall_impl; [exact Ha|]. intros n ->. tauto.
Qed.

Lemma heap_move t a p heap b x : heap_ok t a p heap b -> end_data t <= x <= USER_STACK_BASE - PG_SIZE ->
  heap_ok (Mm (a ++ (p, set_end (PAGE_ALIGN_UP x) heap) :: b) (end_data t) x) a p
    (set_end (PAGE_ALIGN_UP x) heap) b.
Proof. intros [? ? ? ? ?] Hx. by split. Qed.

Lemma align_mono x y : 0 <= x <= y -> y + PG_SIZE - 1 < 2 ^ 32 -> PAGE_ALIGN_UP x <= PAGE_ALIGN_UP y.
Proof.
  intros Hx Hy. destruct (page_align_up x) as [Hmx Hbx]; [lia|lia|]. destruct (page_align_up y) as [Hmy Hby]; [lia|lia|].
  generalize dependent (PAGE_ALIGN_UP x). generalize dependent (PAGE_ALIGN_UP y). unfold PG_SIZE in *.
  intros ay Hmy Hby ax Hmx Hbx. apply Z.mod_divide in Hmx as [i ->]; [|lia]. apply Z.mod_divide in Hmy as [j ->]; [|lia]. lia.
Qed.

Lemma align_limit x : 0 <= x -> x + PG_SIZE - 1 < 2 ^ 32 ->
  PAGE_ALIGN_UP x < USER_STACK_BASE <-> x <= USER_STACK_BASE - PG_SIZE.
Proof.
  intros H0 H1. destruct (page_align_up x H0 H1) as [Hm Hb].
  generalize dependent (PAGE_ALIGN_UP x). unfold USER_STACK_BASE, PG_SIZE in *. intros ax Hm Hb. apply Z.mod_divide in Hm as [i ->]; [|lia]. lia.
Qed.

Lemma vlist_set_end (a b : vlist) p v x :
  vlist_ok (a ++ (p, v) :: b) -> vma_start v <= x < 2 ^ 32 -> Forall (fun n => x <= vma_start n.2) b ->
  vlist_ok (a ++ (p, set_end x v) :: b).
Proof.
  intros [Hok Hnd] Hx Hb. split; [|by eapply NoDup_ids_mid].
  apply areas_ok_app in Hok as [Ha (H1 & H2 & H3)]. apply areas_ok_app. cbn. split_and!; [done|done|lia|].
  destruct b as [|[q u] b]; cbn in *; [lia|]. apply Forall_cons in Hb as [Hu _]. cbn in Hu. tauto.
Qed.

Lemma next_bound (b : vlist) lo (y : Z) : areas_ok lo b ->
  match b !! 0%nat with Some n => y <= vma_start n.2 | None => True end -> Forall (fun n => y <= vma_start n.2) b.
Proof.
  destruct b as [|[q u] b]; cbn; [constructor|]. intros (H1 & H2 & H3) Hy. constructor; [done|].
  apply Forall_forall. intros n Hn. destruct (areas_ok_in _ _ _ H3 Hn). lia.
Qed.

(** The pages of the process [cur] of [s, e) are gone, nothing else changed. *)
Definition freed (v v' : vm (D := D)) (cur s e : Z) : Prop :=
  forall pid x, x mod PG_SIZE = 0 ->
    view v' pid x = if bool_decide (pid = cur) && (s <=? x) && (x <? e) then None else view v pid x.

Lemma mfree_freed v AK AU cur s e :
  vm_ok v AK AU -> 0 <= s <= e -> e < 2 ^ 32 -> s mod PG_SIZE = 0 -> e mod PG_SIZE = 0 ->
  exists v' AU', mfree_physical_pages (Z.to_nat ((e - s) / PG_SIZE)) v cur s = Ok v' /\ vm_ok v' AK AU' /\
    freed v v' cur s e.
Proof.
  intros Hv Hse He Hs Hee.
  assert (Hn : s + Z.of_nat (Z.to_nat ((e - s) / PG_SIZE)) * PG_SIZE = e).
  { unfold PG_SIZE in *. apply Z.mod_divide in Hs as [i ->]; [|lia]. apply Z.mod_divide in Hee as [j ->]; [|lia].
    replace (j * 4096 - i * 4096) with ((j - i) * 4096) by lia. rewrite Z.div_mul by lia. lia. }
  destruct (mfree_physical_pages_spec (Z.to_nat ((e - s) / PG_SIZE)) v AK AU cur s Hv) as
    (v' & AU' & Hrun & Hv' & Hview); [lia|lia|].
  exists v', AU'. split_and!; [done|done|]. intros pid x Hx. rewrite Hview.
  case_bool_decide; cbn [andb]; [subst pid|by rewrite decide_False by naive_solver].
  destruct (Z.leb_spec s x); cbn [andb]; [destruct (Z.ltb_spec x e)|].
  - rewrite decide_True; [done|]. split; [done|]. apply aligned_page; [done|done|lia].
  - rewrite decide_False; [done|]. intros [_ Hp%pages_from_range]. lia.
  - rewrite decide_False; [done|]. intros [_ Hp%pages_from_range]. lia.
Qed.

Lemma freed_nothing v cur s e : e <= s -> freed v v cur s e.
Proof.
  intros He pid x _. destruct (Z.leb_spec s x), (Z.ltb_spec x e); rewrite ?andb_false_r; done || lia.
Qed.

(** The new limit is acceptable. *)
Definition brk_fits (t : mm_struct) (b : vlist) (new_brk : Z) : Prop :=
  0 < new_brk /\ end_data t <= new_brk <= USER_STACK_BASE - PG_SIZE /\
  Forall (fun n => PAGE_ALIGN_UP new_brk <= vma_start n.2) b.

(** C28. [sys_brk]: a limit between the end of the program's data and the stack that
    keeps the heap clear of the next area becomes the new limit and is answered; the
    heap area ends at its page boundary, the pages above it are released and all
    other pages of all processes stay; any other request answers the old limit and
    changes nothing.  The area list stays well formed and reference counts stay the
    numbers of mappings. *)
Theorem sys_brk_spec (w : world (S := S) (D := D)) AK AU cur new_brk a p heap b :
  let t := tmm w in let top := PAGE_ALIGN_UP new_brk in
  heap_ok t a p heap b -> vlist_ok (vma_list t) -> vm_ok (tvm w) AK AU -> 0 <= new_brk < 2 ^ 32 ->
  exists w' AU', sys_brk w cur new_brk = Ok (brk (tmm w'), w') /\ vm_ok (tvm w') AK AU' /\
    (brk_fits t b new_brk ->
       tmm w' = Mm (a ++ (p, set_end top heap) :: b) (end_data t) new_brk /\ ino w' = ino w /\
       heap_ok (tmm w') a p (set_end top heap) b /\ vlist_ok (vma_list (tmm w')) /\
       freed (tvm w) (tvm w') cur top (vma_end heap)) /\
    (~ brk_fits t b new_brk -> w' = w).
Proof.
  intros t top Hh Hok Hv Hnb. unfold sys_brk. fold t top.
  pose proof Hh as [Hl _ Hih Hbrk Hend]. apply andb_true_iff in Hih as [[Hst _]%andb_true_iff _].
  apply Z.eqb_eq in Hst. rewrite (find_heap_ok _ _ _ _ _ Hh).
  assert (H0 : 0 <= end_data t) by (rewrite <- Hst; rewrite Hl in Hok;
    destruct Hok as [[Ha (Hx & _)]%areas_ok_app _]; pose proof (last_end_ge _ _ Ha); lia).
  assert (Hunch : forall P : world -> Prop, ~ brk_fits t b new_brk -> exists w' AU',
    Ok (brk t, World t (tvm w) (ino w)) = Ok (brk (tmm w'), w') /\ vm_ok (tvm w') AK AU' /\
    (brk_fits t b new_brk -> P w') /\ (~ brk_fits t b new_brk -> w' = w)).
  { intros P Hn. exists w, AU. split_and!; [by destruct w|done|done|done]. }
  destruct (Z.eqb_spec new_brk 0); [cbn [orb]; eapply Hunch; unfold brk_fits; lia|]. cbn [orb].
  destruct (Z.ltb_spec new_brk (end_data t)); [cbn [orb]; eapply Hunch; unfold brk_fits; lia|]. cbn [orb].
  assert (Hub : USER_STACK_BASE = 0xC0000000) by done. assert (Hpg : PG_SIZE = 4096) by done.
  destruct (Z.leb_spec USER_STACK_BASE new_brk); [apply Hunch; unfold brk_fits; lia|].
  destruct (page_align_up new_brk) as [Hal Hle]; [lia|lia|]. fold top in Hal, Hle.
  destruct (page_align_up (brk t)) as [Hal' Hle']; [lia|lia|]. rewrite <- Hend in *.
  rewrite (proj2 (Z.ltb_ge top new_brk)) by lia. cbn [orb].
  pose proof (align_limit new_brk) as Hlim. fold top in Hlim.
  destruct (Z.leb_spec USER_STACK_BASE top); [apply Hunch; unfold brk_fits; lia|].
  pose proof (vl_areas _ Hok) as Hao. rewrite Hl in Hao. apply areas_ok_app in Hao as [_ (_ & Hse & Hb)].
  pose proof (heap_move t a p heap b new_brk Hh ltac:(lia)) as Hmove. fold top in Hmove.
  rewrite Hl in Hok |- *.
  assert (Hok' : Forall (fun n => top <= vma_start n.2) b -> vlist_ok (a ++ (p, set_end top heap) :: b)).
  { intros Hn. apply vlist_set_end; [done|lia|done]. }
  assert (Hsame : top = vma_end heap -> set_end top heap = heap) by (intros ->; by destruct heap).
  assert (Hstay : top = vma_end heap -> set_brk new_brk t = Mm (a ++ (p, set_end top heap) :: b) (end_data t) new_brk).
  { intros Ht. unfold set_brk. by rewrite Hl, Hsame. }
  assert (Hlow : top <= vma_end heap -> Forall (fun n => top <= vma_start n.2) b).
  { intros Ht. apply (next_bound b (vma_end heap)); [done|]. destruct b as [|[q u] b]; [done|]. cbn in *. lia. }
  assert (Hdone : forall v' AU', vm_ok v' AK AU' -> freed (tvm w) v' cur top (vma_end heap) ->
    Forall (fun n => top <= vma_start n.2) b ->
    exists w' AU', Ok (new_brk, World (Mm (a ++ (p, set_end top heap) :: b) (end_data t) new_brk) v' (ino w)) =
      Ok (brk (tmm w'), w') /\ vm_ok (tvm w') AK AU' /\
      (brk_fits t b new_brk ->
       tmm w' = Mm (a ++ (p, set_end top heap) :: b) (end_data t) new_brk /\ ino w' = ino w /\
       heap_ok (tmm w') a p (set_end top heap) b /\ vlist_ok (vma_list (tmm w')) /\
       freed (tvm w) (tvm w') cur top (vma_end heap)) /\ (~ brk_fits t b new_brk -> w' = w)).
  { intros v' AU' Hv' Hf Hn.
    exists (World (Mm (a ++ (p, set_end top heap) :: b) (end_data t) new_brk) v' (ino w)), AU'. split_and!; [done|done| |].
    - intros _. cbn [tmm ino tvm vma_list]. auto 6.
    - intros []. split_and!; [lia|lia|lia|done]. }
  pose proof (NoDup_ids_mid a b p heap heap (vl_ids _ Hok)) as Hnd.
  destruct (Z.ltb_spec new_brk (brk t)).
  - destruct (Z.ltb_spec top (vma_end heap)).
    + destruct (mfree_freed (tvm w) AK AU cur top (vma_end heap) Hv) as (v' & AU' & -> & Hv' & Hf);
        [lia|lia|done|done|]. ok_simpl. rewrite upd_vma_node by done. apply (Hdone v' AU'); [done|done|]. apply Hlow. lia.
    + assert (Heq : top = vma_end heap) by (pose proof (align_mono new_brk (brk t)); lia).
      rewrite Hstay by done. eapply Hdone; [done|apply freed_nothing; lia|apply Hlow; lia].
  - destruct (Z.leb_spec top (vma_end heap)).
    + assert (Heq : top = vma_end heap) by (pose proof (align_mono (brk t) new_brk); lia).
      rewrite Hstay by done. eapply Hdone; [done|apply freed_nothing; lia|apply Hlow; lia].
    + rewrite lookup_app_r, Nat.sub_succ_l, Nat.sub_diag by lia. cbn [lookup list_lookup].
      rewrite upd_vma_node by done. destruct b as [|[q u] b']; cbn [lookup list_lookup].
      * eapply Hdone; [done|apply freed_nothing; lia|constructor].
      * destruct (Z.ltb_spec (vma_start u) top).
        -- apply Hunch. unfold brk_fits. intros (_ & _ & [Hu _]%Forall_cons). cbn in Hu. fold top in Hu. lia.
        -- eapply Hdone; [done|apply freed_nothing; lia|]. by apply (next_bound _ (vma_end heap)).
Qed.
End grow.

(** ** Witnesses *)
Definition ex_flags : Z := VM_READ + VM_WRITE + VM_ANON.
Definition ex_space : vlist :=
  [(1, Vma 0x8048000 0x804c000 ex_flags 0 0 None);
   (2, Vma 0x8060000 0x8061000 HEAP_FLAGS 0 0 None);
   (3, Vma 0xBF800000 0xC0000000 (ex_flags + VM_GROWSDOWN) 0 0 None)].
Definition ex_world : world (S := inode_cache) (D := Z) := World (Mm ex_space 0x8060000 0x8060123) ex_vm2 ex_store.

Lemma ex_space_areas : areas_ok USER_VADDR_START ex_space.
Proof. cbn. unfold USER_VADDR_START. lia. Qed.

Lemma ex_space_ok : vlist_ok ex_space.
Proof.
  split; [eapply areas_ok_weaken; [apply ex_space_areas|done]|].
  apply (bool_decide_unpack _). vm_compute. exact I.
Qed.

Lemma ex_space_fresh : 9 ∉ ex_space.*1.
Proof. apply (bool_decide_unpack _). vm_compute. exact I. Qed.

Lemma sys_munmap_spec_witness :
  exists w', sys_munmap ex_world (Some 9) 1 0x8048000 0x1001 = Ok (0, w') /\
    page_view (vma_list (tmm w')) 0x8049fff = None /\
    page_view (vma_list (tmm w')) 0x804a000 = Some (ex_flags, Zeroes) /\
    view (tvm w') 1 ex_va = None /\ view (tvm w') 2 ex_va = view ex_vm2 2 ex_va.
Proof.
  destruct ex_vm2_ok as [x Hv].
  destruct (sys_munmap_spec ex_world ∅ {[ x := 0 ]} 9 1 0x8048000 0x1001) as (r & w' & AU' & Hrun & _ & Hok);
    [exact ex_space_ok|exact Hv|exact ex_space_fresh|reflexivity|lia|unfold PG_SIZE; lia|vm_compute; discriminate..| |].
  { apply Forall_cons. split; [intros _ _; repeat split|]. repeat constructor; intros _ Hx; vm_compute in Hx; discriminate Hx. }
  destruct Hok as (-> & _ & Hcl & _ & [Hu1 Hu2] & _).
  { apply Forall_cons. split; [intros _ _; reflexivity|]. repeat constructor; intros _ Hx; vm_compute in Hx; discriminate Hx. }
  exists w'. split; [exact Hrun|]. rewrite !Hcl. split_and!; [reflexivity|reflexivity| |].
  - assert (Hp : page_view (vma_list (tmm ex_world)) ex_va = Some (ex_flags, Zeroes)) by (vm_compute; reflexivity).
    rewrite Hu2, Hp; [reflexivity|split; vm_compute; [discriminate|reflexivity]|reflexivity].
  - apply Hu1. left. lia.
Defined.

Lemma do_mmap_anon_spec_witness :
  exists w', do_mmap ex_world (Some 9) 0 0x1001 (PROT_READ + PROT_WRITE) (MAP_PRIVATE + MAP_ANON) (-1) 0 None =
      Ok (0xBF7FE000, w') /\
    page_view (vma_list (tmm w')) 0xBF7FF000 = Some (ex_flags, Zeroes) /\
    page_view (vma_list (tmm w')) 0x8048000 = Some (ex_flags, Zeroes).
Proof.
  destruct (do_mmap_anon_spec ex_world 9 0x1001 (PROT_READ + PROT_WRITE) ex_space_areas (vl_ids _ ex_space_ok)
    ex_space_fresh) as (r & w' & Hrun & Hr); [lia|unfold PG_SIZE; lia|reflexivity|].
  assert (Hrv : r = 0xBF7FE000).
  { assert (He : match do_mmap ex_world (Some 9) 0 0x1001 (PROT_READ + PROT_WRITE) (MAP_PRIVATE + MAP_ANON) (-1) 0 None
      with Ok (y, _) => y | _ => 0 end = 0xBF7FE000) by (vm_compute; reflexivity).
    rewrite Hrun in He. exact He. }
  subst r. destruct Hr as [(Hx & _)|(_ & _ & l' & -> & _ & Hv)]; [discriminate Hx|].
  eexists. split; [exact Hrun|]. cbn [tmm vma_list set_vmas]. rewrite !Hv. split; reflexivity.
Defined.

Lemma sys_brk_spec_witness :
  exists w', sys_brk ex_world 1 0x8065678 = Ok (0x8065678, w') /\
    page_view (vma_list (tmm w')) 0x8065000 = Some (HEAP_FLAGS, Zeroes) /\
    page_view (vma_list (tmm w')) 0x8066000 = None.
Proof.
  destruct ex_vm2_ok as [x Hv].
  destruct (sys_brk_spec ex_world ∅ {[ x := 0 ]} 1 0x8065678 [(1, Vma 0x8048000 0x804c000 ex_flags 0 0 None)] 2
    (Vma 0x8060000 0x8061000 HEAP_FLAGS 0 0 None)
    [(3, Vma 0xBF800000 0xC0000000 (ex_flags + VM_GROWSDOWN) 0 0 None)]) as (w' & AU' & Hrun & _ & Hok & _).
  - split; [reflexivity|repeat constructor|reflexivity|vm_compute; split; discriminate|reflexivity].
  - apply ex_space_ok.
  - exact Hv.
  - lia.
  - destruct Hok as (Ht & _).
    { split; [lia|]. split; [vm_compute; split; discriminate|]. repeat constructor. vm_compute. discriminate. }
    exists w'. rewrite Ht in Hrun |- *. split; [exact Hrun|]. split; vm_compute; reflexivity.
Defined.
