(* ===== verification/Sched.v ===== *)
(** * thread/thread.c: tasks and the scheduler

    The task table, the ready list and the list of all tasks, [schedule] with its
    dynamic priorities, and the operations that move a task between running, ready
    and blocked.  All of them run with interrupts off on one processor, so each is
    one step.  [switch_to] changes which task runs; what a task does when it is
    switched back in is the continuation of the call that switched it out. *)

From S2P Require Import Prelude DList ListView.

Inductive task_status :=
  | TASK_RUNNING | TASK_READY | TASK_BLOCKED | TASK_WAITING | TASK_HANGING | TASK_DIED.

#[global] Instance task_status_eq_dec : EqDecision task_status.
Proof. solve_decision. Defined.

(** struct sigaction; SIG_DFL is handler 0 and SIG_IGN handler 1 *)
Record sigaction := Sigaction { sa_handler : Z; sa_mask : Z; sa_flags : Z; sa_restorer : Z }.
Definition SIG_NR : Z := 32.
Definition SIG_DFL : Z := 0.
Definition SIG_IGN : Z := 1.

(** The fields of [struct task_struct] that the scheduler, the timer and the signal
    code use. *)
Record task_struct := Task {
  pid : Z;
  status : task_status;
  priority : Z;
  ticks : Z;
  elapsed_ticks : Z;
  pgrp : Z;
  parent_pid : Z;
  mm : option Z;  (* the mm_struct, NULL for a kernel thread *)
  signal : Z;
  blocked : Z;
  alarm : Z;
  wait_until : Z;
  sigactions : list sigaction;
  exit_status : Z;
}.

Definition is_user (t : task_struct) : bool := match mm t with Some _ => true | None => false end.

Definition set_status (x : task_status) (t : task_struct) : task_struct :=
  Task (pid t) x (priority t) (ticks t) (elapsed_ticks t) (pgrp t) (parent_pid t) (mm t)
    (signal t) (blocked t) (alarm t) (wait_until t) (sigactions t) (exit_status t).
Definition set_ticks (x : Z) (t : task_struct) : task_struct :=
  Task (pid t) (status t) (priority t) x (elapsed_ticks t) (pgrp t) (parent_pid t) (mm t)
    (signal t) (blocked t) (alarm t) (wait_until t) (sigactions t) (exit_status t).
Definition set_elapsed (x : Z) (t : task_struct) : task_struct :=
  Task (pid t) (status t) (priority t) (ticks t) x (pgrp t) (parent_pid t) (mm t)
    (signal t) (blocked t) (alarm t) (wait_until t) (sigactions t) (exit_status t).
Definition set_pgrp (x : Z) (t : task_struct) : task_struct :=
  Task (pid t) (status t) (priority t) (ticks t) (elapsed_ticks t) x (parent_pid t) (mm t)
    (signal t) (blocked t) (alarm t) (wait_until t) (sigactions t) (exit_status t).
Definition set_parent (x : Z) (t : task_struct) : task_struct :=
  Task (pid t) (status t) (priority t) (ticks t) (elapsed_ticks t) (pgrp t) x (mm t)
    (signal t) (blocked t) (alarm t) (wait_until t) (sigactions t) (exit_status t).
Definition set_signal (x : Z) (t : task_struct) : task_struct :=
  Task (pid t) (status t) (priority t) (ticks t) (elapsed_ticks t) (pgrp t) (parent_pid t) (mm t)
    x (blocked t) (alarm t) (wait_until t) (sigactions t) (exit_status t).
Definition set_blocked (x : Z) (t : task_struct) : task_struct :=
  Task (pid t) (status t) (priority t) (ticks t) (elapsed_ticks t) (pgrp t) (parent_pid t) (mm t)
    (signal t) x (alarm t) (wait_until t) (sigactions t) (exit_status t).
Definition set_alarm (x : Z) (t : task_struct) : task_struct :=
  Task (pid t) (status t) (priority t) (ticks t) (elapsed_ticks t) (pgrp t) (parent_pid t) (mm t)
    (signal t) (blocked t) x (wait_until t) (sigactions t) (exit_status t).
Definition set_wait_until (x : Z) (t : task_struct) : task_struct :=
  Task (pid t) (status t) (priority t) (ticks t) (elapsed_ticks t) (pgrp t) (parent_pid t) (mm t)
    (signal t) (blocked t) (alarm t) x (sigactions t) (exit_status t).
Definition set_sigactions (x : list sigaction) (t : task_struct) : task_struct :=
  Task (pid t) (status t) (priority t) (ticks t) (elapsed_ticks t) (pgrp t) (parent_pid t) (mm t)
    (signal t) (blocked t) (alarm t) (wait_until t) x (exit_status t).
Definition set_exit_status (x : Z) (t : task_struct) : task_struct :=
  Task (pid t) (status t) (priority t) (ticks t) (elapsed_ticks t) (pgrp t) (parent_pid t) (mm t)
    (signal t) (blocked t) (alarm t) (wait_until t) (sigactions t) x.

(** The scheduler's state; a task is named by the address of its task_struct. *)
Record kernel := Kernel {
  tasks : gmap Z task_struct;
  thread_ready_list : list Z;
  thread_all_list : list Z;
  timer_list : list Z;    (* tasks with a wait_until, device/timer.c *)
  alarm_list : list Z;    (* tasks with an alarm *)
  sys_ticks : Z;          (* the global [ticks] *)
  cur_task : Z;
  idle_thread : Z;
  main_thread : Z;
}.

Definition set_tasks (m : gmap Z task_struct) (k : kernel) : kernel :=
  Kernel m (thread_ready_list k) (thread_all_list k) (timer_list k) (alarm_list k) (sys_ticks k) (cur_task k)
    (idle_thread k) (main_thread k).
Definition set_ready (l : list Z) (k : kernel) : kernel :=
  Kernel (tasks k) l (thread_all_list k) (timer_list k) (alarm_list k) (sys_ticks k) (cur_task k)
    (idle_thread k) (main_thread k).
Definition set_all (l : list Z) (k : kernel) : kernel :=
  Kernel (tasks k) (thread_ready_list k) l (timer_list k) (alarm_list k) (sys_ticks k) (cur_task k)
    (idle_thread k) (main_thread k).
Definition set_timers (l : list Z) (k : kernel) : kernel :=
  Kernel (tasks k) (thread_ready_list k) (thread_all_list k) l (alarm_list k) (sys_ticks k) (cur_task k)
    (idle_thread k) (main_thread k).
Definition set_alarms (l : list Z) (k : kernel) : kernel :=
  Kernel (tasks k) (thread_ready_list k) (thread_all_list k) (timer_list k) l (sys_ticks k) (cur_task k)
    (idle_thread k) (main_thread k).
Definition set_sys_ticks (n : Z) (k : kernel) : kernel :=
  Kernel (tasks k) (thread_ready_list k) (thread_all_list k) (timer_list k) (alarm_list k) n (cur_task k)
    (idle_thread k) (main_thread k).
Definition set_cur (p : Z) (k : kernel) : kernel :=
  Kernel (tasks k) (thread_ready_list k) (thread_all_list k) (timer_list k) (alarm_list k) (sys_ticks k) p
    (idle_thread k) (main_thread k).

(** A store to the task [p]. *)
Definition with_task (k : kernel) (p : Z) (f : task_struct -> task_struct) : res kernel :=
  t ← deref (tasks k !! p); Ok (set_tasks (<[p := f t]> (tasks k)) k).

Definition in_ready (k : kernel) (p : Z) : bool := bool_decide (p ∈ thread_ready_list k).

(** ** [schedule] *)

(** The scan for the ready task with most ticks, the first of several. *)
Fixpoint pick (m : gmap Z task_struct) (l : list Z) (next : option Z) (max_ticks : Z) : res (option Z * Z) :=
  match l with
  | [] => Ok (next, max_ticks)
  | p :: l =>
      t ← deref (m !! p);
      if max_ticks <? ticks t then pick m l (Some p) (ticks t) else pick m l next max_ticks
  end.

(** New ticks for every task when no ready task has any left. *)
Definition refill (t : task_struct) : task_struct := set_ticks (i16 (Z.shiftr (ticks t) 1 + priority t)) t.

Fixpoint refill_all (k : kernel) (l : list Z) : res kernel :=
  match l with
  | [] => Ok k
  | p :: l => k ← with_task k p refill; refill_all k l
  end.

Fixpoint choose (fuel : nat) (k : kernel) : res (Z * kernel) :=
  match fuel with
  | O => Fuel
  | S fuel =>
      '(next, max_ticks) ← pick (tasks k) (thread_ready_list k) None (-1);
      match next with
      | Some p =>
          if 0 <? max_ticks then Ok (p, k)
          else k ← refill_all k (thread_all_list k); choose fuel k
      | None =>
          if bool_decide (thread_ready_list k = []) then
            let p := idle_thread k in
            t ← deref (tasks k !! p);
            k ← (if ticks t =? 0 then with_task k p (set_ticks 1) else Ok k);
            Ok (p, k)
          else k ← refill_all k (thread_all_list k); choose fuel k
      end
  end.

(** Put the running task at the end of the ready list. *)
Definition enqueue (k : kernel) : res kernel :=
  let cur := cur_task k in
  _ ← assert_ (negb (in_ready k cur));
  with_task (set_ready (thread_ready_list k ++ [cur]) k) cur (set_status TASK_READY).

(** The switch to [next]. *)
Definition dispatch (k : kernel) (next : Z) : res kernel :=
  k ← (if in_ready k next then l ← unlink next (thread_ready_list k); Ok (set_ready l k) else Ok k);
  k ← with_task k next (set_status TASK_RUNNING);
  Ok (set_cur next k).

(** The fuel: at most one refill, then a task with ticks is found ([choose_ok]). *)
Definition schedule (k : kernel) : res kernel :=
  t ← deref (tasks k !! cur_task k);
  k ← (if bool_decide (status t = TASK_RUNNING) then enqueue k else Ok k);
  '(next, k) ← choose 2 k;
  dispatch k next.

(** ** Blocking and waking *)
Definition is_wait (s : task_status) : bool :=
  match s with TASK_BLOCKED | TASK_WAITING | TASK_HANGING => true | _ => false end.

Definition thread_block (k : kernel) (stat : task_status) : res kernel :=
  _ ← assert_ (is_wait stat);
  _ ← assert_ (negb (in_ready k (cur_task k)));
  k ← with_task k (cur_task k) (set_status stat);
  schedule k.

Definition thread_unblock (k : kernel) (p : Z) : res kernel :=
  t ← deref (tasks k !! p);
  _ ← assert_ (is_wait (status t));
  if in_ready k p then Panic
  else with_task (set_ready (p :: thread_ready_list k) k) p (set_status TASK_READY).

Definition thread_yield (k : kernel) : res kernel := k ← enqueue k; schedule k.

(** [init_thread] with the pid [allocate_pid] gave it. *)
Definition init_thread (is_main : bool) (pid prio : Z) : task_struct :=
  Task pid (if is_main then TASK_RUNNING else TASK_READY) prio prio 0 pid (-1) None 0 0 0 0
    (replicate (Z.to_nat SIG_NR) (Sigaction SIG_DFL 0 0 0)) 0.

(** [thread_start] of a new task_struct at address [p]. *)
Definition thread_start (k : kernel) (p pid prio : Z) : res kernel :=
  let t := init_thread (p =? main_thread k) pid prio in
  _ ← assert_ (negb (in_ready k p));
  _ ← assert_ (negb (bool_decide (p ∈ thread_all_list k)));
  Ok (set_all (thread_all_list k ++ [p]) (set_ready (thread_ready_list k ++ [p]) (set_tasks (<[p := t]> (tasks k)) k))).

(** [dlist_is_linked] and [dlist_remove]: leave a list one may be on. *)
Definition leave (p : Z) (l : list Z) : list Z := filter (fun x => x <> p) l.

(** [thread_exit]: the task leaves all lists and its task_struct is freed.  The result
    also has the pid for [release_pid] (the code reads it after the page is freed). *)
Definition thread_exit (k : kernel) (p : Z) (need_schedule : bool) : res (Z * kernel) :=
  t ← deref (tasks k !! p);
  k ← with_task k p (set_status TASK_DIED);
  let k := set_ready (leave p (thread_ready_list k)) k in
  let k := set_timers (leave p (timer_list k)) k in
  let k := set_alarms (leave p (alarm_list k)) k in
  l ← unlink p (thread_all_list k);
  let k := set_all l k in
  let k := if p =? main_thread k then k else set_tasks (delete p (tasks k)) k in
  k ← (if need_schedule then schedule k else Ok k);
  Ok (pid t, k).

(** The end of the timer interrupt handler: the running task uses up a tick. *)
Definition timer_tick (k : kernel) : res kernel :=
  t ← deref (tasks k !! cur_task k);
  if ticks t =? 0 then schedule k
  else with_task k (cur_task k) (set_ticks (ticks t - 1)).

(** ** Process groups and pids *)
Definition pid2thread (k : kernel) (n : Z) : option Z :=
  first_elem (fun p => match tasks k !! p with Some t => pid t =? n | None => false end) (thread_all_list k).

Definition EPERM : Z := 1.

Definition sys_setpgid (k : kernel) (n pgid : Z) : res (Z * kernel) :=
  match (if n =? 0 then Some (cur_task k) else pid2thread k n) with
  | None => Ok (-1, k)
  | Some p =>
      t ← deref (tasks k !! p);
      c ← deref (tasks k !! cur_task k);
      if negb (p =? cur_task k) && negb (parent_pid t =? pid c) then Ok (- EPERM, k)
      else
        k ← with_task k p (set_pgrp (if pgid =? 0 then pid t else pgid));
        Ok (0, k)
  end.

Definition sys_getpgid (k : kernel) (n : Z) : res Z :=
  if n =? 0 then t ← deref (tasks k !! cur_task k); Ok (pgrp t)
  else match pid2thread k n with
       | Some p => t ← deref (tasks k !! p); Ok (pgrp t)
       | None => Ok (-1)
       end.

Definition sys_getppid (k : kernel) : res Z := t ← deref (tasks k !! cur_task k); Ok (parent_pid t).

Lemma elem_of_leave p q l : q ∈ leave p l <-> q <> p /\ q ∈ l.
Proof. unfold leave. by rewrite list_elem_of_filter. Qed.

(** ** Well-formed states *)
Definition MAX_PRIORITY : Z := 2 ^ 13.

Record task_ok (t : task_struct) : Prop := {
  to_prio : 0 < priority t <= MAX_PRIORITY;
  to_ticks : 0 <= ticks t <= 2 * priority t;
}.

Definition tk (k : kernel) (p : Z) : Z := match tasks k !! p with Some t => ticks t | None => 0 end.

(** What holds whenever [schedule] is called. *)
Record sched_pre (k : kernel) : Prop := {
  sp_all : NoDup (thread_all_list k) /\ all_live (tasks k) (thread_all_list k);
  sp_task : forall p t, tasks k !! p = Some t -> task_ok t;
  sp_ready : NoDup (thread_ready_list k);
  sp_status : forall p t, p ∈ thread_all_list k -> tasks k !! p = Some t ->
    (p ∈ thread_ready_list k <-> status t = TASK_READY);
  sp_sub : forall p, p ∈ thread_ready_list k -> p ∈ thread_all_list k;
  sp_cur : cur_task k ∈ thread_all_list k;
  sp_one : forall p t, p ∈ thread_all_list k -> tasks k !! p = Some t -> status t = TASK_RUNNING -> p = cur_task k;
  sp_idle : idle_thread k ∈ thread_all_list k;
  sp_died : forall p t, p ∈ thread_all_list k -> tasks k !! p = Some t -> status t <> TASK_DIED;
}.

(** What holds while a task runs. *)
Record sched_ok (k : kernel) : Prop := {
  so_pre : sched_pre k;
  so_running : exists t, tasks k !! cur_task k = Some t /\ status t = TASK_RUNNING;
}.

Lemma all_task k p : sched_pre k -> p ∈ thread_all_list k -> exists t, tasks k !! p = Some t.
Proof.
  intros Hk Hp. destruct (sp_all _ Hk) as [_ Hl]. unfold all_live in Hl. rewrite Forall_forall in Hl.
  destruct (Hl p Hp) as [t Ht]. eauto.
Qed.

Lemma cur_not_ready k : sched_ok k -> cur_task k ∉ thread_ready_list k.
Proof.
  intros [Hp (t & Ht & Hs)] Hin. apply (sp_status _ Hp _ t (sp_cur _ Hp) Ht) in Hin. congruence.
Qed.

(** The scan. *)
Definition best (m : gmap Z task_struct) (l : list Z) (p : Z) (mx : Z) : Prop :=
  exists l1 l2 t, l = l1 ++ p :: l2 /\ m !! p = Some t /\ ticks t = mx /\
    (forall q u, q ∈ l1 -> m !! q = Some u -> ticks u < mx) /\ (forall q u, q ∈ l2 -> m !! q = Some u -> ticks u <= mx).

Lemma pick_spec m l next mx0 : all_live m l ->
  exists r mx, pick m l next mx0 = Ok (r, mx) /\
    ((r = next /\ mx = mx0 /\ forall q u, q ∈ l -> m !! q = Some u -> ticks u <= mx0) \/
     (exists p, r = Some p /\ mx0 < mx /\ best m l p mx)).
Proof.
  revert next mx0. induction l as [|q l IH]; intros next mx0 Hl; cbn [pick].
  { exists next, mx0. split; [done|]. left. split_and!; [done|done|]. by intros q u ?%not_elem_of_nil. }
  apply Forall_cons in Hl as [[t Ht] Hl]. rewrite Ht. ok_simpl.
  destruct (Z.ltb_spec mx0 (ticks t)).
  - destruct (IH (Some q) (ticks t) Hl) as (r & mx & Hrun & [(-> & -> & Hle)|(p & -> & Hlt & l1 & l2 & u & -> & Hu & He & H1 & H2)]).
    + exists (Some q), (ticks t). split; [done|]. right. exists q. split_and!; [done|done|].
      exists [], l, t. split_and!; [done|done|done|by intros ? ? ?%not_elem_of_nil|done].
    + exists (Some p), mx. split; [done|]. right. exists p. split_and!; [done|lia|].
      exists (q :: l1), l2, u. split_and!; [done|done|done| |done].
      intros q' u' [->|Hq]%elem_of_cons Hu'; [|by apply (H1 q' u')]. assert (u' = t) as -> by congruence. lia.
  - destruct (IH next mx0 Hl) as (r & mx & Hrun & [(-> & -> & Hle)|(p & -> & Hlt & l1 & l2 & u & -> & Hu & He & H1 & H2)]).
    + exists next, mx0. split; [done|]. left. split_and!; [done|done|].
      intros q' u' [->|Hq]%elem_of_cons Hu'; [|by apply (Hle q' u')]. assert (u' = t) as -> by congruence. lia.
    + exists (Some p), mx. split; [done|]. right. exists p. split_and!; [done|done|].
      exists (q :: l1), l2, u. split_and!; [done|done|done| |done].
      intros q' u' [->|Hq]%elem_of_cons Hu'; [|by apply (H1 q' u')]. assert (u' = t) as -> by congruence. lia.
Qed.

(** The refill. *)
Lemma refill_all_ok k l : NoDup l -> all_live (tasks k) l ->
  exists m', refill_all k l = Ok (set_tasks m' k) /\ mapped refill l (tasks k) m'.
Proof.
  revert k. induction l as [|p l IH]; intros k Hnd Hl; cbn [refill_all].
  { exists (tasks k). split; [by destruct k|]. intros q. by rewrite decide_False by (by intros ?%not_elem_of_nil). }
  apply NoDup_cons in Hnd as [Hp Hnd]. apply Forall_cons in Hl as [[t Ht] Hl]. unfold with_task. rewrite Ht. ok_simpl.
  destruct (IH (set_tasks (<[p := refill t]> (tasks k)) k) Hnd) as (m' & -> & Hm); [by apply all_live_insert|].
  exists m'. split; [done|]. by eapply mapped_insert.
Qed.

Lemma refill_ticks t : task_ok t -> ticks (refill t) = ticks t / 2 + priority t /\ task_ok (refill t) /\ 0 < ticks (refill t).
Proof.
  intros [Hp Ht]. unfold MAX_PRIORITY in *. assert (He : ticks (refill t) = ticks t / 2 + priority t).
  { unfold refill. cbn [ticks set_ticks]. rewrite Z.shiftr_div_pow2 by lia. change (2 ^ 1) with 2.
    unfold i16. apply signed_small; [lia|]. change (2 ^ (16 - 1)) with 32768.
    Z.to_euclidean_division_equations. lia. }
  assert (Hq : 0 <= ticks t / 2 <= priority t) by (Z.to_euclidean_division_equations; lia).
  split; [done|]. rewrite He. split; [|lia]. split; [done|]. rewrite He. cbn. lia.
Qed.

Definition same_lists (k k' : kernel) : Prop :=
  thread_all_list k' = thread_all_list k /\ timer_list k' = timer_list k /\ alarm_list k' = alarm_list k /\
  sys_ticks k' = sys_ticks k /\ idle_thread k' = idle_thread k /\ main_thread k' = main_thread k.

(** Did the ready tasks run out of ticks?  Then every task got new ones. *)
Definition refilled (k k' : kernel) (R : list Z) : Prop :=
  (forall p, p ∈ R -> tk k p = 0) /\ R <> [] /\
  forall p, p ∈ thread_all_list k -> tk k' p = tk k p / 2 + match tasks k !! p with Some t => priority t | None => 0 end.

Lemma choose_ok k : sched_pre k -> thread_ready_list k <> [] ->
  exists p k', choose 2 k = Ok (p, k') /\ sched_pre k' /\ same_lists k k' /\ cur_task k' = cur_task k /\
    thread_ready_list k' = thread_ready_list k /\ best (tasks k') (thread_ready_list k) p (tk k' p) /\ 0 < tk k' p /\
    (tasks k' = tasks k \/
     (refilled k k' (thread_ready_list k) /\ mapped refill (thread_all_list k) (tasks k) (tasks k'))).
Proof.
  intros Hk Hne.
  assert (Hlive : all_live (tasks k) (thread_ready_list k)).
  { apply Forall_forall. intros p Hp. destruct (all_task k p Hk (sp_sub _ Hk p Hp)) as [t Ht]. eauto. }
  assert (Hsome : exists q u, q ∈ thread_ready_list k /\ tasks k !! q = Some u /\ task_ok u).
  { destruct (thread_ready_list k) as [|q l] eqn:E; [done|]. apply Forall_cons in Hlive as [[u Hu] _].
    exists q, u. split_and!; [left|done|]. by apply (sp_task _ Hk q). }
  destruct Hsome as (q & u & Hq & Hu & Huo). cbn [choose].
  destruct (pick_spec (tasks k) (thread_ready_list k) None (-1) Hlive) as (r & mx & -> & [(-> & -> & Hle)|(p & -> & Hlt & Hbest)]).
  { specialize (Hle q u Hq Hu). destruct Huo as [_ ?]. lia. }
  ok_simpl. destruct (Z.ltb_spec 0 mx).
  { exists p, k. assert (Htk : tk k p = mx).
    { destruct Hbest as (l1 & l2 & t & _ & Ht & <- & _). unfold tk. by rewrite Ht. }
    rewrite Htk. split_and!; [done|done|by repeat split|done|done|done|done|by left]. }
  destruct (sp_all _ Hk) as [Hnd Hall].
  destruct (refill_all_ok k (thread_all_list k) Hnd Hall) as (m' & -> & Hm). ok_simpl.
  assert (Hpre : sched_pre (set_tasks m' k)).
  { assert (Hback : forall p t, m' !! p = Some t -> exists t0, tasks k !! p = Some t0 /\ status t = status t0 /\ (task_ok t0 -> task_ok t)).
    { intros p' t Ht. rewrite Hm in Ht. destruct (tasks k !! p') as [t0|]; [|by destruct (decide _)]. exists t0.
      split; [done|]. destruct (decide _); injection Ht as <-; [|done]. split; [done|]. intros Ho. apply (refill_ticks t0 Ho). }
    destruct Hk as [K1 K2 K3 K4 K5 K6 K7 K8 K9]. split; cbn [tasks set_tasks thread_all_list thread_ready_list cur_task idle_thread]; try done.
    - split; [done|]. eapply Forall_impl; [exact Hall|]. intros p' [t Ht]. cbn. rewrite (mapped_lookup _ _ _ _ _ _ Hm Ht). eauto.
    - intros p' t (t0 & Ht & _ & Ho)%Hback. eauto.
    - intros p' t Hp' (t0 & Ht & -> & _)%Hback. by apply K4.
    - intros p' t Hp' (t0 & Ht & -> & _)%Hback. by apply K7.
    - intros p' t Hp' (t0 & Ht & -> & _)%Hback. by apply (K9 p'). }
  assert (Hlive' : all_live m' (thread_ready_list k)).
  { apply Forall_forall. intros p' Hp'. destruct (all_task _ p' Hpre (sp_sub _ Hk p' Hp')) as [t Ht]. eauto. }
  assert (Hmem : forall p t, p ∈ thread_ready_list k -> m' !! p = Some t -> 0 < ticks t).
  { intros p' t Hp' Ht. rewrite Hm, decide_True in Ht by (by apply (sp_sub _ Hk)).
    destruct (tasks k !! p') as [t0|] eqn:Ht0; [|done]. injection Ht as <-. apply refill_ticks. by apply (sp_task _ Hk p'). }
  cbn [tasks set_tasks thread_ready_list].
  destruct (pick_spec m' (thread_ready_list k) None (-1) Hlive') as (r & mx' & -> & [(-> & -> & Hle)|(p' & -> & _ & Hbest')]).
  { exfalso. destruct (all_task _ q Hpre (sp_sub _ Hk q Hq)) as [t Ht]. specialize (Hle q t Hq Ht). specialize (Hmem q t Hq Ht). lia. }
  ok_simpl. pose proof Hbest' as (l1 & l2 & t & El & Ht & Ht2 & _).
  assert (Hpos : 0 < mx') by (rewrite <- Ht2; apply (Hmem p' t); [rewrite El; apply elem_of_app; right; left|done]).
  rewrite (proj2 (Z.ltb_lt 0 mx')) by done.
  assert (Htk : tk (set_tasks m' k) p' = mx') by (unfold tk; cbn; by rewrite Ht).
  exists p', (set_tasks m' k). rewrite Htk. split_and!; [done|done|by repeat split|done|done|done|done|].
  right. split; [|done]. split_and!; [|done|].
  - intros x Hx. unfold tk. destruct (all_task k x Hk (sp_sub _ Hk x Hx)) as [tx Htx]. rewrite Htx.
    destruct Hbest as (a & b & tp & Ea & Htp & Etp & Ha & Hb). pose proof (to_ticks _ (sp_task _ Hk x tx Htx)).
    rewrite Ea in Hx. apply elem_of_app in Hx as [Hx|[->|Hx]%elem_of_cons].
    + specialize (Ha x tx Hx Htx). lia.
    + assert (tp = tx) as -> by congruence. lia.
    + specialize (Hb x tx Hx Htx). lia.
  - intros x Hx. unfold tk. destruct (all_task k x Hk Hx) as [tx Htx]. rewrite Htx. cbn.
    rewrite (mapped_lookup _ _ _ _ _ _ Hm Htx), decide_True by done. apply refill_ticks. by apply (sp_task _ Hk x).
Qed.

Definition no_running (k : kernel) : Prop :=
  forall p t, p ∈ thread_all_list k -> tasks k !! p = Some t -> status t <> TASK_RUNNING.

Lemma task_ok_status s t : task_ok t -> task_ok (set_status s t).
Proof. by intros [? ?]. Qed.

Lemma insert_cases {A} (m : gmap Z A) p q a b : <[p := a]> m !! q = Some b -> (q = p /\ b = a) \/ (q <> p /\ m !! q = Some b).
Proof.
  destruct (decide (p = q)) as [->|Hne].
  - rewrite lookup_insert_eq. intros [= <-]. by left.
  - rewrite lookup_insert_ne by done. right. by split.
Qed.

(** A status change that fits the ready list. *)
Lemma restatus_pre k p t s l c :
  sched_pre k -> tasks k !! p = Some t -> p ∈ thread_all_list k ->
  NoDup l -> (forall q, q <> p -> q ∈ l <-> q ∈ thread_ready_list k) -> (p ∈ l <-> s = TASK_READY) ->
  c ∈ thread_all_list k ->
  (forall q u, q ∈ thread_all_list k -> q <> p -> tasks k !! q = Some u -> status u = TASK_RUNNING -> q = c) ->
  (s = TASK_RUNNING -> p = c) -> s <> TASK_DIED ->
  sched_pre (set_cur c (set_tasks (<[p := set_status s t]> (tasks k)) (set_ready l k))).
Proof.
  intros [[K1 K1'] K2 K3 K4 K5 K6 K7 K8 K9] Ht Hp Hnd Hl Hs Hc Hrun Hrun' Hsd.
  split; cbn [tasks set_tasks thread_all_list thread_ready_list cur_task idle_thread set_cur set_ready]; try done.
  - split; [done|]. by apply all_live_insert.
  - intros q u [[-> ->]|[_ Hq]]%insert_cases; [|by eapply K2]. apply task_ok_status. by eapply K2.
  - intros q u Hq [[-> ->]|[Hne Hu]]%insert_cases; [done|]. rewrite Hl by done. by apply K4.
  - intros q Hq. destruct (decide (q = p)) as [->|Hne]; [done|]. by apply K5, Hl.
  - intros q u Hq [[-> ->]|[Hne Hu]]%insert_cases; [done|]. by apply Hrun.
  - intros q u Hq [[-> ->]|[Hne Hu]]%insert_cases; [done|by apply (K9 q)].
Qed.

Lemma reticks_pre k p t n : sched_pre k -> tasks k !! p = Some t -> 0 <= n <= 2 * priority t ->
  sched_pre (set_tasks (<[p := set_ticks n t]> (tasks k)) k).
Proof.
  intros [[K1 K1'] K2 K3 K4 K5 K6 K7 K8 K9] Ht Hn.
  split; cbn [tasks set_tasks thread_all_list thread_ready_list cur_task idle_thread]; try done.
  - split; [done|]. by apply all_live_insert.
  - intros q u [[-> ->]|[_ Hq]]%insert_cases; [|by eapply K2]. destruct (K2 _ _ Ht) as [? ?]. by split.
  - intros q u Hq [[-> ->]|[_ Hu]]%insert_cases; [exact (K4 p t Hq Ht)|exact (K4 q u Hq Hu)].
  - intros q u Hq [[-> ->]|[_ Hu]]%insert_cases; [exact (K7 p t Hq Ht)|exact (K7 q u Hq Hu)].
  - intros q u Hq [[-> ->]|[_ Hu]]%insert_cases; [exact (K9 p t Hq Ht)|exact (K9 q u Hq Hu)].
Qed.

(** A store to fields the scheduler does not look at. *)
Definition same_sched (t t' : task_struct) : Prop :=
  status t' = status t /\ priority t' = priority t /\ ticks t' = ticks t.

Lemma store_pre k p t t' : sched_pre k -> tasks k !! p = Some t -> same_sched t t' ->
  sched_pre (set_tasks (<[p := t']> (tasks k)) k).
Proof.
  intros [[K1 K1'] K2 K3 K4 K5 K6 K7 K8 K9] Ht (E1 & E2 & E3).
  split; cbn [tasks set_tasks thread_all_list thread_ready_list cur_task idle_thread]; try done.
  - split; [done|]. by apply all_live_insert.
  - intros q u [[-> ->]|[_ Hq]]%insert_cases; [|by eapply K2]. destruct (K2 _ _ Ht) as [? ?]. split; congruence.
  - intros q u Hq [[-> ->]|[_ Hq']]%insert_cases; [rewrite E1|]; by apply K4.
  - intros q u Hq [[-> ->]|[_ Hq']]%insert_cases Hs; [rewrite E1 in Hs|]; by eapply K7.
  - intros q u Hq [[-> ->]|[_ Hq']]%insert_cases; [rewrite E1|]; by eapply K9.
Qed.

Lemma store_ok k p t t' : sched_ok k -> tasks k !! p = Some t -> same_sched t t' ->
  sched_ok (set_tasks (<[p := t']> (tasks k)) k).
Proof.
  intros [Hp (tc & Htc & Hs)] Ht Hsame. split; [by eapply store_pre|]. cbn [tasks set_tasks cur_task].
  destruct (decide (p = cur_task k)) as [->|Hne].
  - exists t'. split; [apply lookup_insert_eq|]. destruct Hsame as [-> _]. congruence.
  - exists tc. by rewrite lookup_insert_ne.
Qed.

(** Stores of that kind to many tasks. *)
Lemma mapped_ok k f l m' : sched_ok k -> mapped f l (tasks k) m' -> (forall t, same_sched t (f t)) ->
  sched_ok (set_tasks m' k).
Proof.
  intros [[[K1 K1'] K2 K3 K4 K5 K6 K7 K8 K9] (tc & Htc & Hs)] Hm Hf.
  assert (Hback : forall p t, m' !! p = Some t -> exists t0, tasks k !! p = Some t0 /\ same_sched t0 t).
  { intros p t Ht. rewrite Hm in Ht. destruct (tasks k !! p) as [t0|]; [|by destruct (decide _)]. exists t0. split; [done|].
    destruct (decide _); cbn in Ht; injection Ht as <-; [apply Hf|done]. }
  split; [split|]; cbn [tasks set_tasks thread_all_list thread_ready_list cur_task idle_thread]; try done.
  - split; [done|]. eapply Forall_impl; [exact K1'|]. intros p [t Ht]. cbn. rewrite (mapped_lookup _ _ _ _ _ _ Hm Ht). eauto.
  - intros p t (t0 & Ht & E1 & E2 & E3)%Hback. destruct (K2 p t0 Ht). split; congruence.
  - intros p t Hp (t0 & Ht & -> & _)%Hback. by apply K4.
  - intros p t Hp (t0 & Ht & -> & _)%Hback. by apply K7.
  - intros p t Hp (t0 & Ht & -> & _)%Hback. by apply (K9 p).
  - rewrite (mapped_lookup _ _ _ _ _ _ Hm Htc). eexists. split; [done|]. destruct (decide _); [|done].
    destruct (Hf tc) as [-> _]. done.
Qed.

Lemma enqueue_ok k t :
  sched_pre k -> tasks k !! cur_task k = Some t -> status t <> TASK_READY ->
  exists k', enqueue k = Ok k' /\ sched_pre k' /\ no_running k' /\ same_lists k k' /\ cur_task k' = cur_task k /\
    thread_ready_list k' = thread_ready_list k ++ [cur_task k] /\
    tasks k' = <[cur_task k := set_status TASK_READY t]> (tasks k).
Proof.
  intros Hk Ht Hs. assert (Hn : cur_task k ∉ thread_ready_list k).
  { by rewrite (sp_status _ Hk _ t (sp_cur _ Hk) Ht). }
  unfold enqueue, in_ready. rewrite bool_decide_false by done. ok_simpl. unfold with_task. cbn. rewrite Ht. ok_simpl.
  eexists. split; [done|]. split_and!; [| |by repeat split|done|done|done].
  - apply (restatus_pre k (cur_task k) t TASK_READY (thread_ready_list k ++ [cur_task k]) (cur_task k)); try done.
    + exact (sp_cur _ Hk).
    + apply NoDup_app. split_and!; [exact (sp_ready _ Hk)| |apply NoDup_singleton]. intros x Hx ->%list_elem_of_singleton. done.
    + intros q Hq. rewrite elem_of_app, list_elem_of_singleton. tauto.
    + rewrite elem_of_app, list_elem_of_singleton. tauto.
    + exact (sp_cur _ Hk).
    + intros q u Hq _ Hu. by apply (sp_one _ Hk q u).
  - intros q u Hq [[-> ->]|[Hne Hu]]%insert_cases; [done|]. intros Hr. apply Hne. by apply (sp_one _ Hk q u).
Qed.

Lemma dispatch_ok k p :
  sched_pre k -> no_running k -> p ∈ thread_all_list k ->
  exists k' t, dispatch k p = Ok k' /\ sched_ok k' /\ same_lists k k' /\ cur_task k' = p /\
    thread_ready_list k' = leave p (thread_ready_list k) /\ tasks k !! p = Some t /\
    tasks k' = <[p := set_status TASK_RUNNING t]> (tasks k).
Proof.
  intros Hk Hno Hp. destruct (all_task k p Hk Hp) as [t Ht]. unfold dispatch.
  assert (Hl : (if in_ready k p then l ← unlink p (thread_ready_list k); Ok (set_ready l k) else Ok k) =
    Ok (set_ready (leave p (thread_ready_list k)) k)).
  { unfold in_ready. case_bool_decide as Hr.
    - by rewrite (proj2 (unlink_ok p (thread_ready_list k) _) (conj Hr eq_refl)).
    - unfold leave. rewrite filter_ne_id by done. by destruct k. }
  rewrite Hl. ok_simpl. unfold with_task. cbn [tasks set_ready]. rewrite Ht. ok_simpl. eexists _, t. split; [done|].
  split_and!; [|by repeat split|done|done|done|done]. split.
  - apply (restatus_pre k p t TASK_RUNNING (leave p (thread_ready_list k)) p); try done.
    + unfold leave. apply NoDup_filter, (sp_ready _ Hk).
    + intros q Hq. unfold leave. rewrite list_elem_of_filter. tauto.
    + unfold leave. rewrite list_elem_of_filter. split; [by intros []|done].
    + intros q u Hq _ Hu Hr. by destruct (Hno q u Hq Hu).
  - exists (set_status TASK_RUNNING t). cbn. by rewrite lookup_insert_eq.
Qed.

(** The tasks that compete for the processor in a call of [schedule]. *)
Definition contenders (k : kernel) : list Z :=
  match tasks k !! cur_task k with
  | Some t => if bool_decide (status t = TASK_RUNNING) then thread_ready_list k ++ [cur_task k] else thread_ready_list k
  | None => thread_ready_list k
  end.

(** What [schedule] decides. *)
Definition decision (k k' : kernel) : Prop :=
  let R := contenders k in
  (R = [] /\ cur_task k' = idle_thread k /\ thread_ready_list k' = [] /\ forall p, p <> idle_thread k -> tk k' p = tk k p) \/
  (exists l1 l2, R = l1 ++ cur_task k' :: l2 /\ thread_ready_list k' = l1 ++ l2 /\ 0 < tk k' (cur_task k') /\
     (forall p, p ∈ l1 -> tk k' p < tk k' (cur_task k')) /\ (forall p, p ∈ l2 -> tk k' p <= tk k' (cur_task k')) /\
     ((forall p, tk k' p = tk k p) \/ refilled k k' R)).

Lemma tk_restatus k k' p s t : tasks k !! p = Some t -> tasks k' = <[p := set_status s t]> (tasks k) -> forall q, tk k' q = tk k q.
Proof.
  intros Ht He q. unfold tk. rewrite He. destruct (decide (p = q)) as [->|Hne].
  - by rewrite lookup_insert_eq, Ht.
  - by rewrite lookup_insert_ne.
Qed.

Definition prio_of (k : kernel) (p : Z) : Z := match tasks k !! p with Some t => priority t | None => 0 end.

Lemma prio_restatus k k' p s t : tasks k !! p = Some t -> tasks k' = <[p := set_status s t]> (tasks k) ->
  forall q, prio_of k' q = prio_of k q.
Proof.
  intros Ht He q. unfold prio_of. rewrite He. destruct (decide (p = q)) as [->|Hne].
  - by rewrite lookup_insert_eq, Ht.
  - by rewrite lookup_insert_ne.
Qed.

Lemma same_lists_trans k1 k2 k3 : same_lists k1 k2 -> same_lists k2 k3 -> same_lists k1 k3.
Proof. intros (A1 & A2 & A3 & A4 & A5 & A6) (B1 & B2 & B3 & B4 & B5 & B6). repeat split; congruence. Qed.

Lemma schedule_ok k : sched_pre k ->
  exists k', schedule k = Ok k' /\ sched_ok k' /\ same_lists k k' /\ decision k k'.
Proof.
  intros Hk. destruct (all_task k (cur_task k) Hk (sp_cur _ Hk)) as [t Ht]. unfold schedule. rewrite Ht. ok_simpl.
  assert (H1 : exists k1, (if bool_decide (status t = TASK_RUNNING) then enqueue k else Ok k) = Ok k1 /\ sched_pre k1 /\
    no_running k1 /\ same_lists k k1 /\ thread_ready_list k1 = contenders k /\ (forall q, tk k1 q = tk k q) /\
    (forall q, prio_of k1 q = prio_of k q)).
  { unfold contenders. rewrite Ht. case_bool_decide as Hs.
    - destruct (enqueue_ok k t Hk Ht) as (k1 & -> & Hk1 & Hno & Hsl & Hcur & Hr & Htk); [congruence|].
      exists k1. split_and!; try done; [by eapply tk_restatus|by eapply prio_restatus].
    - exists k. split_and!; try done. intros p u Hp Hu Hrun. rewrite (sp_one _ Hk p u Hp Hu Hrun) in Hu. congruence. }
  destruct H1 as (k1 & -> & Hk1 & Hno & Hsl1 & Hr1 & Htk1 & Hpr1). ok_simpl. pose proof Hsl1 as (Hall1 & _ & _ & _ & Hid1 & _).
  destruct (decide (thread_ready_list k1 = [])) as [Hnil|Hne].
  - cbn [choose]. rewrite Hnil. cbn [pick]. ok_simpl. rewrite bool_decide_true by done.
    destruct (all_task k1 (idle_thread k1) Hk1 (sp_idle _ Hk1)) as [ti Hti]. rewrite Hti. ok_simpl.
    assert (H2 : exists k2, (if ticks ti =? 0 then with_task k1 (idle_thread k1) (set_ticks 1) else Ok k1) = Ok k2 /\
      sched_pre k2 /\ no_running k2 /\ same_lists k1 k2 /\ thread_ready_list k2 = [] /\
      (forall p, p <> idle_thread k1 -> tk k2 p = tk k1 p)).
    { destruct (Z.eqb_spec (ticks ti) 0); [|exists k1; by split_and!]. unfold with_task. rewrite Hti. ok_simpl.
      eexists. split; [done|]. split_and!; [| |by repeat split|done|].
      - apply (reticks_pre k1 _ ti 1 Hk1 Hti). pose proof (to_prio _ (sp_task _ Hk1 _ _ Hti)). lia.
      - intros q u Hq [[-> ->]|[_ Hu]]%insert_cases; [exact (Hno _ ti Hq Hti)|exact (Hno q u Hq Hu)].
      - intros q Hq. unfold tk. cbn. by rewrite lookup_insert_ne. }
    destruct H2 as (k2 & -> & Hk2 & Hno2 & Hsl2 & Hr2 & Htk2). ok_simpl.
    destruct (dispatch_ok k2 (idle_thread k1) Hk2 Hno2) as (k' & t' & -> & Hok & Hsl' & Hcur' & Hr' & Ht' & Hta).
    { destruct Hsl2 as (-> & _). apply (sp_idle _ Hk1). }
    exists k'. split_and!; [done|done|by eapply same_lists_trans, same_lists_trans|].
    left. split_and!; [congruence|congruence|by rewrite Hr', Hr2|]. intros p Hp.
    rewrite (tk_restatus k2 k' _ _ t' Ht' Hta), Htk2, Htk1 by congruence. done.
  - destruct (choose_ok k1 Hk1 Hne) as (p & k2 & -> & Hk2 & Hsl2 & Hcur2 & Hr2 & Hbest & Hpos & Href). ok_simpl.
    assert (Hno2 : no_running k2).
    { destruct Hsl2 as (Hall2 & _). intros q u Hq Hu. rewrite Hall2 in Hq.
      destruct Href as [E|[_ Hm]]; [rewrite E in Hu; by apply (Hno q)|]. rewrite Hm, decide_True in Hu by done.
      destruct (tasks k1 !! q) as [u0|] eqn:E; [|done]. injection Hu as <-. by apply (Hno q u0). }
    pose proof Hbest as (l1 & l2 & tp & El & Htp & Emx & H1 & H2).
    destruct (dispatch_ok k2 p Hk2 Hno2) as (k' & t' & -> & Hok & Hsl' & Hcur' & Hr' & Ht' & Hta).
    { apply (sp_sub _ Hk2). rewrite Hr2, El. apply elem_of_app. right. left. }
    pose proof (tk_restatus k2 k' _ _ t' Ht' Hta) as Htk'.
    exists k'. split_and!; [done|done|by eapply same_lists_trans, same_lists_trans|].
    right. exists l1, l2. rewrite Hcur'. unfold contenders in *.
    assert (Hlive : forall q, q ∈ l1 \/ q ∈ l2 -> exists u, tasks k2 !! q = Some u).
    { intros q Hq. apply (all_task k2 q Hk2), (sp_sub _ Hk2). rewrite Hr2, El. apply elem_of_app.
      destruct Hq; [by left|right; by right]. }
    split_and!.
    + congruence.
    + rewrite Hr', Hr2, El. unfold leave. apply filter_ne_split. rewrite <- El, <- Hr2. apply (sp_ready _ Hk2).
    + by rewrite Htk'.
    + intros q Hq. destruct (Hlive q (or_introl Hq)) as [u Hu]. rewrite !Htk'. unfold tk at 1. rewrite Hu. by apply (H1 q).
    + intros q Hq. destruct (Hlive q (or_intror Hq)) as [u Hu]. rewrite !Htk'. unfold tk at 1. rewrite Hu. by apply (H2 q).
    + destruct Href as [E|[(Hz & Hn & Hf) _]].
      * left. intros q. rewrite Htk'. unfold tk. rewrite E. apply Htk1.
      * right. rewrite <- Hr1. split_and!; [|done|].
        -- intros q Hq. rewrite <- Htk1. auto.
        -- intros q Hq. rewrite Htk', Hf, Htk1 by congruence. f_equal. apply Hpr1.
Qed.

(** C19. [schedule] terminates (its loop runs at most twice) and picks, among the tasks
    that compete for the processor, the first with the most ticks in the order of the
    ready list; when no contender has ticks left, every task of the system first gets
    half of its ticks plus its priority; with no contender the idle thread runs.  The
    chosen task is running, the others keep their places in the ready list, and the
    scheduler's invariant holds. *)
Theorem schedule_decision k : sched_pre k ->
  exists k', schedule k = Ok k' /\ sched_ok k' /\ same_lists k k' /\ decision k k'.
Proof. apply schedule_ok. Qed.

(** ** All operations *)
Inductive sched_op :=
  | OBlock (stat : task_status)
  | OUnblock (p : Z)
  | OYield
  | OTick
  | OStart (p pid prio : Z)
  | OExit (p : Z).

(** When the kernel may perform an operation: wake a sleeping task, start a task in a
    fresh page, collect a task that is neither the running nor the idle one. *)
Definition enabled (k : kernel) (o : sched_op) : Prop :=
  match o with
  | OBlock stat => is_wait stat = true
  | OUnblock p => p ∈ thread_all_list k /\ exists t, tasks k !! p = Some t /\ is_wait (status t) = true
  | OYield | OTick => True
  | OStart p _ prio => (tasks k !! p = None /\ p <> main_thread k) /\ 0 < prio <= MAX_PRIORITY
  | OExit p => p ∈ thread_all_list k /\ p <> cur_task k /\ p <> idle_thread k /\ p <> main_thread k
  end.

Definition run_op (k : kernel) (o : sched_op) : res kernel :=
  match o with
  | OBlock stat => thread_block k stat
  | OUnblock p => thread_unblock k p
  | OYield => thread_yield k
  | OTick => timer_tick k
  | OStart p pid prio => thread_start k p pid prio
  | OExit p => r ← thread_exit k p false; Ok r.2
  end.

(** The states reachable from [k]. *)
Inductive reach (k : kernel) : kernel -> Prop :=
  | reach_refl : reach k k
  | reach_step k1 o k2 : reach k k1 -> enabled k1 o -> run_op k1 o = Ok k2 -> reach k k2.

Lemma block_ok k stat : sched_ok k -> is_wait stat = true ->
  exists k', thread_block k stat = Ok k' /\ sched_ok k' /\ same_lists k k' /\
    (cur_task k <> idle_thread k -> cur_task k <> cur_task k' /\ cur_task k ∉ thread_ready_list k') /\
    ((thread_ready_list k = [] /\ cur_task k' = idle_thread k /\ thread_ready_list k' = []) \/
     exists l1 l2, thread_ready_list k = l1 ++ cur_task k' :: l2 /\ thread_ready_list k' = l1 ++ l2).
Proof.
  intros Hk Hs. pose proof (cur_not_ready k Hk) as Hn. destruct Hk as [Hp (t & Ht & Hst)].
  unfold thread_block, in_ready. rewrite Hs, bool_decide_false by done. ok_simpl. unfold with_task. rewrite Ht. ok_simpl.
  destruct (schedule_ok (set_tasks (<[cur_task k := set_status stat t]> (tasks k)) k)) as (k' & Hrun & Hk' & Hsl & Hd).
  - pose proof (restatus_pre k (cur_task k) t stat (thread_ready_list k) (cur_task k) Hp Ht (sp_cur _ Hp) (sp_ready _ Hp)) as H.
    destruct k. apply H; [done| |apply (sp_cur _ Hp)| |done|by intros ->].
    + split; [done|]. intros ->. discriminate Hs.
    + intros q u Hq _ Hu. by apply (sp_one _ Hp q u).
  - exists k'.
    assert (HR : contenders (set_tasks (<[cur_task k := set_status stat t]> (tasks k)) k) = thread_ready_list k).
    { unfold contenders. cbn [tasks cur_task set_tasks thread_ready_list]. rewrite lookup_insert_eq.
      rewrite bool_decide_false; [done|]. cbn. by intros ->. }
    unfold decision in Hd. rewrite HR in Hd. split_and!; [done|done|done| |].
    + intros Hidle. destruct Hd as [(Hn0 & Hc & Hl0 & _)|(l1 & l2 & He & Hl & _)].
      * rewrite Hc, Hl0. split; [done|apply not_elem_of_nil].
      * rewrite He in Hn. rewrite Hl, elem_of_app. apply not_elem_of_app in Hn as [Hn1 [Hn2 Hn3]%not_elem_of_cons]. tauto.
    + destruct Hd as [(Hn0 & Hc & Hl0 & _)|(l1 & l2 & He & Hl & _)]; [by left|right; eauto].
Qed.

Lemma yield_ok k : sched_ok k -> exists k', thread_yield k = Ok k' /\ sched_ok k'.
Proof.
  intros [Hp (t & Ht & Hst)]. unfold thread_yield.
  destruct (enqueue_ok k t Hp Ht) as (k1 & -> & Hk1 & _); [congruence|]. ok_simpl.
  destruct (schedule_ok k1 Hk1) as (k' & -> & Hk' & _). eauto.
Qed.

Lemma unblock_ok k p t : sched_ok k -> p ∈ thread_all_list k -> tasks k !! p = Some t -> is_wait (status t) = true ->
  exists k', thread_unblock k p = Ok k' /\ sched_ok k' /\ cur_task k' = cur_task k /\
    thread_ready_list k' = p :: thread_ready_list k /\ same_lists k k' /\
    tasks k' = <[p := set_status TASK_READY t]> (tasks k).
Proof.
  intros [Hp (tc & Htc & Hst)] Hall Ht Hw.
  assert (Hn : p ∉ thread_ready_list k).
  { rewrite (sp_status _ Hp p t Hall Ht). intros E. by rewrite E in Hw. }
  assert (Hpc : p <> cur_task k) by (intros ->; assert (tc = t) as -> by congruence; by rewrite Hst in Hw).
  unfold thread_unblock, in_ready. rewrite Ht. ok_simpl. rewrite Hw, bool_decide_false by done. ok_simpl.
  unfold with_task. cbn [tasks set_ready]. rewrite Ht. ok_simpl. eexists. split; [done|].
  split_and!; [|done|done|by repeat split|done]. split.
  - pose proof (restatus_pre k p t TASK_READY (p :: thread_ready_list k) (cur_task k) Hp Ht Hall) as H.
    destruct k. apply H; [|..|done|done].
    + apply NoDup_cons. split; [done|]. apply (sp_ready _ Hp).
    + intros q Hq. rewrite elem_of_cons. tauto.
    + split; [done|]. intros _. left.
    + apply (sp_cur _ Hp).
    + intros q u Hq _ Hu. by apply (sp_one _ Hp q u).
  - cbn. exists tc. by rewrite lookup_insert_ne.
Qed.

Lemma tick_ok k : sched_ok k ->
  exists k', timer_tick k = Ok k' /\ sched_ok k' /\
    ((0 < tk k (cur_task k) /\ cur_task k' = cur_task k /\ thread_ready_list k' = thread_ready_list k /\
      forall p, tk k' p = if decide (p = cur_task k) then tk k p - 1 else tk k p) \/
     (tk k (cur_task k) = 0 /\ decision k k')).
Proof.
  intros [Hp (t & Ht & Hst)]. unfold timer_tick. rewrite Ht. ok_simpl.
  assert (Htk : tk k (cur_task k) = ticks t) by (unfold tk; by rewrite Ht). rewrite Htk.
  destruct (sp_task _ Hp _ _ Ht) as [Hpr Hti]. destruct (Z.eqb_spec (ticks t) 0) as [E|E].
  - destruct (schedule_ok k Hp) as (k' & -> & Hk' & _ & Hd). exists k'. split_and!; [done|done|by right].
  - unfold with_task. rewrite Ht. ok_simpl. eexists. split; [done|]. split; [|left; split_and!; [lia|done|done|]].
    + split; [apply (reticks_pre k _ t); [done|done|lia]|].
      exists (set_ticks (ticks t - 1) t). cbn. by rewrite lookup_insert_eq.
    + intros p. unfold tk. cbn. case_decide as Hd.
      * subst p. by rewrite lookup_insert_eq, Ht.
      * by rewrite lookup_insert_ne.
Qed.

Lemma start_ok k p n prio : sched_ok k -> tasks k !! p = None /\ p <> main_thread k -> 0 < prio <= MAX_PRIORITY ->
  exists k', thread_start k p n prio = Ok k' /\ sched_ok k'.
Proof.
  intros [Hp (t & Ht & Hst)] [Hn Hmain] Hpr. unfold thread_start. rewrite (proj2 (Z.eqb_neq p (main_thread k)) Hmain).
  assert (Hna : p ∉ thread_all_list k).
  { intros Hin. destruct (all_task k p Hp Hin). congruence. }
  assert (Hnr : p ∉ thread_ready_list k) by (intros Hin; by apply Hna, (sp_sub _ Hp)).
  unfold in_ready. rewrite !bool_decide_false by done. ok_simpl. eexists. split; [done|].
  destruct Hp as [[K1 K1'] K2 K3 K4 K5 K6 K7 K8 K9]. split.
  - split; cbn [tasks set_tasks thread_all_list thread_ready_list cur_task idle_thread set_all set_ready].
    + split.
      * apply NoDup_app. split_and!; [done| |apply NoDup_singleton]. by intros x Hx ->%list_elem_of_singleton.
      * apply Forall_app. split; [by apply all_live_insert|]. constructor; [|constructor]. rewrite lookup_insert_eq. eauto.
    + intros q u [[-> ->]|[_ Hq]]%insert_cases; [|by eapply K2]. split; cbn; lia.
    + apply NoDup_app. split_and!; [done| |apply NoDup_singleton]. by intros x Hx ->%list_elem_of_singleton.
    + intros q u Hq [[-> ->]|[Hne Hu]]%insert_cases; rewrite elem_of_app, list_elem_of_singleton; [by split; [|by right]|].
      apply elem_of_app in Hq as [Hq|Hq%list_elem_of_singleton]; [|done]. rewrite <- (K4 q u Hq Hu). tauto.
    + intros q. rewrite !elem_of_app. intros [Hq|Hq]; [left; auto|by right].
    + apply elem_of_app. by left.
    + intros q u Hq [[-> ->]|[Hne Hu]]%insert_cases; [done|].
      apply elem_of_app in Hq as [Hq|Hq%list_elem_of_singleton]; [by apply (K7 q u)|done].
    + apply elem_of_app. by left.
    + intros q u Hq [[-> ->]|[Hne Hu]]%insert_cases; [done|].
      apply elem_of_app in Hq as [Hq|Hq%list_elem_of_singleton]; [by apply (K9 q u)|done].
  - exists t. cbn. rewrite lookup_insert_ne; [done|]. congruence.
Qed.

Lemma exit_ok k p : sched_ok k -> p ∈ thread_all_list k -> p <> cur_task k -> p <> idle_thread k -> p <> main_thread k ->
  exists r, thread_exit k p false = Ok r /\ sched_ok r.2 /\ tasks r.2 = delete p (tasks k) /\
    thread_all_list r.2 = leave p (thread_all_list k) /\ thread_ready_list r.2 = leave p (thread_ready_list k) /\
    cur_task r.2 = cur_task k /\ idle_thread r.2 = idle_thread k /\ main_thread r.2 = main_thread k.
Proof.
  intros [Hp (t & Ht & Hst)] Hall Hc Hi Hm. destruct (all_task k p Hp Hall) as [tp Htp].
  unfold thread_exit, with_task. rewrite Htp. ok_simpl. cbn [thread_all_list set_alarms set_timers set_ready set_tasks].
  rewrite (proj2 (unlink_ok p (thread_all_list k) _) (conj Hall eq_refl)). ok_simpl.
  cbn [main_thread set_all set_alarms set_timers set_ready set_tasks].
  rewrite (proj2 (Z.eqb_neq _ _)) by done. eexists. split; [done|]. cbn [snd tasks set_all set_alarms set_timers set_ready set_tasks].
  rewrite delete_insert_eq. destruct Hp as [[K1 K1'] K2 K3 K4 K5 K6 K7 K8 K9].
  pose proof (elem_of_leave p) as Hin. split; [|done].
  split.
  - split; cbn [tasks thread_all_list thread_ready_list cur_task idle_thread set_all set_alarms set_timers set_ready set_tasks];
      fold (leave p (thread_all_list k)).
    + split; [by apply NoDup_filter|]. apply Forall_forall. intros q [Hne Hq]%Hin. rewrite lookup_delete_ne by done.
      unfold all_live in K1'. rewrite Forall_forall in K1'. auto.
    + intros q u [_ Hu]%lookup_delete_Some. by eapply K2.
    + by apply NoDup_filter.
    + intros q u [Hne Hq]%Hin [_ Hu]%lookup_delete_Some. rewrite Hin, <- (K4 q u Hq Hu). tauto.
    + intros q [Hne Hq]%Hin. apply Hin. auto.
    + by apply Hin.
    + intros q u [Hne Hq]%Hin [_ Hu]%lookup_delete_Some. by apply (K7 q u).
    + by apply Hin.
    + intros q u [Hne Hq]%Hin [_ Hu]%lookup_delete_Some. by apply (K9 q u).
  - exists t. cbn. by rewrite lookup_delete_ne.
Qed.

(** C7. The scheduler's invariant (the ready list is exactly the tasks in state ready,
    without repetition; exactly one task is running, and it is the current one; ticks
    stay between 0 and twice the priority, so the 16-bit counters never overflow) holds in
    every state reachable by blocking, waking, yielding, timer ticks, and starting and
    collecting tasks; and none of these operations, when the kernel may perform it,
    panics or faults there. *)
Theorem scheduler_invariant k0 k : sched_ok k0 -> reach k0 k ->
  sched_ok k /\ forall o, enabled k o -> exists k', run_op k o = Ok k' /\ sched_ok k'.
Proof.
  intros H0 Hr.
  assert (Hstep : forall k o, sched_ok k -> enabled k o -> exists k', run_op k o = Ok k' /\ sched_ok k').
  { intros k1 [stat|p| | |p n prio|p] Hk He; cbn [run_op enabled] in *.
    - destruct (block_ok k1 stat Hk He) as (k' & ? & ? & _). eauto.
    - destruct He as (Hp & t & Ht & Hw). destruct (unblock_ok k1 p t Hk Hp Ht Hw) as (k' & ? & ? & _). eauto.
    - by apply yield_ok.
    - destruct (tick_ok k1 Hk) as (k' & ? & ? & _). eauto.
    - destruct He. by apply start_ok.
    - destruct He as (? & ? & ? & ?). destruct (exit_ok k1 p) as (r & -> & ? & _); [done..|]. ok_simpl. eauto. }
  assert (Hk : sched_ok k).
  { induction Hr as [|k1 o k2 _ IH He Hrun]; [done|]. destruct (Hstep k1 o IH He) as (k' & Hrun' & Hk').
    assert (k' = k2) as <- by congruence. done. }
  split; [done|]. intros o He. by apply Hstep.
Qed.

(** ** No starvation *)
Fixpoint timer_ticks (n : nat) (k : kernel) : res kernel :=
  match n with O => Ok k | S n => k ← timer_tick k; timer_ticks n k end.

Definition total (k : kernel) : Z := foldr (fun p s => tk k p + s) 0 (cur_task k :: thread_ready_list k).

Definition work (k : kernel) : Z := 2 * total k + (if tk k (cur_task k) =? 0 then 1 else 0).

Lemma tk_range k p : sched_pre k -> 0 <= tk k p.
Proof. intros Hk. unfold tk. destruct (tasks k !! p) as [t|] eqn:E; [|lia]. apply (sp_task _ Hk p t E). Qed.

Definition sum (f : Z -> Z) (l : list Z) : Z := foldr (fun p s => f p + s) 0 l.

Lemma sum_perm f l l' : l ≡ₚ l' -> sum f l = sum f l'.
Proof. unfold sum. induction 1; cbn; lia. Qed.

Lemma sum_ext f g l : (forall p, p ∈ l -> f p = g p) -> sum f l = sum g l.
Proof.
  intros He. induction l as [|x l IH]; cbn; [done|]. rewrite He by left. unfold sum in IH. rewrite IH; [done|].
  intros p Hp. apply He. by right.
Qed.

Lemma sum_nonneg f l : (forall p, 0 <= f p) -> 0 <= sum f l.
Proof. intros Hf. induction l as [|x l IH]; cbn; [lia|]. specialize (Hf x). unfold sum in IH. lia. Qed.

Lemma contenders_ok k : sched_ok k -> contenders k = thread_ready_list k ++ [cur_task k].
Proof. intros [_ (t & Ht & Hs)]. unfold contenders. rewrite Ht. by rewrite bool_decide_true. Qed.

(** One tick: either work is done, or a new round begins because nobody has ticks left. *)
Lemma tick_work k p : sched_ok k -> p ∈ thread_ready_list k ->
  exists k', timer_tick k = Ok k' /\ sched_ok k' /\
    (cur_task k' = p \/
     (p ∈ thread_ready_list k' /\ work k' < work k /\ tk k' p = tk k p) \/
     (p ∈ thread_ready_list k' /\ tk k p = 0 /\ 0 < tk k' p)).
Proof.
  intros Hk Hp. destruct (tick_ok k Hk) as (k' & Hrun & Hk' & Hcase). exists k'. split_and!; [done|done|].
  pose proof (cur_not_ready k Hk) as Hn. pose proof (so_pre _ Hk) as Hpre.
  assert (Hpc : p <> cur_task k) by congruence. unfold work, total.
  destruct Hcase as [(Hpos & Hcur & Hr & Htk)|(Hz & Hd)].
  - right. left. rewrite Hr. split_and!; [done| |by rewrite Htk, decide_False].
    rewrite Hcur. cbn [foldr]. fold (sum (tk k') (thread_ready_list k)). fold (sum (tk k) (thread_ready_list k)).
    rewrite (sum_ext (tk k') (tk k)).
    2: { intros q Hq. rewrite Htk, decide_False; [done|]. congruence. }
    rewrite (Htk (cur_task k)), decide_True by done. repeat bdestr; lia.
  - unfold decision in Hd. rewrite (contenders_ok k Hk) in Hd.
    destruct Hd as [(He & _)|(l1 & l2 & El & Hr & Hpos & H1 & H2 & Hsame)]; [by destruct (thread_ready_list k)|].
    destruct (decide (cur_task k' = p)) as [|Hne]; [by left|]. right.
    assert (Hin : p ∈ thread_ready_list k').
    { assert (Hx : p ∈ l1 ++ cur_task k' :: l2) by (rewrite <- El; apply elem_of_app; by left).
      rewrite Hr. apply elem_of_app. apply elem_of_app in Hx as [?|[?|?]%elem_of_cons]; [by left|congruence|by right]. }
    destruct Hsame as [Htk|(Hzero & _ & Hf)].
    + left. split_and!; [done| |done]. cbn [foldr].
      change (tk k' (cur_task k') + foldr (fun q s => tk k' q + s) 0 (thread_ready_list k'))
        with (sum (tk k') (cur_task k' :: thread_ready_list k')).
      change (tk k (cur_task k) + foldr (fun q s => tk k q + s) 0 (thread_ready_list k))
        with (sum (tk k) (cur_task k :: thread_ready_list k)).
      rewrite (sum_ext (tk k') (tk k)) by (intros; apply Htk).
      rewrite (sum_perm (tk k) (cur_task k' :: thread_ready_list k') (cur_task k :: thread_ready_list k)).
      2: { rewrite Hr, Permutation_middle, <- El. by rewrite Permutation_app_comm. }
      rewrite Hz. cbn [Z.eqb]. rewrite (proj2 (Z.eqb_neq _ _)) by lia. lia.
    + right. split_and!; [done|apply Hzero, elem_of_app; by left|].
      pose proof (sp_sub _ Hpre p Hp) as Hall. rewrite (Hf p Hall), (Hzero p) by (apply elem_of_app; by left).
      destruct (all_task k p Hpre Hall) as [t Ht]. rewrite Ht. pose proof (to_prio _ (sp_task _ Hpre p t Ht)).
      change (0 / 2) with 0. lia.
Qed.

Lemma work_nonneg k : sched_ok k -> 0 <= work k.
Proof.
  intros Hk. unfold work, total. pose proof (so_pre _ Hk) as Hp.
  pose proof (sum_nonneg (tk k) (cur_task k :: thread_ready_list k) (fun p => tk_range k p Hp)). unfold sum in *.
  bdestr; lia.
Qed.

Definition eventually (k : kernel) (p : Z) : Prop :=
  exists n k', timer_ticks n k = Ok k' /\ sched_ok k' /\ cur_task k' = p.

Lemma eventually_step k k1 p : timer_tick k = Ok k1 -> eventually k1 p -> eventually k p.
Proof. intros Hr (n & k' & Hn & Hk). exists (S n), k'. cbn. rewrite Hr. by ok_simpl. Qed.

(** With ticks left the task runs before the next round. *)
Lemma runs_this_round N k p : work k < Z.of_nat N -> sched_ok k -> p ∈ thread_ready_list k -> 0 < tk k p -> eventually k p.
Proof.
  revert k. induction N as [|N IH]; intros k HN Hk Hp Hpos; [pose proof (work_nonneg k Hk); lia|].
  destruct (tick_work k p Hk Hp) as (k1 & Hrun & Hk1 & [Hc|[(Hp1 & Hw & Ht)|(_ & Hz & _)]]).
  - eapply eventually_step; [exact Hrun|]. by exists O, k1.
  - eapply eventually_step; [exact Hrun|]. apply IH; [lia|done|done|lia].
  - lia.
Qed.

Lemma runs_next_round N k p : work k < Z.of_nat N -> sched_ok k -> p ∈ thread_ready_list k -> eventually k p.
Proof.
  revert k. induction N as [|N IH]; intros k HN Hk Hp; [pose proof (work_nonneg k Hk); lia|].
  destruct (tick_work k p Hk Hp) as (k1 & Hrun & Hk1 & [Hc|[(Hp1 & Hw & Ht)|(Hp1 & _ & Hpos)]]);
    (eapply eventually_step; [exact Hrun|]).
  - by exists O, k1.
  - apply IH; [lia|done|done].
  - apply (runs_this_round (Z.to_nat (work k1 + 1))); [pose proof (work_nonneg k1 Hk1); lia|done..].
Qed.

(** C10. No starvation: from any well-formed state, while the timer ticks (and no task
    blocks or wakes), every ready task gets the processor after finitely many ticks,
    whatever the priorities and ticks of the others. *)
Theorem every_ready_task_runs k p : sched_ok k -> p ∈ thread_ready_list k ->
  exists n k', timer_ticks n k = Ok k' /\ sched_ok k' /\ cur_task k' = p.
Proof.
  intros Hk Hp. apply (runs_next_round (Z.to_nat (work k + 1))); [|done|done].
  pose proof (work_nonneg k Hk). lia.
Qed.

(** ** What scheduling leaves alone *)

(** A task up to its status and ticks, the only fields the scheduler writes. *)
Definition core (t : task_struct) : task_struct := set_ticks 0 (set_status TASK_READY t).

Definition keeps (k k' : kernel) : Prop := forall p, core <$> tasks k' !! p = core <$> tasks k !! p.

Lemma tasks_keeps_refl k : keeps k k.
Proof. done. Qed.

Lemma tasks_keeps_trans k1 k2 k3 : keeps k1 k2 -> keeps k2 k3 -> keeps k1 k3.
Proof. intros H1 H2 p. by rewrite H2. Qed.

Lemma keeps_task k k' p t : keeps k k' -> tasks k !! p = Some t -> exists t', tasks k' !! p = Some t' /\ core t' = core t.
Proof.
  intros H Ht. specialize (H p). rewrite Ht in H. destruct (tasks k' !! p) as [t'|]; [|done]. cbn in H.
  apply (inj Some) in H. by exists t'.
Qed.

Lemma with_task_keeps k p f k' : (forall t, core (f t) = core t) -> with_task k p f = Ok k' -> keeps k k'.
Proof.
  intros Hf H q. unfold with_task in H. destruct (tasks k !! p) as [t|] eqn:Ht; [|done]. cbn in H. injection H as <-.
  cbn [tasks set_tasks]. destruct (decide (p = q)) as [->|Hne].
  - rewrite lookup_insert_eq, Ht. cbn. by rewrite Hf.
  - by rewrite lookup_insert_ne.
Qed.

Lemma refill_all_keeps k l k' : refill_all k l = Ok k' -> keeps k k'.
Proof.
  revert k. induction l as [|p l IH]; intros k H; cbn [refill_all] in H; [by injection H as <-|].
  destruct (with_task k p refill) as [k1| | |] eqn:E; cbn in H; try done.
  eapply tasks_keeps_trans; [|by apply IH]. by eapply with_task_keeps; [|exact E].
Qed.

Lemma enqueue_keeps k k' : enqueue k = Ok k' -> keeps k k'.
Proof.
  unfold enqueue. destruct (assert_ _); cbn; try done. intros H. apply with_task_keeps in H; [exact H|done].
Qed.

Lemma choose_keeps n k p k' : choose n k = Ok (p, k') -> keeps k k'.
Proof.
  revert k. induction n as [|n IH]; intros k; cbn [choose]; [done|]. intros H.
  inv_ok. destruct x as [[q|] mx].
  - destruct (0 <? mx); [by injection H as <- <-|]. inv_ok. eapply tasks_keeps_trans; [by eapply refill_all_keeps|by apply IH].
  - case_match; inv_ok; simplify_eq.
    + case_match; [by eapply with_task_keeps; [|eassumption]|by simplify_eq].
    + eapply tasks_keeps_trans; [by eapply refill_all_keeps|by apply IH].
Qed.

Lemma dispatch_keeps k p k' : dispatch k p = Ok k' -> keeps k k'.
Proof.
  unfold dispatch. intros H. destruct (if in_ready k p then _ else _) as [k1| | |] eqn:E1; cbn in H; try done.
  destruct (with_task k1 p _) as [k2| | |] eqn:E2; cbn in H; try done. injection H as <-.
  apply with_task_keeps in E2; [|done]. assert (Hk : tasks k1 = tasks k).
  { destruct (in_ready k p); [|by injection E1 as <-]. destruct (unlink _ _); cbn in E1; try done. by injection E1 as <-. }
  intros q. specialize (E2 q). by rewrite Hk in E2.
Qed.

Lemma schedule_keeps k k' : schedule k = Ok k' -> keeps k k'.
Proof.
  unfold schedule. intros H. apply bind_ok in H as (t & _ & H). apply bind_ok in H as (k1 & E1 & H).
  apply bind_ok in H as ([p k2] & E2 & H%dispatch_keeps).
  eapply tasks_keeps_trans; [|eapply tasks_keeps_trans; [by eapply choose_keeps|exact H]].
  case_match; [by apply enqueue_keeps|by injection E1 as <-].
Qed.

Lemma tick_keeps k k' : timer_tick k = Ok k' -> keeps k k'.
Proof.
  unfold timer_tick. destruct (tasks k !! cur_task k) as [t|]; cbn; try done.
  case_match; [apply schedule_keeps|by apply with_task_keeps].
Qed.

Lemma block_keeps k s k' : thread_block k s = Ok k' -> keeps k k'.
Proof.
  unfold thread_block. intros H. inv_ok. eapply tasks_keeps_trans; [by eapply with_task_keeps; [|eassumption]|by apply schedule_keeps].
Qed.

Lemma tick_lists k k' : sched_ok k -> timer_tick k = Ok k' -> same_lists k k'.
Proof.
  intros Hk H. unfold timer_tick in H. apply bind_ok in H as (t & Ht & H). destruct (ticks t =? 0).
  - destruct (schedule_ok k (so_pre _ Hk)) as (k2 & E & _ & Hs & _). by assert (k2 = k') as <- by congruence.
  - unfold with_task in H. apply deref_ok in Ht. rewrite Ht in H. cbn in H. by injection H as <-.
Qed.

(** The tasks that compete for the processor. *)
Definition runnable (k : kernel) (p : Z) : Prop := p = cur_task k \/ p ∈ thread_ready_list k.

Lemma decision_runnable k k' p : contenders k <> [] -> decision k k' -> runnable k' p <-> p ∈ contenders k.
Proof.
  intros Hne [[HR _]|(l1 & l2 & -> & Hr & _)]; [done|]. unfold runnable. rewrite Hr, !elem_of_app, elem_of_cons. tauto.
Qed.

Lemma contenders_running k : sched_ok k -> contenders k = thread_ready_list k ++ [cur_task k].
Proof. intros [_ (t & Ht & Hs)]. unfold contenders. rewrite Ht. by rewrite bool_decide_true. Qed.

Lemma tick_runnable k k' p : sched_ok k -> timer_tick k = Ok k' -> runnable k' p <-> runnable k p.
Proof.
  intros Hk Hrun. destruct (tick_ok k Hk) as (k2 & He & _ & [(_ & Hc & Hr & _)|(_ & Hd)]); assert (k2 = k') as -> by congruence.
  - unfold runnable. by rewrite Hc, Hr.
  - pose proof (contenders_running k Hk) as Hcon. rewrite (decision_runnable k k' p); [|rewrite Hcon; by destruct (thread_ready_list k)|done].
    rewrite Hcon, elem_of_app, list_elem_of_singleton. unfold runnable. tauto.
Qed.

Lemma runnable_status k p t : sched_ok k -> p ∈ thread_all_list k -> tasks k !! p = Some t ->
  runnable k p <-> (status t = TASK_RUNNING \/ status t = TASK_READY).
Proof.
  intros [Hk (tc & Hc & Hs)] Hp Ht. unfold runnable. rewrite (sp_status _ Hk p t Hp Ht). split; intros [H|H]; auto.
  - subst p. left. congruence.
  - left. by apply (sp_one _ Hk p t).
Qed.

Lemma wait_status k p t : sched_ok k -> p ∈ thread_all_list k -> tasks k !! p = Some t -> ~ runnable k p -> is_wait (status t) = true.
Proof.
  intros Hk Hp Ht Hn. rewrite (runnable_status k p t Hk Hp Ht) in Hn. pose proof (sp_died _ (so_pre _ Hk) p t Hp Ht).
  destruct (status t); cbn; tauto || done.
Qed.

(** Blocking takes exactly the running task out of the competition; the idle task may
    come in. *)
Lemma block_runnable k stat : sched_ok k -> is_wait stat = true ->
  exists k', thread_block k stat = Ok k' /\ sched_ok k' /\ same_lists k k' /\
    forall q, q <> idle_thread k -> runnable k' q <-> runnable k q /\ q <> cur_task k.
Proof.
  intros Hk Hs. destruct (block_ok k stat Hk Hs) as (k' & Hrun & Hk' & Hsl & Hc & Hd). exists k'. split_and!; try done.
  intros q Hq. pose proof (cur_not_ready k Hk) as Hn. unfold runnable. destruct Hd as [(E1 & E2 & E3)|(l1 & l2 & E1 & E2)].
  - rewrite E2, E3, E1. split; [|tauto]. intros [?|?%not_elem_of_nil]; done.
  - rewrite E2, E1, !elem_of_app, elem_of_cons. rewrite E1, elem_of_app, elem_of_cons in Hn. split; [|tauto].
    intros H. split; [tauto|]. intros ->. tauto.
Qed.

(** Which tasks keep their status. *)
Definition same_status (k k' : kernel) (x : Z) : Prop := status <$> tasks k' !! x = status <$> tasks k !! x.

Lemma with_task_status k p f k' x : (x <> p \/ forall t, status (f t) = status t) -> with_task k p f = Ok k' -> same_status k k' x.
Proof.
  intros Hx H. unfold with_task in H. apply bind_ok in H as (t & Ht%deref_ok & H). injection H as <-. unfold same_status.
  cbn [tasks set_tasks]. rewrite lookup_insert. destruct (decide (p = x)) as [<-|]; [|done]. rewrite Ht. cbn.
  destruct Hx as [Hx|Hx]; [done|]. by rewrite Hx.
Qed.

Lemma refill_all_status k l k' x : refill_all k l = Ok k' -> same_status k k' x.
Proof.
  revert k. induction l as [|p l IH]; intros k H; cbn [refill_all] in H; [by injection H as <-|].
  apply bind_ok in H as (k1 & E & H). unfold same_status. rewrite (IH k1 H). by apply (with_task_status k p refill); [right|].
Qed.

Lemma choose_status n k p k' x : choose n k = Ok (p, k') -> same_status k k' x.
Proof.
  revert k. induction n as [|n IH]; intros k; cbn [choose]; [done|]. intros H. inv_ok.
  assert (Hre : forall k1, refill_all k (thread_all_list k) = Ok k1 -> choose n k1 = Ok (p, k') -> same_status k k' x).
  { intros k1 E1 E2. unfold same_status. rewrite (IH k1 E2). by apply (refill_all_status k (thread_all_list k)). }
  destruct x0 as [[q|] mx].
  - destruct (0 <? mx); [by injection H as <- <-|]. inv_ok. eauto.
  - case_match; inv_ok; simplify_eq; [|eauto].
    case_match; [apply (with_task_status k (idle_thread k) (set_ticks 1)); [by right|done]|by simplify_eq].
Qed.

Lemma schedule_status k k' x t : schedule k = Ok k' -> x <> cur_task k' -> tasks k !! x = Some t ->
  (x = cur_task k -> status t <> TASK_RUNNING) -> same_status k k' x.
Proof.
  unfold schedule. intros H Hx Ht Hc. apply bind_ok in H as (t0 & Ht0%deref_ok & H). apply bind_ok in H as (k1 & E1 & H).
  apply bind_ok in H as ([p k2] & E2 & H). cbn in H.
  assert (S1 : same_status k k1 x).
  { case_bool_decide as Hs; [|by injection E1 as <-]. unfold enqueue in E1. inv_ok.
    eapply (with_task_status (set_ready _ k)); [|exact E1]. left. intros ->. apply Hc; [done|congruence]. }
  unfold dispatch in H. apply bind_ok in H as (k3 & E3 & H). apply bind_ok in H as (k4 & E4 & H). injection H as <-.
  cbn in Hx. unfold same_status in *. rewrite <- S1, <- (choose_status 2 k1 p k2 x E2).
  assert (E5 : tasks k3 = tasks k2).
  { destruct (in_ready k2 p); [|by injection E3 as <-]. apply bind_ok in E3 as (l & _ & E3). by injection E3 as <-. }
  cbn [tasks set_cur]. rewrite <- E5. apply (with_task_status k3 p (set_status TASK_RUNNING)); [by left|done].
Qed.

Lemma block_status k s k' x t : thread_block k s = Ok k' -> is_wait s = true -> x <> cur_task k' -> tasks k !! x = Some t ->
  exists t', tasks k' !! x = Some t' /\ status t' = (if decide (x = cur_task k) then s else status t).
Proof.
  unfold thread_block. intros H Hs Hx Ht. apply bind_ok in H as (_ & _ & H). apply bind_ok in H as (_ & _ & H).
  apply bind_ok in H as (k1 & E & H). unfold with_task in E. apply bind_ok in E as (tc & Htc%deref_ok & E). injection E as <-.
  set (t1 := if decide (x = cur_task k) then set_status s tc else t).
  assert (Ht1 : <[cur_task k := set_status s tc]> (tasks k) !! x = Some t1).
  { rewrite lookup_insert. unfold t1. destruct (decide (cur_task k = x)) as [<-|Hne].
    - by rewrite decide_True.
    - rewrite decide_False by congruence. done. }
  pose proof (schedule_status _ k' x t1 H Hx Ht1) as Hst. cbn [tasks set_tasks] in Hst. unfold same_status in Hst.
  cbn [tasks set_tasks] in Hst. rewrite Ht1 in Hst. unfold t1 in Hst. destruct (tasks k' !! x) as [t'|]; cbn in Hst.
  - exists t'. split; [done|]. assert (Hst' : Some (status t') = Some (status t1)).
    { apply Hst. cbn. intros ->. unfold t1. rewrite decide_True by done. cbn. by intros ->. }
    injection Hst' as ->. unfold t1. by destruct (decide _).
  - discriminate Hst. cbn. intros ->. rewrite decide_True by done. cbn. by intros ->.
Qed.

(** ** Witnesses *)
Definition ex_task (n : Z) (s : task_status) (prio t : Z) : task_struct := 
  Task n s prio t 0 n (-1) (Some n) 0 0 0 0 (replicate 32 (Sigaction SIG_DFL 0 0 0)) 0.
Definition ex_kernel : kernel :=
  Kernel {[ 1 := ex_task 0 TASK_WAITING 5 5; 2 := ex_task 1 TASK_RUNNING 31 0; 3 := ex_task 2 TASK_READY 3 0;
            4 := ex_task 3 TASK_BLOCKED 10 7 ]} [3] [1; 2; 3; 4] [] [] 0 2 1 1.

Lemma ex_kernel_ok : sched_ok ex_kernel.
Proof.
  assert (Hin : forall p t, tasks ex_kernel !! p = Some t -> p = 1 \/ p = 2 \/ p = 3 \/ p = 4).
  { intros p t Ht. cbn [tasks ex_kernel] in Ht.
    repeat (apply insert_cases in Ht as [[-> _]|[_ Ht]]; [lia|]). by rewrite lookup_empty in Ht. }
  split; [split|eexists; split; [vm_compute; reflexivity|done]].
  - split; [apply (bool_decide_unpack _); vm_compute; exact I|repeat constructor; eexists; vm_compute; reflexivity].
  - intros p t Ht. destruct (Hin p t Ht) as [->|[->|[->| ->]]]; vm_compute in Ht; injection Ht as <-; split; cbn;
      unfold MAX_PRIORITY; lia.
  - apply (bool_decide_unpack _). vm_compute. exact I.
  - intros p t _ Ht. cbn [thread_ready_list ex_kernel]. rewrite list_elem_of_singleton.
    destruct (Hin p t Ht) as [->|[->|[->| ->]]]; vm_compute in Ht; injection Ht as <-; cbn; split; done || lia.
  - intros p ->%list_elem_of_singleton. apply (bool_decide_unpack _). vm_compute. exact I.
  - apply (bool_decide_unpack _). vm_compute. exact I.
  - intros p t _ Ht. destruct (Hin p t Ht) as [->|[->|[->| ->]]]; vm_compute in Ht; injection Ht as <-; cbn; done.
  - apply (bool_decide_unpack _). vm_compute. exact I.
  - intros p t _ Ht. destruct (Hin p t Ht) as [->|[->|[->| ->]]]; vm_compute in Ht; injection Ht as <-; cbn; done.
Qed.

Lemma schedule_decision_witness : exists k', schedule ex_kernel = Ok k' /\ cur_task k' = 2 /\ tk k' 2 = 31 /\ tk k' 4 = 13.
Proof.
  destruct (schedule_decision ex_kernel (so_pre _ ex_kernel_ok)) as (k' & Hrun & _). exists k'. split; [exact Hrun|].
  assert (He : match schedule ex_kernel with Ok k => (cur_task k, tk k 2, tk k 4) | _ => (0, 0, 0) end = (2, 31, 13))
    by (vm_compute; reflexivity). rewrite Hrun in He. injection He as H1 H2 H3. split_and!; assumption.
Defined.

Lemma scheduler_invariant_witness : exists k', run_op ex_kernel (OUnblock 4) = Ok k' /\ sched_ok k'.
Proof.
  destruct (scheduler_invariant ex_kernel ex_kernel ex_kernel_ok (reach_refl _)) as [_ H]. apply (H (OUnblock 4)).
  split; [apply (bool_decide_unpack _); vm_compute; exact I|]. eexists. split; vm_compute; reflexivity.
Defined.

Lemma every_ready_task_runs_witness : exists n k', timer_ticks n ex_kernel = Ok k' /\ cur_task k' = 3.
Proof.
  destruct (every_ready_task_runs ex_kernel 3 ex_kernel_ok) as (n & k' & Hr & _ & Hc);
    [apply (bool_decide_unpack _); vm_compute; exact I|]. exists n, k'. split; assumption.
Defined.
