(* ===== verification/Signal.v ===== *)
(** * kernel/signal.c: signals

    Sending, masking and delivering signals.  The interrupt frame a process resumes
    from is a list of 32-bit words in the order of [struct intr_stack], its user
    memory a map from word addresses to words.  [do_signal] runs on the way back to
    user mode; a handler runs on a frame [setup_frame] builds on the user stack, and
    [sys_sigreturn] takes that frame down again. *)

From S2P Require Import Prelude DList ListView Sched.

Definition SIGINT : Z := 2.
Definition SIGILL : Z := 4.
Definition SIGKILL : Z := 9.
Definition SIGSEGV : Z := 11.
Definition SIGPIPE : Z := 13.
Definition SIGALRM : Z := 14.
Definition SIGTERM : Z := 15.
Definition SIGCHLD : Z := 17.
Definition SIGSTOP : Z := 19.
Definition SIG_BLOCK : Z := 0.
Definition SIG_UNBLOCK : Z := 1.
Definition SIG_SETMASK : Z := 2.
Definition EINVAL : Z := 22.
Definition EFAULT : Z := 14.

Definition sigmask (sig : Z) : Z := u32 (Z.shiftl 1 (sig - 1)).

(** The signals that cannot be blocked. *)
Definition unblockable : Z := Z.lor (sigmask SIGKILL) (sigmask SIGSTOP).

Definition sig_addset (set sig : Z) : Z := Z.lor set (sigmask sig).
Definition sig_delset (set sig : Z) : Z := Z.ldiff set (sigmask sig).
Definition sig_ismember (set sig : Z) : bool := negb (Z.land set (sigmask sig) =? 0).

(** ** Sending *)
Definition send_signal (k : kernel) (target : option Z) (sig : Z) : res kernel :=
  match target with
  | None => Ok k
  | Some p =>
      if (SIG_NR - 1 <? sig) || (sig <? 1) then Ok k else
      t ← deref (tasks k !! p);
      k ← with_task k p (set_signal (sig_addset (signal t) sig));
      if negb (sig_ismember (blocked t) sig) && bool_decide (status t = TASK_WAITING)
      then thread_unblock k p else Ok k
  end.

Definition sys_kill (k : kernel) (n sig : Z) : res (Z * kernel) :=
  match pid2thread k n with
  | None => Ok (-1, k)
  | Some p => k ← send_signal k (Some p) sig; Ok (0, k)
  end.

(** [kill_pgrp]: every user task of the group, from the head of the list of all tasks. *)
Fixpoint kill_loop (k : kernel) (l : list Z) (grp sig : Z) : res kernel :=
  match l with
  | [] => Ok k
  | p :: l =>
      t ← deref (tasks k !! p);
      k ← (if is_user t && (pgrp t =? grp) then with_task k p (set_signal (sig_addset (signal t) sig)) else Ok k);
      kill_loop k l grp sig
  end.
Definition kill_pgrp (k : kernel) (grp sig : Z) : res kernel := kill_loop k (thread_all_list k) grp sig.

(** ** The calls of the current task [t] *)
Definition sys_signal (t : task_struct) (sig handler : Z) : Z * task_struct :=
  if (sig <? 1) || (SIG_NR - 1 <? sig) then (-1, t) else
  match sigactions t !! Z.to_nat (sig - 1) with
  | Some sa => (sa_handler sa,
      set_sigactions (<[Z.to_nat (sig - 1) := Sigaction handler 0 0 (sa_restorer sa)]> (sigactions t)) t)
  | None => (-1, t)
  end.

(** The result, the old action for [oact], and the task. *)
Definition sys_sigaction (t : task_struct) (sig : Z) (act : option sigaction) : Z * option sigaction * task_struct :=
  if (sig <? 1) || (32 <? sig) then (- EINVAL, None, t) else
  let oact := sigactions t !! Z.to_nat (sig - 1) in
  match act with
  | Some a => (0, oact, set_sigactions (<[Z.to_nat (sig - 1) := a]> (sigactions t)) t)
  | None => (0, oact, t)
  end.

Definition sys_rt_sigaction (t : task_struct) (sig : Z) (act : option sigaction) (sigsetsize : Z)
    : Z * option sigaction * task_struct :=
  if negb (sigsetsize =? 8) && negb (sigsetsize =? 4) then (- EINVAL, None, t) else sys_sigaction t sig act.

(** The result, what [oldset] receives, and the task. *)
Definition sys_sigprocmask (t : task_struct) (how : Z) (set : option Z) : Z * Z * task_struct :=
  let old := blocked t in
  match set with
  | None => (0, old, t)
  | Some new_set =>
      let done b := (0, old, set_blocked (Z.ldiff b unblockable) t) in
      if how =? SIG_BLOCK then done (Z.lor old new_set)
      else if how =? SIG_UNBLOCK then done (Z.ldiff old new_set)
      else if how =? SIG_SETMASK then done new_set
      else (- EINVAL, old, t)
  end.

Definition sys_sigpending (t : task_struct) (want : bool) : Z * Z :=
  if want then (0, Z.land (signal t) (blocked t)) else (- EFAULT, 0).

(** ** Delivery *)
Definition FRAME_WORDS : nat := 19.
Definition EIP : nat := 14.
Definition ESP : nat := 17.

Abbreviation memory := (gmap Z Z).

Fixpoint store_words (m : memory) (a : Z) (ws : list Z) : memory :=
  match ws with [] => m | w :: ws => store_words (<[a := w]> m) (u32 (a + 4)) ws end.

Fixpoint load_words (m : memory) (a : Z) (n : nat) : res (list Z) :=
  match n with
  | O => Ok []
  | S n => w ← deref (m !! a); ws ← load_words m (u32 (a + 4)) n; Ok (w :: ws)
  end.

Definition setup_frame (sig : Z) (sa : sigaction) (stack : list Z) (blk : Z) (m : memory) : res (list Z * memory) :=
  esp ← deref (stack !! ESP);
  let user_esp := u32 (esp - 4 * (Z.of_nat FRAME_WORDS + 3)) in
  let m := store_words m (u32 (user_esp + 12)) stack in
  let m := store_words m user_esp [sa_restorer sa; sig; blk] in
  Ok (<[EIP := sa_handler sa]> (<[ESP := user_esp]> stack), m).

(** [sys_sigreturn] on the kernel's frame [stack]; the result is the frame to resume from. *)
Definition sys_sigreturn (t : task_struct) (stack : list Z) (m : memory) : res (list Z * task_struct) :=
  user_esp ← deref (stack !! ESP);
  blk ← deref (m !! u32 (user_esp + 4));
  let saved_frame := u32 (user_esp + 8) in
  if saved_frame <? 0x1000 then Panic else
  ws ← load_words m saved_frame FRAME_WORDS;
  Ok (ws, set_blocked blk t).

(** The lowest pending signal. *)
Fixpoint first_sig (n : nat) (i pending : Z) : Z :=
  match n with
  | O => 0
  | S n => if sig_ismember pending i then i else first_sig n (i + 1) pending
  end.

(** What the process does next: go on, terminate with a status, or run a handler. *)
Inductive delivery := Resume | Exit (st : Z) | Handler.

Definition default_action (sig : Z) : delivery :=
  if existsb (Z.eqb sig) [SIGALRM; SIGTERM; SIGKILL; SIGINT; SIGPIPE; SIGSEGV; SIGILL] then Exit (- sig) else Resume.

Definition do_signal (t : task_struct) (stack : list Z) (m : memory) : res (delivery * task_struct * list Z * memory) :=
  let t := set_blocked (Z.ldiff (blocked t) unblockable) t in
  let pending := Z.ldiff (signal t) (blocked t) in
  if pending =? 0 then Ok (Resume, t, stack, m) else
  let sig := first_sig 31 1 pending in
  if sig =? 0 then Ok (Resume, t, stack, m) else
  let t := set_signal (sig_delset (signal t) sig) t in
  sa ← deref (sigactions t !! Z.to_nat (sig - 1));
  if sa_handler sa =? SIG_IGN then Ok (Resume, t, stack, m)
  else if sa_handler sa =? SIG_DFL then Ok (default_action sig, t, stack, m)
  else if sa_restorer sa =? 0 then Ok (Exit (- sig), t, stack, m)
  else
    let old_blocked := blocked t in
    let t := set_blocked (Z.ldiff (Z.lor (blocked t) (Z.lor (sigmask sig) (sa_mask sa))) unblockable) t in
    '(stack, m) ← setup_frame sig sa stack old_blocked m;
    Ok (Handler, t, stack, m).

(** ** Words in memory *)
Lemma store_words_other m a ws x : 0 <= a -> a + 4 * Z.of_nat (length ws) <= 2 ^ 32 ->
  x < a \/ a + 4 * Z.of_nat (length ws) <= x -> store_words m a ws !! x = m !! x.
Proof.
  revert m a. induction ws as [|w ws IH]; intros m a Ha Hlen Hx; [done|]. cbn [length] in *. cbn [store_words].
  destruct ws as [|w' ws].
  - cbn. rewrite lookup_insert_ne by lia. done.
  - cbn [length] in *. rewrite u32_small by lia. rewrite IH; cbn [length]; [|lia..]. by rewrite lookup_insert_ne by lia.
Qed.

Lemma load_stored m m' a ws : 0 <= a -> a + 4 * Z.of_nat (length ws) <= 2 ^ 32 ->
  (forall x, a <= x < a + 4 * Z.of_nat (length ws) -> m' !! x = store_words m a ws !! x) ->
  load_words m' a (length ws) = Ok ws.
Proof.
  revert m a. induction ws as [|w ws IH]; intros m a Ha Hlen Hm; [done|]. cbn [length] in *. cbn [load_words].
  assert (Hw : m' !! a = Some w).
  { rewrite Hm by lia. cbn [store_words]. destruct ws as [|w' ws]; [apply lookup_insert_eq|]. cbn [length] in *.
    rewrite u32_small, store_words_other by (cbn [length]; lia). apply lookup_insert_eq. }
  rewrite Hw. ok_simpl. destruct ws as [|w' ws]; [done|]. cbn [length] in *. rewrite u32_small by lia.
  rewrite (IH (<[a := w]> m)); [done|lia|cbn [length]; lia|].
  intros x Hx. cbn [length] in Hx. rewrite Hm by lia. cbn [store_words]. by rewrite u32_small by lia.
Qed.

(** ** Bits *)
Lemma sigmask_bit i n : 1 <= i <= 32 -> 0 <= n -> Z.testbit (sigmask i) n = (n =? i - 1).
Proof.
  intros Hi Hn. unfold sigmask. rewrite Z.shiftl_mul_pow2, Z.mul_1_l by lia.
  rewrite u32_small by (split; [apply Z.pow_nonneg; lia|apply Z.pow_lt_mono_r; lia]).
  rewrite Z.pow2_bits_eqb by lia. apply Z.eqb_sym.
Qed.

Lemma ismember_bit set i : 1 <= i <= 32 -> sig_ismember set i = Z.testbit set (i - 1).
Proof.
  intros Hi. unfold sig_ismember.
  assert (Hl : Z.land set (sigmask i) = if Z.testbit set (i - 1) then sigmask i else 0).
  { apply Z.bits_inj'. intros n Hn. rewrite Z.land_spec, sigmask_bit by lia.
    destruct (Z.eqb_spec n (i - 1)) as [->|Hne].
    - rewrite andb_true_r. destruct (Z.testbit set (i - 1)); [|by rewrite Z.bits_0].
      by rewrite sigmask_bit, Z.eqb_refl by lia.
    - rewrite andb_false_r. destruct (Z.testbit set (i - 1)); [|by rewrite Z.bits_0].
      rewrite sigmask_bit by lia. symmetry. by apply Z.eqb_neq. }
  rewrite Hl. destruct (Z.testbit set (i - 1)); [|done].
  assert (Hb : Z.testbit (sigmask i) (i - 1) = true) by (rewrite sigmask_bit by lia; apply Z.eqb_refl).
  destruct (Z.eqb_spec (sigmask i) 0) as [E|]; [by rewrite E, Z.bits_0 in Hb|done].
Qed.

Lemma sig_delset_bit set i j : 1 <= i <= 32 -> 1 <= j <= 32 ->
  Z.testbit (sig_delset set i) (j - 1) = Z.testbit set (j - 1) && negb (j =? i).
Proof.
  intros Hi Hj. unfold sig_delset. rewrite Z.ldiff_spec, sigmask_bit by lia. do 2 f_equal. repeat bdestr; done || lia.
Qed.

Lemma sig_addset_bit set i j : 1 <= i <= 32 -> 1 <= j <= 32 ->
  Z.testbit (sig_addset set i) (j - 1) = Z.testbit set (j - 1) || (j =? i).
Proof.
  intros Hi Hj. unfold sig_addset. rewrite Z.lor_spec, sigmask_bit by lia. f_equal. repeat bdestr; done || lia.
Qed.

Lemma first_sig_spec n i p : 1 <= i -> i + Z.of_nat n <= 32 ->
  (first_sig n i p = 0 /\ forall j, i <= j < i + Z.of_nat n -> Z.testbit p (j - 1) = false) \/
  (i <= first_sig n i p < i + Z.of_nat n /\ Z.testbit p (first_sig n i p - 1) = true /\
   forall j, i <= j < first_sig n i p -> Z.testbit p (j - 1) = false).
Proof.
  revert i. induction n as [|n IH]; intros i Hi Hn; cbn [first_sig]; [left; split; [done|lia]|].
  rewrite ismember_bit by lia. destruct (Z.testbit p (i - 1)) eqn:E.
  - right. split_and!; [lia|lia|done|lia].
  - destruct (IH (i + 1)) as [[-> Hz]|(Hr & Hb & Hz)]; [lia|lia| |].
    + left. split; [done|]. intros j Hj. destruct (decide (j = i)) as [->|]; [done|]. apply Hz. lia.
    + right. split_and!; [lia|lia|done|]. intros j Hj. destruct (decide (j = i)) as [->|]; [done|]. apply Hz. lia.
Qed.

(** Signal [i] is pending and not blocked. *)
Definition deliverable (t : task_struct) (i : Z) : bool :=
  Z.testbit (signal t) (i - 1) && (negb (Z.testbit (blocked t) (i - 1)) || (i =? SIGKILL) || (i =? SIGSTOP)).

Lemma unblockable_bit i : 1 <= i <= 32 -> Z.testbit unblockable (i - 1) = (i =? SIGKILL) || (i =? SIGSTOP).
Proof.
  intros Hi. unfold unblockable, SIGKILL, SIGSTOP. rewrite Z.lor_spec, !sigmask_bit by lia.
  repeat bdestr; cbn; done || lia.
Qed.

Lemma pending_bit t i : 1 <= i <= 32 ->
  Z.testbit (Z.ldiff (signal t) (Z.ldiff (blocked t) unblockable)) (i - 1) = deliverable t i.
Proof.
  intros Hi. rewrite !Z.ldiff_spec, unblockable_bit by lia. unfold deliverable.
  destruct (Z.testbit (signal t) (i - 1)), (Z.testbit (blocked t) (i - 1)); cbn [andb orb negb]; try done.
  by destruct (_ || _).
Qed.

(** What [do_signal] leaves of the task's signal state. *)
Definition after_signal (t : task_struct) (i : Z) (t' : task_struct) : Prop :=
  sigactions t' = sigactions t /\
  (forall j, 1 <= j <= 32 -> Z.testbit (signal t') (j - 1) = Z.testbit (signal t) (j - 1) && negb (j =? i)) /\
  Z.testbit (blocked t') (SIGKILL - 1) = false /\ Z.testbit (blocked t') (SIGSTOP - 1) = false.

(** What delivery does: the disposition of the lowest deliverable signal [i]. *)
Definition delivered (t : task_struct) (stack : list Z) (m : memory) (d : delivery) (t' : task_struct)
    (stack' : list Z) (m' : memory) : Prop :=
  (d = Resume /\ stack' = stack /\ m' = m /\ after_signal t 0 t' /\
      forall j, 1 <= j <= 31 -> deliverable t j = false) \/
     exists i sa, 1 <= i <= 31 /\ deliverable t i = true /\ (forall j, 1 <= j < i -> deliverable t j = false) /\
       after_signal t i t' /\ sigactions t !! Z.to_nat (i - 1) = Some sa /\
       d = (if sa_handler sa =? SIG_IGN then Resume
            else if sa_handler sa =? SIG_DFL then default_action i
            else if sa_restorer sa =? 0 then Exit (- i) else Handler) /\
       (d <> Handler -> stack' = stack /\ m' = m) /\
       (d = Handler -> stack' !! EIP = Some (sa_handler sa) /\ Z.testbit (blocked t') (i - 1) = negb ((i =? SIGKILL) || (i =? SIGSTOP))).

Lemma ldiff_unblockable x : Z.testbit (Z.ldiff x unblockable) (SIGKILL - 1) = false /\
  Z.testbit (Z.ldiff x unblockable) (SIGSTOP - 1) = false.
Proof. split; rewrite Z.ldiff_spec; apply andb_false_r. Qed.


Lemma do_signal_handler t stack m t1 stack1 m1 : do_signal t stack m = Ok (Handler, t1, stack1, m1) ->
  exists sig sa, setup_frame sig sa stack (Z.ldiff (blocked t) unblockable) m = Ok (stack1, m1).
Proof.
  unfold do_signal. intros H. repeat (case_match; [by (done || inv_ok)|]).
  destruct (sigactions _ !! _) as [sa|]; [ok_simpl|done].
  destruct (sa_handler sa =? SIG_IGN); [done|]. destruct (sa_handler sa =? SIG_DFL).
  { unfold default_action in H. by destruct (existsb _ _). }
  destruct (sa_restorer sa =? 0); [done|].
  match type of H with setup_frame ?a _ _ _ _ ≫= _ = _ => exists a, sa end.
  match type of H with ?x ≫= _ = _ => destruct x as [[s' m']| | |] eqn:E; [|done..] end.
  ok_simpl. simplify_eq. done.
Qed.

Lemma setup_frame_sigreturn sig sa stack blk m stack1 m1 esp :
  length stack = FRAME_WORDS -> stack !! ESP = Some esp -> 0x2000 <= esp < 2 ^ 32 ->
  setup_frame sig sa stack blk m = Ok (stack1, m1) ->
  forall t stack2 m2, stack2 !! ESP = Some (esp - 84) ->
  (forall a, esp - 80 <= a < esp -> m2 !! a = m1 !! a) ->
  sys_sigreturn t stack2 m2 = Ok (stack, set_blocked blk t).
Proof.
  intros Hlen Hesp Hr H t stack2 m2 Hesp2 Hm2. unfold setup_frame in H. rewrite Hesp in H. ok_simpl.
  assert (H88 : 4 * (Z.of_nat FRAME_WORDS + 3) = 88) by done. rewrite H88 in H.
  rewrite (u32_small (esp - 88)) in H by lia. rewrite (u32_small (esp - 88 + 12)) in H by lia. injection H as <- <-.
  unfold sys_sigreturn. rewrite Hesp2. ok_simpl. rewrite (u32_small (esp - 84 + 4)), (u32_small (esp - 84 + 8)) by lia.
  rewrite Hm2 by lia. cbn [store_words]. rewrite (u32_small (esp - 88 + 4)), (u32_small (esp - 88 + 4 + 4)) by lia.
  replace (esp - 84 + 4) with (esp - 88 + 4 + 4) by lia. rewrite lookup_insert_eq. ok_simpl.
  rewrite (proj2 (Z.ltb_ge _ _)) by lia. rewrite <- Hlen.
  rewrite (load_stored m _ (esp - 84 + 8) stack); [done|lia| |].
  - rewrite Hlen. cbn. lia.
  - intros x Hx. rewrite Hlen in Hx. cbn in Hx. rewrite Hm2 by lia. cbn [store_words].
    rewrite (u32_small (esp - 88 + 4)), (u32_small (esp - 88 + 4 + 4)) by lia.
    rewrite !lookup_insert_ne by lia. do 2 f_equal. lia.
Qed.

(** C20. Handler frames: when [do_signal] sends a process with user stack pointer [esp]
    to a signal handler, and the handler returns through its restorer (so that
    [sys_sigreturn] is entered with the stack pointer just above the return address)
    having left the saved words alone, whatever it did to the registers, the rest of
    memory and the task's own state, then [sys_sigreturn] gives back exactly the
    interrupted frame, register by register, and the signal mask in force before the
    delivery. *)
Theorem signal_frame_roundtrip t stack m t1 stack1 m1 esp :
  length stack = FRAME_WORDS -> stack !! ESP = Some esp -> 0x2000 <= esp < 2 ^ 32 ->
  do_signal t stack m = Ok (Handler, t1, stack1, m1) ->
  forall t2 stack2 m2, stack2 !! ESP = Some (esp - 84) ->
  (forall a, esp - 80 <= a < esp -> m2 !! a = m1 !! a) ->
  sys_sigreturn t2 stack2 m2 = Ok (stack, set_blocked (Z.ldiff (blocked t) unblockable) t2).
Proof.
  intros Hlen Hesp Hr (sig & sa & Hsf)%do_signal_handler. by apply (setup_frame_sigreturn _ _ _ _ _ _ _ _ Hlen Hesp Hr Hsf).
Qed.

(** The task is asleep where a signal may wake it, and the signal is not masked. *)
Definition wakes (t : task_struct) (sig : Z) : bool :=
  bool_decide (status t = TASK_WAITING) && negb (Z.testbit (blocked t) (sig - 1)).

Lemma send_signal_ok k p t sig :
  sched_ok k -> p ∈ thread_all_list k -> tasks k !! p = Some t -> 1 <= sig <= 31 ->
  exists k' t', send_signal k (Some p) sig = Ok k' /\ sched_ok k' /\ same_lists k k' /\ cur_task k' = cur_task k /\
    tasks k' = <[p := t']> (tasks k) /\
    (forall j, 1 <= j <= 32 -> Z.testbit (signal t') (j - 1) = Z.testbit (signal t) (j - 1) || (j =? sig)) /\
    thread_ready_list k' = (if wakes t sig then p :: thread_ready_list k else thread_ready_list k) /\
    t' = set_status (if wakes t sig then TASK_READY else status t) (set_signal (sig_addset (signal t) sig) t).
Proof.
  intros Hk Hall Ht Hsig. unfold send_signal, SIG_NR.
  rewrite (proj2 (Z.ltb_ge (32 - 1) sig)), (proj2 (Z.ltb_ge sig 1)) by lia. cbn [orb]. unfold with_task. rewrite Ht. ok_simpl.
  rewrite ismember_bit by lia. rewrite andb_comm. fold (wakes t sig).
  set (t1 := set_signal (sig_addset (signal t) sig) t). set (k1 := set_tasks (<[p := t1]> (tasks k)) k).
  assert (Hk1 : sched_ok k1) by (by apply (store_ok k p t t1)).
  assert (Hbits : forall s j, 1 <= j <= 32 ->
    Z.testbit (signal (set_status s t1)) (j - 1) = Z.testbit (signal t) (j - 1) || (j =? sig)).
  { intros s j Hj. apply sig_addset_bit; lia. }
  destruct (wakes t sig) eqn:Ew.
  - apply andb_true_iff in Ew as [Hw%bool_decide_eq_true _].
    destruct (unblock_ok k1 p t1 Hk1 Hall) as (k' & -> & Hk' & Hc & Hr & Hs & Hm);
      [apply lookup_insert_eq|unfold is_wait; cbn [status t1 set_signal]; by rewrite Hw|].
    exists k', (set_status TASK_READY t1). split_and!; try done; [rewrite Hm; apply insert_insert_eq|by apply Hbits].
  - exists k1, (set_status (status t) t1). split_and!; try done. by apply Hbits.
Qed.

(** C33. Sending: signal 1 to 31 to a live task makes exactly that signal pending there.
    A task in the state TASK_WAITING whose mask lets the signal through becomes ready, at
    the front of the ready queue; every other task keeps its state and the ready queue is
    unchanged.  No other task changes, nobody is preempted, and the scheduler's invariant
    is kept. *)
Theorem send_signal_spec k p t sig :
  sched_ok k -> p ∈ thread_all_list k -> tasks k !! p = Some t -> 1 <= sig <= 31 ->
  exists k' t', send_signal k (Some p) sig = Ok k' /\ sched_ok k' /\ same_lists k k' /\ cur_task k' = cur_task k /\
    tasks k' = <[p := t']> (tasks k) /\
    (forall j, 1 <= j <= 32 -> Z.testbit (signal t') (j - 1) = Z.testbit (signal t) (j - 1) || (j =? sig)) /\
    thread_ready_list k' = (if wakes t sig then p :: thread_ready_list k else thread_ready_list k) /\
    t' = set_status (if wakes t sig then TASK_READY else status t) (set_signal (sig_addset (signal t) sig) t).
Proof. apply send_signal_ok. Qed.

(** The comment in [do_signal] says that SIGKILL can be neither caught nor ignored; but
    [sys_sigaction] accepts any action for it and [do_signal] then ignores the signal. *)
Lemma sigkill_can_be_ignored t stack m :
  length (sigactions t) = 32%nat -> signal t = sigmask SIGKILL ->
  let t1 := (sys_sigaction t SIGKILL (Some (Sigaction SIG_IGN 0 0 0))).2 in
  exists t', do_signal t1 stack m = Ok (Resume, t', stack, m) /\ signal t' = 0.
Proof.
  intros Hlen Hsig t1. unfold do_signal. set (t2 := set_blocked _ t1).
  assert (Hs : signal t2 = 256) by exact Hsig.
  assert (Hb : Z.testbit (blocked t2) 8 = false) by (apply (ldiff_unblockable (blocked t))).
  assert (Hp : Z.ldiff (signal t2) (blocked t2) = 256).
  { apply Z.bits_inj'. intros n Hn. rewrite Z.ldiff_spec, Hs. change 256 with (2 ^ 8). rewrite Z.pow2_bits_eqb by lia.
    destruct (Z.eqb_spec 8 n) as [<-|]; [by rewrite Hb|done]. }
  rewrite Hp. change (first_sig 31 1 256) with 9. cbn [Z.eqb].
  assert (Ha : sigactions t2 !! 8%nat = Some (Sigaction SIG_IGN 0 0 0)).
  { change (sigactions t2) with (<[8%nat := Sigaction SIG_IGN 0 0 0]> (sigactions t)).
    apply list_lookup_insert_eq. lia. }
  change (sigactions (set_signal ?x t2)) with (sigactions t2). change (Z.to_nat (9 - 1)) with 8%nat. rewrite Ha. ok_simpl.
  eexists. split; [done|]. cbn [signal set_signal]. by rewrite Hs.
Qed.

(** ** Concrete cases *)
Definition ex_stack : list Z := map (fun i => 0xBFFFF000 + 16 * Z.of_nat i) (seq 0 FRAME_WORDS).
Definition ex_task : task_struct :=
  Task 7 TASK_RUNNING 31 31 0 7 1 (Some 1) (Z.lor (sigmask SIGINT) (sigmask SIGCHLD)) (sigmask SIGKILL) 0 0
    (<[1%nat := Sigaction 0x8048000 (sigmask SIGTERM) 0 0x8049000]> (replicate 32 (Sigaction SIG_DFL 0 0 0))) 0.


Lemma signal_frame_roundtrip_witness : exists t1 stack1 m1,
  do_signal ex_task ex_stack ∅ = Ok (Handler, t1, stack1, m1) /\
  sys_sigreturn t1 (<[ESP := 0xBFFFF0BC]> ex_stack) m1 = Ok (ex_stack, set_blocked 0 t1).
Proof.
  assert (He : match do_signal ex_task ex_stack ∅ with Ok (Handler, _, _, _) => true | _ => false end = true)
    by (vm_compute; reflexivity).
  destruct (do_signal ex_task ex_stack ∅) as [[[[[| |] t1] stack1] m1]| | |] eqn:E; try discriminate He.
  exists t1, stack1, m1. split; [reflexivity|].
  apply (signal_frame_roundtrip ex_task ex_stack ∅ t1 stack1 m1 0xBFFFF110); [reflexivity|reflexivity|lia|exact E|reflexivity|].
  intros a _. reflexivity.
Defined.

Lemma send_signal_spec_witness : exists k', send_signal ex_kernel (Some 1) SIGINT = Ok k' /\ sched_ok k' /\
  thread_ready_list k' = [1; 3].
Proof.
  destruct (tasks ex_kernel !! 1) as [t|] eqn:E; [|vm_compute in E; discriminate E].
  destruct (send_signal_spec ex_kernel 1 t SIGINT ex_kernel_ok) as (k' & t' & H & Hk & _ & _ & _ & _ & Hr & _);
    [apply (bool_decide_unpack _); vm_compute; exact I|exact E|unfold SIGINT; lia|].
  exists k'. split; [exact H|]. split; [exact Hk|]. rewrite Hr. vm_compute in E. injection E as <-. vm_compute. reflexivity.
Defined.
