(* ===== verification/Timer.v ===== *)
(** * device/timer.c: the clock interrupt, sleeping and alarms

    Two queues of tasks in ascending order of a tick count: [timer_list] for tasks that
    sleep until [wait_until], [alarm_list] for tasks that get SIGALRM at [alarm].  The
    interrupt handler advances the clock, serves both queues from the front, and ends
    with the time slice accounting of [Sched.timer_tick].  Interrupts are off throughout,
    so every operation is one step; [sys_milsleep] is cut where it blocks. *)

From Stdlib Require Import Sorted.
From S2P Require Import Prelude DList ListView Sched Signal.

Definition IRQ0_FREQUENCY : Z := 200.
Definition mil_seconds_per_intr : Z := 1000 / IRQ0_FREQUENCY.

Definition DIV_ROUND_UP (x step : Z) : Z := u32 (x + step - 1) / step.

(** Which queue [plist] is: its list, and the field of a task it is ordered by. *)
Inductive queue := Timers | Alarms.
#[global] Instance queue_eq_dec : EqDecision queue.
Proof. solve_decision. Defined.
Definition qlist (q : queue) (k : kernel) : list Z := match q with Timers => timer_list k | Alarms => alarm_list k end.
Definition set_qlist (q : queue) (l : list Z) (k : kernel) : kernel :=
  match q with Timers => set_timers l k | Alarms => set_alarms l k end.
Definition target (q : queue) (t : task_struct) : Z := match q with Timers => wait_until t | Alarms => alarm t end.

(** The search for the first task that is due later, and the insertion before it. *)
Fixpoint insert_before_later (m : gmap Z task_struct) (q : queue) (p tgt : Z) (l : list Z) : res (list Z) :=
  match l with
  | [] => Ok [p]
  | x :: l' =>
      temp ← deref (m !! x);
      if tgt <? target q temp then Ok (p :: l)
      else l'' ← insert_before_later m q p tgt l'; Ok (x :: l'')
  end.

Definition list_insert_ascend (k : kernel) (p : Z) (q : queue) : res kernel :=
  _ ← assert_ (negb (bool_decide (p ∈ qlist q k)));
  t ← deref (tasks k !! p);
  l ← insert_before_later (tasks k) q p (target q t) (qlist q k);
  Ok (set_qlist q l k).

(** Has the head's time come? *)
Definition due (now x : Z) : bool := (0 <? x) && (x <=? now).

(** What a task that is due gets. *)
Definition fire (q : queue) (t : task_struct) : task_struct :=
  match q with
  | Timers => set_wait_until 0 t
  | Alarms => set_alarm 0 (set_signal (sig_addset (signal t) SIGALRM) t)
  end.

(** The loop over a queue: [l] is what is left of it. *)
Fixpoint expire (q : queue) (l : list Z) (k : kernel) : res kernel :=
  match l with
  | [] => Ok k
  | p :: l =>
      t ← deref (tasks k !! p);
      _ ← assert_ (match q with Timers => true | Alarms => negb (bool_decide (status t = TASK_DIED)) end);
      if negb (due (sys_ticks k) (target q t)) then Ok k
      else
        k ← with_task (set_qlist q l k) p (fire q);
        k ← (if is_wait (status t) then thread_unblock k p else Ok k);
        expire q l k
  end.

Definition intr_handler_timer (k : kernel) : res kernel :=
  t ← deref (tasks k !! cur_task k);
  k ← with_task k (cur_task k) (set_elapsed (u32 (elapsed_ticks t + 1)));
  let k := set_sys_ticks (u32 (sys_ticks k + 1)) k in
  k ← expire Timers (timer_list k) k;
  k ← expire Alarms (alarm_list k) k;
  timer_tick k.

(** [sys_milsleep] up to the block: [None] when it returns at once, otherwise the tick
    the task sleeps until. *)
Definition milsleep_begin (k : kernel) (mil_seconds : Z) : res (option Z * kernel) :=
  let sleep_ticks := DIV_ROUND_UP mil_seconds mil_seconds_per_intr in
  if sleep_ticks =? 0 then Ok (None, k) else
  let expire_ticks := u32 (sys_ticks k + sleep_ticks) in
  let expire_ticks := if expire_ticks <? sys_ticks k then 0xFFFFFFFF else expire_ticks in
  k ← with_task k (cur_task k) (set_wait_until expire_ticks);
  k ← list_insert_ascend k (cur_task k) Timers;
  k ← thread_block k TASK_WAITING;
  Ok (Some expire_ticks, k).

(** The rest, when the task runs again: the milliseconds left, and the task is off the queue. *)
Definition milsleep_end (k : kernel) (expire_ticks : Z) : Z * kernel :=
  if bool_decide (cur_task k ∈ timer_list k)
  then ((if sys_ticks k <? expire_ticks then u32 ((expire_ticks - sys_ticks k) * mil_seconds_per_intr) else 0),
        set_timers (leave (cur_task k) (timer_list k)) k)
  else (0, k).

Definition sys_pause (k : kernel) : res kernel := thread_block k TASK_WAITING.

Definition sys_alarm (k : kernel) (seconds : Z) : res (Z * kernel) :=
  let cur := cur_task k in
  t ← deref (tasks k !! cur);
  let remaining := if (0 <? alarm t) && (sys_ticks k <? alarm t) then (alarm t - sys_ticks k) / IRQ0_FREQUENCY else 0 in
  let k := set_alarms (leave cur (alarm_list k)) k in
  if 0 <? seconds then
    k ← with_task k cur (set_alarm (u32 (sys_ticks k + u32 (seconds * IRQ0_FREQUENCY))));
    k ← list_insert_ascend k cur Alarms;
    Ok (remaining, k)
  else
    k ← with_task k cur (set_alarm 0);
    Ok (remaining, k).

(** ** Queues in order *)
Definition tgt (q : queue) (k : kernel) (p : Z) : Z := match tasks k !! p with Some t => target q t | None => 0 end.

Definition ascending (q : queue) (k : kernel) (l : list Z) : Prop := StronglySorted (fun x y => tgt q k x <= tgt q k y) l.

(** A queue: tasks that exist, each once, in order, each with a time in range. *)
Record queue_ok (q : queue) (k : kernel) : Prop := {
  q_nodup : NoDup (qlist q k);
  q_sub : forall p, p ∈ qlist q k -> p ∈ thread_all_list k;
  q_sorted : ascending q k (qlist q k);
  q_pos : forall p, p ∈ qlist q k -> 0 < tgt q k p;
}.

Record timers_ok (k : kernel) : Prop := {
  to_sched : sched_ok k;
  to_timers : queue_ok Timers k;
  to_alarms : queue_ok Alarms k;
}.

(** What an expired task becomes. *)
Definition served (q : queue) (t : task_struct) : task_struct :=
  if is_wait (status t) then set_status TASK_READY (fire q t) else fire q t.

Definition is_due (q : queue) (k : kernel) (p : Z) : bool := due (sys_ticks k) (tgt q k p).

Lemma fire_same q t : same_sched t (fire q t).
Proof. by destruct q. Qed.

Lemma set_qlist_ok q l k : sched_ok k -> sched_ok (set_qlist q l k).
Proof. intros [[K1 K2 K3 K4 K5 K6 K7 K8 K9] Hr]. by destruct q. Qed.

Lemma qlist_set q l k : qlist q (set_qlist q l k) = l.
Proof. by destruct q. Qed.

(** One expired task: the queue loses its head, the task is served. *)
Lemma serve_ok q p l k t : sched_ok k -> p ∈ thread_all_list k -> tasks k !! p = Some t ->
  exists k', (k1 ← with_task (set_qlist q l k) p (fire q); if is_wait (status t) then thread_unblock k1 p else Ok k1) = Ok k' /\
    sched_ok k' /\ cur_task k' = cur_task k /\ same_lists (set_qlist q l k) k' /\
    tasks k' = <[p := served q t]> (tasks k).
Proof.
  intros Hk Hall Ht. set (k0 := set_qlist q l k).
  assert (Ht0 : tasks k0 !! p = Some t) by (by destruct q).
  unfold with_task. rewrite Ht0. ok_simpl. set (k1 := set_tasks _ k0).
  assert (Hm1 : tasks k1 = <[p := fire q t]> (tasks k)) by (by destruct q).
  assert (Hk1 : sched_ok k1) by (apply (store_ok k0 p t); [by apply set_qlist_ok|done|apply fire_same]).
  assert (Hall1 : p ∈ thread_all_list k1) by (by destruct q).
  assert (Hc1 : cur_task k1 = cur_task k) by (by destruct q).
  unfold served. destruct (is_wait (status t)) eqn:Ew.
  - destruct (unblock_ok k1 p (fire q t) Hk1 Hall1) as (k' & -> & Hk' & Hc & _ & Hs & Hm).
    + by rewrite Hm1, lookup_insert_eq.
    + by destruct (fire_same q t) as [-> _].
    + exists k'. split_and!; [done|done|congruence|done|]. by rewrite Hm, Hm1, insert_insert_eq.
  - exists k1. by split_and!.
Qed.

(** Only the times of the tasks in the list matter. *)
Lemma ascending_ext q k k' l : (forall p, p ∈ l -> tgt q k' p = tgt q k p) -> ascending q k l -> ascending q k' l.
Proof.
  intros He H. induction H as [|x l Hs IH Hf]; constructor.
  - apply IH. intros p Hp. apply He. by right.
  - rewrite Forall_forall in *. intros y Hy. rewrite !He; [by apply Hf|by right|by left].
Qed.

Lemma none_due q k p l : ascending q k (p :: l) -> (forall x, x ∈ p :: l -> 0 < tgt q k x) -> is_due q k p = false ->
  forall x, x ∈ p :: l -> is_due q k x = false.
Proof.
  intros Hs Hpos Hd x Hx. unfold is_due, due in *. pose proof (Hpos p ltac:(left)). pose proof (Hpos x Hx).
  rewrite (proj2 (Z.ltb_lt 0 (tgt q k p))) in Hd by lia. rewrite (proj2 (Z.ltb_lt 0 (tgt q k x))) by lia.
  cbn [andb] in *. apply Z.leb_gt in Hd. apply Z.leb_gt.
  apply elem_of_cons in Hx as [->|Hx]; [done|]. inversion Hs as [|? ? _ Hf]; subst. rewrite Forall_forall in Hf.
  specialize (Hf x Hx). lia.
Qed.

Lemma filter_all_false {A} (f : A -> bool) l : (forall x, x ∈ l -> f x = false) ->
  List.filter f l = [] /\ List.filter (fun x => negb (f x)) l = l.
Proof.
  induction l as [|x l IH]; intros H; [done|]. cbn. rewrite (H x ltac:(left)). cbn.
  destruct IH as [-> ->]; [|done]. intros y Hy. apply H. by right.
Qed.

Lemma elem_of_bool_filter {A} (f : A -> bool) x l : x ∈ List.filter f l <-> x ∈ l /\ f x = true.
Proof. rewrite !list_elem_of_In. apply List.filter_In. Qed.

Lemma expire_ok q l k : sched_ok k -> qlist q k = l -> NoDup l -> (forall p, p ∈ l -> p ∈ thread_all_list k) ->
  ascending q k l -> (forall p, p ∈ l -> 0 < tgt q k p) ->
  exists k', expire q l k = Ok k' /\ sched_ok k' /\ cur_task k' = cur_task k /\
    same_lists (set_qlist q (List.filter (fun p => negb (is_due q k p)) l) k) k' /\
    mapped (served q) (List.filter (is_due q k) l) (tasks k) (tasks k').
Proof.
  revert k. induction l as [|p l IH]; intros k Hk Hq Hnd Hsub Hs Hpos; cbn [expire].
  { exists k. split_and!; [done|done|done| |].
    - destruct k; destruct q; cbn in *; subst; by split_and!.
    - intros x. by rewrite decide_False by (by intros ?%not_elem_of_nil). }
  pose proof (Hsub p ltac:(left)) as Hall. destruct (all_task k p (so_pre _ Hk) Hall) as [t Ht]. rewrite Ht. ok_simpl.
  assert (Ha : match q with Timers => true | Alarms => negb (bool_decide (status t = TASK_DIED)) end = true).
  { destruct q; [done|]. rewrite bool_decide_false; [done|]. by apply (sp_died _ (so_pre _ Hk) p). }
  rewrite Ha. ok_simpl. assert (Htgt : tgt q k p = target q t) by (unfold tgt; by rewrite Ht).
  rewrite <- Htgt. change (due (sys_ticks k) (tgt q k p)) with (is_due q k p). destruct (is_due q k p) eqn:Ed; cbn [negb].
  2: { destruct (filter_all_false (is_due q k) (p :: l)) as [-> ->]; [by eapply none_due|].
       exists k. split_and!; [done|done|done| |].
       - destruct k; destruct q; cbn in *; subst; by split_and!.
       - intros x. by rewrite decide_False by (by intros ?%not_elem_of_nil). }
  destruct (serve_ok q p l k t Hk Hall Ht) as (k2 & Hrun & Hk2 & Hc2 & Hs2 & Hm2).
  apply NoDup_cons in Hnd as [Hp Hnd]. inversion Hs as [|? ? Hsl Hf]; subst.
  assert (Hother : forall x, x ∈ l -> tasks k2 !! x = tasks k !! x).
  { intros x Hx. rewrite Hm2, lookup_insert_ne; [done|]. by intros ->. }
  assert (Htg : forall x, x ∈ l -> tgt q k2 x = tgt q k x) by (intros x Hx; unfold tgt; by rewrite Hother).
  destruct Hs2 as (S1 & S2 & S3 & S4 & S5 & S6).
  assert (Hdue : forall x, x ∈ l -> is_due q k2 x = is_due q k x).
  { intros x Hx. unfold is_due. rewrite Htg by done. f_equal. destruct q; cbn in S4; done. }
  destruct (IH k2) as (k' & Hrun' & Hk' & Hc' & Hs' & Hm').
  - done.
  - destruct q; cbn in *; done.
  - done.
  - intros x Hx. rewrite S1. destruct q; apply (Hsub x); by right.
  - by eapply ascending_ext.
  - intros x Hx. rewrite Htg by done. apply Hpos. by right.
  - exists k'. split_and!; [|done|congruence| |].
    + apply bind_ok in Hrun as (k1 & E1 & E2). rewrite E1. ok_simpl. rewrite E2. ok_simpl. done.
    + cbn [List.filter]. rewrite Ed. cbn [negb].
      rewrite (List.filter_ext_in (fun x => negb (is_due q k2 x)) (fun x => negb (is_due q k x))) in Hs'
        by (intros x Hx%list_elem_of_In; by rewrite Hdue).
      destruct q; unfold same_lists in *; cbn in *; split_and!; destruct_and!; congruence.
    + cbn [List.filter]. rewrite Ed. rewrite (List.filter_ext_in (is_due q k2) (is_due q k)) in Hm'
        by (intros x Hx%list_elem_of_In; by rewrite Hdue).
      eapply mapped_insert; [|done|]; [|by rewrite <- Hm2].
      intros [Hx _]%elem_of_bool_filter. done.
Qed.

Lemma StronglySorted_filter {A} (R : A -> A -> Prop) f l : StronglySorted R l -> StronglySorted R (List.filter f l).
Proof.
  induction 1 as [|x l Hs IH Hf]; cbn; [constructor|]. destruct (f x); [|done]. constructor; [done|].
  rewrite Forall_forall in *. intros y [Hy _]%elem_of_bool_filter. by apply Hf.
Qed.

(** A queue some tasks were taken from, while the others kept their times. *)
Lemma queue_ok_filter q k k' f : queue_ok q k -> qlist q k' = List.filter f (qlist q k) ->
  thread_all_list k' = thread_all_list k -> (forall p, p ∈ qlist q k' -> tgt q k' p = tgt q k p) -> queue_ok q k'.
Proof.
  intros [N S O P] Hl Ha Ht. split.
  - rewrite Hl. by apply base.NoDup_ListNoDup, List.NoDup_filter, base.NoDup_ListNoDup.
  - intros p Hp. rewrite Ha. apply S. rewrite Hl in Hp. by apply elem_of_bool_filter in Hp as [? _].
  - apply (ascending_ext q k); [done|]. unfold ascending. rewrite Hl. by apply StronglySorted_filter.
  - intros p Hp. rewrite Ht by done. apply P. rewrite Hl in Hp. by apply elem_of_bool_filter in Hp as [? _].
Qed.

Lemma filter_true {A} (l : list A) : List.filter (fun _ => true) l = l.
Proof. induction l as [|x l IH]; cbn; congruence. Qed.

Lemma queue_ok_same q k k' : queue_ok q k -> qlist q k' = qlist q k ->
  thread_all_list k' = thread_all_list k -> (forall p, p ∈ qlist q k -> tgt q k' p = tgt q k p) -> queue_ok q k'.
Proof.
  intros Hq Hl Ha Ht. apply (queue_ok_filter q k k' (fun _ => true)); [done|by rewrite filter_true|done|]. by rewrite Hl.
Qed.

Lemma keeps_tgt q k k' p : keeps k k' -> tgt q k' p = tgt q k p.
Proof.
  intros H. specialize (H p). unfold tgt. destruct (tasks k' !! p) as [t'|], (tasks k !! p) as [t|]; try done. cbn in H.
  apply (inj Some) in H. apply (f_equal (target q)) in H. by destruct q.
Qed.

(** The two loops of the handler in a state [k] whose clock has been advanced. *)
Definition in_due (q : queue) (k : kernel) (p : Z) : bool := bool_decide (p ∈ qlist q k) && is_due q k p.

Lemma in_due_spec q k p : p ∈ List.filter (is_due q k) (qlist q k) <-> in_due q k p = true.
Proof. rewrite elem_of_bool_filter. unfold in_due. rewrite andb_true_iff, bool_decide_eq_true. done. Qed.

Definition serve (k : kernel) (p : Z) (t : task_struct) : task_struct :=
  let t := if in_due Timers k p then served Timers t else t in
  if in_due Alarms k p then served Alarms t else t.

Lemma serve_target q k p t : in_due q k p = false -> target q (serve k p t) = target q t.
Proof.
  unfold serve, served, fire. intros Hq. destruct q; rewrite Hq; [destruct (in_due Alarms k p)|destruct (in_due Timers k p)]; try done;
    by destruct (is_wait (status t)).
Qed.

Lemma loops_ok k : timers_ok k ->
  exists k', (k1 ← expire Timers (timer_list k) k; expire Alarms (alarm_list k1) k1) = Ok k' /\ sched_ok k' /\
    cur_task k' = cur_task k /\ thread_all_list k' = thread_all_list k /\ sys_ticks k' = sys_ticks k /\
    (forall q, qlist q k' = List.filter (fun p => negb (is_due q k p)) (qlist q k)) /\
    forall p, tasks k' !! p = serve k p <$> tasks k !! p.
Proof.
  intros [Hk [N1 S1 O1 P1] [N2 S2 O2 P2]].
  destruct (expire_ok Timers (timer_list k) k) as (k1 & -> & Hk1 & Hc1 & (L1 & L2 & L3 & L4 & L5 & L6) & Hm1); try done.
  ok_simpl. cbn in L1, L2, L3, L4.
  assert (Hta : forall p, tgt Alarms k1 p = tgt Alarms k p).
  { intros p. unfold tgt. rewrite Hm1. destruct (decide _); [|done]. destruct (tasks k !! p) as [t|]; [|done].
    cbn. unfold served. by destruct (is_wait _). }
  assert (Hda : forall p, is_due Alarms k1 p = is_due Alarms k p) by (intros p; unfold is_due; by rewrite Hta, L4).
  destruct (expire_ok Alarms (alarm_list k1) k1) as (k2 & -> & Hk2 & Hc2 & (M1 & M2 & M3 & M4 & M5 & M6) & Hm2); try done.
  - by rewrite L3.
  - intros p Hp. rewrite L1. rewrite L3 in Hp. by apply S2.
  - rewrite L3. apply (ascending_ext Alarms k); [|done]. intros p _. apply Hta.
  - intros p Hp. rewrite Hta. rewrite L3 in Hp. by apply P2.
  - cbn in M1, M2, M3, M4. exists k2. split_and!; [done|done|congruence|congruence|congruence| |].
    + intros [|]; cbn [qlist]; [congruence|]. rewrite M3, L3. apply List.filter_ext. intros p. by rewrite Hda.
    + intros p. rewrite Hm2, Hm1. unfold serve. destruct (tasks k !! p) as [t|]; [|by repeat case_decide]. cbn.
      assert (Ha : p ∈ List.filter (is_due Alarms k1) (alarm_list k1) <-> in_due Alarms k p = true).
      { rewrite <- in_due_spec, L3. cbn [qlist]. by rewrite (List.filter_ext _ _ Hda). }
      pose proof (in_due_spec Timers k p) as Hb. cbn [qlist] in Hb.
      destruct (in_due Timers k p) eqn:Et, (in_due Alarms k p) eqn:Ea; repeat case_decide; done || intuition congruence.
Qed.

Lemma loops_tgt k k' q p :
  (forall q, qlist q k' = List.filter (fun p => negb (is_due q k p)) (qlist q k)) ->
  (forall p, tasks k' !! p = serve k p <$> tasks k !! p) -> p ∈ qlist q k' -> tgt q k' p = tgt q k p.
Proof.
  intros Hq Hm Hp. rewrite Hq in Hp. apply elem_of_bool_filter in Hp as [Hp Hd%negb_true_iff]. unfold tgt. rewrite Hm.
  destruct (tasks k !! p) as [t|]; [|done]. apply serve_target. unfold in_due. by rewrite Hd, andb_false_r.
Qed.

Lemma loops_timers k k' : timers_ok k -> sched_ok k' -> thread_all_list k' = thread_all_list k ->
  (forall q, qlist q k' = List.filter (fun p => negb (is_due q k p)) (qlist q k)) ->
  (forall p, tasks k' !! p = serve k p <$> tasks k !! p) -> timers_ok k'.
Proof.
  intros Hk Hk' Ha Hq Hm. assert (H : forall q, queue_ok q k -> queue_ok q k').
  { intros q Hok. eapply queue_ok_filter; [done|apply Hq|done|]. intros p Hp. by apply (loops_tgt k). }
  split; [done|apply H, Hk|apply H, Hk].
Qed.

Lemma keeps_timers k k' : timers_ok k -> sched_ok k' -> same_lists k k' -> keeps k k' -> timers_ok k'.
Proof.
  intros [_ H1 H2] Hk' (L1 & L2 & L3 & _) Hkeep.
  split; [done|by apply (queue_ok_same Timers k); auto using keeps_tgt|by apply (queue_ok_same Alarms k); auto using keeps_tgt].
Qed.

(** The state after the clock has been advanced. *)
Definition advance (k : kernel) : res kernel :=
  t ← deref (tasks k !! cur_task k);
  k ← with_task k (cur_task k) (set_elapsed (u32 (elapsed_ticks t + 1)));
  Ok (set_sys_ticks (u32 (sys_ticks k + 1)) k).

Lemma advance_ok k : timers_ok k -> exists t, tasks k !! cur_task k = Some t /\
  advance k = Ok (set_sys_ticks (u32 (sys_ticks k + 1))
    (set_tasks (<[cur_task k := set_elapsed (u32 (elapsed_ticks t + 1)) t]> (tasks k)) k)) /\
  timers_ok (set_sys_ticks (u32 (sys_ticks k + 1))
    (set_tasks (<[cur_task k := set_elapsed (u32 (elapsed_ticks t + 1)) t]> (tasks k)) k)).
Proof.
  intros [Hk Ht Ha]. destruct (so_running _ Hk) as (t & Hcur & _). exists t. split; [done|].
  unfold advance, with_task. rewrite Hcur. split; [done|]. set (t' := set_elapsed _ t). set (k1 := set_tasks _ k).
  assert (Hk1 : sched_ok k1) by (by apply (store_ok k _ t)).
  assert (Htg : forall q p, tgt q (set_sys_ticks (u32 (sys_ticks k + 1)) k1) p = tgt q k p).
  { intros q p. unfold tgt. cbn [tasks set_sys_ticks k1 set_tasks]. rewrite lookup_insert.
    destruct (decide (cur_task k = p)) as [<-|]; [|done]. rewrite Hcur. by destruct q. }
  split.
  - destruct Hk1 as [[K1 K2 K3 K4 K5 K6 K7 K8 K9] Hr]. by split.
  - by apply (queue_ok_same Timers k).
  - by apply (queue_ok_same Alarms k).
Qed.

Lemma serve_status k p t : status (serve k p t) = TASK_RUNNING \/ status (serve k p t) = TASK_READY <->
  (status t = TASK_RUNNING \/ status t = TASK_READY) \/
  (is_wait (status t) = true /\ in_due Timers k p || in_due Alarms k p = true).
Proof.
  unfold serve, served. destruct (in_due Timers k p), (in_due Alarms k p), (status t) eqn:E; cbn; rewrite ?E; cbn;
    rewrite ?E; intuition (congruence || auto).
Qed.

Lemma serve_signal k p t : signal (serve k p t) = if in_due Alarms k p then sig_addset (signal t) SIGALRM else signal t.
Proof.
  unfold serve, served. destruct (in_due Timers k p), (in_due Alarms k p); repeat case_match; done.
Qed.

Lemma clock_interrupt_ok k : timers_ok k ->
  let now := u32 (sys_ticks k + 1) in
  let fired q p t := bool_decide (p ∈ qlist q k) && due now (target q t) in
  exists k', intr_handler_timer k = Ok k' /\ timers_ok k' /\ sys_ticks k' = now /\
    (forall q, qlist q k' = List.filter (fun p => negb (due now (tgt q k p))) (qlist q k)) /\
    (forall q p, p ∈ qlist q k' -> tgt q k' p = tgt q k p) /\
    forall p t, p ∈ thread_all_list k -> tasks k !! p = Some t ->
      (runnable k' p <-> runnable k p \/ (is_wait (status t) = true /\ fired Timers p t || fired Alarms p t = true)) /\
      exists t', tasks k' !! p = Some t' /\
        signal t' = (if fired Alarms p t then sig_addset (signal t) SIGALRM else signal t).
Proof.
  intros Hk now fired. destruct (advance_ok k Hk) as (tc & Hc & Hadv & Hk1).
  set (k1 := set_sys_ticks _ _) in *.
  destruct (loops_ok k1 Hk1) as (k2 & Hloop & Hk2 & Hc2 & Ha2 & Hn2 & Hq2 & Hm2).
  destruct (tick_ok k2 Hk2) as (k3 & Hrun & Hk3 & _). pose proof (tick_keeps k2 k3 Hrun) as Hkeep.
  pose proof (tick_lists k2 k3 Hk2 Hrun) as (L1 & L2 & L3 & L4 & _).
  assert (Htg1 : forall q p, tgt q k1 p = tgt q k p).
  { intros q p. unfold tgt. cbn [tasks k1 set_sys_ticks set_tasks]. rewrite lookup_insert.
    destruct (decide (cur_task k = p)) as [<-|]; [|done]. rewrite Hc. by destruct q. }
  assert (Hfired : forall q p t, tasks k !! p = Some t -> in_due q k1 p = fired q p t).
  { intros q p t Ht. unfold in_due, fired, is_due. rewrite Htg1. unfold tgt. rewrite Ht. by destruct q. }
  exists k3. split_and!.
  - unfold intr_handler_timer. unfold advance in Hadv. rewrite Hc in *. ok_simpl.
    apply bind_ok in Hadv as (k0 & -> & Hadv). ok_simpl. assert (set_sys_ticks (u32 (sys_ticks k0 + 1)) k0 = k1) as -> by congruence.
    apply bind_ok in Hloop as (k5 & Hl1 & Hl2). rewrite Hl1. ok_simpl. rewrite Hl2. ok_simpl. done.
  - apply (keeps_timers k2 k3); [by apply (loops_timers k1)|done|by apply tick_lists|done].
  - by rewrite L4, Hn2.
  - intros q. replace (qlist q k3) with (qlist q k2) by (by destruct q). rewrite Hq2. destruct q; apply List.filter_ext;
      intros p; unfold is_due; by rewrite Htg1.
  - intros q p Hp. rewrite (keeps_tgt q k2 k3), <- Htg1 by done.
    replace (qlist q k3) with (qlist q k2) in Hp by (by destruct q). by apply (loops_tgt k1 k2).
  - intros p t Hp Ht. rewrite <- !Hfired by done.
    set (t1 := if decide (cur_task k = p) then set_elapsed (u32 (elapsed_ticks tc + 1)) tc else t).
    assert (Ht1 : tasks k1 !! p = Some t1 /\ status t1 = status t /\ signal t1 = signal t).
    { cbn [tasks k1 set_sys_ticks set_tasks]. rewrite lookup_insert. unfold t1.
      destruct (decide (cur_task k = p)) as [<-|]; [|done]. by assert (tc = t) as -> by congruence. }
    destruct Ht1 as (Ht1 & Hst & Hsg). assert (Ht2 : tasks k2 !! p = Some (serve k1 p t1)) by (by rewrite Hm2, Ht1).
    split.
    + rewrite (tick_runnable k2 k3), (runnable_status k2 p _ Hk2 ltac:(by rewrite Ha2) Ht2), serve_status, Hst by done.
      by rewrite (runnable_status k p t (to_sched _ Hk) Hp Ht).
    + destruct (keeps_task k2 k3 p _ Hkeep Ht2) as (t3 & Ht3 & Hcore). exists t3. split; [done|].
      apply (f_equal signal) in Hcore. change (signal (core ?x)) with (signal x) in Hcore. rewrite Hcore, serve_signal.
      by rewrite Hsg.
Qed.

(** C17. The clock interrupt: it advances the clock by one tick, takes from both queues
    exactly the tasks whose time has come (and no others, although it looks at the queues
    only from the front), and makes runnable exactly those of them that were blocked, in
    addition to the tasks that were runnable before.  Tasks whose alarm went off have
    SIGALRM pending, every other task's pending signals are unchanged, and the tasks left
    in a queue keep their times.  The handler never
    faults, and the queues stay sorted and the scheduler's invariant holds. *)
Theorem clock_interrupt_spec k : timers_ok k ->
  let now := u32 (sys_ticks k + 1) in
  let come x := (0 <? x) && (x <=? now) in
  let fired q p t := bool_decide (p ∈ qlist q k) && come (target q t) in
  exists k', intr_handler_timer k = Ok k' /\ timers_ok k' /\ sys_ticks k' = now /\
    (forall q, qlist q k' = List.filter (fun p => negb (come (tgt q k p))) (qlist q k)) /\
    (forall q p, p ∈ qlist q k' -> tgt q k' p = tgt q k p) /\
    forall p t, p ∈ thread_all_list k -> tasks k !! p = Some t ->
      (runnable k' p <-> runnable k p \/ (is_wait (status t) = true /\ fired Timers p t || fired Alarms p t = true)) /\
      exists t', tasks k' !! p = Some t' /\
        signal t' = (if fired Alarms p t then sig_addset (signal t) SIGALRM else signal t).
Proof. apply clock_interrupt_ok. Qed.

(** ** Sleeping *)
Lemma insert_spec k q p v l : ascending q k l -> (forall x, x ∈ l -> exists t, tasks k !! x = Some t) -> tgt q k p = v ->
  exists l', insert_before_later (tasks k) q p v l = Ok l' /\ l' ≡ₚ p :: l /\ ascending q k l'.
Proof.
  intros Hs Hl Hv. induction Hs as [|x l Hs IH Hf]; cbn [insert_before_later].
  { exists [p]. split_and!; [done|done|]. repeat constructor. }
  destruct (Hl x ltac:(left)) as [t Ht]. rewrite Ht. ok_simpl.
  assert (Htx : tgt q k x = target q t) by (unfold tgt; by rewrite Ht).
  destruct (Z.ltb_spec v (target q t)) as [Hlt|Hge].
  - exists (p :: x :: l). split_and!; [done|done|]. constructor; [by constructor|]. constructor; [lia|].
    eapply Forall_impl; [exact Hf|]. cbn. intros y Hy. lia.
  - destruct IH as (l' & -> & Hp & Hs'); [intros y Hy; apply Hl; by right|]. ok_simpl. exists (x :: l').
    split_and!; [done|rewrite Hp; constructor|]. constructor; [done|]. rewrite Forall_forall in *. intros y Hy.
    rewrite Hp in Hy. apply elem_of_cons in Hy as [->|Hy]; [lia|by apply Hf].
Qed.

(** Storing a time in a task that is not queued, and queueing it. *)
Definition set_target (q : queue) (x : Z) (t : task_struct) : task_struct :=
  match q with Timers => set_wait_until x t | Alarms => set_alarm x t end.

Lemma enter_ok k q p t v : timers_ok k -> p ∈ thread_all_list k -> p ∉ qlist q k -> tasks k !! p = Some t -> 0 < v ->
  exists k', (k1 ← with_task k p (set_target q v); list_insert_ascend k1 p q) = Ok k' /\ timers_ok k' /\
    qlist q k' ≡ₚ p :: qlist q k /\ (forall q', q' <> q -> qlist q' k' = qlist q' k) /\
    tasks k' = <[p := set_target q v t]> (tasks k) /\ cur_task k' = cur_task k /\ sys_ticks k' = sys_ticks k /\
    idle_thread k' = idle_thread k /\ thread_all_list k' = thread_all_list k.
Proof.
  intros [Hk H1 H2] Hall Hnot Ht Hv. unfold with_task. rewrite Ht. ok_simpl. set (k1 := set_tasks _ k).
  assert (Hk1 : sched_ok k1) by (apply (store_ok k p t); [done|done|by destruct q]).
  assert (Hl1 : forall q', qlist q' k1 = qlist q' k) by (by intros []).
  assert (Hp1 : tasks k1 !! p = Some (set_target q v t)) by apply lookup_insert_eq.
  assert (Htg : forall q' x, q' <> q \/ x <> p -> tgt q' k1 x = tgt q' k x).
  { intros q' x Hx. unfold tgt. cbn [tasks k1 set_tasks]. rewrite lookup_insert.
    destruct (decide (p = x)) as [<-|]; [|done]. rewrite Ht. destruct q, q'; try done; destruct Hx; done. }
  assert (Htp : tgt q k1 p = v) by (unfold tgt; rewrite Hp1; by destruct q).
  assert (Hok : queue_ok q k) by (by destruct q).
  unfold list_insert_ascend. rewrite Hl1, bool_decide_false, Hp1 by done. ok_simpl.
  replace (target q (set_target q v t)) with v by (by destruct q).
  destruct (insert_spec k1 q p v (qlist q k)) as (l' & -> & Hperm & Hs').
  - apply (ascending_ext q k); [|apply Hok]. intros x Hx. apply Htg. right. by intros ->.
  - intros x Hx. apply (all_task k1 x (so_pre _ Hk1)). by apply (q_sub _ _ Hok).
  - done.
  - ok_simpl. exists (set_qlist q l' k1).
    assert (Hqok : forall q', queue_ok q' (set_qlist q l' k1)).
    { intros q'. assert (Htl : forall x, tgt q' (set_qlist q l' k1) x = tgt q' k1 x) by (by destruct q).
      destruct (decide (q = q')) as [<-|Hne].
      - split; rewrite qlist_set.
        + rewrite Hperm. apply NoDup_cons. split; [done|apply Hok].
        + intros x Hx. rewrite Hperm in Hx. replace (thread_all_list (set_qlist q l' k1)) with (thread_all_list k) by (by destruct q).
          apply elem_of_cons in Hx as [->|Hx]; [done|by apply Hok].
        + by apply (ascending_ext q k1).
        + intros x Hx. rewrite Hperm in Hx. rewrite Htl. apply elem_of_cons in Hx as [->|Hx]; [lia|]. rewrite Htg by (right; by intros ->). by apply Hok.
      - apply (queue_ok_same q' k); [by destruct q'|by destruct q, q'|by destruct q|].
        intros x Hx. rewrite Htl. apply Htg. by left. }
    split_and!; try (by destruct q).
    + split; [by apply set_qlist_ok|apply Hqok..].
    + intros q' Hne. by destruct q, q'.
Qed.

(** [n] clock interrupts in a row. *)
Fixpoint interrupts (n : nat) (k : kernel) : res kernel :=
  match n with O => Ok k | S n => k ← intr_handler_timer k; interrupts n k end.

(** A sleeper that is due at tick [e], with no alarm set: it stays asleep until then. *)
Record asleep (k : kernel) (p e : Z) : Prop := {
  as_all : p ∈ thread_all_list k;
  as_timer : p ∈ timer_list k;
  as_alarm : p ∉ alarm_list k;
  as_time : tgt Timers k p = e;
  as_wait : ~ runnable k p;
}.

Lemma interrupt_awake k p : timers_ok k -> p ∈ thread_all_list k -> runnable k p ->
  exists k', intr_handler_timer k = Ok k' /\ timers_ok k' /\ runnable k' p /\ p ∈ thread_all_list k'.
Proof.
  intros Hk Hp Hr. destruct (all_task k p (so_pre _ (to_sched _ Hk)) Hp) as [t Ht].
  destruct (clock_interrupt_ok k Hk) as (k' & Hrun & Hk' & _ & _ & _ & H). destruct (H p t Hp Ht) as [Hiff (t' & Ht' & _)].
  assert (Hr' : runnable k' p) by (apply Hiff; by left). exists k'. split_and!; try done.
  destruct Hr' as [->|Hin]; [apply (sp_cur _ (so_pre _ (to_sched _ Hk')))|by apply (sp_sub _ (so_pre _ (to_sched _ Hk')))].
Qed.

Lemma interrupt_asleep k p e : timers_ok k -> asleep k p e -> 0 < e -> 0 <= sys_ticks k -> sys_ticks k + 1 < 2 ^ 32 ->
  exists k', intr_handler_timer k = Ok k' /\ timers_ok k' /\ sys_ticks k' = sys_ticks k + 1 /\
    if e <=? sys_ticks k + 1 then p ∈ thread_all_list k' /\ runnable k' p else asleep k' p e.
Proof.
  intros Hk [A1 A2 A3 A4 A5] He H0 Hlt. destruct (all_task k p (so_pre _ (to_sched _ Hk)) A1) as [t Ht].
  destruct (clock_interrupt_ok k Hk) as (k' & Hrun & Hk' & Hn & Hq & Htm & H). destruct (H p t A1 Ht) as [Hiff (t' & Ht' & _)].
  rewrite u32_small in Hn, Hq, Hiff by lia. exists k'. split_and!; [done|done|done|].
  assert (Htg : target Timers t = e) by (rewrite <- A4; unfold tgt; by rewrite Ht).
  assert (Hw : is_wait (status t) = true) by (apply (wait_status k p t (to_sched _ Hk)); done). rewrite Hw in Hiff.
  rewrite bool_decide_true, (bool_decide_false (p ∈ qlist Alarms k)), Htg in Hiff by done.
  unfold due in Hiff. rewrite (proj2 (Z.ltb_lt 0 e)) in Hiff by lia. cbn [andb] in Hiff. rewrite orb_false_r in Hiff.
  destruct (e <=? sys_ticks k + 1) eqn:Ee.
  - assert (Hr' : runnable k' p) by (apply Hiff; by right). split; [|done].
    destruct Hr' as [->|Hin]; [apply (sp_cur _ (so_pre _ (to_sched _ Hk')))|by apply (sp_sub _ (so_pre _ (to_sched _ Hk')))].
  - assert (Hin : p ∈ timer_list k').
    { change (timer_list k') with (qlist Timers k'). rewrite Hq. apply elem_of_bool_filter. split; [done|]. rewrite A4. unfold due.
      by rewrite Ee, andb_false_r. }
    split; [by apply (q_sub _ _ (to_timers _ Hk'))|done| |by rewrite (Htm Timers p Hin)|rewrite Hiff; intuition congruence].
    change (alarm_list k') with (qlist Alarms k'). rewrite Hq. by intros [? _]%elem_of_bool_filter.
Qed.

Lemma interrupts_awake n k p : timers_ok k -> p ∈ thread_all_list k -> runnable k p ->
  exists k', interrupts n k = Ok k' /\ runnable k' p.
Proof.
  revert k. induction n as [|n IH]; intros k Hk Hp Hr; cbn [interrupts]; [eauto|].
  destruct (interrupt_awake k p Hk Hp Hr) as (k1 & -> & Hk1 & Hr1 & Hp1). ok_simpl. by apply IH.
Qed.

Lemma interrupts_asleep n k p e : timers_ok k -> asleep k p e -> sys_ticks k < e -> 0 <= sys_ticks k ->
  sys_ticks k + Z.of_nat n < 2 ^ 32 ->
  exists k', interrupts n k = Ok k' /\ (runnable k' p <-> e <= sys_ticks k + Z.of_nat n).
Proof.
  revert k. induction n as [|n IH]; intros k Hk Ha He H0 Hn; cbn [interrupts].
  { exists k. split; [done|]. split; [intros Hr; by destruct (as_wait _ _ _ Ha)|lia]. }
  destruct (interrupt_asleep k p e Hk Ha) as (k1 & -> & Hk1 & Ht1 & H1); [lia..|]. ok_simpl.
  destruct (Z.leb_spec e (sys_ticks k + 1)) as [Hle|Hgt].
  - destruct H1 as [Hp1 Hr1]. destruct (interrupts_awake n k1 p Hk1 Hp1 Hr1) as (k' & -> & Hr'). exists k'.
    split; [done|]. split; [lia|done].
  - destruct (IH k1 Hk1 H1) as (k' & -> & Hiff); [lia..|]. exists k'. split; [done|]. rewrite Hiff. lia.
Qed.


(** [sys_exit] leaves the alarm of an exiting task set, and the handler wakes any blocked
    task whose alarm goes off: a zombie waiting to be collected becomes runnable again. *)
Lemma alarm_wakes_zombie k p t : timers_ok k -> p ∈ alarm_list k -> tasks k !! p = Some t ->
  status t = TASK_HANGING -> due (u32 (sys_ticks k + 1)) (alarm t) = true ->
  exists k', intr_handler_timer k = Ok k' /\ runnable k' p.
Proof.
  intros Hk Hp Ht Hs Hd. pose proof (q_sub _ _ (to_alarms _ Hk) p Hp) as Hall.
  destruct (clock_interrupt_ok k Hk) as (k' & Hrun & _ & _ & _ & _ & H). exists k'. split; [done|].
  apply (H p t Hall Ht). right. rewrite Hs. split; [done|]. rewrite (bool_decide_true (p ∈ qlist Alarms k)) by done.
  cbn [target]. rewrite Hd. apply orb_true_r.
Qed.

(** ** Concrete cases *)
Definition ex_sleeper : task_struct := set_wait_until 1 (Sched.ex_task 3 TASK_BLOCKED 10 7).
Definition ex_timer_kernel : kernel := set_timers [4] (set_tasks (<[4 := ex_sleeper]> (tasks ex_kernel)) ex_kernel).

Lemma ex_timer_kernel_ok : timers_ok ex_timer_kernel.
Proof.
  split.
  - apply (set_qlist_ok Timers), (store_ok ex_kernel 4 (Sched.ex_task 3 TASK_BLOCKED 10 7) ex_sleeper);
      [exact ex_kernel_ok|vm_compute; reflexivity|by split_and!].
  - split; cbn [qlist timer_list ex_timer_kernel set_timers].
    + apply NoDup_singleton.
    + intros p ->%list_elem_of_singleton. apply (bool_decide_unpack _). vm_compute. exact I.
    + repeat constructor.
    + intros p ->%list_elem_of_singleton. vm_compute. reflexivity.
  - split; cbn [qlist alarm_list ex_timer_kernel set_timers set_tasks ex_kernel]; [constructor|..];
      try (by intros p ?%not_elem_of_nil). constructor.
Qed.

Lemma clock_interrupt_spec_witness : exists k', intr_handler_timer ex_timer_kernel = Ok k' /\ timers_ok k' /\ runnable k' 4.
Proof.
  destruct (clock_interrupt_spec ex_timer_kernel ex_timer_kernel_ok) as (k' & Hrun & Hk & _ & _ & _ & H).
  exists k'. split; [exact Hrun|]. split; [exact Hk|].
  apply (H 4 ex_sleeper); [apply (bool_decide_unpack _); vm_compute; exact I|vm_compute; reflexivity|].
  right. split; vm_compute; reflexivity.
Defined.

