(* ===== verification/Sync.v ===== *)
(** * thread/sync.c: semaphores and locks

    Each stretch of code with interrupts off, and each access to the lock's own fields,
    is one step of the running task.  [sema_wait] is cut at the place where it blocks: a
    pass of its loop either takes the semaphore or queues and blocks the task, which
    makes its next pass when it runs again.  The steps of all tasks interleave freely,
    with the scheduler of [Sched] deciding who runs. *)

From S2P Require Import Prelude DList ListView Sched.

Record semaphore := Sema { value : Z; waiters : list Z }.
Definition sema_init (v : Z) : semaphore := Sema v [].

Record lock := Lock { holder : option Z; sem : semaphore; holder_repeat_nr : Z }.
Definition lock_init : lock := Lock None (sema_init 1) 0.

(** One pass of the loop of [sema_wait]: has the running task got the semaphore? *)
Definition sema_wait_pass (k : kernel) (s : semaphore) : res (bool * kernel * semaphore) :=
  if value s =? 0 then
    k' ← thread_block k TASK_BLOCKED;
    Ok (false, k', Sema (value s) (waiters s ++ [cur_task k]))
  else Ok (true, k, Sema (u8 (value s - 1)) (waiters s)).

Definition sema_signal (k : kernel) (s : semaphore) : res (kernel * semaphore) :=
  '(k, ws) ← match waiters s with
             | [] => Ok (k, [])
             | p :: ws => k ← thread_unblock k p; Ok (k, ws)
             end;
  Ok (k, Sema (u8 (value s + 1)) ws).

Definition sema_try_wait (s : semaphore) : bool * semaphore :=
  if 0 <? value s then (true, Sema (u8 (value s - 1)) (waiters s)) else (false, s).

(** Where a task is in [lock_acquire] and [lock_release]. *)
Inductive pc :=
  | Out                (* outside: does not hold the lock *)
  | Acquiring          (* in sema_wait *)
  | Got                (* sema_wait returned *)
  | Holding            (* holder set, counter not yet *)
  | Inside (n : Z)     (* in the critical section, n acquires deep *)
  | Releasing          (* last release: checks passed *)
  | Cleared            (* holder is NULL *)
  | Signalling.        (* counter is 0, before sema_signal *)

Record system := System { krn : kernel; lk : lock; pcs : gmap Z pc }.
Definition at_ (s : system) (p : Z) : pc := default Out (pcs s !! p).
Definition goto (s : system) (k : kernel) (l : lock) (p : Z) (c : pc) : system := System k l (<[p := c]> (pcs s)).

(** The next step of the running task; [acq] says whether a task that is free to choose
    calls [lock_acquire] or [lock_release]. *)
Definition lock_step (acq : bool) (s : system) : res system :=
  let k := krn s in let l := lk s in let p := cur_task k in
  match at_ s p, acq with
  | (Out | Inside _) as c, true =>
      (* lock_acquire: if (plock->holder != running task) *)
      if bool_decide (holder l = Some p)
      then let n := u32 (holder_repeat_nr l + 1) in Ok (goto s k (Lock (holder l) (sem l) n) p (Inside n))
      else Ok (goto s k l p Acquiring)
  | (Out | Inside _), false =>
      (* lock_release *)
      _ ← assert_ (bool_decide (holder l = Some p));
      if 1 <? holder_repeat_nr l
      then let n := u32 (holder_repeat_nr l - 1) in Ok (goto s k (Lock (holder l) (sem l) n) p (Inside n))
      else _ ← assert_ (holder_repeat_nr l =? 1); Ok (goto s k l p Releasing)
  | Acquiring, _ =>
      r ← sema_wait_pass k (sem l);
      Ok (goto s r.1.2 (Lock (holder l) r.2 (holder_repeat_nr l)) p (if r.1.1 : bool then Got else Acquiring))
  | Got, _ => Ok (goto s k (Lock (Some p) (sem l) (holder_repeat_nr l)) p Holding)
  | Holding, _ =>
      _ ← assert_ (holder_repeat_nr l =? 0);
      Ok (goto s k (Lock (holder l) (sem l) 1) p (Inside 1))
  | Releasing, _ => Ok (goto s k (Lock None (sem l) (holder_repeat_nr l)) p Cleared)
  | Cleared, _ => Ok (goto s k (Lock (holder l) (sem l) 0) p Signalling)
  | Signalling, _ =>
      r ← sema_signal k (sem l);
      Ok (goto s r.1 (Lock (holder l) r.2 (holder_repeat_nr l)) p Out)
  end.

(** What the rest of the kernel may do between two steps: anything that keeps the
    scheduler's invariant, leaves the tasks in the semaphore's queue blocked, and keeps
    those that the semaphore has woken runnable. *)
Record env_ok (s : system) (k' : kernel) : Prop := {
  env_sched : sched_ok k';
  env_queued : forall p, p ∈ waiters (sem (lk s)) ->
    p ∈ thread_all_list k' /\ p <> idle_thread k' /\ ~ runnable k' p;
  env_woken : forall p, at_ s p = Acquiring -> p ∉ waiters (sem (lk s)) -> p <> idle_thread k' /\ runnable k' p;
}.

(** A task calls [lock_release] only when it holds the lock, nests less than 2^32 deep,
    and the idle task takes no locks. *)
Definition may_step (acq : bool) (s : system) : Prop :=
  cur_task (krn s) <> idle_thread (krn s) /\
  match at_ s (cur_task (krn s)) with
  | Out => acq = true
  | Inside n => acq = true -> n + 1 < 2 ^ 32
  | _ => True
  end.

Inductive lock_reach (s0 : system) : system -> Prop :=
  | lr_refl : lock_reach s0 s0
  | lr_task s acq s' : lock_reach s0 s -> may_step acq s -> lock_step acq s = Ok s' -> lock_reach s0 s'
  | lr_env s k' : lock_reach s0 s -> env_ok s k' -> lock_reach s0 (System k' (lk s) (pcs s)).

(** ** The invariant *)

(** Does a task at [c] own the semaphore, and what are the lock's fields then? *)
Definition owns (c : pc) : bool := match c with Out | Acquiring => false | _ => true end.

Definition fields_of (p : Z) (c : pc) (l : lock) : Prop :=
  match c with
  | Out | Acquiring => True
  | Got => holder l = None /\ holder_repeat_nr l = 0
  | Holding => holder l = Some p /\ holder_repeat_nr l = 0
  | Inside n => holder l = Some p /\ holder_repeat_nr l = n /\ 1 <= n < 2 ^ 32
  | Releasing => holder l = Some p /\ holder_repeat_nr l = 1
  | Cleared => holder l = None /\ holder_repeat_nr l = 1
  | Signalling => holder l = None /\ holder_repeat_nr l = 0
  end.

Record lock_ok (s : system) : Prop := {
  lo_env : env_ok s (krn s);
  lo_owner : (value (sem (lk s)) = 1 /\ holder (lk s) = None /\ holder_repeat_nr (lk s) = 0 /\ (forall p, owns (at_ s p) = false)) \/
             (value (sem (lk s)) = 0 /\ exists o, fields_of o (at_ s o) (lk s) /\ forall p, owns (at_ s p) = true <-> p = o);
  lo_nodup : NoDup (waiters (sem (lk s)));
  lo_wait : forall p, p ∈ waiters (sem (lk s)) -> at_ s p = Acquiring;
  lo_wakeup : value (sem (lk s)) = 1 -> waiters (sem (lk s)) <> [] ->
    exists p, at_ s p = Acquiring /\ p ∉ waiters (sem (lk s));
}.

Lemma at_goto s k l p c q : at_ (goto s k l p c) q = if decide (p = q) then c else at_ s q.
Proof. unfold at_, goto. cbn [pcs]. rewrite lookup_insert. by destruct (decide (p = q)). Qed.

Lemma runnable_cur k : runnable k (cur_task k).
Proof. by left. Qed.

Lemma cur_not_queued s : lock_ok s -> cur_task (krn s) ∉ waiters (sem (lk s)).
Proof. intros Hs Hin. destruct (env_queued _ _ (lo_env _ Hs) _ Hin) as (_ & _ & Hn). apply Hn, runnable_cur. Qed.

(** A step of the owner on the lock's own fields. *)
Lemma owner_step_ok s h n c : lock_ok s -> owns (at_ s (cur_task (krn s))) = true -> owns c = true ->
  fields_of (cur_task (krn s)) c (Lock h (sem (lk s)) n) ->
  lock_ok (goto s (krn s) (Lock h (sem (lk s)) n) (cur_task (krn s)) c).
Proof.
  intros Hs Ho Hc Hf. set (p := cur_task (krn s)) in *. destruct Hs as [[E1 E2 E3] Hown Hnd Hw Hwk].
  destruct Hown as [(_ & _ & _ & Hno)|(Hv & o & _ & Hiff)]; [by rewrite Hno in Ho|].
  assert (o = p) as -> by (symmetry; by apply Hiff).
  assert (Hnp : at_ s p <> Acquiring) by (intros E; by rewrite E in Ho).
  assert (Hat : forall q, at_ (goto s (krn s) (Lock h (sem (lk s)) n) p c) q = Acquiring <-> at_ s q = Acquiring).
  { intros q. rewrite at_goto. destruct (decide (p = q)) as [<-|]; [|done]. split; [intros ->; discriminate Hc|done]. }
  split; cbn [krn lk sem goto].
  - split; cbn [krn lk sem goto]; [done|done|]. intros q Hq. by apply E3, Hat.
  - right. split; [done|]. exists p. rewrite at_goto, decide_True by done. split; [done|].
    intros q. rewrite at_goto. destruct (decide (p = q)) as [<-|]; [done|apply Hiff].
  - done.
  - intros q Hq. by apply Hat, Hw.
  - rewrite Hv. discriminate.
Qed.

(** Entering [sema_wait]. *)
Lemma enter_step_ok s : lock_ok s -> at_ s (cur_task (krn s)) = Out -> cur_task (krn s) <> idle_thread (krn s) ->
  lock_ok (goto s (krn s) (lk s) (cur_task (krn s)) Acquiring).
Proof.
  intros Hs Hout Hidle. pose proof (cur_not_queued s Hs) as Hnq. set (p := cur_task (krn s)) in *.
  destruct Hs as [[E1 E2 E3] Hown Hnd Hw Hwk].
  assert (Hat : forall q, q <> p -> at_ (goto s (krn s) (lk s) p Acquiring) q = at_ s q).
  { intros q Hq. rewrite at_goto, decide_False; [done|congruence]. }
  assert (Hp : at_ (goto s (krn s) (lk s) p Acquiring) p = Acquiring) by (by rewrite at_goto, decide_True).
  assert (Hown' : forall q, owns (at_ (goto s (krn s) (lk s) p Acquiring) q) = owns (at_ s q)).
  { intros q. destruct (decide (q = p)) as [->|]; [by rewrite Hp, Hout|by rewrite Hat]. }
  split; cbn [krn lk goto].
  - split; cbn [krn lk goto]; [done|done|]. intros q Hq Hnw. destruct (decide (q = p)) as [->|Hne].
    + split; [done|apply runnable_cur].
    + apply E3; [by rewrite <- Hat|done].
  - destruct Hown as [(V & H & N & Hno)|(V & o & Hf & Hiff)].
    + left. split_and!; try done. intros q. by rewrite Hown'.
    + right. split; [done|]. exists o. split; [|intros q; rewrite Hown'; apply Hiff].
      assert (Ho : owns (at_ s o) = true) by (by apply Hiff).
      rewrite Hat; [done|]. intros ->. by rewrite Hout in Ho.
  - done.
  - intros q Hq. destruct (decide (q = p)) as [->|]; [done|]. rewrite Hat by done. by apply Hw.
  - intros V Hne. destruct (Hwk V Hne) as (q & Hq & Hnq'). exists q. split; [|done].
    rewrite Hat; [done|]. intros ->. congruence.
Qed.

(** A pass of [sema_wait]: the semaphore is free. *)
Lemma got_step_ok s : lock_ok s -> at_ s (cur_task (krn s)) = Acquiring -> value (sem (lk s)) = 1 ->
  lock_ok (goto s (krn s) (Lock (holder (lk s)) (Sema 0 (waiters (sem (lk s)))) (holder_repeat_nr (lk s)))
    (cur_task (krn s)) Got).
Proof.
  intros Hs Hacq Hv. pose proof (cur_not_queued s Hs) as Hnq. set (p := cur_task (krn s)) in *.
  destruct Hs as [[E1 E2 E3] Hown Hnd Hw Hwk].
  destruct Hown as [(_ & Hh & Hn & Hno)|(V & _)]; [|congruence].
  split; cbn [krn lk sem waiters value goto holder holder_repeat_nr].
  - split; cbn [krn lk sem waiters goto]; [done|done|]. intros q. rewrite at_goto.
    destruct (decide (p = q)); [done|]. intros. by apply E3.
  - right. split; [done|]. exists p. rewrite at_goto, decide_True by done. split; [done|].
    intros q. rewrite at_goto. destruct (decide (p = q)) as [<-|Hne]; [done|]. rewrite Hno. split; [done|congruence].
  - done.
  - intros q Hq. rewrite at_goto, decide_False; [by apply Hw|]. by intros <-.
  - discriminate.
Qed.

(** A pass of [sema_wait]: the semaphore is taken, the task queues up and blocks. *)
Lemma queue_step_ok s : lock_ok s -> at_ s (cur_task (krn s)) = Acquiring -> value (sem (lk s)) = 0 ->
  cur_task (krn s) <> idle_thread (krn s) ->
  exists k', thread_block (krn s) TASK_BLOCKED = Ok k' /\
    lock_ok (goto s k' (Lock (holder (lk s)) (Sema 0 (waiters (sem (lk s)) ++ [cur_task (krn s)])) (holder_repeat_nr (lk s)))
      (cur_task (krn s)) Acquiring).
Proof.
  intros Hs Hacq Hv Hidle. pose proof (cur_not_queued s Hs) as Hnq. set (p := cur_task (krn s)) in *.
  destruct Hs as [[E1 E2 E3] Hown Hnd Hw Hwk].
  destruct (block_runnable (krn s) TASK_BLOCKED E1 eq_refl) as (k' & Hb & Hk' & (L1 & _ & _ & _ & L5 & _) & Hrun).
  fold p in Hrun. exists k'. split; [done|]. destruct Hown as [(V & _)|(_ & o & Hf & Hiff)]; [congruence|].
  assert (Hat : forall q, at_ (goto s k' (Lock (holder (lk s)) (Sema 0 (waiters (sem (lk s)) ++ [p])) (holder_repeat_nr (lk s)))
    p Acquiring) q = at_ s q).
  { intros q. rewrite at_goto. by destruct (decide (p = q)) as [<-|]. }
  split; cbn [krn lk sem waiters value goto holder holder_repeat_nr].
  - split; cbn [krn lk sem waiters goto]; [done| |].
    + intros q. rewrite elem_of_app, list_elem_of_singleton, L1, L5. intros [Hq| ->].
      * destruct (E2 q Hq) as (A & B & C). split_and!; [done|done|]. rewrite Hrun by done. tauto.
      * split_and!; [apply (sp_cur _ (so_pre _ E1))|done|]. rewrite Hrun by done. tauto.
    + intros q. rewrite Hat, elem_of_app, list_elem_of_singleton, L5. intros Hq Hn.
      destruct (E3 q Hq) as [A B]; [tauto|]. split; [done|]. rewrite Hrun by done. tauto.
  - right. split; [done|]. exists o. rewrite Hat. split; [by destruct (at_ s o)|]. intros q. rewrite Hat. apply Hiff.
  - apply NoDup_app. split_and!; [done| |apply NoDup_singleton]. by intros x Hx ->%list_elem_of_singleton.
  - intros q. rewrite Hat, elem_of_app, list_elem_of_singleton. intros [Hq| ->]; [by apply Hw|done].
  - discriminate.
Qed.

(** The last step of [lock_release]: [sema_signal]. *)
Lemma signal_step_ok s : lock_ok s -> at_ s (cur_task (krn s)) = Signalling ->
  exists k' sm, sema_signal (krn s) (sem (lk s)) = Ok (k', sm) /\
    lock_ok (goto s k' (Lock (holder (lk s)) sm (holder_repeat_nr (lk s))) (cur_task (krn s)) Out).
Proof.
  intros Hs Hsig. set (p := cur_task (krn s)) in *. destruct Hs as [[E1 E2 E3] Hown Hnd Hw Hwk].
  destruct Hown as [(_ & _ & _ & Hno)|(Hv & o & Hf & Hiff)]; [specialize (Hno p); by rewrite Hsig in Hno|].
  assert (o = p) as -> by (symmetry; apply Hiff; by rewrite Hsig). rewrite Hsig in Hf. destruct Hf as [Hh Hn].
  assert (Hat : forall k l q, q <> p -> at_ (goto s k l p Out) q = at_ s q).
  { intros k l q Hq. rewrite at_goto, decide_False; [done|congruence]. }
  assert (Hnone : forall k l q, owns (at_ (goto s k l p Out) q) = false).
  { intros k l q. rewrite at_goto. destruct (decide (p = q)) as [<-|Hne]; [done|]. apply not_true_is_false. rewrite Hiff. congruence. }
  assert (Hacq : forall k l q, at_ (goto s k l p Out) q = Acquiring -> at_ s q = Acquiring).
  { intros k l q. rewrite at_goto. by destruct (decide (p = q)). }
  assert (Hnp : forall q, at_ s q = Acquiring -> q <> p) by (intros q Hq ->; congruence).
  unfold sema_signal. rewrite Hv. change (u8 (0 + 1)) with 1. destruct (waiters (sem (lk s))) as [|w ws] eqn:Ews.
  - ok_simpl. eexists _, _. split; [done|]. split; cbn [krn lk sem waiters value goto holder holder_repeat_nr]; try done.
    + split; cbn [krn lk sem waiters goto]; [done|by intros q ?%not_elem_of_nil|]. intros q Hq _. apply E3; [by eapply Hacq|apply not_elem_of_nil].
    + left. split_and!; done || apply Hnone.
    + by intros q ?%not_elem_of_nil.
  - apply NoDup_cons in Hnd as [Hwn Hnd]. destruct (E2 w ltac:(left)) as (A1 & A2 & A3).
    destruct (all_task (krn s) w (so_pre _ E1) A1) as [t Ht].
    destruct (unblock_ok (krn s) w t E1 A1 Ht (wait_status _ _ _ E1 A1 Ht A3)) as (k' & Hub & Hk' & Hc & Hr & (L1 & _ & _ & _ & L5 & _) & Hm).
    rewrite Hub. ok_simpl. eexists _, _. split; [done|].
    assert (Hrun : forall q, runnable k' q <-> runnable (krn s) q \/ q = w).
    { intros q. unfold runnable. rewrite Hc, Hr, elem_of_cons. tauto. }
    split; cbn [krn lk sem waiters value goto holder holder_repeat_nr].
    + split; cbn [krn lk sem waiters goto]; [done| |].
      * intros q Hq. rewrite L1, L5, Hrun. destruct (E2 q ltac:(by right)) as (B1 & B2 & B3). split_and!; [done|done|].
        intros [?| ->]; done.
      * intros q Hq Hnq. rewrite L5, Hrun. apply Hacq in Hq. destruct (decide (q = w)) as [->|Hne]; [by auto|].
        destruct (E3 q Hq) as [B1 B2]; [by intros [?|?]%elem_of_cons|auto].
    + left. split_and!; done || apply Hnone.
    + done.
    + intros q Hq. assert (Ha : at_ s q = Acquiring) by (apply Hw; by right). rewrite Hat; auto.
    + intros _ _. exists w. assert (Ha : at_ s w = Acquiring) by (apply Hw; left). split; [rewrite Hat; auto|done].
Qed.

Lemma owner_fields s p : lock_ok s -> owns (at_ s p) = true -> fields_of p (at_ s p) (lk s).
Proof.
  intros Hs Ho. destruct (lo_owner _ Hs) as [(_ & _ & _ & Hno)|(_ & o & Hf & Hiff)]; [by rewrite Hno in Ho|].
  by apply Hiff in Ho as ->.
Qed.

Lemma lock_eta l : l = Lock (holder l) (sem l) (holder_repeat_nr l).
Proof. by destruct l. Qed.

Lemma lock_step_ok acq s : lock_ok s -> may_step acq s -> exists s', lock_step acq s = Ok s' /\ lock_ok s'.
Proof.
  intros Hs [Hidle Hmay]. unfold lock_step. set (p := cur_task (krn s)) in *.
  destruct (at_ s p) as [| | | |n| | |] eqn:Hat.
  - subst acq. assert (Hh : holder (lk s) <> Some p).
    { destruct (lo_owner _ Hs) as [(_ & Hh & _)|(_ & o & Hf & Hiff)]; [congruence|]. intros E.
      assert (Ho : owns (at_ s o) = true) by (by apply Hiff).
      assert (Hne : o <> p) by (intros ->; by rewrite Hat in Ho).
      destruct (at_ s o) eqn:Eo; cbn in Ho, Hf; destruct_and?; congruence. }
    rewrite bool_decide_false by done. eexists. split; [done|]. by apply enter_step_ok.
  - unfold sema_wait_pass. fold p.
    destruct (lo_owner _ Hs) as [(Hv & _)|(Hv & _)]; rewrite Hv; cbn [Z.eqb].
    + ok_simpl. eexists. split; [done|]. by apply got_step_ok.
    + destruct (queue_step_ok s Hs Hat Hv Hidle) as (k' & -> & Hok). ok_simpl. eauto.
  - eexists. split; [done|]. pose proof (owner_fields s p Hs) as Hf. rewrite Hat in Hf. destruct (Hf eq_refl) as [_ Hn].
    apply owner_step_ok; [done|by fold p; rewrite Hat|done|]. by split.
  - pose proof (owner_fields s p Hs) as Hf. rewrite Hat in Hf. destruct (Hf eq_refl) as [Hh Hn]. rewrite Hn. ok_simpl.
    eexists. split; [done|]. apply owner_step_ok; [done|by fold p; rewrite Hat|done|]. by split_and!.
  - pose proof (owner_fields s p Hs) as Hf. rewrite Hat in Hf. destruct (Hf eq_refl) as (Hh & Hn & Hr).
    rewrite bool_decide_true, Hn by done. destruct acq.
    + eexists. split; [done|]. rewrite u32_small by lia. rewrite Hh.
      apply owner_step_ok; [done|by fold p; rewrite Hat|done|]. cbn. split_and!; try done; lia.
    + ok_simpl. destruct (Z.ltb_spec 1 n).
      * eexists. split; [done|]. rewrite u32_small by lia. rewrite Hh.
        apply owner_step_ok; [done|by fold p; rewrite Hat|done|]. cbn. split_and!; try done; lia.
      * assert (n = 1) as -> by lia. ok_simpl. eexists. split; [done|].
        rewrite (lock_eta (lk s)). apply owner_step_ok; [done|by fold p; rewrite Hat|done|]. by split.
  - eexists. split; [done|]. pose proof (owner_fields s p Hs) as Hf. rewrite Hat in Hf. destruct (Hf eq_refl) as [_ Hn].
    apply owner_step_ok; [done|by fold p; rewrite Hat|done|]. by split.
  - eexists. split; [done|]. pose proof (owner_fields s p Hs) as Hf. rewrite Hat in Hf. destruct (Hf eq_refl) as [Hh _].
    apply owner_step_ok; [done|by fold p; rewrite Hat|done|]. by split.
  - destruct (signal_step_ok s Hs Hat) as (k' & sm & -> & Hok). ok_simpl. eauto.
Qed.

Lemma lock_init_ok k : sched_ok k -> lock_ok (System k lock_init ∅).
Proof.
  intros Hk. assert (Hat : forall p, at_ (System k lock_init ∅) p = Out) by (intros p; unfold at_; cbn; by rewrite lookup_empty).
  split; cbn [krn lk sem waiters value lock_init sema_init holder holder_repeat_nr].
  - split; cbn [krn lk sem waiters lock_init sema_init]; [done|by intros p ?%not_elem_of_nil|]. intros p. by rewrite Hat.
  - left. by split_and!.
  - constructor.
  - by intros p ?%not_elem_of_nil.
  - done.
Qed.

Lemma reach_lock_ok s0 s : lock_ok s0 -> lock_reach s0 s -> lock_ok s.
Proof.
  intros H0 Hr. induction Hr as [|s acq s' _ IH Hmay Hstep|s k' _ IH [E1 E2 E3]]; [done| |].
  - destruct (lock_step_ok acq s IH Hmay) as (s2 & E & Hok). congruence.
  - destruct IH as [_ Hown Hnd Hw Hwk]. split; cbn [krn lk pcs]; try done.
Qed.

(** C2. Mutual exclusion: from a freshly initialised lock, in every interleaving of the
    tasks' calls of [lock_acquire] and [lock_release] with each other and with the rest
    of the kernel, at most one task is between the return of [lock_acquire] and its last
    [lock_release], and it is the recorded holder; no assertion in the lock or scheduler
    code fails; and no wakeup is lost: whenever the lock is free and tasks are waiting for
    it, one of the waiting tasks is runnable. *)
Theorem lock_mutual_exclusion k s : sched_ok k -> lock_reach (System k lock_init ∅) s ->
  (forall p n, at_ s p = Inside n -> holder (lk s) = Some p /\ forall q m, at_ s q = Inside m -> q = p) /\
  (forall acq, may_step acq s -> exists s', lock_step acq s = Ok s') /\
  ((forall p, owns (at_ s p) = false) -> forall p, at_ s p = Acquiring ->
    exists q, at_ s q = Acquiring /\ runnable (krn s) q).
Proof.
  intros Hk Hr. pose proof (reach_lock_ok _ _ (lock_init_ok k Hk) Hr) as Hs. split_and!.
  - intros p n Hp. assert (Hop : owns (at_ s p) = true) by (by rewrite Hp). split.
    + pose proof (owner_fields s p Hs Hop) as Hf. rewrite Hp in Hf. apply Hf.
    + intros q m Hq. assert (Hoq : owns (at_ s q) = true) by (by rewrite Hq).
      destruct (lo_owner _ Hs) as [(_ & _ & _ & Hno)|(_ & o & _ & Hiff)]; [by rewrite Hno in Hop|].
      apply Hiff in Hop, Hoq. congruence.
  - intros acq Hmay. destruct (lock_step_ok acq s Hs Hmay) as (s' & ? & _). eauto.
  - intros Hno p Hp. destruct (decide (p ∈ waiters (sem (lk s)))) as [Hin|Hnin].
    + destruct (lo_owner _ Hs) as [(Hv & _)|(_ & o & _ & Hiff)].
      * destruct (lo_wakeup _ Hs Hv) as (q & Hq & Hnq); [by intros E; rewrite E in Hin; apply not_elem_of_nil in Hin|].
        exists q. split; [done|]. by apply (env_woken _ _ (lo_env _ Hs)).
      * assert (Ho : owns (at_ s o) = true) by (by apply Hiff). by rewrite Hno in Ho.
    + exists p. split; [done|]. by apply (env_woken _ _ (lo_env _ Hs)).
Qed.

(** ** A concrete run: two tasks compete, the second one waits and is woken. *)
Fixpoint run_steps (l : list bool) (s : system) : res system :=
  match l with [] => Ok s | acq :: l => s ← lock_step acq s; run_steps l s end.

Fixpoint may_steps (l : list bool) (s : system) : bool :=
  match l with
  | [] => true
  | acq :: l =>
      negb (cur_task (krn s) =? idle_thread (krn s)) &&
      match at_ s (cur_task (krn s)) with Out => acq | Inside n => n + 1 <? 2 ^ 32 | _ => true end &&
      match lock_step acq s with Ok s' => may_steps l s' | _ => true end
  end.

Lemma run_steps_reach l s0 s s' : lock_reach s0 s -> may_steps l s = true -> run_steps l s = Ok s' -> lock_reach s0 s'.
Proof.
  revert s. induction l as [|acq l IH]; intros s Hr Hm H; cbn [run_steps may_steps] in *; [by injection H as <-|].
  apply andb_true_iff in Hm as [[H1 H2]%andb_true_iff H3]. apply bind_ok in H as (s1 & E & H). rewrite E in H3.
  apply (IH s1); [|done|done]. eapply lr_task; [done| |done]. split; [by apply negb_true_iff, Z.eqb_neq in H1|].
  destruct (at_ s (cur_task (krn s))); try done. intros _. by apply Z.ltb_lt.
Qed.

Lemma lock_mutual_exclusion_witness : exists s, lock_reach (System ex_kernel lock_init ∅) s /\ at_ s 2 = Inside 1 /\
  holder (lk s) = Some 2.
Proof.
  destruct (run_steps [true; true; true; true] (System ex_kernel lock_init ∅)) as [s| | |] eqn:E; try (vm_compute in E; discriminate E).
  exists s. assert (Hr : lock_reach (System ex_kernel lock_init ∅) s)
    by (apply (run_steps_reach [true; true; true; true] _ (System ex_kernel lock_init ∅)); [constructor|vm_compute; reflexivity|exact E]).
  assert (Ha : at_ s 2 = Inside 1) by (vm_compute in E; injection E as <-; vm_compute; reflexivity).
  split; [exact Hr|]. split; [exact Ha|].
  exact (proj1 (proj1 (lock_mutual_exclusion ex_kernel s ex_kernel_ok Hr) 2 1 Ha)).
Defined.
