(* ===== verification/IoQueue.v ===== *)
(** * device/ioqueue.c: the ring buffer of pipes and terminals

    [head] is the next slot to fill and [tail] the next slot to read, one slot stays
    free.  The operations run with interrupts off.  The theorems give the buffer its
    meaning as a bounded queue of at most 2047 bytes that can also be shortened at the
    end (as the terminal does for erase). *)

From S2P Require Import Prelude DList ListView Sched.

Definition BUFSIZE : Z := 2048.

Record ioqueue := Ioqueue { producer : option Z; consumer : option Z; buf : list Z; head : Z; tail : Z }.

Definition ioqueue_init (b : list Z) : ioqueue := Ioqueue None None b 0 0.

(** The C remainder; positions are not negative. *)
Definition next_pos (pos : Z) : Z := Z.rem (pos + 1) BUFSIZE.

Definition ioq_full (q : ioqueue) : bool := next_pos (head q) =? tail q.
Definition ioq_empty (q : ioqueue) : bool := head q =? tail q.

Definition set_producer (w : option Z) (q : ioqueue) : ioqueue := Ioqueue w (consumer q) (buf q) (head q) (tail q).
Definition set_consumer (w : option Z) (q : ioqueue) : ioqueue := Ioqueue (producer q) w (buf q) (head q) (tail q).

(** [ioq_wait] on one of the two waiter fields: the running task is recorded and blocks. *)
Definition ioq_wait (k : kernel) (waiter : option Z) : res (option Z * kernel) :=
  _ ← assert_ (bool_decide (waiter = None));
  k' ← thread_block k TASK_BLOCKED;
  Ok (Some (cur_task k), k').

Definition ioq_wakeup (k : kernel) (waiter : option Z) : res kernel :=
  match waiter with Some p => thread_unblock k p | None => Panic end.

Definition wake_producer (k : kernel) (q : ioqueue) : res (kernel * ioqueue) :=
  match producer q with
  | Some p => k ← ioq_wakeup k (Some p); Ok (k, set_producer None q)
  | None => Ok (k, q)
  end.
Definition wake_consumer (k : kernel) (q : ioqueue) : res (kernel * ioqueue) :=
  match consumer q with
  | Some p => k ← ioq_wakeup k (Some p); Ok (k, set_consumer None q)
  | None => Ok (k, q)
  end.

(** A byte is taken, or stored; then the other side is woken. *)
Definition take_byte (q : ioqueue) : res (Z * ioqueue) :=
  b ← deref (buf q !! Z.to_nat (tail q));
  Ok (b, Ioqueue (producer q) (consumer q) (buf q) (head q) (next_pos (tail q))).
Definition store_byte (q : ioqueue) (b : Z) : ioqueue :=
  Ioqueue (producer q) (consumer q) (<[Z.to_nat (head q) := b]> (buf q)) (next_pos (head q)) (tail q).

Definition ioq_get_raw (k : kernel) (q : ioqueue) : res (Z * (kernel * ioqueue)) :=
  _ ← assert_ (negb (ioq_empty q));
  r ← take_byte q;
  r' ← wake_producer k r.2;
  Ok (r.1, r').

Definition ioq_put_raw (k : kernel) (q : ioqueue) (b : Z) : res (kernel * ioqueue) :=
  _ ← assert_ (negb (ioq_full q));
  wake_consumer k (store_byte q b).

Definition last_pos (q : ioqueue) : Z := Z.rem (head q - 1 + BUFSIZE) BUFSIZE.

Definition ioq_last_char (q : ioqueue) : res Z :=
  if ioq_empty q then Ok 0 else deref (buf q !! Z.to_nat (last_pos q)).

Definition ioq_popchar (k : kernel) (q : ioqueue) : res (kernel * ioqueue) :=
  if ioq_empty q then Ok (k, q)
  else wake_producer k (Ioqueue (producer q) (consumer q) (buf q) (last_pos q) (tail q)).

Definition ioq_length (q : ioqueue) : Z :=
  if tail q <=? head q then head q - tail q else BUFSIZE - (tail q - head q).

(** ** The bytes in the queue, oldest first *)
Record ioq_ok (q : ioqueue) : Prop := {
  io_buf : length (buf q) = Z.to_nat BUFSIZE;
  io_head : 0 <= head q < BUFSIZE;
  io_tail : 0 <= tail q < BUFSIZE;
}.

Definition slot (q : ioqueue) (i : Z) : Z := default 0 (buf q !! Z.to_nat ((tail q + i) mod BUFSIZE)).
Definition contents (q : ioqueue) : list Z := slot q <$> seqZ 0 (ioq_length q).

Lemma ioq_length_mod q : ioq_ok q -> ioq_length q = (head q - tail q) mod BUFSIZE.
Proof.
  intros [_ Hh Ht]. unfold ioq_length, BUFSIZE in *. destruct (Z.leb_spec (tail q) (head q)).
  - by rewrite Z.mod_small by lia.
  - replace (head q - tail q) with ((head q - tail q + 2048) + -1 * 2048) by lia.
    rewrite Z_mod_plus_full, Z.mod_small by lia. lia.
Qed.

Lemma ioq_length_range q : ioq_ok q -> 0 <= ioq_length q < BUFSIZE.
Proof. intros Hq. rewrite ioq_length_mod by done. by apply Z.mod_pos_bound. Qed.

Lemma next_pos_spec x : 0 <= x < BUFSIZE -> next_pos x = (x + 1) mod BUFSIZE /\ 0 <= next_pos x < BUFSIZE.
Proof.
  intros Hx. unfold next_pos, BUFSIZE in *. rewrite Z.rem_mod_nonneg by lia. split; [done|]. by apply Z.mod_pos_bound.
Qed.

Lemma head_pos q : ioq_ok q -> head q = (tail q + ioq_length q) mod BUFSIZE.
Proof.
  intros Hq. rewrite ioq_length_mod by done. destruct Hq as [_ Hh Ht]. rewrite Zplus_mod_idemp_r.
  replace (tail q + (head q - tail q)) with (head q) by lia. by rewrite Z.mod_small.
Qed.

Lemma ioq_empty_iff q : ioq_ok q -> ioq_empty q = true <-> contents q = [].
Proof.
  intros Hq. unfold ioq_empty, contents. rewrite Z.eqb_eq. pose proof (ioq_length_range q Hq).
  split; intros H1.
  - replace (ioq_length q) with 0; [done|]. unfold ioq_length. rewrite H1, Z.leb_refl. lia.
  - apply (f_equal length) in H1. rewrite length_fmap, length_seqZ in H1. cbn in H1.
    unfold ioq_length in *. destruct Hq. destruct (Z.leb_spec (tail q) (head q)); unfold BUFSIZE in *; lia.
Qed.

Lemma length_contents q : ioq_ok q -> Z.of_nat (length (contents q)) = ioq_length q.
Proof. intros Hq. pose proof (ioq_length_range q Hq). unfold contents. rewrite length_fmap, length_seqZ. lia. Qed.

Lemma ioq_full_iff q : ioq_ok q -> ioq_full q = true <-> Z.of_nat (length (contents q)) = BUFSIZE - 1.
Proof.
  intros Hq. rewrite length_contents by done. destruct Hq as [_ Hh Ht]. unfold ioq_full. rewrite Z.eqb_eq.
  unfold next_pos, ioq_length, BUFSIZE in *. rewrite Z.rem_mod_nonneg by lia.
  destruct (decide (head q = 2047)) as [->|Hne].
  - change ((2047 + 1) mod 2048) with 0. destruct (Z.leb_spec (tail q) 2047); lia.
  - rewrite Z.mod_small by lia. destruct (Z.leb_spec (tail q) (head q)); lia.
Qed.

Lemma mod_distinct t i j : 0 <= i < BUFSIZE -> 0 <= j < BUFSIZE -> i <> j -> (t + i) mod BUFSIZE <> (t + j) mod BUFSIZE.
Proof. unfold BUFSIZE. intros Hi Hj Hne E. Z.to_euclidean_division_equations. lia. Qed.

Lemma contents_lookup q i : 0 <= i < ioq_length q -> contents q !! Z.to_nat i = Some (slot q i).
Proof.
  intros Hi. unfold contents. rewrite list_lookup_fmap, lookup_seqZ_lt by lia. cbn. do 2 f_equal. lia.
Qed.

Lemma slot_valid q i : ioq_ok q -> buf q !! Z.to_nat ((tail q + i) mod BUFSIZE) = Some (slot q i).
Proof.
  intros [Hl _ _]. unfold slot. assert (Hr : 0 <= (tail q + i) mod BUFSIZE < BUFSIZE) by (by apply Z.mod_pos_bound).
  destruct (lookup_lt_is_Some_2 (buf q) (Z.to_nat ((tail q + i) mod BUFSIZE))) as [x ->]; [lia|done].
Qed.

Lemma store_byte_ok q b : ioq_ok q -> ioq_full q = false ->
  ioq_ok (store_byte q b) /\ contents (store_byte q b) = contents q ++ [b].
Proof.
  intros Hq Hf. pose proof (ioq_length_range q Hq) as Hlen. pose proof (head_pos q Hq) as Hhead.
  assert (Hroom : ioq_length q <> BUFSIZE - 1).
  { intros E. rewrite <- length_contents, <- ioq_full_iff in E by done. congruence. }
  destruct (next_pos_spec (head q) (io_head _ Hq)) as [Hn Hnr].
  assert (Hok : ioq_ok (store_byte q b)).
  { destruct Hq. split; cbn [store_byte buf head tail]; [by rewrite length_insert|done|done]. }
  split; [done|].
  assert (Hl : ioq_length (store_byte q b) = ioq_length q + 1).
  { rewrite ioq_length_mod by done. cbn [store_byte head tail]. rewrite Hn, Zminus_mod_idemp_l, Hhead.
    replace ((tail q + ioq_length q) mod BUFSIZE + 1 - tail q) with ((tail q + ioq_length q) mod BUFSIZE + (1 - tail q)) by lia.
    rewrite Zplus_mod_idemp_l. replace (tail q + ioq_length q + (1 - tail q)) with (ioq_length q + 1) by lia.
    apply Z.mod_small. lia. }
  unfold contents. rewrite Hl, seqZ_app by lia. rewrite fmap_app. f_equal.
  - apply list_fmap_ext. intros n i [-> Hi]%lookup_seqZ. unfold slot. cbn [store_byte buf tail].
    rewrite list_lookup_insert_ne; [done|]. rewrite Hhead. intros E. apply Z2Nat.inj in E; try (by apply Z.mod_pos_bound).
    revert E. apply mod_distinct; lia.
  - rewrite Z.add_0_l, seqZ_cons by lia. change (seqZ (Z.succ (ioq_length q)) (Z.pred 1)) with (@nil Z). cbn [fmap list_fmap].
    f_equal. unfold slot. cbn [store_byte buf tail]. rewrite <- Hhead, list_lookup_insert_eq; [done|]. destruct Hq. lia.
Qed.

Lemma take_byte_ok q b l : ioq_ok q -> contents q = b :: l ->
  exists q', take_byte q = Ok (b, q') /\ ioq_ok q' /\ contents q' = l /\ producer q' = producer q /\ consumer q' = consumer q.
Proof.
  intros Hq Hc. pose proof (ioq_length_range q Hq) as Hlen. pose proof (length_contents q Hq) as Hlc.
  rewrite Hc in Hlc. cbn [length] in Hlc.
  destruct (next_pos_spec (tail q) (io_tail _ Hq)) as [Hn Hnr].
  pose proof (slot_valid q 0 Hq) as Hv. rewrite Z.add_0_r, (Z.mod_small (tail q)) in Hv by apply Hq.
  assert (Hb : slot q 0 = b).
  { pose proof (contents_lookup q 0 ltac:(lia)) as E. rewrite Hc in E. by injection E as ->. }
  unfold take_byte. rewrite Hv, Hb. ok_simpl. eexists. split; [done|]. set (q' := Ioqueue _ _ _ _ _).
  assert (Hok : ioq_ok q') by (destruct Hq; by split). split; [done|]. split; [|done].
  assert (Hl : ioq_length q' = ioq_length q - 1).
  { rewrite (ioq_length_mod q') by done. cbn [q' head tail]. rewrite Hn, Zminus_mod_idemp_r.
    replace (head q - (tail q + 1)) with (head q - tail q - 1) by lia.
    rewrite <- Zminus_mod_idemp_l, <- ioq_length_mod by done. apply Z.mod_small. lia. }
  apply list_eq. intros n. destruct (decide (Z.of_nat n < ioq_length q')) as [Hlt|Hge].
  - rewrite <- (Nat2Z.id n) at 1. rewrite contents_lookup by lia.
    change l with (drop 1 (b :: l)). rewrite <- Hc, lookup_drop. replace (1 + n)%nat with (Z.to_nat (1 + Z.of_nat n)) by lia.
    rewrite contents_lookup by lia. unfold slot. cbn [q' buf tail]. rewrite Hn, Zplus_mod_idemp_l.
    replace (tail q + 1 + Z.of_nat n) with (tail q + (1 + Z.of_nat n)) by lia. done.
  - rewrite !lookup_ge_None_2; [done| |]; [lia|]. pose proof (length_contents q' Hok). lia.
Qed.

Lemma last_pos_ok q b l : ioq_ok q -> contents q = l ++ [b] ->
  buf q !! Z.to_nat (last_pos q) = Some b /\
  ioq_ok (Ioqueue (producer q) (consumer q) (buf q) (last_pos q) (tail q)) /\
  contents (Ioqueue (producer q) (consumer q) (buf q) (last_pos q) (tail q)) = l.
Proof.
  intros Hq Hc. pose proof (ioq_length_range q Hq) as Hlen. pose proof (length_contents q Hq) as Hlc.
  rewrite Hc, length_app in Hlc. cbn [length] in Hlc. set (q' := Ioqueue _ _ _ _ _).
  assert (Hp : last_pos q = (head q - 1) mod BUFSIZE /\ 0 <= last_pos q < BUFSIZE).
  { destruct Hq as [_ Hh _]. unfold last_pos, BUFSIZE in *. rewrite Z.rem_mod_nonneg by lia.
    replace (head q - 1 + 2048) with (head q - 1 + 1 * 2048) by lia. rewrite Z_mod_plus_full.
    split; [done|]. by apply Z.mod_pos_bound. }
  destruct Hp as [Hp Hpr].
  assert (Hp2 : last_pos q = (tail q + (ioq_length q - 1)) mod BUFSIZE).
  { rewrite Hp, (head_pos q Hq) at 1. rewrite Zminus_mod_idemp_l. f_equal. lia. }
  assert (Hok : ioq_ok q') by (destruct Hq; by split).
  assert (Hl : ioq_length q' = ioq_length q - 1).
  { rewrite (ioq_length_mod q') by done. cbn [q' head tail]. rewrite Hp2, Zminus_mod_idemp_l.
    replace (tail q + (ioq_length q - 1) - tail q) with (ioq_length q - 1) by lia. apply Z.mod_small. lia. }
  split_and!; [|done|].
  - rewrite Hp2, slot_valid by done. pose proof (contents_lookup q (ioq_length q - 1) ltac:(lia)) as E.
    rewrite Hc, lookup_app_r in E by lia. replace (Z.to_nat (ioq_length q - 1) - length l)%nat with 0%nat in E by lia.
    cbn in E. congruence.
  - apply list_eq. intros n. destruct (decide (Z.of_nat n < ioq_length q')) as [Hlt|Hge].
    + rewrite <- (Nat2Z.id n) at 1. rewrite contents_lookup by lia.
      rewrite <- (lookup_app_l l [b] n), <- Hc by lia. rewrite <- (Nat2Z.id n) at 2. by rewrite contents_lookup by lia.
    + rewrite !lookup_ge_None_2; [done| |]; [lia|]. pose proof (length_contents q' Hok). lia.
Qed.

Lemma not_empty_snoc q b l : ioq_ok q -> contents q = l ++ [b] -> ioq_empty q = false.
Proof.
  intros Hq Hc. apply not_true_is_false. rewrite (ioq_empty_iff q Hq), Hc. by destruct l.
Qed.

Lemma not_empty q b l : ioq_ok q -> contents q = b :: l -> ioq_empty q = false.
Proof. intros Hq Hc. apply not_true_is_false. by rewrite (ioq_empty_iff q Hq), Hc. Qed.

Lemma ioq_ok_producer w q : ioq_ok q -> ioq_ok (set_producer w q).
Proof. by intros [? ? ?]. Qed.

Lemma ioq_ok_consumer w q : ioq_ok q -> ioq_ok (set_consumer w q).
Proof. by intros [? ? ?]. Qed.

(** ** Waiters *)

(** A recorded waiter is a blocked task. *)
Definition waiter_ok (k : kernel) (w : option Z) : Prop :=
  forall p, w = Some p -> p ∈ thread_all_list k /\ p <> idle_thread k /\ ~ runnable k p.

(** Waking: the waiter, if there is one, becomes runnable and is forgotten. *)
Definition woken (k : kernel) (w : option Z) (k' : kernel) : Prop :=
  sched_ok k' /\ same_lists k k' /\ cur_task k' = cur_task k /\ forall x, runnable k' x <-> runnable k x \/ w = Some x.

Lemma woken_none k : sched_ok k -> woken k None k.
Proof. intros Hk. split_and!; [done|by repeat split|done|]. intros x. split; [auto|]. by intros [?|?]. Qed.

Lemma unblock_woken k p : sched_ok k -> waiter_ok k (Some p) -> exists k', thread_unblock k p = Ok k' /\ woken k (Some p) k'.
Proof.
  intros Hk Hw. destruct (Hw p eq_refl) as (Hall & _ & Hn). destruct (all_task k p (so_pre _ Hk) Hall) as [t Ht].
  destruct (unblock_ok k p t Hk Hall Ht (wait_status _ _ _ Hk Hall Ht Hn)) as (k' & Hub & Hk' & Hc & Hr & Hl & _).
  exists k'. split; [done|]. split_and!; try done. intros x. unfold runnable. rewrite Hc, Hr, elem_of_cons. split.
  - intros [?|[->|?]]; auto.
  - intros [[?|?]|[= ->]]; auto.
Qed.

Lemma wake_producer_ok k q : sched_ok k -> waiter_ok k (producer q) ->
  exists k', wake_producer k q = Ok (k', set_producer None q) /\ woken k (producer q) k'.
Proof.
  intros Hk Hw. unfold wake_producer. destruct (producer q) as [p|] eqn:E.
  - destruct (unblock_woken k p Hk Hw) as (k' & Hub & Hwk). cbn [ioq_wakeup]. rewrite Hub. ok_simpl. eauto.
  - exists k. split; [|by apply woken_none]. destruct q; cbn in E; by subst.
Qed.

Lemma wake_consumer_ok k q : sched_ok k -> waiter_ok k (consumer q) ->
  exists k', wake_consumer k q = Ok (k', set_consumer None q) /\ woken k (consumer q) k'.
Proof.
  intros Hk Hw. unfold wake_consumer. destruct (consumer q) as [p|] eqn:E.
  - destruct (unblock_woken k p Hk Hw) as (k' & Hub & Hwk). cbn [ioq_wakeup]. rewrite Hub. ok_simpl. eauto.
  - exists k. split; [|by apply woken_none]. destruct q; cbn in E; by subst.
Qed.

Lemma put_raw_ok k q b : sched_ok k -> ioq_ok q -> waiter_ok k (consumer q) -> ioq_full q = false ->
  exists k' q', ioq_put_raw k q b = Ok (k', q') /\ ioq_ok q' /\ contents q' = contents q ++ [b] /\
    woken k (consumer q) k' /\ consumer q' = None /\ producer q' = producer q.
Proof.
  intros Hk Hq Hwc Ef. unfold ioq_put_raw. rewrite Ef. ok_simpl. destruct (store_byte_ok q b Hq Ef) as [Hok Hc].
  destruct (wake_consumer_ok k (store_byte q b) Hk Hwc) as (k' & -> & Hwk). eexists _, _. split; [done|].
  split_and!; try done. by apply ioq_ok_consumer.
Qed.

Lemma get_raw_ok k q b l : sched_ok k -> ioq_ok q -> waiter_ok k (producer q) -> contents q = b :: l ->
  exists k' q', ioq_get_raw k q = Ok (b, (k', q')) /\ ioq_ok q' /\ contents q' = l /\
    woken k (producer q) k' /\ producer q' = None /\ consumer q' = consumer q.
Proof.
  intros Hk Hq Hwp Ec. unfold ioq_get_raw.
  rewrite (not_empty q b l) by done. ok_simpl. destruct (take_byte_ok q b l Hq Ec) as (q1 & -> & Hok & Hc & Hp & Hcn).
  ok_simpl. rewrite <- Hp in Hwp. destruct (wake_producer_ok k q1 Hk Hwp) as (k' & Hw & Hwk). cbn [snd fst]. rewrite Hw. ok_simpl.
  eexists _, _. split; [done|]. rewrite Hp in Hwk. split_and!; try done. by apply ioq_ok_producer.
Qed.

(** C31. The ring buffer is a bounded queue: on a well-formed buffer whose recorded
    waiters are blocked tasks, [ioq_put_raw] appends a byte exactly when fewer than 2047
    are stored (its assertion fails otherwise), [ioq_get_raw] returns and removes the
    oldest byte exactly when there is one, [ioq_last_char] returns and [ioq_popchar]
    removes the youngest, [ioq_length] counts them; and each of them that changes the
    buffer wakes the task waiting on the other side and nobody else. *)
Theorem ioqueue_is_queue k q : sched_ok k -> ioq_ok q -> waiter_ok k (producer q) -> waiter_ok k (consumer q) ->
  ioq_length q = Z.of_nat (length (contents q)) /\ Z.of_nat (length (contents q)) < BUFSIZE /\
  (forall b, if Z.of_nat (length (contents q)) =? BUFSIZE - 1 then ioq_put_raw k q b = Panic
   else exists k' q', ioq_put_raw k q b = Ok (k', q') /\ ioq_ok q' /\ contents q' = contents q ++ [b] /\
     woken k (consumer q) k' /\ consumer q' = None /\ producer q' = producer q) /\
  match contents q with
  | [] => ioq_get_raw k q = Panic
  | b :: l => exists k' q', ioq_get_raw k q = Ok (b, (k', q')) /\ ioq_ok q' /\ contents q' = l /\
      woken k (producer q) k' /\ producer q' = None /\ consumer q' = consumer q
  end /\
  match last (contents q) with
  | None => ioq_last_char q = Ok 0 /\ ioq_popchar k q = Ok (k, q)
  | Some b => ioq_last_char q = Ok b /\ exists k' q', ioq_popchar k q = Ok (k', q') /\ ioq_ok q' /\
      contents q = contents q' ++ [b] /\ woken k (producer q) k'
  end.
Proof.
  intros Hk Hq Hwp Hwc. pose proof (ioq_length_range q Hq). pose proof (length_contents q Hq) as Hlen. split_and!; [done|lia| | |].
  - intros b. pose proof (ioq_full_iff q Hq) as Hfull.
    destruct (Z.eqb_spec (Z.of_nat (length (contents q))) (BUFSIZE - 1)) as [E|E].
    + unfold ioq_put_raw. by rewrite (proj2 Hfull E).
    + apply put_raw_ok; [done..|]. apply not_true_is_false. tauto.
  - destruct (contents q) as [|b l] eqn:Ec; [|by apply get_raw_ok]. unfold ioq_get_raw. by rewrite (proj2 (ioq_empty_iff q Hq) Ec).
  - unfold ioq_last_char, ioq_popchar. destruct (last (contents q)) as [b|] eqn:El.
    + apply last_Some in El as [l El]. rewrite (not_empty_snoc q b l) by done.
      destruct (last_pos_ok q b l Hq El) as (-> & Hok & Hc). split; [done|].
      destruct (wake_producer_ok k (Ioqueue (producer q) (consumer q) (buf q) (last_pos q) (tail q)) Hk Hwp) as (k' & -> & Hwk).
      eexists _, _. split; [done|]. split_and!; [by apply ioq_ok_producer|by rewrite El, <- Hc|done].
    + apply last_None in El. by rewrite (proj2 (ioq_empty_iff q Hq) El).
Qed.

(** ** A concrete case *)
Definition ex_queue : ioqueue := Ioqueue (Some 4) None (replicate 2048 65) 1 2046.

Lemma ioqueue_is_queue_witness : exists k' q', ioq_get_raw ex_kernel ex_queue = Ok (65, (k', q')) /\
  contents q' = [65; 65] /\ runnable k' 4.
Proof.
  destruct (ioqueue_is_queue ex_kernel ex_queue ex_kernel_ok) as (_ & _ & _ & H & _).
  - split; [vm_compute; reflexivity|cbn; unfold BUFSIZE; lia|cbn; unfold BUFSIZE; lia].
  - intros p [= <-]. split_and!; [apply (bool_decide_unpack _); vm_compute; exact I|discriminate|].
    intros [E|E%list_elem_of_singleton]; discriminate E.
  - intros p [=].
  - assert (Hc : contents ex_queue = [65; 65; 65]) by (vm_compute; reflexivity). rewrite Hc in H.
    destruct H as (k' & q' & H1 & _ & H2 & (_ & _ & _ & H3) & _). exists k', q'. split; [exact H1|]. split; [exact H2|].
    apply H3. right. reflexivity.
Defined.
