(* ===== verification/Pipe.v ===== *)
(** * fs/pipe.c: pipes

    A pipe is a ring buffer with counts of the open reading and writing ends.  One pass
    of the loop of [pipe_read] and of [pipe_write] runs with interrupts off and is one
    step of the running task; a pass that has to wait blocks the task, which makes its
    next pass when it runs again.  The development follows one reading and one writing
    task through any interleaving with each other, with tasks that close ends, and with
    the rest of the kernel. *)

From S2P Require Import Prelude DList ListView Sched Signal IoQueue.

Definition EPIPE : Z := 32.
Definition O_RDONLY : Z := 1.
Definition O_WRONLY : Z := 2.

Record pipe := Pipe { queue : ioqueue; reader_count : Z; writer_count : Z }.
Definition set_queue (q : ioqueue) (p : pipe) : pipe := Pipe q (reader_count p) (writer_count p).

(** [init_pipe]: a new page of kernel memory with contents [b]. *)
Definition init_pipe (b : list Z) : pipe := Pipe (ioqueue_init b) 0 0.

(** The end of a pass: go round the loop, or return a result. *)
Inductive outcome := Again | Return (n : Z).

(** [pipe_read] with [got] already in the buffer; the result has the buffer's contents. *)
Definition read_pass (k : kernel) (p : pipe) (got : list Z) (count : Z) : res (outcome * list Z * kernel * pipe) :=
  let bytes_read := Z.of_nat (length got) in
  if count <=? bytes_read then Ok (Return bytes_read, got, k, p)
  else if negb (ioq_empty (queue p)) then
    r ← ioq_get_raw k (queue p);
    Ok (Again, got ++ [r.1], r.2.1, set_queue r.2.2 p)
  else if (0 <? bytes_read) || (writer_count p =? 0) then Ok (Return bytes_read, got, k, p)
  else
    r ← ioq_wait k (consumer (queue p));
    Ok (Again, got, r.2, set_queue (set_consumer r.1 (queue p)) p).

(** [pipe_write] of the bytes [b], [n] of which are written; the result has the new [n]. *)
Definition write_pass (k : kernel) (p : pipe) (b : list Z) (n : Z) : res (outcome * Z * kernel * pipe) :=
  if Z.of_nat (length b) <=? n then Ok (Return n, n, k, p)
  else if reader_count p =? 0 then
    k ← send_signal k (Some (cur_task k)) SIGPIPE;
    Ok (Return (- EPIPE), n, k, p)
  else if negb (ioq_full (queue p)) then
    x ← deref (b !! Z.to_nat n);
    r ← ioq_put_raw k (queue p) x;
    Ok (Again, n + 1, r.1, set_queue r.2 p)
  else if reader_count p =? 0 then Ok (Return (- EPIPE), n, k, p)
  else
    r ← ioq_wait k (producer (queue p));
    Ok (Again, n, r.2, set_queue (set_producer r.1 (queue p)) p).

Definition pipe_release (k : kernel) (p : pipe) (fd_flag : Z) : res (kernel * pipe) :=
  let rc := if Z.land fd_flag O_RDONLY =? 0 then reader_count p else u32 (reader_count p - 1) in
  let wc := if Z.land fd_flag O_WRONLY =? 0 then writer_count p else u32 (writer_count p - 1) in
  r ← wake_producer k (queue p);
  r ← wake_consumer r.1 r.2;
  Ok (r.1, Pipe r.2 rc wc).

(** ** A reader and a writer *)
Inductive rstate := RIdle | Reading (got : list Z) (count : Z).
Inductive wstate := WIdle | Writing (b : list Z) (n : Z).

(** [sent] and [recvd] are all bytes ever put into and taken from the buffer. *)
Record psys := PSys { pk : kernel; pp : pipe; rst : rstate; wst : wstate; sent : list Z; recvd : list Z }.

Section stream.
Variables r w : Z.    (* the reading and the writing task *)
Hypothesis Hrw : r <> w.

Inductive pipe_op :=
  | ORead (count : Z)       (* the reader calls pipe_read *)
  | OReadPass
  | OWrite (b : list Z)     (* the writer calls pipe_write *)
  | OWritePass
  | OClose (fd_flag : Z).   (* the running task closes an end *)

Definition pipe_enabled (s : psys) (o : pipe_op) : Prop :=
  match o with
  | ORead c => cur_task (pk s) = r /\ rst s = RIdle /\ 1 <= reader_count (pp s)
  | OReadPass => cur_task (pk s) = r /\ rst s <> RIdle
  | OWrite b => cur_task (pk s) = w /\ wst s = WIdle /\ 1 <= writer_count (pp s)
  | OWritePass => cur_task (pk s) = w /\ wst s <> WIdle
  | OClose f =>
      (f = O_RDONLY /\ 1 <= reader_count (pp s) /\ (rst s <> RIdle -> 1 < reader_count (pp s))) \/
      (f = O_WRONLY /\ 1 <= writer_count (pp s) /\ (wst s <> WIdle -> 1 < writer_count (pp s)))
  end.

Definition pipe_run (s : psys) (o : pipe_op) : res psys :=
  match o with
  | ORead c => Ok (PSys (pk s) (pp s) (Reading [] c) (wst s) (sent s) (recvd s))
  | OReadPass =>
      match rst s with
      | RIdle => Panic
      | Reading got c =>
          x ← read_pass (pk s) (pp s) got c;
          Ok (PSys x.1.2 x.2 (match x.1.1.1 with Again => Reading x.1.1.2 c | Return _ => RIdle end) (wst s) (sent s)
                (recvd s ++ drop (length got) x.1.1.2))
      end
  | OWrite b => Ok (PSys (pk s) (pp s) (rst s) (Writing b 0) (sent s) (recvd s))
  | OWritePass =>
      match wst s with
      | WIdle => Panic
      | Writing b n =>
          x ← write_pass (pk s) (pp s) b n;
          Ok (PSys x.1.2 x.2 (rst s) (match x.1.1.1 with Again => Writing b x.1.1.2 | Return _ => WIdle end)
                (sent s ++ take (Z.to_nat (x.1.1.2 - n)) (drop (Z.to_nat n) b)) (recvd s))
      end
  | OClose f => x ← pipe_release (pk s) (pp s) f; Ok (PSys x.1 x.2 (rst s) (wst s) (sent s) (recvd s))
  end.

(** What the rest of the kernel may do between two steps. *)
Record penv (s : psys) (k' : kernel) : Prop := {
  pe_sched : sched_ok k';
  pe_r : r ∈ thread_all_list k' /\ r <> idle_thread k';
  pe_w : w ∈ thread_all_list k' /\ w <> idle_thread k';
  pe_reader : rst s <> RIdle -> (runnable k' r <-> consumer (queue (pp s)) = None);
  pe_writer : wst s <> WIdle -> (runnable k' w <-> producer (queue (pp s)) = None);
}.

Inductive pipe_reach (s0 : psys) : psys -> Prop :=
  | pr_refl : pipe_reach s0 s0
  | pr_op s o s' : pipe_reach s0 s -> pipe_enabled s o -> pipe_run s o = Ok s' -> pipe_reach s0 s'
  | pr_env s k' : pipe_reach s0 s -> penv s k' -> pipe_reach s0 (PSys k' (pp s) (rst s) (wst s) (sent s) (recvd s)).

(** ** The invariant *)
Record pipe_inv (s : psys) : Prop := {
  pi_env : penv s (pk s);
  pi_ioq : ioq_ok (queue (pp s));
  pi_fifo : sent s = recvd s ++ contents (queue (pp s));
  pi_cons : forall p, consumer (queue (pp s)) = Some p -> p = r /\ rst s <> RIdle /\ contents (queue (pp s)) = [] /\ 1 <= writer_count (pp s);
  pi_prod : forall p, producer (queue (pp s)) = Some p -> p = w /\ wst s <> WIdle /\
    Z.of_nat (length (contents (queue (pp s)))) = BUFSIZE - 1 /\ 1 <= reader_count (pp s);
  pi_counts : 0 <= reader_count (pp s) < 2 ^ 32 /\ 0 <= writer_count (pp s) < 2 ^ 32;
  pi_rd : forall got c, rst s = Reading got c -> 1 <= reader_count (pp s) /\ exists l, recvd s = l ++ got;
  pi_wr : forall b n, wst s = Writing b n -> 1 <= writer_count (pp s) /\ 0 <= n <= Z.of_nat (length b) /\
    exists l, sent s = l ++ take (Z.to_nat n) b;
}.

Lemma penv_next s s' k k' : penv s k -> sched_ok k' -> same_lists k k' ->
  (rst s' <> RIdle -> (runnable k' r <-> consumer (queue (pp s')) = None)) ->
  (wst s' <> WIdle -> (runnable k' w <-> producer (queue (pp s')) = None)) -> penv s' k'.
Proof.
  intros [_ Hr Hw _ _] Hk (L1 & _ & _ & _ & L5 & _) H1 H2. split; try done; by rewrite L1, L5.
Qed.

Lemma consumer_ok s : pipe_inv s -> waiter_ok (pk s) (consumer (queue (pp s))).
Proof.
  intros Hs p Hp. destruct (pi_cons _ Hs p Hp) as (-> & Hr & _). destruct (pi_env _ Hs) as [_ [A B] _ C _].
  split_and!; [done|done|]. rewrite C by done. congruence.
Qed.

Lemma producer_ok s : pipe_inv s -> waiter_ok (pk s) (producer (queue (pp s))).
Proof.
  intros Hs p Hp. destruct (pi_prod _ Hs p Hp) as (-> & Hw & _). destruct (pi_env _ Hs) as [_ _ [A B] _ C].
  split_and!; [done|done|]. rewrite C by done. congruence.
Qed.

(** The running reader is not recorded as waiting; likewise the writer. *)
Lemma reader_awake s : pipe_inv s -> cur_task (pk s) = r -> rst s <> RIdle -> consumer (queue (pp s)) = None.
Proof. intros Hs Hc Hr. apply (pe_reader _ _ (pi_env _ Hs) Hr). left. done. Qed.

Lemma writer_awake s : pipe_inv s -> cur_task (pk s) = w -> wst s <> WIdle -> producer (queue (pp s)) = None.
Proof. intros Hs Hc Hw. apply (pe_writer _ _ (pi_env _ Hs) Hw). left. done. Qed.

(** After the writer has been woken it is runnable, if it is in a call at all. *)
Lemma woken_writer s k' : pipe_inv s -> woken (pk s) (producer (queue (pp s))) k' -> wst s <> WIdle -> runnable k' w.
Proof.
  intros Hs (_ & _ & _ & Hr) Hw. apply Hr. destruct (producer (queue (pp s))) as [p|] eqn:E.
  - right. by destruct (pi_prod _ Hs p E) as (-> & _).
  - left. by apply (pe_writer _ _ (pi_env _ Hs)).
Qed.

Lemma woken_reader s k' : pipe_inv s -> woken (pk s) (consumer (queue (pp s))) k' -> rst s <> RIdle -> runnable k' r.
Proof.
  intros Hs (_ & _ & _ & Hr) Hw. apply Hr. destruct (consumer (queue (pp s))) as [p|] eqn:E.
  - right. by destruct (pi_cons _ Hs p E) as (-> & _).
  - left. by apply (pe_reader _ _ (pi_env _ Hs)).
Qed.

(** The reader returns. *)
Lemma read_return_ok s got c : pipe_inv s -> cur_task (pk s) = r -> rst s = Reading got c ->
  pipe_inv (PSys (pk s) (pp s) RIdle (wst s) (sent s) (recvd s ++ drop (length got) got)).
Proof.
  intros Hs Hc Hr. assert (Hne : rst s <> RIdle) by congruence. pose proof (reader_awake s Hs Hc Hne) as Hn.
  rewrite drop_all, app_nil_r. destruct Hs as [E Q F C P N R W]. split; cbn [pk pp rst wst sent recvd]; try done.
  - apply (penv_next s _ (pk s) (pk s)); cbn [pp rst wst]; try done; [apply E|apply E].
  - intros p Hp. congruence.
Qed.

(** The reader takes a byte. *)
Lemma read_byte_ok s got c b l : pipe_inv s -> cur_task (pk s) = r -> rst s = Reading got c ->
  contents (queue (pp s)) = b :: l ->
  exists k' q', ioq_get_raw (pk s) (queue (pp s)) = Ok (b, (k', q')) /\
    pipe_inv (PSys k' (set_queue q' (pp s)) (Reading (got ++ [b]) c) (wst s) (sent s) (recvd s ++ [b])).
Proof.
  intros Hs Hc Hr Hcon. assert (Hne : rst s <> RIdle) by congruence. pose proof (reader_awake s Hs Hc Hne) as Hn.
  destruct (get_raw_ok (pk s) (queue (pp s)) b l) as (k' & q' & -> & Hok & Hc' & Hwk & Hp' & Hco');
    [apply (pi_env _ Hs)|apply Hs|by apply producer_ok|done|].
  exists k', q'. split; [done|]. pose proof (woken_writer s k' Hs Hwk) as Hww. destruct Hwk as (K1 & K2 & K3 & K4).
  destruct Hs as [E Q F C P N R W]. split; cbn [pk pp rst wst sent recvd queue set_queue reader_count writer_count]; try done.
  - apply (penv_next s _ (pk s) k'); cbn [pp rst wst queue set_queue]; try done.
    + intros _. rewrite Hco', Hn. split; [done|]. intros _. apply K4. left. by left.
    + intros Hw. rewrite Hp'. split; [done|]. intros _. by apply Hww.
  - by rewrite F, Hcon, Hc', <- app_assoc.
  - intros p. by rewrite Hco', Hn.
  - intros p. by rewrite Hp'.
  - intros got' c' [= <- <-]. destruct (R got c Hr) as (R1 & l' & ->). split; [done|]. exists l'. by rewrite app_assoc.
Qed.

(** The reader waits. *)
Lemma read_wait_ok s got c : pipe_inv s -> cur_task (pk s) = r -> rst s = Reading got c ->
  contents (queue (pp s)) = [] -> writer_count (pp s) <> 0 ->
  exists x, ioq_wait (pk s) (consumer (queue (pp s))) = Ok x /\
    pipe_inv (PSys x.2 (set_queue (set_consumer x.1 (queue (pp s))) (pp s)) (Reading got c) (wst s) (sent s)
      (recvd s ++ drop (length got) got)).
Proof.
  intros Hs Hc Hr Hcon Hwc. assert (Hne : rst s <> RIdle) by congruence. pose proof (reader_awake s Hs Hc Hne) as Hn.
  unfold ioq_wait. rewrite Hn, bool_decide_true by done. ok_simpl. rewrite drop_all, app_nil_r.
  destruct (pi_env _ Hs) as [Hk Hra Hwa H1 H2].
  destruct (block_runnable (pk s) TASK_BLOCKED Hk eq_refl) as (k' & -> & K1 & K2 & K3). ok_simpl. rewrite Hc in *.
  eexists. split; [done|]. destruct Hs as [E Q F C P N R W].
  split; cbn [fst snd pk pp rst wst sent recvd queue set_queue set_consumer reader_count writer_count producer consumer]; try done.
  - apply (penv_next s _ (pk s) k'); cbn [fst snd pp rst wst queue set_queue set_consumer consumer producer]; try done.
    + intros _. rewrite K3 by apply Hra. split; [tauto|done].
    + intros Hw. rewrite K3 by apply Hwa. rewrite H2 by done. split; [tauto|]. intros Hp. split; [done|congruence].
  - by apply ioq_ok_consumer.
  - intros p [= <-]. split_and!; [done|done|done|]. lia.
  - intros got' c' [= <- <-]. by apply (R got c).
Qed.

Lemma read_pass_ok s : pipe_inv s -> pipe_enabled s OReadPass -> exists s', pipe_run s OReadPass = Ok s' /\ pipe_inv s'.
Proof.
  intros Hs [Hc Hr]. cbn [pipe_run]. destruct (rst s) as [|got c] eqn:Er; [done|]. unfold read_pass.
  destruct (c <=? Z.of_nat (length got)); [ok_simpl; eexists; split; [done|]; by apply (read_return_ok s got c)|].
  destruct (contents (queue (pp s))) as [|b l] eqn:Ec.
  - rewrite (proj2 (ioq_empty_iff _ (pi_ioq _ Hs)) Ec). cbn [negb].
    destruct ((0 <? Z.of_nat (length got)) || (writer_count (pp s) =? 0)) eqn:Ew.
    + ok_simpl. eexists. split; [done|]. by apply (read_return_ok s got c).
    + apply orb_false_iff in Ew as [_ Ew%Z.eqb_neq]. destruct (read_wait_ok s got c Hs Hc Er Ec Ew) as (x & -> & Hok).
      ok_simpl. eauto.
  - rewrite (not_empty _ b l (pi_ioq _ Hs) Ec). cbn [negb].
    destruct (read_byte_ok s got c b l Hs Hc Er Ec) as (k' & q' & -> & Hok). ok_simpl. eexists. split; [done|].
    cbn [fst snd]. by rewrite drop_app_length.
Qed.

(** The writer returns, possibly with other signals pending. *)
Lemma write_return_ok s b n k' : pipe_inv s -> cur_task (pk s) = w -> wst s = Writing b n ->
  sched_ok k' -> same_lists (pk s) k' -> (forall x, runnable k' x <-> runnable (pk s) x) ->
  pipe_inv (PSys k' (pp s) (rst s) WIdle (sent s ++ take (Z.to_nat (n - n)) (drop (Z.to_nat n) b)) (recvd s)).
Proof.
  intros Hs Hc Hw Hk Hl Hx. assert (Hne : wst s <> WIdle) by congruence. pose proof (writer_awake s Hs Hc Hne) as Hn.
  rewrite Z.sub_diag, take_0, app_nil_r. destruct Hs as [E Q F C P N R W].
  split; cbn [pk pp rst wst sent recvd]; try done.
  - apply (penv_next s _ (pk s) k'); cbn [pp rst wst]; try done. intros Hr. rewrite Hx. by apply (pe_reader _ _ E).
  - intros p Hp. congruence.
Qed.

(** SIGPIPE to the running writer. *)
Lemma sigpipe_ok k : sched_ok k ->
  exists k', send_signal k (Some (cur_task k)) SIGPIPE = Ok k' /\ sched_ok k' /\ same_lists k k' /\
    forall x, runnable k' x <-> runnable k x.
Proof.
  intros Hk. destruct (so_running _ Hk) as (t & Ht & Hst).
  destruct (send_signal_ok k (cur_task k) t SIGPIPE Hk (sp_cur _ (so_pre _ Hk)) Ht) as (k' & t' & Hrun & Hk' & Hl & Hc & _ & _ & Hr & _);
    [unfold SIGPIPE; lia|].
  exists k'. split_and!; try done. intros x. unfold runnable. rewrite Hc, Hr. unfold wakes. by rewrite Hst.
Qed.

Lemma take_next {A} (b : list A) n x : b !! n = Some x -> take (S n) b = take n b ++ [x].
Proof. apply take_S_r. Qed.

(** The writer stores a byte. *)
Lemma write_byte_ok s b n x : pipe_inv s -> cur_task (pk s) = w -> wst s = Writing b n -> b !! Z.to_nat n = Some x ->
  ioq_full (queue (pp s)) = false -> reader_count (pp s) <> 0 ->
  exists k' q', ioq_put_raw (pk s) (queue (pp s)) x = Ok (k', q') /\
    pipe_inv (PSys k' (set_queue q' (pp s)) (rst s) (Writing b (n + 1)) (sent s ++ [x]) (recvd s)).
Proof.
  intros Hs Hc Hw Hb Hf Hrc. assert (Hne : wst s <> WIdle) by congruence. pose proof (writer_awake s Hs Hc Hne) as Hn.
  destruct (put_raw_ok (pk s) (queue (pp s)) x) as (k' & q' & -> & Hok & Hc' & Hwk & Hco' & Hp');
    [apply (pi_env _ Hs)|apply Hs|by apply consumer_ok|done|].
  exists k', q'. split; [done|]. pose proof (woken_reader s k' Hs Hwk) as Hwr. destruct Hwk as (K1 & K2 & K3 & K4).
  destruct Hs as [E Q F C P N R W]. split; cbn [pk pp rst wst sent recvd queue set_queue reader_count writer_count]; try done.
  - apply (penv_next s _ (pk s) k'); cbn [pp rst wst queue set_queue]; try done.
    + intros Hr. rewrite Hco'. split; [done|]. intros _. by apply Hwr.
    + intros _. rewrite Hp', Hn. split; [done|]. intros _. apply K4. left. by left.
  - by rewrite F, Hc', app_assoc.
  - intros p. by rewrite Hco'.
  - intros p. by rewrite Hp', Hn.
  - intros b' n' [= <- <-]. destruct (W b n Hw) as (W1 & W2 & l' & ->). pose proof (lookup_lt_Some _ _ _ Hb).
    split_and!; [done|lia|lia|]. exists l'. replace (Z.to_nat (n + 1)) with (S (Z.to_nat n)) by lia.
    by rewrite (take_next b _ x Hb), app_assoc.
Qed.

(** The writer waits. *)
Lemma write_wait_ok s b n : pipe_inv s -> cur_task (pk s) = w -> wst s = Writing b n ->
  ioq_full (queue (pp s)) = true -> reader_count (pp s) <> 0 ->
  exists x, ioq_wait (pk s) (producer (queue (pp s))) = Ok x /\
    pipe_inv (PSys x.2 (set_queue (set_producer x.1 (queue (pp s))) (pp s)) (rst s) (Writing b n)
      (sent s ++ take (Z.to_nat (n - n)) (drop (Z.to_nat n) b)) (recvd s)).
Proof.
  intros Hs Hc Hw Hf Hrc. assert (Hne : wst s <> WIdle) by congruence. pose proof (writer_awake s Hs Hc Hne) as Hn.
  unfold ioq_wait. rewrite Hn, bool_decide_true by done. ok_simpl. rewrite Z.sub_diag, take_0, app_nil_r.
  destruct (pi_env _ Hs) as [Hk Hra Hwa H1 H2].
  destruct (block_runnable (pk s) TASK_BLOCKED Hk eq_refl) as (k' & -> & K1 & K2 & K3). ok_simpl. rewrite Hc in *.
  eexists. split; [done|]. destruct Hs as [E Q F C P N R W].
  split; cbn [fst snd pk pp rst wst sent recvd queue set_queue set_producer reader_count writer_count producer consumer]; try done.
  - apply (penv_next s _ (pk s) k'); cbn [fst snd pp rst wst queue set_queue set_producer consumer producer]; try done.
    + intros Hr. rewrite K3 by apply Hra. rewrite H1 by done. split; [tauto|]. intros Hp. split; [done|congruence].
    + intros _. rewrite K3 by apply Hwa. split; [tauto|done].
  - by apply ioq_ok_producer.
  - intros p [= <-]. split_and!; [done|done| |lia]. change (contents (set_producer _ ?q)) with (contents q). by apply ioq_full_iff.
  - intros b' n' [= <- <-]. by apply (W b n).
Qed.

Lemma write_pass_ok s : pipe_inv s -> pipe_enabled s OWritePass -> exists s', pipe_run s OWritePass = Ok s' /\ pipe_inv s'.
Proof.
  intros Hs [Hc Hw]. cbn [pipe_run]. destruct (wst s) as [|b n] eqn:Ew; [done|]. unfold write_pass.
  destruct (pi_wr _ Hs b n Ew) as (_ & Hn & _). pose proof (pe_sched _ _ (pi_env _ Hs)) as Hk.
  destruct (Z.leb_spec (Z.of_nat (length b)) n).
  { ok_simpl. eexists. split; [done|]. by apply write_return_ok. }
  destruct (Z.eqb_spec (reader_count (pp s)) 0) as [Hrc|Hrc].
  { destruct (sigpipe_ok (pk s) Hk) as (k' & -> & K1 & K2 & K3). ok_simpl. eexists. split; [done|]. by apply write_return_ok. }
  destruct (ioq_full (queue (pp s))) eqn:Ef; cbn [negb].
  - destruct (write_wait_ok s b n Hs Hc Ew Ef Hrc) as (x & -> & Hok). ok_simpl. eauto.
  - destruct (lookup_lt_is_Some_2 b (Z.to_nat n)) as [x Hx]; [lia|]. rewrite Hx. ok_simpl.
    destruct (write_byte_ok s b n x Hs Hc Ew Hx Ef Hrc) as (k' & q' & -> & Hok). ok_simpl. eexists. split; [done|].
    cbn [fst snd]. replace (Z.to_nat (n + 1 - n)) with 1%nat by lia.
    rewrite (drop_S b x (Z.to_nat n) Hx). done.
Qed.

Lemma start_read_ok s c : pipe_inv s -> pipe_enabled s (ORead c) ->
  pipe_inv (PSys (pk s) (pp s) (Reading [] c) (wst s) (sent s) (recvd s)).
Proof.
  intros [E Q F C P N R W] (Hc & Hr & Hrc). assert (Hn : consumer (queue (pp s)) = None).
  { destruct (consumer (queue (pp s))) as [p|] eqn:Ec; [|done]. by destruct (C p eq_refl) as (_ & ? & _). }
  split; cbn [pk pp rst wst sent recvd]; try done.
  - apply (penv_next s _ (pk s) (pk s)); cbn [pp rst wst]; try done; [apply E| |apply E]. intros _. split; [done|]. intros _. by left.
  - intros p. by rewrite Hn.
  - intros got c' [= <- <-]. split; [done|]. exists (recvd s). by rewrite app_nil_r.
Qed.

Lemma start_write_ok s b : pipe_inv s -> pipe_enabled s (OWrite b) ->
  pipe_inv (PSys (pk s) (pp s) (rst s) (Writing b 0) (sent s) (recvd s)).
Proof.
  intros [E Q F C P N R W] (Hc & Hw & Hwc). assert (Hn : producer (queue (pp s)) = None).
  { destruct (producer (queue (pp s))) as [p|] eqn:Ec; [|done]. by destruct (P p eq_refl) as (_ & ? & _). }
  split; cbn [pk pp rst wst sent recvd]; try done.
  - apply (penv_next s _ (pk s) (pk s)); cbn [pp rst wst]; try done; [apply E|apply E|]. intros _. split; [done|]. intros _. by left.
  - intros p. by rewrite Hn.
  - intros b' n [= <- <-]. split_and!; [done|lia|lia|]. exists (sent s). by rewrite app_nil_r.
Qed.

(** Waking both sides. *)
Lemma wake_both_ok s : pipe_inv s ->
  exists k1 k2, wake_producer (pk s) (queue (pp s)) = Ok (k1, set_producer None (queue (pp s))) /\
    wake_consumer k1 (set_producer None (queue (pp s))) = Ok (k2, set_consumer None (set_producer None (queue (pp s)))) /\
    sched_ok k2 /\ same_lists (pk s) k2 /\
    (rst s <> RIdle -> runnable k2 r) /\ (wst s <> WIdle -> runnable k2 w).
Proof.
  intros Hs. destruct (wake_producer_ok (pk s) (queue (pp s))) as (k1 & Hp & Hw1); [apply (pi_env _ Hs)|by apply producer_ok|].
  pose proof (woken_writer s k1 Hs Hw1) as Hww. pose proof Hw1 as (K1 & K2 & K3 & K4). exists k1.
  destruct (wake_consumer_ok k1 (set_producer None (queue (pp s))) K1) as (k2 & Hc & J1 & J2 & J3 & J4).
  - intros p Hp'. destruct (consumer_ok s Hs p Hp') as (A & B & C). destruct K2 as (L1 & _ & _ & _ & L5 & _).
    rewrite L1, L5. split_and!; [done|done|]. rewrite K4. intros [?|E]; [done|].
    destruct (pi_cons _ Hs p Hp') as (-> & _). by destruct (pi_prod _ Hs r E) as (? & _).
  - exists k2. split_and!; try done; [by apply (same_lists_trans _ k1)| |].
    + intros Hr. apply J4. change (consumer (set_producer None ?q)) with (consumer q).
      destruct (consumer (queue (pp s))) as [p|] eqn:E; [right; by destruct (pi_cons _ Hs p E) as (-> & _)|].
      left. apply K4. left. by apply (pe_reader _ _ (pi_env _ Hs)).
    + intros Hw. apply J4. left. by apply Hww.
Qed.

Lemma close_ok s f : pipe_inv s -> pipe_enabled s (OClose f) -> exists s', pipe_run s (OClose f) = Ok s' /\ pipe_inv s'.
Proof.
  intros Hs Hen. destruct (wake_both_ok s Hs) as (k1 & k2 & H1 & H2 & H3 & H4 & H5 & H6).
  cbn [pipe_run]. unfold pipe_release. rewrite H1. ok_simpl. cbn [fst snd]. rewrite H2. ok_simpl. eexists. split; [done|].
  cbn [fst snd]. set (rc := if Z.land f O_RDONLY =? 0 then _ else _). set (wc := if Z.land f O_WRONLY =? 0 then _ else _).
  destruct Hs as [E Q F C P N R W].
  assert (Hcnt : 0 <= rc < 2 ^ 32 /\ 0 <= wc < 2 ^ 32 /\ (rst s <> RIdle -> 1 <= rc) /\ (wst s <> WIdle -> 1 <= wc)).
  { assert (Hr1 : rst s <> RIdle -> 1 <= reader_count (pp s)) by (destruct (rst s) as [|g c]; [done|]; intros _; by apply (R g c)).
    assert (Hw1 : wst s <> WIdle -> 1 <= writer_count (pp s)) by (destruct (wst s) as [|b n]; [done|]; intros _; by apply (W b n)).
    destruct Hen as [(-> & He1 & He2)|(-> & He1 & He2)]; unfold rc, wc.
    - change (Z.land O_RDONLY O_RDONLY) with 1. change (Z.land O_RDONLY O_WRONLY) with 0. cbn [Z.eqb].
      rewrite u32_small by lia. split_and!; try lia; try done. intros Hr. specialize (He2 Hr). lia.
    - change (Z.land O_WRONLY O_RDONLY) with 0. change (Z.land O_WRONLY O_WRONLY) with 2. cbn [Z.eqb].
      rewrite u32_small by lia. split_and!; try lia; try done. intros Hw. specialize (He2 Hw). lia. }
  destruct Hcnt as (N1 & N2 & N3 & N4).
  split; cbn [pk pp rst wst sent recvd queue reader_count writer_count]; try done.
  - apply (penv_next s _ (pk s) k2); cbn [pp rst wst queue]; try done.
    + intros Hr. split; [done|]. intros _. by apply H5.
    + intros Hw. split; [done|]. intros _. by apply H6.
  - by apply ioq_ok_consumer, ioq_ok_producer.
  - intros got c Hr. split; [apply N3; congruence|by apply (R got c)].
  - intros b n Hw. split; [apply N4; congruence|by apply (W b n)].
Qed.

Lemma pipe_step_ok s o : pipe_inv s -> pipe_enabled s o -> exists s', pipe_run s o = Ok s' /\ pipe_inv s'.
Proof.
  intros Hs He. destruct o.
  - eexists. split; [done|]. by apply start_read_ok.
  - by apply read_pass_ok.
  - eexists. split; [done|]. by apply start_write_ok.
  - by apply write_pass_ok.
  - by apply close_ok.
Qed.

Lemma pipe_reach_inv s0 s : pipe_inv s0 -> pipe_reach s0 s -> pipe_inv s.
Proof.
  intros H0 Hr. induction Hr as [|s o s' _ IH He Hrun|s k' _ IH He]; [done| |].
  - destruct (pipe_step_ok s o IH He) as (s2 & E & Hok). congruence.
  - destruct IH as [E Q F C P N R W]. split; cbn [pk pp rst wst sent recvd]; try done. destruct He. by split.
Qed.

(** A new pipe with some open ends, as [sys_pipe] leaves it. *)
Definition new_pipe (k : kernel) (b : list Z) (rc wc : Z) : psys := PSys k (Pipe (ioqueue_init b) rc wc) RIdle WIdle [] [].

Lemma new_pipe_inv k b rc wc : sched_ok k -> r ∈ thread_all_list k -> w ∈ thread_all_list k -> r <> idle_thread k ->
  w <> idle_thread k -> length b = Z.to_nat BUFSIZE -> 0 <= rc < 2 ^ 32 -> 0 <= wc < 2 ^ 32 -> pipe_inv (new_pipe k b rc wc).
Proof.
  intros Hk Hr Hw Hri Hwi Hb Hrc Hwc. split; cbn [new_pipe pk pp rst wst sent recvd queue reader_count writer_count ioqueue_init consumer producer]; done.
Qed.

(** C3. Pipes: from a new pipe, whatever the interleaving of one reader, one writer,
    tasks that close ends and the rest of the kernel, (1) the bytes taken out are exactly
    the bytes put in, in order, without loss or duplication, up to at most 2047 that are
    still in the buffer; (2) no assertion fails in any step; (3) the reader is blocked
    only while the buffer is empty and some writing end is open, and the writer only
    while the buffer is full and some reading end is open, so they never wait for each
    other; (4) the bytes a call of [pipe_read] has gathered are the most recent ones
    received, and a call of [pipe_write] that has written [n] bytes has put exactly its
    first [n] bytes last. *)
Theorem pipe_stream k b rc wc s :
  sched_ok k -> r ∈ thread_all_list k -> w ∈ thread_all_list k -> r <> idle_thread k -> w <> idle_thread k ->
  length b = Z.to_nat BUFSIZE -> 0 <= rc < 2 ^ 32 -> 0 <= wc < 2 ^ 32 -> pipe_reach (new_pipe k b rc wc) s ->
  (exists rest, sent s = recvd s ++ rest /\ Z.of_nat (length rest) < BUFSIZE) /\
  (forall o, pipe_enabled s o -> exists s', pipe_run s o = Ok s') /\
  (rst s <> RIdle -> runnable (pk s) r \/ sent s = recvd s /\ 1 <= writer_count (pp s)) /\
  (wst s <> WIdle -> runnable (pk s) w \/ sent s <> recvd s /\ 1 <= reader_count (pp s)) /\
  (forall got c, rst s = Reading got c -> exists l, recvd s = l ++ got) /\
  (forall x n, wst s = Writing x n -> exists l, sent s = l ++ take (Z.to_nat n) x).
Proof.
  intros Hk Hr Hw Hri Hwi Hb Hrc Hwc Hreach.
  pose proof (pipe_reach_inv _ _ (new_pipe_inv k b rc wc Hk Hr Hw Hri Hwi Hb Hrc Hwc) Hreach) as Hs.
  pose proof (ioq_length_range _ (pi_ioq _ Hs)) as Hlen. pose proof (length_contents _ (pi_ioq _ Hs)) as Hlc.
  split_and!.
  - exists (contents (queue (pp s))). split; [apply Hs|lia].
  - intros o He. destruct (pipe_step_ok s o Hs He) as (s' & ? & _). eauto.
  - intros Hne. destruct (consumer (queue (pp s))) as [p|] eqn:E.
    + right. destruct (pi_cons _ Hs p E) as (_ & _ & Hc & Hwr). split; [|done]. rewrite (pi_fifo _ Hs), Hc. apply app_nil_r.
    + left. by apply (pe_reader _ _ (pi_env _ Hs)).
  - intros Hne. destruct (producer (queue (pp s))) as [p|] eqn:E.
    + right. destruct (pi_prod _ Hs p E) as (_ & _ & Hc & Hrd). split; [|done]. rewrite (pi_fifo _ Hs). intros E2.
      rewrite <- (app_nil_r (recvd s)) in E2 at 2. apply app_inv_head in E2. rewrite E2 in Hc. discriminate Hc.
    + left. by apply (pe_writer _ _ (pi_env _ Hs)).
  - intros got c E. by apply (pi_rd _ Hs got c).
  - intros x n E. by apply (pi_wr _ Hs x n).
Qed.
End stream.

(** ** A concrete run: the writer puts a byte. *)
Fixpoint pipe_runs (s : psys) (l : list pipe_op) : res psys :=
  match l with [] => Ok s | o :: l => s ← pipe_run s o; pipe_runs s l end.

Lemma pipe_stream_witness : exists s, pipe_reach 3 2 (new_pipe ex_kernel (replicate 2048 0) 1 1) s /\ sent s = [7] /\
  exists rest, sent s = recvd s ++ rest /\ Z.of_nat (length rest) < BUFSIZE.
Proof.
  destruct (pipe_runs (new_pipe ex_kernel (replicate 2048 0) 1 1) [OWrite [7]; OWritePass]) as [s| | |] eqn:E;
    try (vm_compute in E; discriminate E).
  assert (Hr : pipe_reach 3 2 (new_pipe ex_kernel (replicate 2048 0) 1 1) s).
  { cbn [pipe_runs] in E. apply bind_ok in E as (s1 & E1 & E). apply bind_ok in E as (s2 & E2 & E). injection E as <-.
    eapply pr_op; [eapply pr_op; [apply pr_refl| |exact E1]| |exact E2].
    - split_and!; [reflexivity|reflexivity|cbn; lia].
    - injection E1 as <-. split; [reflexivity|discriminate]. }
  exists s. split; [exact Hr|]. split; [vm_compute in E; injection E as <-; reflexivity|].
  eapply (pipe_stream 3 2 ltac:(discriminate) ex_kernel (replicate 2048 0) 1 1 s ex_kernel_ok);
    [apply (bool_decide_unpack _); vm_compute; exact I..|discriminate|discriminate|reflexivity|lia|lia|exact Hr].
Defined.
