(* ===== verification/WaitExit.v ===== *)
(** * userprog/wait_exit.c: exit and wait

    System calls enter through interrupt gates, so a call runs with interrupts off until
    it blocks.  [sys_exit] is modelled from the release of the address space (the count
    of its users) to the block that leaves the task a zombie; what it releases is modelled
    with the owners of those resources ([Vma.clear_vma_list],
    [Paging.mfree_physical_pages], [InodeCache.inode_close]).  One pass of the loop of
    [sys_wait] and [sys_waitpid] is one step, which may end in a block. *)

From S2P Require Import Prelude DList ListView Sched Signal.

Definition INIT_PID : Z := 1.
Definition WNOHANG : Z := 1.

(** Tests on a member of the list of all tasks. *)
Definition task_test (k : kernel) (f : task_struct -> bool) (p : Z) : bool :=
  match tasks k !! p with Some t => f t | None => false end.

Definition find_child (k : kernel) (ppid : Z) : option Z :=
  first_elem (task_test k (fun t => parent_pid t =? ppid)) (thread_all_list k).

Definition is_hanging (t : task_struct) : bool := bool_decide (status t = TASK_HANGING).

Definition find_hanging_child (k : kernel) (ppid : Z) : option Z :=
  first_elem (task_test k (fun t => (parent_pid t =? ppid) && is_hanging t)) (thread_all_list k).

(** [struct wait_opts] *)
Definition matches (target_pid ppid : Z) (t : task_struct) : bool :=
  (parent_pid t =? ppid) && ((target_pid =? -1) || (pid t =? target_pid)).

Definition find_specific_child (k : kernel) (target_pid ppid : Z) : option Z :=
  first_elem (task_test k (matches target_pid ppid)) (thread_all_list k).
Definition find_specific_hanging_child (k : kernel) (target_pid ppid : Z) : option Z :=
  first_elem (task_test k (fun t => matches target_pid ppid t && is_hanging t)) (thread_all_list k).

(** The children of [n] become children of init. *)
Fixpoint adopt_loop (k : kernel) (n : Z) (l : list Z) : res kernel :=
  match l with
  | [] => Ok k
  | p :: l =>
      k ← with_task k p (fun t => if parent_pid t =? n then set_parent INIT_PID t else t);
      adopt_loop k n l
  end.
Definition init_adopt (k : kernel) (n : Z) : res kernel := adopt_loop k n (thread_all_list k).

(** The users of each address space. *)
Abbreviation mm_users := (gmap Z Z).

Definition release_mm_space (t : task_struct) (mms : mm_users) : res mm_users :=
  match mm t with
  | None => Ok mms
  | Some m =>
      n ← deref (mms !! m);
      _ ← assert_ (u32 (n - 1) <? n);
      Ok (<[m := u32 (n - 1)]> mms)
  end.

(** Is the task the last one in its address space? *)
Definition last_user (t : task_struct) (mms : mm_users) : bool :=
  match mm t with None => true | Some m => bool_decide (mms !! m = Some 0) end.

(** SIGCHLD, and a wake-up also when the signal is masked. *)
Definition notify (k : kernel) (p : Z) : res kernel :=
  k ← send_signal k (Some p) SIGCHLD;
  t ← deref (tasks k !! p);
  if bool_decide (status t = TASK_WAITING) then thread_unblock k p else Ok k.

Definition sys_exit (k : kernel) (mms : mm_users) (st : Z) : res (kernel * mm_users) :=
  let cur := cur_task k in
  k ← with_task k cur (set_exit_status (i8 st));
  t ← deref (tasks k !! cur);
  if parent_pid t =? -1 then Panic else
  mms ← release_mm_space t mms;
  k ← (if last_user t mms then
         k ← init_adopt k (pid t);
         t ← deref (tasks k !! cur);
         k ← match pid2thread k (parent_pid t) with
             | Some p => notify k p
             | None => UB     (* reads the status of a null pointer *)
             end;
         match pid2thread k INIT_PID with
         | Some p => match find_hanging_child k INIT_PID with Some _ => notify k p | None => Ok k end
         | None => Ok k
         end
       else Ok k);
  k ← thread_block k TASK_HANGING;
  Ok (k, mms).

(** A pass of the loop of [sys_waitpid]: the result of the call, or blocked.  A collected
    child comes with its pid (as a uint16_t) and exit status. *)
Inductive wait_result := Collected (child_pid status : Z) | NoChild | NotYet | Blocked.

Definition sys_waitpid_pass (k : kernel) (target_pid options : Z) : res (wait_result * kernel) :=
  t ← deref (tasks k !! cur_task k);
  match find_specific_hanging_child k target_pid (pid t) with
  | Some p =>
      c ← deref (tasks k !! p);
      r ← thread_exit k p false;
      Ok (Collected (u16 (pid c)) (exit_status c), r.2)
  | None =>
      match find_specific_child k target_pid (pid t) with
      | None => Ok (NoChild, k)
      | Some _ =>
          if negb (Z.land options WNOHANG =? 0) then Ok (NotYet, k)
          else k ← thread_block k TASK_WAITING; Ok (Blocked, k)
      end
  end.

(** [sys_wait] passes *)
Definition sys_wait_pass (k : kernel) : res (wait_result * kernel) :=
  t ← deref (tasks k !! cur_task k);
  match find_hanging_child k (pid t) with
  | Some p =>
      c ← deref (tasks k !! p);
      r ← thread_exit k p false;
      Ok (Collected (u16 (pid c)) (exit_status c), r.2)
  | None =>
      match find_child k (pid t) with
      | None => Ok (NoChild, k)
      | Some _ => k ← thread_block k TASK_WAITING; Ok (Blocked, k)
      end
  end.

(** ** Families *)

(** What relates a task to its parent. *)
Definition fam (t : task_struct) : Z * Z * Z * bool := (pid t, parent_pid t, exit_status t, is_hanging t).

Definition same_fam (k k' : kernel) (x : Z) : Prop := fam <$> tasks k' !! x = fam <$> tasks k !! x.

Lemma same_fam_task k k' x t' : same_fam k k' x -> tasks k' !! x = Some t' ->
  exists t, tasks k !! x = Some t /\ pid t' = pid t /\ parent_pid t' = parent_pid t /\ exit_status t' = exit_status t /\
    is_hanging t' = is_hanging t.
Proof.
  unfold same_fam. intros H E. rewrite E in H. destruct (tasks k !! x) as [t|]; [|done]. exists t. split; [done|].
  cbn in H. apply (inj Some) in H. unfold fam in H. by injection H.
Qed.

Definition pid_unique (k : kernel) : Prop := forall p q t u, p ∈ thread_all_list k -> q ∈ thread_all_list k ->
  tasks k !! p = Some t -> tasks k !! q = Some u -> pid t = pid u -> p = q.

Lemma pid2thread_unique k p t : pid_unique k -> p ∈ thread_all_list k -> tasks k !! p = Some t -> pid2thread k (pid t) = Some p.
Proof.
  intros Hu Hp Ht. apply first_elem_unique; [done|by rewrite Ht; apply Z.eqb_refl|]. intros q Hq.
  destruct (tasks k !! q) as [u|] eqn:E; [|done]. intros Heq%Z.eqb_eq. symmetry. by apply (Hu p q t u).
Qed.

(** Tasks may have been woken, and families are as before. *)
Record grown (k k' : kernel) : Prop := {
  gr_sched : sched_ok k';
  gr_lists : same_lists k k';
  gr_cur : cur_task k' = cur_task k;
  gr_run : forall x, runnable k x -> runnable k' x;
  gr_fam : forall x, same_fam k k' x;
  gr_stat : forall x, ~ runnable k' x -> same_status k k' x;
}.

Lemma grown_refl k : sched_ok k -> grown k k.
Proof. intros Hk. split; try done; by repeat split. Qed.

(** What [notify] does: the task does not stay in TASK_WAITING. *)
Definition notified (k k' : kernel) (p : Z) : Prop :=
  grown k k' /\ forall t, tasks k !! p = Some t -> status t = TASK_WAITING -> runnable k' p.

Lemma same_fam_insert k k' p t t' : tasks k' = <[p := t']> (tasks k) -> tasks k !! p = Some t -> fam t' = fam t ->
  forall x, same_fam k k' x.
Proof.
  intros He Ht Hf x. unfold same_fam. rewrite He, lookup_insert. destruct (decide (p = x)) as [<-|]; [|done].
  rewrite Ht. cbn. by rewrite Hf.
Qed.

Lemma notify_ok k p : sched_ok k -> p ∈ thread_all_list k -> exists k', notify k p = Ok k' /\ notified k k' p.
Proof.
  intros Hk Hp. destruct (all_task k p (so_pre _ Hk) Hp) as [t Ht]. unfold notify.
  destruct (send_signal_ok k p t SIGCHLD Hk Hp Ht) as (k1 & t1 & -> & Hk1 & Hl1 & Hc1 & Hm1 & _ & Hr1 & Ht1); [unfold SIGCHLD; lia|].
  assert (Hlook : tasks k1 !! p = Some t1) by (rewrite Hm1; apply lookup_insert_eq). ok_simpl. rewrite Hlook. ok_simpl.
  assert (Hp1 : p ∈ thread_all_list k1) by (by destruct Hl1 as (-> & _)).
  assert (Hrun1 : forall x, runnable k x -> runnable k1 x).
  { intros x [->|Hx]; [left; done|]. right. rewrite Hr1. destruct (wakes t SIGCHLD); [by right|done]. }
  assert (Hf1 : fam t1 = fam t).
  { rewrite Ht1. unfold fam, is_hanging. destruct (wakes t SIGCHLD) eqn:Ew; cbn [pid parent_pid exit_status status set_status set_signal]; [|done].
    unfold wakes in Ew. apply andb_true_iff in Ew as [->%bool_decide_eq_true _]. done. }
  case_bool_decide as Hw.
  - destruct (unblock_ok k1 p t1 Hk1 Hp1 Hlook) as (k2 & -> & Hk2 & Hc2 & Hr2 & Hl2 & Hm2); [by rewrite Hw|].
    exists k2. split; [done|]. split; [split|].
    + done.
    + by apply (same_lists_trans _ k1).
    + congruence.
    + intros x Hx%Hrun1. destruct Hx as [->|Hx]; [left; done|]. right. rewrite Hr2. by right.
    + apply (same_fam_insert k k2 p t (set_status TASK_READY t1)); [by rewrite Hm2, Hm1, insert_insert_eq|done|].
      rewrite <- Hf1. unfold fam, is_hanging. cbn [pid parent_pid exit_status status set_status]. by rewrite Hw.
    + intros x Hx. unfold same_status. rewrite Hm2, Hm1, insert_insert_eq, lookup_insert_ne; [done|].
      intros <-. apply Hx. right. rewrite Hr2. left.
    + intros _ _ _. right. rewrite Hr2. left.
  - exists k1. split; [done|]. split; [split; try done|].
    { by apply (same_fam_insert k k1 p t t1). }
    { intros x Hx. unfold same_status. rewrite Hm1, lookup_insert. destruct (decide (p = x)) as [<-|]; [|done].
      rewrite Ht, Ht1. cbn [fmap option_fmap option_map status set_status]. destruct (wakes t SIGCHLD); [|done].
      exfalso. apply Hx. right. rewrite Hr1. left. }
    intros u Hu Hst. assert (u = t) as -> by congruence. right. rewrite Hr1.
      destruct (wakes t SIGCHLD) eqn:Ew; [left|]. exfalso. apply Hw. by rewrite Ht1.
Qed.

Definition adopted (n : Z) (t : task_struct) : task_struct := if parent_pid t =? n then set_parent INIT_PID t else t.

Lemma adopt_ok k n l : NoDup l -> all_live (tasks k) l ->
  exists m', adopt_loop k n l = Ok (set_tasks m' k) /\ mapped (adopted n) l (tasks k) m'.
Proof.
  revert k. induction l as [|p l IH]; intros k Hnd Hl; cbn [adopt_loop].
  { exists (tasks k). split; [by destruct k|]. intros q. by rewrite decide_False by (by intros ?%not_elem_of_nil). }
  apply NoDup_cons in Hnd as [Hp Hnd]. apply Forall_cons in Hl as [[t Ht] Hl]. unfold with_task. rewrite Ht. ok_simpl.
  destruct (IH (set_tasks (<[p := adopted n t]> (tasks k)) k) Hnd) as (m' & Hrun & Hm); [by apply all_live_insert|].
  exists m'. split; [exact Hrun|]. by eapply mapped_insert.
Qed.

Lemma unique_grown k k' : pid_unique k -> grown k k' -> pid_unique k'.
Proof.
  intros Hu [_ (L & _) _ _ Hf] p q t u Hp Hq Ht Hu' He. rewrite L in Hp, Hq.
  destruct (same_fam_task k k' p t (Hf p) Ht) as (t0 & Ht0 & E1 & _).
  destruct (same_fam_task k k' q u (Hf q) Hu') as (u0 & Hu0 & E2 & _). apply (Hu p q t0 u0); congruence.
Qed.

(** The last part of [sys_exit]: init is notified when it has a zombie child. *)
Lemma notify_init_ok k : sched_ok k -> pid_unique k ->
  exists k', match pid2thread k INIT_PID with
             | Some p => match find_hanging_child k INIT_PID with Some _ => notify k p | None => Ok k end
             | None => Ok k
             end = Ok k' /\ grown k k' /\
    forall p t q u, p ∈ thread_all_list k -> tasks k !! p = Some t -> pid t = INIT_PID -> status t = TASK_WAITING ->
      q ∈ thread_all_list k -> tasks k !! q = Some u -> parent_pid u = INIT_PID -> is_hanging u = true -> runnable k' p.
Proof.
  intros Hk Hu. destruct (pid2thread k INIT_PID) as [p|] eqn:Ep.
  - destruct (find_hanging_child k INIT_PID) as [z|] eqn:Ez.
    + apply first_elem_in in Ep as [Hp Hpid]. destruct (notify_ok k p Hk Hp) as (k' & Hrun & Hg & Hw). exists k'.
      split_and!; [done|done|]. intros p' t q u Hp' Ht Hpt Hst _ _ _ _.
      assert (p' = p) as ->; [|by apply (Hw t)]. destruct (tasks k !! p) as [tp|] eqn:Etp; [|done].
      apply Z.eqb_eq in Hpid. apply (Hu p' p t tp); congruence.
    + exists k. split_and!; [done|by apply grown_refl|]. intros p' t q u _ _ _ _ Hq Hu' Hpar Hh.
      apply first_elem_None in Ez. rewrite Forall_forall in Ez. specialize (Ez q Hq). unfold task_test in Ez.
      rewrite Hu', Hpar, Z.eqb_refl, Hh in Ez. discriminate Ez.
  - exists k. split_and!; [done|by apply grown_refl|]. intros p' t q u Hp' Ht Hpt _ _ _ _ _.
    rewrite <- Hpt, (pid2thread_unique k p' t) in Ep by done. discriminate Ep.
Qed.

(** A task [p] of [W] is in [sys_waitpid] for the recorded target.  When it is blocked
    there, no child it waits for is a zombie. *)
Definition settled (k : kernel) (W : gmap Z Z) : Prop := forall p target, W !! p = Some target ->
  p ∈ thread_all_list k /\ p <> idle_thread k /\
  exists t, tasks k !! p = Some t /\ (~ runnable k p -> status t = TASK_WAITING /\
    forall q u, q ∈ thread_all_list k -> tasks k !! q = Some u -> matches target (pid t) u = true -> is_hanging u = false).

(** The running task [tc], a process of its own whose parent is alive, may exit. *)
Record may_exit (k : kernel) (mms : mm_users) (tc : task_struct) : Prop := {
  me_sched : sched_ok k;
  me_unique : pid_unique k;
  me_task : tasks k !! cur_task k = Some tc;
  me_idle : cur_task k <> idle_thread k;
  me_init : pid tc <> INIT_PID;
  me_parent : parent_pid tc <> -1 /\ exists q tq, q ∈ thread_all_list k /\ tasks k !! q = Some tq /\ pid tq = parent_pid tc /\ q <> cur_task k;
  me_mm : match mm tc with None => True | Some m => mms !! m = Some 1 end;
  me_idle_alive : forall t, tasks k !! idle_thread k = Some t -> is_hanging t = false;
}.

(** Everybody after the exit of [c] with task [tc]: [c] is a zombie with its status, its
    children are children of init, and otherwise families are unchanged. *)
Definition exited (k k' : kernel) (c : Z) (tc : task_struct) (st : Z) : Prop :=
  forall x t, tasks k !! x = Some t -> exists t', tasks k' !! x = Some t' /\ pid t' = pid t /\
    parent_pid t' = (if bool_decide (x ∈ thread_all_list k) && (parent_pid t =? pid tc) then INIT_PID else parent_pid t) /\
    exit_status t' = (if decide (x = c) then i8 st else exit_status t) /\
    is_hanging t' = (if decide (x = c) then true else is_hanging t).

Lemma release_last t (mms : mm_users) : match mm t with None => True | Some m => mms !! m = Some 1 end ->
  exists mms', release_mm_space t mms = Ok mms' /\ last_user t mms' = true.
Proof.
  intros Hm. unfold release_mm_space, last_user. destruct (mm t) as [m|]; [|by eauto].
  rewrite Hm. ok_simpl. eexists. split; [done|]. by rewrite lookup_insert_eq, bool_decide_true.
Qed.

(** The state in which the exiting task has stored its status and given its children away. *)
Lemma orphaned_ok k mms tc st : may_exit k mms tc ->
  exists k1, (k0 ← with_task k (cur_task k) (set_exit_status (i8 st)); init_adopt k0 (pid tc)) = Ok k1 /\
    sched_ok k1 /\ pid_unique k1 /\ same_lists k k1 /\ cur_task k1 = cur_task k /\ thread_ready_list k1 = thread_ready_list k /\
    forall x t, tasks k !! x = Some t -> exists t', tasks k1 !! x = Some t' /\ pid t' = pid t /\ status t' = status t /\
      parent_pid t' = (if bool_decide (x ∈ thread_all_list k) && (parent_pid t =? pid tc) then INIT_PID else parent_pid t) /\
      exit_status t' = (if decide (x = cur_task k) then i8 st else exit_status t).
Proof.
  intros [Hk Hu Ht _ _ _ _ _]. unfold with_task. rewrite Ht. ok_simpl. set (k0 := set_tasks _ k).
  assert (Hk0 : sched_ok k0) by (by apply (store_ok k _ tc)). destruct (sp_all _ (so_pre _ Hk0)) as [Hnd Hl].
  destruct (adopt_ok k0 (pid tc) (thread_all_list k0) Hnd Hl) as (m' & Hrun & Hm).
  assert (Hall : forall x t, tasks k !! x = Some t -> exists t', m' !! x = Some t' /\ pid t' = pid t /\ status t' = status t /\
      parent_pid t' = (if bool_decide (x ∈ thread_all_list k) && (parent_pid t =? pid tc) then INIT_PID else parent_pid t) /\
      exit_status t' = (if decide (x = cur_task k) then i8 st else exit_status t)).
  { intros x t Hx.
    assert (Hx0 : tasks k0 !! x = Some (if decide (x = cur_task k) then set_exit_status (i8 st) t else t)).
    { cbn [tasks k0 set_tasks]. rewrite lookup_insert. destruct (decide (cur_task k = x)) as [<-|Hne].
      - rewrite decide_True by done. congruence.
      - rewrite decide_False by congruence. done. }
    rewrite (mapped_lookup _ _ _ _ _ _ Hm Hx0). eexists. split; [done|].
    change (thread_all_list k0) with (thread_all_list k). unfold adopted.
    destruct (decide (x ∈ thread_all_list k)) as [Hin|Hin]; [rewrite bool_decide_true by done|rewrite bool_decide_false by done];
      destruct (decide (x = cur_task k)); cbn [parent_pid set_exit_status andb]; try done;
      destruct (parent_pid t =? pid tc); done. }
  exists (set_tasks m' k0). split_and!; [exact Hrun| | |by repeat split|done|done|exact Hall].
  - apply (mapped_ok k0 (adopted (pid tc)) (thread_all_list k0)); [done|done|]. intros t. unfold adopted. by destruct (_ =? _).
  - intros p q t u Hp Hq Htp Huq He.
    destruct (all_task k p (so_pre _ Hk) Hp) as [t0 Ht0]. destruct (all_task k q (so_pre _ Hk) Hq) as [u0 Hu0].
    destruct (Hall p t0 Ht0) as (t' & E1 & E2 & _). destruct (Hall q u0 Hu0) as (u' & E3 & E4 & _).
    cbn [tasks set_tasks] in Htp, Huq. apply (Hu p q t0 u0); [exact Hp|exact Hq|done|done|congruence].
Qed.

(** What blocking does to families; with TASK_HANGING it makes a zombie. *)
Lemma block_fam_ok k s : sched_ok k -> is_wait s = true -> cur_task k <> idle_thread k ->
  (forall t, tasks k !! idle_thread k = Some t -> is_hanging t = false) ->
  exists k', thread_block k s = Ok k' /\ sched_ok k' /\ same_lists k k' /\
    (forall x, x <> idle_thread k -> runnable k' x <-> runnable k x /\ x <> cur_task k) /\
    forall x t, tasks k !! x = Some t -> exists t', tasks k' !! x = Some t' /\ pid t' = pid t /\ parent_pid t' = parent_pid t /\
      exit_status t' = exit_status t /\
      is_hanging t' = (if decide (x = cur_task k) then bool_decide (s = TASK_HANGING) else is_hanging t) /\
      (x <> idle_thread k -> ~ runnable k x -> status t' = status t) /\ (x = cur_task k -> status t' = s).
Proof.
  intros Hk Hs Hi Hih. destruct (block_runnable k s Hk Hs) as (k' & Hb & Hk' & Hl & Hr). exists k'.
  split_and!; try done. intros x t Hx. destruct (keeps_task k k' x t (block_keeps _ _ _ Hb) Hx) as (t' & Ht' & Hcore).
  exists t'. assert (Hf : pid t' = pid t /\ parent_pid t' = parent_pid t /\ exit_status t' = exit_status t).
  { split_and!; [exact (f_equal pid Hcore)|exact (f_equal parent_pid Hcore)|exact (f_equal exit_status Hcore)]. }
  destruct Hf as (F1 & F2 & F3).
  destruct (decide (x = cur_task k')) as [Hxc|Hxc].
  - assert (Hrun' : status t' = TASK_RUNNING).
    { destruct (so_running _ Hk') as (u & Hu & Hsu). rewrite <- Hxc in Hu. congruence. }
    assert (Hnc : x <> cur_task k).
    { intros ->. destruct (proj1 (Hr (cur_task k) Hi)); [by left|done]. }
    rewrite decide_False by done. split_and!; try done.
    + unfold is_hanging at 1. rewrite Hrun'. cbn. destruct (decide (x = idle_thread k)) as [->|Hne]; [symmetry; by apply Hih|].
      assert (Hrx : runnable k x) by (apply Hr; [done|by left]). symmetry. apply bool_decide_eq_false. intros Hh.
      apply (runnable_status k x t Hk) in Hrx; [destruct Hrx; congruence| |done]. destruct Hrx as [->|Hin]; [apply (sp_cur _ (so_pre _ Hk))|].
      by apply (sp_sub _ (so_pre _ Hk)).
    + intros Hne Hnr. exfalso. apply Hnr. apply Hr; [done|by left].
  - destruct (block_status k s k' x t Hb Hs Hxc Hx) as (t2 & Ht2 & Hst). assert (t2 = t') as -> by congruence.
    split_and!; try done.
    + unfold is_hanging. rewrite Hst. by destruct (decide (x = cur_task k)).
    + intros _ Hnr. rewrite Hst, decide_False; [done|]. intros ->. apply Hnr. by left.
    + intros ->. by rewrite Hst, decide_True.
Qed.

(** A task that may exit has a parent that [pid2thread] finds, before and after the
    adoption of its children. *)
Lemma sys_exit_ok k mms tc st W : may_exit k mms tc -> settled k W -> W !! cur_task k = None ->
  exists k' mms', sys_exit k mms st = Ok (k', mms') /\ sched_ok k' /\ pid_unique k' /\ thread_all_list k' = thread_all_list k /\
    ~ runnable k' (cur_task k) /\ exited k k' (cur_task k) tc st /\ settled k' W.
Proof.
  intros Hme HW HWc. pose proof Hme as [Hk Hu Ht Hi Hin (Hp1 & q & tq & Hq & Htq & Hpq & Hqc) Hmm Hidle].
  destruct (orphaned_ok k mms tc st Hme) as (k1 & Hrun1 & Hk1 & Hu1 & Hl1 & Hc1 & Hr1 & Ha1).
  destruct (Ha1 _ tc Ht) as (tc1 & Htc1 & C1 & C2 & C3 & C4).
  assert (Hne : pid tc <> parent_pid tc).
  { intros E. apply Hqc. apply (Hu q (cur_task k) tq tc); try done; [apply (sp_cur _ (so_pre _ Hk))|congruence]. }
  rewrite (proj2 (Z.eqb_neq (parent_pid tc) (pid tc))), andb_false_r in C3 by congruence.
  destruct (Ha1 q tq Htq) as (tq1 & Htq1 & Q1 & _). pose proof Hl1 as (L1 & _ & _ & _ & L1i & _).
  assert (Hq1 : q ∈ thread_all_list k1) by (by rewrite L1).
  destruct (notify_ok k1 q Hk1 Hq1) as (k2 & Hrun2 & Hg2 & Hw2).
  destruct (notify_init_ok k2 (gr_sched _ _ Hg2) (unique_grown _ _ Hu1 Hg2)) as (k3 & Hrun3 & Hg3 & Hw3).
  pose proof (gr_lists _ _ Hg2) as (L2 & _ & _ & _ & L2i & _). pose proof (gr_lists _ _ Hg3) as (L3 & _ & _ & _ & L3i & _).
  assert (Hc3 : cur_task k3 = cur_task k) by (rewrite (gr_cur _ _ Hg3), (gr_cur _ _ Hg2); done).
  assert (Hfam : forall x t, tasks k1 !! x = Some t -> exists t', tasks k3 !! x = Some t' /\ pid t' = pid t /\
    parent_pid t' = parent_pid t /\ exit_status t' = exit_status t /\ is_hanging t' = is_hanging t).
  { intros x t Hx. pose proof (gr_fam _ _ Hg2 x) as F2. pose proof (gr_fam _ _ Hg3 x) as F3. unfold same_fam in *. rewrite F2, Hx in F3.
    destruct (tasks k3 !! x) as [t'|]; [|done]. exists t'. split; [done|]. cbn in F3. apply (inj Some) in F3. unfold fam in F3. by injection F3. }
  destruct (block_fam_ok k3 TASK_HANGING (gr_sched _ _ Hg3) eq_refl) as (k4 & Hrun4 & Hk4 & Hl4 & Hr4 & Ha4).
  { by rewrite Hc3, L3i, L2i, L1i. }
  { intros t Hti. rewrite L3i, L2i, L1i in Hti. destruct (all_task k _ (so_pre _ Hk) (sp_idle _ (so_pre _ Hk))) as [t0 Ht0].
    destruct (Ha1 _ t0 Ht0) as (t1 & Ht1 & _ & Hst & _). destruct (Hfam _ t1 Ht1) as (t3 & Ht3 & _ & _ & _ & Hh).
    assert (t3 = t) as -> by congruence. rewrite Hh. unfold is_hanging. rewrite Hst. by apply Hidle. }
  rewrite Hc3 in *. rewrite L3i, L2i, L1i in Hr4, Ha4. pose proof Hl4 as (L4 & _ & _ & _ & L4i & _).
  assert (HL : thread_all_list k4 = thread_all_list k) by congruence.
  destruct (release_last (set_exit_status (i8 st) tc) mms Hmm) as (mms' & Hrel & Hlast).
  exists k4, mms'. split.
  { unfold sys_exit. apply bind_ok in Hrun1 as (k0 & E0 & E1). rewrite E0. ok_simpl.
    assert (Htc0 : tasks k0 !! cur_task k = Some (set_exit_status (i8 st) tc)).
    { unfold with_task in E0. rewrite Ht in E0. cbn in E0. injection E0 as <-. apply lookup_insert_eq. }
    rewrite Htc0. ok_simpl. change (parent_pid (set_exit_status _ tc)) with (parent_pid tc).
    rewrite (proj2 (Z.eqb_neq (parent_pid tc) (-1)) Hp1), Hrel. ok_simpl. rewrite Hlast.
    change (pid (set_exit_status _ tc)) with (pid tc). rewrite E1. ok_simpl. rewrite Htc1. ok_simpl.
    rewrite C3, <- Hpq, <- Q1, (pid2thread_unique k1 q tq1 Hu1 Hq1 Htq1), Hrun2. ok_simpl. rewrite Hrun3. ok_simpl.
    rewrite Hrun4. ok_simpl. done. }
  assert (Hex : exited k k4 (cur_task k) tc st).
  { intros x t Hx. destruct (Ha1 x t Hx) as (t1 & Ht1 & P1 & P2 & P3 & P4). destruct (Hfam x t1 Ht1) as (t3 & Ht3 & R1 & R2 & R3 & R4).
    destruct (Ha4 x t3 Ht3) as (t4 & Ht4 & S1 & S2 & S3 & S4 & _). exists t4. split_and!; [done|congruence|congruence|congruence|].
    rewrite S4, R4, bool_decide_true by done. unfold is_hanging. by rewrite P2. }
  split_and!; [done| |done| |exact Hex|].
  - intros x y t u Hx Hy Htx Huy He. rewrite HL in Hx, Hy.
    destruct (all_task k x (so_pre _ Hk) Hx) as [t0 Ht0]. destruct (all_task k y (so_pre _ Hk) Hy) as [u0 Hu0].
    destruct (Hex x t0 Ht0) as (t' & X1 & X2 & _). destruct (Hex y u0 Hu0) as (u' & Y1 & Y2 & _).
    apply (Hu x y t0 u0); congruence.
  - rewrite Hr4 by done. tauto.
  - intros p target Hpw. destruct (HW p target Hpw) as (Wp & Wi & t & Htp & Hwait).
    destruct (Ha1 p t Htp) as (t1 & Ht1 & P1 & P2 & P3 & P4). destruct (Hfam p t1 Ht1) as (t3 & Ht3 & R1 & _).
    destruct (Ha4 p t3 Ht3) as (t4 & Ht4 & S1 & _ & _ & _ & S5 & _). rewrite HL, L4i, L3i, L2i, L1i.
    split_and!; [done|done|]. exists t4. split; [done|]. intros Hnr.
    assert (Hpc : p <> cur_task k) by (intros ->; congruence).
    assert (Hnr3 : ~ runnable k3 p) by (intros Hr; apply Hnr, Hr4; done).
    assert (Hnr2 : ~ runnable k2 p) by (intros Hr; by apply Hnr3, (gr_run _ _ Hg3)).
    assert (Hnr1 : ~ runnable k1 p) by (intros Hr; by apply Hnr2, (gr_run _ _ Hg2)).
    assert (Hnr0 : ~ runnable k p) by (intros Hr; apply Hnr1; unfold runnable in *; by rewrite Hc1, Hr1).
    destruct (Hwait Hnr0) as [Hst Hno].
    pose proof (gr_stat _ _ Hg2 p Hnr2) as T2. pose proof (gr_stat _ _ Hg3 p Hnr3) as T3. unfold same_status in T2, T3.
    rewrite T2, Ht1, Ht3 in T3. cbn in T3. injection T3 as T3.
    split; [rewrite (S5 Wi Hnr3); congruence|]. intros z u Hz Hzu Hmat.
    destruct (all_task k z (so_pre _ Hk) Hz) as [u0 Hu0]. destruct (Hex z u0 Hu0) as (u' & U1 & U2 & U3 & U4 & U5).
    assert (u' = u) as -> by congruence. rewrite bool_decide_true in U3 by done. cbn [andb] in U3.
    unfold matches in Hmat. apply andb_true_iff in Hmat as [Hpar%Z.eqb_eq Htar].
    assert (Hpid : pid t4 = pid t) by congruence. rewrite U5. destruct (decide (z = cur_task k)) as [->|Hzc].
    + exfalso. assert (u0 = tc) as -> by congruence.
      rewrite (proj2 (Z.eqb_neq (parent_pid tc) (pid tc))) in U3 by congruence.
      assert (p = q) as -> by (apply (Hu p q t tq); congruence). apply Hnr2, (Hw2 t1); [done|congruence].
    + destruct (Z.eqb_spec (parent_pid u0) (pid tc)) as [Hch|Hch].
      * apply not_true_is_false. intros Hh. apply Hnr3.
        destruct (tasks k2 !! p) as [t2|] eqn:Ht2; [|by rewrite Ht1 in T2].
        destruct (same_fam_task k1 k2 p t2 (gr_fam _ _ Hg2 p) Ht2) as (t1' & Ht1' & V1 & _).
        destruct (Ha1 z u0 Hu0) as (u1 & Hu1' & _ & X2 & X3 & _). rewrite bool_decide_true, Hch, Z.eqb_refl in X3 by done. cbn in X3.
        pose proof (gr_fam _ _ Hg2 z) as Fz. destruct (tasks k2 !! z) as [u2|] eqn:Hu2; [|unfold same_fam in Fz; by rewrite Hu2, Hu1' in Fz].
        destruct (same_fam_task k1 k2 z u2 Fz Hu2) as (u1' & Hu1'' & _ & Y2 & _ & Y4).
        assert (u1' = u1) as -> by congruence. assert (t1' = t1) as -> by congruence.
        apply (Hw3 p t2 z u2); [by rewrite L2, L1|done|congruence| |by rewrite L2, L1|done|congruence|].
        -- rewrite Ht1 in T2. cbn in T2. injection T2 as T2. congruence.
        -- rewrite Y4. unfold is_hanging. by rewrite X2.
      * apply (Hno z u0 Hz Hu0). unfold matches. rewrite <- U3, Hpar, Hpid, Z.eqb_refl. by rewrite <- U2.
Qed.

(** ** Waiting *)
Definition waited (k k' : kernel) (W : gmap Z Z) (tc : task_struct) (target options : Z) (r : wait_result) : Prop :=
  let children p c := p ∈ thread_all_list k /\ tasks k !! p = Some c /\ matches target (pid tc) c = true in
  match r with
  | Collected n st => exists p c, children p c /\ is_hanging c = true /\ n = u16 (pid c) /\ st = exit_status c /\
      thread_all_list k' = leave p (thread_all_list k) /\ tasks k' = delete p (tasks k) /\ settled k' (delete (cur_task k) W)
  | NoChild => k' = k /\ forall p c, ~ children p c
  | NotYet => k' = k /\ Z.land options WNOHANG <> 0 /\ (exists p c, children p c) /\ forall p c, children p c -> is_hanging c = false
  | Blocked => Z.land options WNOHANG = 0 /\ (exists p c, children p c) /\ ~ runnable k' (cur_task k) /\
      settled k' (<[cur_task k := target]> W)
  end.

Lemma task_test_first k f l : first_elem (task_test k f) l = None -> forall p t, p ∈ l -> tasks k !! p = Some t -> f t = false.
Proof.
  intros H p t Hp Ht. apply first_elem_None in H. rewrite Forall_forall in H. specialize (H p Hp). unfold task_test in H. by rewrite Ht in H.
Qed.

Lemma task_test_found k f l p : first_elem (task_test k f) l = Some p -> exists t, p ∈ l /\ tasks k !! p = Some t /\ f t = true.
Proof.
  intros [Hp H]%first_elem_in. unfold task_test in H. destruct (tasks k !! p) as [t|]; [|done]. eauto.
Qed.

(** The running task [tc] may call [sys_waitpid]. *)
Record may_wait (k : kernel) (W : gmap Z Z) (tc : task_struct) : Prop := {
  mw_sched : sched_ok k;
  mw_unique : pid_unique k;
  mw_settled : settled k W;
  mw_task : tasks k !! cur_task k = Some tc;
  mw_idle : cur_task k <> idle_thread k;
  mw_alive : forall t, tasks k !! idle_thread k = Some t \/ tasks k !! main_thread k = Some t -> is_hanging t = false;
}.

Lemma settled_sub k W W' : W' ⊆ W -> settled k W -> settled k W'.
Proof. intros Hsub H p target Hp. apply H. by eapply lookup_weaken. Qed.

Lemma hanging_not_runnable k p t : sched_ok k -> p ∈ thread_all_list k -> tasks k !! p = Some t -> is_hanging t = true -> ~ runnable k p.
Proof.
  intros Hk Hp Ht Hh%bool_decide_eq_true. rewrite (runnable_status k p t Hk Hp Ht). intros [?|?]; congruence.
Qed.

(** A zombie is taken away. *)
Lemma collect_ok k W tc p c : may_wait k W tc -> p ∈ thread_all_list k -> tasks k !! p = Some c -> is_hanging c = true ->
  exists r, thread_exit k p false = Ok r /\ sched_ok r.2 /\ pid_unique r.2 /\
    thread_all_list r.2 = leave p (thread_all_list k) /\ tasks r.2 = delete p (tasks k) /\ settled r.2 W.
Proof.
  intros [Hk Hu HW Ht Hi Hal] Hp Hc Hh. pose proof (hanging_not_runnable k p c Hk Hp Hc Hh) as Hnr.
  assert (Hpi : p <> idle_thread k) by (intros ->; by rewrite (Hal c (or_introl Hc)) in Hh).
  assert (Hpm : p <> main_thread k) by (intros ->; by rewrite (Hal c (or_intror Hc)) in Hh).
  assert (Hpc : p <> cur_task k) by (intros ->; apply Hnr; by left).
  destruct (exit_ok k p Hk Hp Hpc Hpi Hpm) as (r & Hrun & Hk' & Htk & Hl & Hr & Hcur & Hid & _). exists r.
  assert (Hsub : forall x t, tasks r.2 !! x = Some t -> tasks k !! x = Some t).
  { intros x t Hx. rewrite Htk in Hx. by apply lookup_delete_Some in Hx as [_ ?]. }
  split_and!; try done.
  - intros x y t u Hx Hy Hxt Hyu. rewrite Hl in Hx, Hy. apply elem_of_leave in Hx as [_ Hx]. apply elem_of_leave in Hy as [_ Hy].
    apply (Hu x y); auto.
  - intros x target Hx. destruct (HW x target Hx) as (A1 & A2 & t & Htx & Hwait).
    assert (Hxp : x <> p).
    { intros ->. destruct (Hwait Hnr) as [Hst _]. assert (t = c) as -> by congruence. apply bool_decide_eq_true in Hh. congruence. }
    rewrite Hl, Hid. split_and!; [by apply elem_of_leave|done|]. exists t. rewrite Htk, lookup_delete_ne by done. split; [done|].
    intros Hnr'. assert (Hnr0 : ~ runnable k x).
    { intros [->|Hin]; apply Hnr'; [left; done|]. right. rewrite Hr. by apply elem_of_leave. }
    destruct (Hwait Hnr0) as [Hst Hno]. split; [done|]. intros z u [_ Hz]%elem_of_leave [_ Hzu]%lookup_delete_Some. by apply (Hno z).
Qed.

(** The wait itself. *)
Lemma wait_block_ok k W tc target : may_wait k W tc ->
  (forall p c, p ∈ thread_all_list k -> tasks k !! p = Some c -> matches target (pid tc) c = true -> is_hanging c = false) ->
  exists k', thread_block k TASK_WAITING = Ok k' /\ sched_ok k' /\ pid_unique k' /\ ~ runnable k' (cur_task k) /\
    settled k' (<[cur_task k := target]> W).
Proof.
  intros [Hk Hu HW Ht Hi Hal] Hno.
  destruct (block_fam_ok k TASK_WAITING Hk eq_refl Hi) as (k' & Hrun & Hk' & (L1 & _ & _ & _ & L5 & _) & Hr & Ha); [auto|].
  exists k'. assert (Hback : forall x t', x ∈ thread_all_list k -> tasks k' !! x = Some t' -> exists t, tasks k !! x = Some t /\ pid t' = pid t /\
    parent_pid t' = parent_pid t /\ (is_hanging t' = true -> is_hanging t = true)).
  { intros x t' Hx Hxt. destruct (all_task k x (so_pre _ Hk) Hx) as [t Htx]. destruct (Ha x t Htx) as (t2 & E & P1 & P2 & _ & P4 & _).
    exists t. assert (t2 = t') as -> by congruence. split_and!; try done. rewrite P4. by destruct (decide (x = cur_task k)). }
  split_and!; [done|done| | |].
  - intros x y t u Hx Hy Hxt Hyu He. rewrite L1 in Hx, Hy. destruct (Hback x t Hx Hxt) as (t0 & Ht0 & X1 & _).
    destruct (Hback y u Hy Hyu) as (u0 & Hu0 & Y1 & _). apply (Hu x y t0 u0); congruence.
  - rewrite Hr by done. tauto.
  - assert (Hch : forall n tgt0, (forall q u, q ∈ thread_all_list k -> tasks k !! q = Some u -> matches tgt0 n u = true -> is_hanging u = false) ->
      forall q u, q ∈ thread_all_list k -> tasks k' !! q = Some u -> matches tgt0 n u = true -> is_hanging u = false).
    { intros n tgt0 H q u Hq Hqu Hm. destruct (Hback q u Hq Hqu) as (u0 & Hu0 & E1 & E2 & E3). apply not_true_is_false. intros Hh.
      rewrite (H q u0 Hq Hu0) in E3; [by specialize (E3 Hh)|]. unfold matches in *. by rewrite <- E1, <- E2. }
    intros p tgt0. rewrite L1, L5. destruct (decide (p = cur_task k)) as [->|Hne].
    + rewrite lookup_insert_eq. intros [= <-]. destruct (Ha _ tc Ht) as (t' & Ht' & P1 & _ & _ & _ & _ & P6).
      split_and!; [apply (sp_cur _ (so_pre _ Hk))|done|]. exists t'. split; [done|]. intros _. split; [by apply P6|].
      rewrite P1. by apply Hch.
    + rewrite lookup_insert_ne by done. intros Hp. destruct (HW p tgt0 Hp) as (A1 & A2 & t & Htp & Hwait).
      split_and!; [done|done|]. destruct (Ha p t Htp) as (t' & Ht' & P1 & _ & _ & _ & P5 & _). exists t'. split; [done|].
      intros Hnr. assert (Hnr0 : ~ runnable k p) by (intros Hrun0; apply Hnr, Hr; done).
      destruct (Hwait Hnr0) as [Hst Hn0]. split; [rewrite (P5 A2 Hnr0); done|]. rewrite P1. by apply Hch.
Qed.

Lemma sys_waitpid_ok k W tc target options : may_wait k W tc ->
  exists r k', sys_waitpid_pass k target options = Ok (r, k') /\ sched_ok k' /\ pid_unique k' /\ waited k k' W tc target options r.
Proof.
  intros Hmw. pose proof Hmw as [Hk Hu HW Ht Hi Hal]. unfold sys_waitpid_pass. rewrite Ht. ok_simpl.
  destruct (find_specific_hanging_child k target (pid tc)) as [p|] eqn:E1.
  - apply task_test_found in E1 as (c & Hp & Hc & [Hm Hh]%andb_true_iff). rewrite Hc. ok_simpl.
    destruct (collect_ok k W tc p c Hmw Hp Hc Hh) as (r & -> & Hk' & Hu' & Hl & Htk & Hs). ok_simpl.
    eexists _, _. split; [done|]. split_and!; [done|done|]. exists p, c. split_and!; try done.
    eapply settled_sub; [apply delete_subseteq|done].
  - pose proof (task_test_first _ _ _ E1) as Hno. cbn in Hno.
    destruct (find_specific_child k target (pid tc)) as [p|] eqn:E2.
    + apply task_test_found in E2 as (c & Hp & Hc & Hm).
      assert (Hex : exists p c, p ∈ thread_all_list k /\ tasks k !! p = Some c /\ matches target (pid tc) c = true) by eauto.
      assert (Hno' : forall p c, p ∈ thread_all_list k -> tasks k !! p = Some c -> matches target (pid tc) c = true -> is_hanging c = false).
      { intros p' c' Hp' Hc' Hm'. specialize (Hno p' c' Hp' Hc'). by rewrite Hm' in Hno. }
      destruct (Z.eqb_spec (Z.land options WNOHANG) 0) as [Ho|Ho]; cbn [negb].
      * destruct (wait_block_ok k W tc target Hmw Hno') as (k' & -> & Hk' & Hu' & Hnr & Hs). ok_simpl.
        eexists _, _. split; [done|]. by split_and!.
      * eexists _, _. split; [done|]. split_and!; [done|done|]. split_and!; try done. intros p' c' (? & ? & ?). eauto.
    + eexists _, _. split; [done|]. split_and!; [done|done|]. split; [done|]. intros p c (Hp & Hc & Hm).
      by rewrite (task_test_first _ _ _ E2 p c Hp Hc) in Hm.
Qed.

Lemma sys_wait_is_waitpid k : sys_wait_pass k = sys_waitpid_pass k (-1) 0.
Proof.
  unfold sys_wait_pass, sys_waitpid_pass, find_hanging_child, find_child, find_specific_hanging_child, find_specific_child.
  assert (H : forall n (f : task_struct -> bool) l, first_elem (task_test k (fun t => (parent_pid t =? n) && f t)) l =
    first_elem (task_test k (fun t => matches (-1) n t && f t)) l).
  { intros n f l. induction l as [|x l IH]; [done|]. cbn [first_elem].
    assert (E : task_test k (fun t => (parent_pid t =? n) && f t) x = task_test k (fun t => matches (-1) n t && f t) x).
    { unfold task_test, matches. destruct (tasks k !! x) as [t|]; [|done]. cbn. by rewrite andb_true_r. }
    by rewrite E, IH. }
  assert (H' : forall n l, first_elem (task_test k (fun t => parent_pid t =? n)) l = first_elem (task_test k (matches (-1) n)) l).
  { intros n l. induction l as [|x l IH]; [done|]. cbn [first_elem].
    assert (E : task_test k (fun t => parent_pid t =? n) x = task_test k (matches (-1) n) x).
    { unfold task_test, matches. destruct (tasks k !! x) as [t|]; [|done]. cbn. by rewrite andb_true_r. }
    by rewrite E, IH. }
  destruct (tasks k !! cur_task k) as [t|]; [|done]. ok_simpl. rewrite H, H'. done.
Qed.


(** C24. Wait: a pass of [sys_waitpid] that finds a zombie child with the requested pid
    (any child for -1) returns its pid and exit status and removes exactly it from the
    system; it reports no child exactly when there is none; with WNOHANG it returns at
    once when children exist but none is a zombie; otherwise it blocks, and then, as for
    every other blocked waiter, no child it waits for is a zombie.  [sys_wait] is
    [sys_waitpid] for any child. *)
Theorem sys_waitpid_spec k W tc target options : may_wait k W tc ->
  sys_wait_pass k = sys_waitpid_pass k (-1) 0 /\
  exists r k', sys_waitpid_pass k target options = Ok (r, k') /\ sched_ok k' /\ pid_unique k' /\ waited k k' W tc target options r.
Proof. intros Hmw. split; [apply sys_wait_is_waitpid|by apply sys_waitpid_ok]. Qed.

(** ** Concrete cases: process 5 exits, its parent 2 collects it *)
Definition ex_proc : task_struct := set_parent 2 (Sched.ex_task 5 TASK_RUNNING 31 0).
Definition ex_family : kernel := set_tasks (<[2 := ex_proc]> (tasks ex_kernel)) ex_kernel.

Lemma ex_family_ok : sched_ok ex_family.
Proof. apply (store_ok ex_kernel 2 (Sched.ex_task 1 TASK_RUNNING 31 0) ex_proc); [exact ex_kernel_ok|reflexivity|by split_and!]. Qed.

Lemma ex_family_unique : pid_unique ex_family.
Proof.
  assert (Hin : forall p, p ∈ thread_all_list ex_family -> p = 1 \/ p = 2 \/ p = 3 \/ p = 4) by (intros p Hp; set_solver).
  intros p q t u Hp%Hin Hq%Hin Ht Hu He.
  destruct Hp as [->|[->|[->| ->]]], Hq as [->|[->|[->| ->]]]; try reflexivity; vm_compute in Ht, Hu;
    injection Ht as <-; injection Hu as <-; discriminate He.
Qed.


Definition ex_after_exit : kernel := match sys_exit ex_family {[5 := 1]} 3 with Ok (k, _) => k | _ => ex_family end.

Lemma ex_after_exit_ok : sched_ok ex_after_exit /\ pid_unique ex_after_exit.
Proof.
  destruct (sys_exit_ok ex_family {[5 := 1]} ex_proc 3 ∅) as (k' & mms' & Hrun & Hk & Hu & _).
  - split; [exact ex_family_ok|exact ex_family_unique|reflexivity|discriminate|discriminate| |reflexivity|].
    + split; [discriminate|]. exists 3, (Sched.ex_task 2 TASK_READY 3 0).
      split; [apply (bool_decide_unpack _); vm_compute; exact I|]. split_and!; [reflexivity|reflexivity|discriminate].
    + intros t Ht. vm_compute in Ht. injection Ht as <-. reflexivity.
  - intros p target Hp. rewrite lookup_empty in Hp. discriminate Hp.
  - apply lookup_empty.
  - unfold ex_after_exit. by rewrite Hrun.
Qed.

Lemma sys_waitpid_spec_witness : exists k', sys_waitpid_pass ex_after_exit (-1) 0 = Ok (Collected 5 3, k') /\ sched_ok k'.
Proof.
  destruct (tasks ex_after_exit !! cur_task ex_after_exit) as [tc|] eqn:E; [|vm_compute in E; discriminate E].
  destruct (sys_waitpid_spec ex_after_exit ∅ tc (-1) 0) as (_ & r & k' & Hrun & Hk & _).
  - split; [exact (proj1 ex_after_exit_ok)|exact (proj2 ex_after_exit_ok)| |exact E|vm_compute; discriminate|].
    + intros p target Hp. rewrite lookup_empty in Hp. discriminate Hp.
    + intros t [Ht|Ht]; vm_compute in Ht; injection Ht as <-; reflexivity.
  - exists k'. split; [|exact Hk]. rewrite Hrun. do 2 f_equal.
    assert (Hr : match sys_waitpid_pass ex_after_exit (-1) 0 with Ok (r, _) => r | _ => Blocked end = Collected 5 3)
      by (vm_compute; reflexivity). rewrite Hrun in Hr. exact Hr.
Defined.
