(* ===== verification/FileTable.v ===== *)
(** * fs/file_table.c, fs/file.c: open files and descriptors

    A descriptor of a process's table points at an entry of the system-wide table of
    open files, the entry at an inode.  [f_count] counts the descriptors of an entry,
    [i_open_cnts] the entries (and other users) of an inode, and the counts of a pipe
    the descriptors of each of its ends.  [file_close] and [file_open] are here with the
    system calls that move descriptors: close, dup2, fcntl, pipe (fs/fs.c, fs/pipe.c),
    and what fork, exec and exit do with a table (userprog/).

    System calls run with interrupts off, so that each operation is one step; opening a
    file whose inode is not in memory is the exception (see [file_open_shares_slot]). *)

From S2P Require Import Prelude DList ListView Hashtable InodeCache Sched Signal IoQueue Pipe.

(** ** Data *)
Definition MAX_FILE_OPEN_IN_SYSTEM : Z := 64.
Definition MAX_FILES_OPEN_PER_PROC : Z := 32.
Definition EBADF : Z := 9.
Definition EMFILE : Z := 24.
Definition O_RDWR : Z := 4.
Definition O_APPEND : Z := 32.
Definition O_NONBLOCK : Z := 128.
Definition FD_CLOEXEC : Z := 1.

(** The operation tables of the kernel. *)
Inductive file_operations :=
  | pipe_file_operations | fifo_file_operations | tty_file_operations | ide_file_operations
  | sifs_file_file_operations | sifs_dir_file_operations
  | ext2_file_file_operations | ext2_dir_file_operations.

(** [f_op->release != NULL] *)
Definition has_release (o : file_operations) : bool :=
  match o with pipe_file_operations | fifo_file_operations => true | _ => false end.

Record file := File {
  fd_pos : Z;
  fd_flag : Z;
  fd_inode : Z;
  f_count : Z;
  f_op : option file_operations;
}.

Definition set_pos (x : Z) (f : file) : file := File x (fd_flag f) (fd_inode f) (f_count f) (f_op f).
Definition set_flag (x : Z) (f : file) : file := File (fd_pos f) x (fd_inode f) (f_count f) (f_op f).
Definition set_count (x : Z) (f : file) : file := File (fd_pos f) (fd_flag f) (fd_inode f) x (f_op f).

Record fd_entry := Fd { global_fd_idx : Z; fd_flags : Z }.

(** [file_table]: the entries in use, that is with [fd_inode] not NULL.
    [fd_tables]: the descriptors in use, by table and number; an absent one has
    [global_fd_idx] -1.  [table_refs]: the [ref_cnt] of the tables.
    [pipes]: the [pipe_i] of the inodes that have had a buffer. *)
Record vfs := Vfs {
  file_table : gmap Z file;
  fd_tables : gmap (Z * Z) fd_entry;
  table_refs : gmap Z Z;
  icache : inode_cache;
  pipes : gmap Z pipe;
  kern : kernel;
}.

Definition with_files (m : gmap Z file) (s : vfs) : vfs := Vfs m (fd_tables s) (table_refs s) (icache s) (pipes s) (kern s).
Definition with_fds (m : gmap (Z * Z) fd_entry) (s : vfs) : vfs := Vfs (file_table s) m (table_refs s) (icache s) (pipes s) (kern s).
Definition with_refs (m : gmap Z Z) (s : vfs) : vfs := Vfs (file_table s) (fd_tables s) m (icache s) (pipes s) (kern s).
Definition with_cache (c : inode_cache) (s : vfs) : vfs := Vfs (file_table s) (fd_tables s) (table_refs s) c (pipes s) (kern s).
Definition with_pipes (k : kernel) (m : gmap Z pipe) (s : vfs) : vfs := Vfs (file_table s) (fd_tables s) (table_refs s) (icache s) m k.

Definition set_inode (a : Z) (i : inode) (c : inode_cache) : inode_cache :=
  Cache (hash_table c) (lru_list c) (<[a := i]> (inodes c)) (freed_pages c).
Definition set_write_deny (b : bool) (i : inode) : inode :=
  Inode (i_type i) (i_mode i) (i_no i) (i_dev i) (i_open_cnts i) b (i_atime i) (i_mtime i) (i_ctime i) (pipe_base i).

Definition has (flag bit : Z) : bool := negb (Z.land flag bit =? 0).

(** ** fs/file_table.c *)
Definition get_free_slot_in_global (s : vfs) : Z :=
  match first_elem (fun i => bool_decide (file_table s !! i = None)) (seqZ 3 (MAX_FILE_OPEN_IN_SYSTEM - 3)) with
  | Some i => i
  | None => -1
  end.

(** The first free descriptor of table [t] that is at least [from]. *)
Definition free_fd (s : vfs) (t from : Z) : option Z :=
  first_elem (fun i => bool_decide (fd_tables s !! (t, i) = None)) (seqZ from (MAX_FILES_OPEN_PER_PROC - from)).

Definition pcb_fd_install (s : vfs) (t global : Z) : Z * vfs :=
  match free_fd s t 0 with
  | Some i => (i, with_fds (<[(t, i) := Fd global 0]> (fd_tables s)) s)
  | None => (-1, s)
  end.

Definition fd_local2global (s : vfs) (t local_fd : Z) : res Z :=
  let global := match fd_tables s !! (t, local_fd) with Some e => global_fd_idx e | None => -1 end in
  _ ← assert_ ((0 <=? global) && (global <? MAX_FILE_OPEN_IN_SYSTEM)); Ok global.

(** ** fs/file.c *)
Definition file_close (s : vfs) (g : Z) : res (Z * vfs) :=
  match file_table s !! g with
  | None => Ok (- EBADF, s)
  | Some f =>
      let f := set_count (u32 (f_count f - 1)) f in
      i ← deref (inodes (icache s) !! fd_inode f);
      let i := if (i_open_cnts i =? 1) && (f_count f =? 1) then set_write_deny false i else i in
      if f_count f =? 0 then
        let i := if has (fd_flag f) O_RDWR || has (fd_flag f) O_WRONLY then set_write_deny false i else i in
        c ← inode_close (set_inode (fd_inode f) i (icache s)) (fd_inode f);
        Ok (0, with_cache c (with_files (delete g (file_table s)) s))
      else Ok (0, with_cache (set_inode (fd_inode f) i (icache s)) (with_files (<[g := f]> (file_table s)) s))
  end.

Section file_open.
(** [is_tty a]: the device number of the inode at [a] is that of a terminal.
    [sb_magic a]: the magic number of the inode's file system. *)
Context (kernel_heap_start : Z) (read_inode : option (inode -> inode)) (is_tty : Z -> bool) (sb_magic : Z -> Z).

Definition SIFS_FS_MAGIC_NUMBER : Z := 0x20030000.
Definition EXT2_MAGIC_NUMBER : Z := 0xEF53.

(** The [switch] of [file_open]; [None] leaves [f_op] NULL. *)
Definition file_ops (a : Z) (t : file_types) : res (option file_operations) :=
  match t with
  | FT_PIPE => Ok (Some pipe_file_operations)
  | FT_FIFO => Ok (Some fifo_file_operations)
  | FT_CHAR_SPECIAL => Ok (if is_tty a then Some tty_file_operations else None)
  | FT_BLOCK_SPECIAL => Ok (Some ide_file_operations)
  | FT_REGULAR =>
      if sb_magic a =? SIFS_FS_MAGIC_NUMBER then Ok (Some sifs_file_file_operations)
      else if sb_magic a =? EXT2_MAGIC_NUMBER then Ok (Some ext2_file_file_operations) else Panic
  | FT_DIRECTORY =>
      if sb_magic a =? SIFS_FS_MAGIC_NUMBER then Ok (Some sifs_dir_file_operations)
      else if sb_magic a =? EXT2_MAGIC_NUMBER then Ok (Some ext2_dir_file_operations) else Panic
  | _ => Panic
  end.

(** [file_open] by a task with table [t], from the moment slot [g] has been chosen;
    [mem] is what [kmalloc] answers in [inode_open]. *)
Definition file_open_at (s : vfs) (t g : Z) (mem : option Z) (dev no flag : Z) : res (Z * vfs) :=
  r ← inode_open kernel_heap_start read_inode (fun c => c) (icache s) mem dev no;
  let a := r.1 in
  let s := with_cache r.2 (with_files (<[g := File 0 flag a 1 None]> (file_table s)) s) in
  i ← deref (inodes (icache s) !! a);
  let writes := (has flag O_WRONLY || has flag O_RDWR) && bool_decide (i_type i = FT_REGULAR) in
  if writes && write_deny i then Ok (-1, s)
  else
    let s := if writes then with_cache (set_inode a (set_write_deny true i) (icache s)) s else s in
    o ← file_ops a (i_type i);
    Ok (pcb_fd_install (with_files (<[g := File 0 flag a 1 o]> (file_table s)) s) t g).

Definition file_open (s : vfs) (t : Z) (mem : option Z) (dev no flag : Z) : res (Z * vfs) :=
  let g := get_free_slot_in_global s in
  if g =? -1 then Ok (-1, s) else file_open_at s t g mem dev no flag.
End file_open.

(** ** Closing *)

(** [pipe_release], also as the method of FIFOs *)
Definition release_end (s : vfs) (f : file) : res vfs :=
  i ← deref (inodes (icache s) !! fd_inode f);
  if pipe_base i =? 0 then Ok s else
  p ← deref (pipes s !! fd_inode f);
  r ← pipe_release (kern s) p (fd_flag f);
  Ok (with_pipes r.1 (<[fd_inode f := r.2]> (pipes s)) s).

Definition call_release (s : vfs) (g : Z) : res vfs :=
  match file_table s !! g with
  | Some f => match f_op f with
              | Some o => if has_release o then release_end s f else Ok s
              | None => Ok s
              end
  | None => Ok s
  end.

Definition sys_close (s : vfs) (t fd : Z) : res (Z * vfs) :=
  if (fd <? 0) || (MAX_FILES_OPEN_PER_PROC <=? fd) then Ok (- EBADF, s) else
  match fd_tables s !! (t, fd) with
  | None => Ok (- EBADF, s)
  | Some e =>
      s1 ← call_release s (global_fd_idx e);
      r ← file_close s1 (global_fd_idx e);
      Ok (r.1, with_fds (delete (t, fd) (fd_tables r.2)) r.2)
  end.

(** ** Duplicating *)

(** [f_count++] and the counts of the ends of a pipe, in [sys_dup2] and
    [update_f_cnts]. *)
Definition add_descriptor (s : vfs) (g : Z) : res vfs :=
  f ← deref (file_table s !! g);
  let s := with_files (<[g := set_count (u32 (f_count f + 1)) f]> (file_table s)) s in
  i ← deref (inodes (icache s) !! fd_inode f);
  if bool_decide (i_type i = FT_PIPE) then
    p ← deref (pipes s !! fd_inode f);
    let rc := if has (fd_flag f) O_RDONLY then u32 (reader_count p + 1) else reader_count p in
    let wc := if has (fd_flag f) O_WRONLY then u32 (writer_count p + 1) else writer_count p in
    Ok (with_pipes (kern s) (<[fd_inode f := Pipe (queue p) rc wc]> (pipes s)) s)
  else Ok s.

Definition sys_dup2 (s : vfs) (t old_local_fd new_local_fd : Z) : res (Z * vfs) :=
  if MAX_FILES_OPEN_PER_PROC <=? old_local_fd then Ok (-1, s) else
  match fd_tables s !! (t, old_local_fd) with
  | None => Ok (-1, s)
  | Some _ =>
      if MAX_FILES_OPEN_PER_PROC <=? new_local_fd then Ok (-1, s) else
      if old_local_fd =? new_local_fd then Ok (new_local_fd, s) else
      s1 ← match fd_tables s !! (t, new_local_fd) with
           | Some _ => r ← sys_close s t new_local_fd; Ok r.2
           | None => Ok s
           end;
      e ← deref (fd_tables s1 !! (t, old_local_fd));
      let g := global_fd_idx e in
      s2 ← add_descriptor (with_fds (<[(t, new_local_fd) := Fd g 0]> (fd_tables s1)) s1) g;
      Ok (new_local_fd, s2)
  end.

(** ** fcntl *)
Inductive fcntl_cmd := F_DUPFD | F_GETFD | F_SETFD | F_GETFL | F_SETFL | F_OTHER.

Definition cmd_of (n : Z) : fcntl_cmd :=
  match n with 0 => F_DUPFD | 1 => F_GETFD | 2 => F_SETFD | 3 => F_GETFL | 4 => F_SETFL | _ => F_OTHER end.

Definition sys_fcntl (s : vfs) (t fd cmd arg : Z) : res (Z * vfs) :=
  if (fd <? 0) || (MAX_FILES_OPEN_PER_PROC <=? fd) then Ok (- EBADF, s) else
  match fd_tables s !! (t, fd) with
  | None => Ok (- EBADF, s)
  | Some e =>
      let g := global_fd_idx e in
      match cmd_of cmd with
      | F_DUPFD =>
          if MAX_FILES_OPEN_PER_PROC <=? arg then Ok (- EINVAL, s) else
          match free_fd s t arg with
          | None => Ok (- EMFILE, s)
          | Some n =>
              f ← deref (file_table s !! g);
              Ok (n, with_files (<[g := set_count (u32 (f_count f + 1)) f]> (file_table s))
                       (with_fds (<[(t, n) := Fd g 0]> (fd_tables s)) s))
          end
      | F_GETFD => Ok (fd_flags e, s)
      | F_SETFD => Ok (0, with_fds (<[(t, fd) := Fd g (Z.land arg FD_CLOEXEC)]> (fd_tables s)) s)
      | F_GETFL => f ← deref (file_table s !! g); Ok (fd_flag f, s)
      | F_SETFL =>
          f ← deref (file_table s !! g);
          let mask := Z.lor O_APPEND O_NONBLOCK in
          Ok (0, with_files (<[g := set_flag (Z.lor (Z.ldiff (fd_flag f) mask) (Z.land arg mask)) f]> (file_table s)) s)
      | F_OTHER => Ok (- EINVAL, s)
      end
  end.

(** ** Pipes *)

(** [sys_pipe]: [mem] is the memory for the inode, [page] the page for the buffer with
    its contents [b].  The result has the descriptors of the two ends. *)
Definition sys_pipe (s : vfs) (t : Z) (mem page : option Z) (b : list Z) : res (option (Z * Z) * vfs) :=
  match make_anonymous_inode (icache s) mem with
  | None => Ok (None, s)
  | Some (a, c) =>
      base ← match page with Some x => Ok x | None => Panic end;
      i ← deref (inodes c !! a);
      let i := set_open_cnts 2 (set_pipe_base base i) in
      let s := with_pipes (kern s) (<[a := Pipe (queue (init_pipe b)) 1 1]> (pipes s)) (with_cache (set_inode a i c) s) in
      let r := get_free_slot_in_global s in
      _ ← assert_ (negb (r =? -1));
      let s := with_files (<[r := File 0 O_RDONLY a 1 (Some pipe_file_operations)]> (file_table s)) s in
      let w := get_free_slot_in_global s in
      _ ← assert_ (negb (w =? -1));
      let s := with_files (<[w := File 0 O_WRONLY a 1 (Some pipe_file_operations)]> (file_table s)) s in
      let x := pcb_fd_install s t r in
      let y := pcb_fd_install x.2 t w in
      _ ← assert_ (negb ((x.1 =? -1) || (y.1 =? -1)));
      Ok (Some (x.1, y.1), y.2)
  end.

(** ** Tables of processes *)
Definition CLONE_FILES : Z := 0x400.

(** The descriptors of a table, one after the other *)
Definition all_fds : list Z := seqZ 0 MAX_FILES_OPEN_PER_PROC.

Fixpoint update_f_cnts (s : vfs) (t : Z) (l : list Z) : res vfs :=
  match l with
  | [] => Ok s
  | fd :: l' =>
      s1 ← match fd_tables s !! (t, fd) with
           | Some e => add_descriptor s (global_fd_idx e)
           | None => Ok s
           end;
      update_f_cnts s1 t l'
  end.

(** The [memcpy] of a table *)
Definition copy_table (m : gmap (Z * Z) fd_entry) (from to : Z) : gmap (Z * Z) fd_entry :=
  foldr (fun fd m' => match m !! (from, fd) with Some e => <[(to, fd) := e]> m' | None => delete (to, fd) m' end) m all_fds.

(** The files of [copy_process]: the child's table, at [mem] when it is a new one. *)
Definition copy_files (s : vfs) (flags parent mem : Z) : res (Z * vfs) :=
  if has flags CLONE_FILES then
    n ← deref (table_refs s !! parent);
    Ok (parent, with_refs (<[parent := n + 1]> (table_refs s)) s)
  else
    s' ← update_f_cnts (with_refs (<[mem := 1]> (table_refs s)) (with_fds (copy_table (fd_tables s) parent mem) s)) mem all_fds;
    Ok (mem, s').

(** The loops of [release_files] and [sys_execv]: close the descriptors [p] holds of. *)
Fixpoint close_all (p : fd_entry -> bool) (s : vfs) (t : Z) (l : list Z) : res vfs :=
  match l with
  | [] => Ok s
  | fd :: l' =>
      s1 ← match fd_tables s !! (t, fd) with
           | Some e => if p e then r ← sys_close s t fd; Ok r.2 else Ok s
           | None => Ok s
           end;
      close_all p s1 t l'
  end.

Definition release_files (s : vfs) (t : Z) : res vfs :=
  n ← deref (table_refs s !! t);
  if 0 <? n - 1 then Ok (with_refs (<[t := n - 1]> (table_refs s)) s)
  else s' ← close_all (fun _ => true) s t all_fds; Ok (with_refs (delete t (table_refs s')) s').

Definition close_on_exec (s : vfs) (t : Z) : res vfs :=
  close_all (fun e => has (fd_flags e) FD_CLOEXEC) s t all_fds.

(** ** Invariant *)

(** The number of descriptors of an entry, of entries of an inode, and of descriptors
    of an end of a pipe. *)
Definition nfd (F : gmap (Z * Z) fd_entry) (g : Z) : Z := countm (fun e => global_fd_idx e =? g) F.
Definition nfile (m : gmap Z file) (a : Z) : Z := countm (fun f => fd_inode f =? a) m.
Definition at_end (m : gmap Z file) (a bit : Z) (e : fd_entry) : bool :=
  match m !! global_fd_idx e with Some f => (fd_inode f =? a) && has (fd_flag f) bit | None => false end.
Definition nend (m : gmap Z file) (F : gmap (Z * Z) fd_entry) (a bit : Z) : Z := countm (at_end m a bit) F.

(** Who waits on which side of a pipe. *)
Definition waiter (P : gmap Z pipe) (x : Z * bool) : option Z :=
  p ← P !! x.1; if x.2 then producer (queue p) else consumer (queue p).

Record waits_ok (k : kernel) (P : gmap Z pipe) : Prop := {
  wt_sched : sched_ok k;
  wt_blocked : forall x, waiter_ok k (waiter P x);
  wt_once : forall x y w, waiter P x = Some w -> waiter P y = Some w -> x = y;
}.

(** An open file's inode. *)
Record inode_ok (m : gmap Z file) (F : gmap (Z * Z) fd_entry) (P : gmap Z pipe) (f : file) (i : inode) : Prop := {
  io_users : nfile m (fd_inode f) <= i_open_cnts i < 2 ^ 32;
  io_release : forall o, f_op f = Some o -> has_release o = true -> is_pipe (i_type i) = true;
  io_op : i_type i = FT_PIPE -> f_op f = Some pipe_file_operations /\ pipe_base i <> 0;
  io_pipe : is_pipe (i_type i) = true -> pipe_base i <> 0 -> exists p, P !! fd_inode f = Some p /\
    (i_type i = FT_PIPE -> reader_count p = nend m F (fd_inode f) O_RDONLY /\ writer_count p = nend m F (fd_inode f) O_WRONLY);
}.

(** Anonymous inodes are never in the cache; a FIFO there that has a buffer is known. *)
Definition disk_ok (c : inode_cache) (P : gmap Z pipe) : Prop :=
  forall a i, a ∈ elems (hash_table c) -> inodes c !! a = Some i -> i_type i <> FT_PIPE /\
    (is_pipe (i_type i) = true -> pipe_base i <> 0 -> is_Some (P !! a)).

(** The invariant for the descriptors [F]. *)
Record files_ok (F : gmap (Z * Z) fd_entry) (s : vfs) : Prop := {
  fo_cache : cache_inv (icache s);
  fo_disk : disk_ok (icache s) (pipes s);
  fo_fd : forall k e, F !! k = Some e -> 0 <= k.2 < MAX_FILES_OPEN_PER_PROC /\ is_Some (file_table s !! global_fd_idx e);
  fo_file : forall g f, file_table s !! g = Some f -> 3 <= g < MAX_FILE_OPEN_IN_SYSTEM /\ f_count f = nfd F g /\ 0 < nfd F g;
  fo_inode : forall g f, file_table s !! g = Some f -> fd_inode f <> NULL /\
    exists i, inodes (icache s) !! fd_inode f = Some i /\ inode_ok (file_table s) F (pipes s) f i;
  fo_size : Z.of_nat (size F) < 2 ^ 32;
  fo_waits : waits_ok (kern s) (pipes s);
}.

(** Every descriptor belongs to a table. *)
Definition tables_ok (s : vfs) : Prop := forall k e, fd_tables s !! k = Some e -> is_Some (table_refs s !! k.1).

Definition vfs_ok (s : vfs) : Prop := files_ok (fd_tables s) s /\ tables_ok s.

(** ** The cache under changes of one inode *)
Lemma set_inode_inv c a i j pages : cache_inv c -> inodes c !! a = Some i -> key_of_inode j = key_of_inode i ->
  0 <= i_open_cnts j < 2 ^ 32 -> cache_inv (Cache (hash_table c) (lru_list c) (<[a := j]> (inodes c)) pages).
Proof.
  intros Hc Hi Hk Hn. destruct (decide (a ∈ elems (hash_table c))) as [Ha|Ha]; [by apply (update_inv c a i)|].
  destruct Hc as [Ht Hl Hv]. constructor; cbn [hash_table lru_list inodes]; [|done|].
  - eapply table_inv_ext; [|exact Ht]. intros e _. symmetry. by eapply key_at_insert_same.
  - intros x Hx. rewrite lookup_insert_ne by (intros ->; done). auto.
Qed.

Lemma new_inode_inv c a j pages : cache_inv c -> inodes c !! a = None -> cache_inv (Cache (hash_table c) (lru_list c) (<[a := j]> (inodes c)) pages).
Proof.
  intros [Ht Hl Hv] Hi. assert (Hne : forall x, x ∈ elems (hash_table c) -> a <> x).
  { intros x Hx ->. destruct (Hv x Hx) as (_ & y & Hy & _). congruence. }
  constructor; cbn [hash_table lru_list inodes]; [|done|].
  - eapply table_inv_ext; [|exact Ht]. intros e He. unfold key_at. by rewrite lookup_insert_ne by auto.
  - intros x Hx. rewrite lookup_insert_ne by auto. auto.
Qed.

Lemma disk_update c c' P P' a i j : disk_ok c P -> hash_table c' = hash_table c -> inodes c' = <[a := j]> (inodes c) ->
  inodes c !! a = Some i -> i_type j = i_type i -> pipe_base j = pipe_base i \/ pipe_base j = 0 ->
  (forall b, is_Some (P !! b) -> is_Some (P' !! b)) -> disk_ok c' P'.
Proof.
  intros Hn Hh Hi' Hi Ht Hb Hp b y Hin Hy. rewrite Hh in Hin. rewrite Hi' in Hy. apply lookup_insert_Some in Hy as [[<- <-]|[_ Hy]].
  - destruct (Hn a i Hin Hi) as [H1 H2]. rewrite Ht. split; [done|]. intros H3 H4. destruct Hb as [Hb|Hb]; [|done]. apply Hp, H2; congruence.
  - destruct (Hn b y Hin Hy) as [H1 H2]. auto.
Qed.

(** [inode_close] of an inode in use, cached or anonymous. *)
Lemma inode_close_ok c a i : cache_inv c -> a <> NULL -> inodes c !! a = Some i -> 0 < i_open_cnts i < 2 ^ 32 ->
  exists c' i', inode_close c a = Ok c' /\ cache_inv c' /\ hash_table c' = hash_table c /\ inodes c' = <[a := i']> (inodes c) /\
    i_open_cnts i' = i_open_cnts i - 1 /\ i_type i' = i_type i /\ write_deny i' = write_deny i /\
    (pipe_base i' = pipe_base i \/ (pipe_base i' = 0 /\ i_open_cnts i' = 0)).
Proof.
  intros Hc Ha Hi Hn. unfold inode_close. rewrite (proj2 (Z.eqb_neq _ _) Ha), Hi. ok_simpl. rewrite u32_small by lia.
  bdestr; [destruct (release_pipe _ _) as [j pages] eqn:Hr|]; eexists _, _; (split; [done|]); cbn [inodes].
  - pose proof (release_pipe_key (set_open_cnts (i_open_cnts i - 1) i) (freed_pages c)) as [Hk Hm]. rewrite Hr in Hk, Hm. cbn in Hk, Hm.
    split; [apply (set_inode_inv c a i); try done; lia|]. split; [done|]. split; [done|]. unfold release_pipe in Hr.
    destruct (is_pipe _ && _); injection Hr as <- <-; cbn; split_and!; try done; [right; lia|by left].
  - split; [apply (set_inode_inv c a i); cbn; try done; lia|]. split; [done|]. split; [reflexivity|]. cbn. auto.
Qed.

(** ** Waiters *)
Lemma waiter_insert P a p x : waiter (<[a := p]> P) x =
  if decide (x.1 = a) then (if x.2 then producer (queue p) else consumer (queue p)) else waiter P x.
Proof.
  unfold waiter. case_decide as Hx; [by rewrite Hx, lookup_insert_eq|]. by rewrite lookup_insert_ne by auto.
Qed.

(** Changing the counts of a pipe, or forgetting its waiters, when they are not blocked. *)
Lemma waits_counts k P a p rc wc : waits_ok k P -> P !! a = Some p -> waits_ok k (<[a := Pipe (queue p) rc wc]> P).
Proof.
  intros [Hk Hb Ho] Hp. assert (E : forall x, waiter (<[a := Pipe (queue p) rc wc]> P) x = waiter P x).
  { intros [b side]. rewrite waiter_insert. case_decide as Hx; [|done]. cbn in Hx. subst b. unfold waiter. cbn [fst snd queue]. by rewrite Hp. }
  split; [done| |].
  - intros x. rewrite E. apply Hb.
  - intros x y w. rewrite !E. apply Ho.
Qed.

Lemma waits_new k P a p : waits_ok k P -> producer (queue p) = None -> consumer (queue p) = None -> waits_ok k (<[a := p]> P).
Proof.
  intros [Hk Hb Ho] H1 H2.
  assert (E : forall x w, waiter (<[a := p]> P) x = Some w -> waiter P x = Some w).
  { intros [b side] w. rewrite waiter_insert. case_decide; [|done]. cbn. destruct side; congruence. }
  split; [done| |].
  - intros x w Hw. by apply (Hb x), E.
  - intros x y w H3 H4. apply (Ho x y w); by apply E.
Qed.

(** A waiter stays blocked when another one is woken. *)
Lemma woken_keeps k w k' v : woken k w k' -> waiter_ok k v -> (forall x, v = Some x -> w <> Some x) -> waiter_ok k' v.
Proof.
  intros (_ & (L1 & _ & _ & _ & L5 & _) & _ & Hr) Hv Hne x Hx. destruct (Hv x Hx) as (A & B & C). rewrite L1, L5.
  split_and!; [done|done|]. rewrite Hr. intros [?|?]; [done|]. by destruct (Hne x Hx).
Qed.

(** [pipe_release] of a pipe among others: both its waiters run again. *)
Lemma pipe_release_ok k P a p flag : waits_ok k P -> P !! a = Some p ->
  exists k' q, pipe_release k p flag = Ok (k', Pipe q
      (if has flag O_RDONLY then u32 (reader_count p - 1) else reader_count p)
      (if has flag O_WRONLY then u32 (writer_count p - 1) else writer_count p)) /\
    producer q = None /\ consumer q = None /\ same_lists k k' /\
    (forall x, runnable k x \/ producer (queue p) = Some x \/ consumer (queue p) = Some x -> runnable k' x) /\
    forall rc wc, waits_ok k' (<[a := Pipe q rc wc]> P).
Proof.
  intros [Hk Hb Ho] Hp.
  assert (Wp : waiter P (a, true) = producer (queue p)) by (unfold waiter; cbn; by rewrite Hp).
  assert (Wc : waiter P (a, false) = consumer (queue p)) by (unfold waiter; cbn; by rewrite Hp).
  assert (Hd : forall x, consumer (queue p) = Some x -> producer (queue p) <> Some x).
  { intros x H1 H2. rewrite <- Wc in H1. rewrite <- Wp in H2. by pose proof (Ho _ _ _ H1 H2). }
  destruct (wake_producer_ok k (queue p) Hk) as (k1 & E1 & W1); [rewrite <- Wp; apply Hb|].
  destruct (wake_consumer_ok k1 (set_producer None (queue p))) as (k2 & E2 & W2); [apply W1| |].
  { change (consumer (set_producer None (queue p))) with (consumer (queue p)).
    apply (woken_keeps k (producer (queue p)) k1); [done|rewrite <- Wc; apply Hb|exact Hd]. }
  exists k2, (set_consumer None (set_producer None (queue p))). unfold pipe_release. rewrite E1. ok_simpl. cbn [fst snd]. rewrite E2.
  ok_simpl. unfold has. split_and!; [by repeat destruct (Z.land _ _ =? 0)|done|done| | |].
  - apply (same_lists_trans _ k1); [apply W1|apply W2].
  - destruct W1 as (_ & _ & _ & R1), W2 as (_ & _ & _ & R2). intros x Hx. rewrite R2, R1.
    change (consumer (set_producer None (queue p))) with (consumer (queue p)). tauto.
  - intros rc wc. set (P' := <[a := _]> P).
    assert (E : forall x w, waiter P' x = Some w -> x.1 <> a /\ waiter P x = Some w).
    { intros [b side] w. unfold P'. rewrite waiter_insert. case_decide; [by destruct side|done]. }
    split; [apply W2| |].
    + intros x w Hw. destruct (E x w Hw) as [Hx Hw'].
      assert (K1 : waiter_ok k1 (waiter P x)).
      { apply (woken_keeps k (producer (queue p)) k1); [done|apply Hb|]. intros v Hv Hpv. rewrite <- Wp in Hpv.
        by rewrite (Ho _ _ _ Hv Hpv) in Hx. }
      apply (woken_keeps k1 _ k2 (waiter P x) W2 K1); [|done]. intros v Hv Hcv.
      change (consumer (set_producer None (queue p))) with (consumer (queue p)) in Hcv. rewrite <- Wc in Hcv.
      by rewrite (Ho _ _ _ Hv Hcv) in Hx.
    + intros x y w H1 H2. apply (Ho x y w); by apply E.
Qed.

(** ** Counting *)
Lemma nfd_delete F k e g : F !! k = Some e -> nfd (delete k F) g = nfd F g - one_if (global_fd_idx e =? g).
Proof. intros Hk. unfold nfd. rewrite (countm_delete _ F k e Hk). lia. Qed.

Lemma nfd_insert F k e g : F !! k = None -> nfd (<[k := e]> F) g = nfd F g + one_if (global_fd_idx e =? g).
Proof. exact (countm_insert _ F k e). Qed.

Lemma nend_delete m F k e a bit : F !! k = Some e -> nend m (delete k F) a bit = nend m F a bit - one_if (at_end m a bit e).
Proof. intros Hk. unfold nend. rewrite (countm_delete _ F k e Hk). lia. Qed.

Lemma nend_insert m F k e a bit : F !! k = None -> nend m (<[k := e]> F) a bit = nend m F a bit + one_if (at_end m a bit e).
Proof. exact (countm_insert _ F k e). Qed.

(** Descriptors of other entries do not see a change of entry [g]. *)
Lemma nend_other m m' F g a bit : nfd F g = 0 -> (forall h, h <> g -> m' !! h = m !! h) -> nend m' F a bit = nend m F a bit.
Proof.
  intros H0 Hm. apply countm_ext. intros k e Hk. unfold at_end. destruct (decide (global_fd_idx e = g)) as [Hg|Hg]; [|by rewrite Hm].
  pose proof (countm_pos (fun e => global_fd_idx e =? g) F k e Hk (proj2 (Z.eqb_eq _ _) Hg)). unfold nfd in H0. lia.
Qed.

(** Entries with the same inode and the same ends. *)
Definition alike (f f' : file) : Prop :=
  fd_inode f' = fd_inode f /\ f_op f' = f_op f /\ has (fd_flag f') O_RDONLY = has (fd_flag f) O_RDONLY /\ has (fd_flag f') O_WRONLY = has (fd_flag f) O_WRONLY.

Lemma nend_alike m F g f f' a bit : m !! g = Some f -> alike f f' -> bit = O_RDONLY \/ bit = O_WRONLY ->
  nend (<[g := f']> m) F a bit = nend m F a bit.
Proof.
  intros Hg (A & _ & B & C) Hbit. apply countm_ext. intros k e _. unfold at_end.
  destruct (decide (g = global_fd_idx e)) as [<-|Hne]; [|by rewrite lookup_insert_ne].
  rewrite lookup_insert_eq, Hg, A. by destruct Hbit as [-> | ->]; rewrite ?B, ?C.
Qed.

Lemma nfile_alike m g f f' a : m !! g = Some f -> alike f f' -> nfile (<[g := f']> m) a = nfile m a.
Proof. intros Hg (A & _). unfold nfile. rewrite (countm_update _ m g f f' Hg), A. lia. Qed.

Lemma nfile_delete m g f a : m !! g = Some f -> nfile (delete g m) a = nfile m a - one_if (fd_inode f =? a).
Proof. intros Hg. unfold nfile. rewrite (countm_delete _ m g f Hg). lia. Qed.

Lemma nfile_pos m g f : m !! g = Some f -> 0 < nfile m (fd_inode f).
Proof. intros Hg. apply (countm_pos _ m g f Hg), Z.eqb_refl. Qed.

Lemma nfd_bound F s g : files_ok F s -> nfd F g < 2 ^ 32.
Proof. intros Hs. pose proof (fo_size _ _ Hs). pose proof (countm_size (fun e => global_fd_idx e =? g) F). unfold nfd. lia. Qed.

Lemma nend_bound m F s a bit : files_ok F s -> 0 <= nend m F a bit < 2 ^ 32.
Proof.
  intros Hs. pose proof (fo_size _ _ Hs). pose proof (countm_size (at_end m a bit) F). pose proof (countm_nonneg (at_end m a bit) F).
  unfold nend. lia.
Qed.

Lemma nend_pos F s k e f bit : F !! k = Some e -> file_table s !! global_fd_idx e = Some f -> has (fd_flag f) bit = true ->
  0 < nend (file_table s) F (fd_inode f) bit.
Proof. intros Hk Hf Hb. apply (countm_pos _ F k e Hk). unfold at_end. by rewrite Hf, Z.eqb_refl, Hb. Qed.

(** The counts of a pipe after the descriptor [e] of entry [f] has gone, in terms of
    the entries [m] and the descriptors [F] that remain. *)
Lemma end_dropped m F k e f bit : F !! k = Some e -> m !! global_fd_idx e = Some f ->
  nend m (delete k F) (fd_inode f) bit = nend m F (fd_inode f) bit - one_if (has (fd_flag f) bit).
Proof. intros Hk Hf. rewrite (nend_delete m F k e) by done. unfold at_end. by rewrite Hf, Z.eqb_refl. Qed.

Lemma end_kept m F k e f a bit : F !! k = Some e -> m !! global_fd_idx e = Some f -> fd_inode f <> a ->
  nend m (delete k F) a bit = nend m F a bit.
Proof.
  intros Hk Hf Ha. rewrite (nend_delete m F k e) by done. unfold at_end. rewrite Hf, (proj2 (Z.eqb_neq _ _) Ha). cbn. lia.
Qed.

(** ** Dropping a descriptor *)

(** An open file's inode stays well formed when its users and the ends of its pipe
    change along with the entries and the descriptors. *)
Lemma inode_ok_step m F P m' F' P' f f' i i' :
  inode_ok m F P f i -> alike f f' -> i_type i' = i_type i -> pipe_base i' = pipe_base i ->
  nfile m' (fd_inode f) - nfile m (fd_inode f) <= i_open_cnts i' - i_open_cnts i -> i_open_cnts i' < 2 ^ 32 ->
  (forall p, P !! fd_inode f = Some p -> is_pipe (i_type i) = true -> pipe_base i <> 0 -> exists p', P' !! fd_inode f = Some p' /\
    (i_type i = FT_PIPE ->
     reader_count p' - reader_count p = nend m' F' (fd_inode f) O_RDONLY - nend m F (fd_inode f) O_RDONLY /\
     writer_count p' - writer_count p = nend m' F' (fd_inode f) O_WRONLY - nend m F (fd_inode f) O_WRONLY)) ->
  inode_ok m' F' P' f' i'.
Proof.
  intros [U R O C] (A & B & _) Ht Hb Hu Hlt Hp. split; rewrite ?A, ?B, ?Ht, ?Hb; try done; [lia|].
  intros H1 H2. destruct (C H1 H2) as (p & Hpa & Hpe). destruct (Hp p Hpa H1 H2) as (p' & Hp' & Hpe').
  exists p'. split; [done|]. intros H3. specialize (Hpe H3). specialize (Hpe' H3). lia.
Qed.

Lemma drop_one b x : (b = true -> 0 < x < 2 ^ 32) -> (if b then u32 (x - 1) else x) = x - one_if b.
Proof. destruct b; cbn; intros Hx; [|lia]. specialize (Hx eq_refl). rewrite u32_small; lia. Qed.

Lemma add_one (b : bool) x : 0 <= x -> x + 1 < 2 ^ 32 -> (if b then u32 (x + 1) else x) = x + one_if b.
Proof. destruct b; cbn; intros Hx Hy; [|lia]. rewrite u32_small; lia. Qed.

(** The [release] method on behalf of descriptor [k]: the end loses one descriptor. *)
Lemma call_release_ok F s k e f i : files_ok F s -> F !! k = Some e -> file_table s !! global_fd_idx e = Some f ->
  inodes (icache s) !! fd_inode f = Some i ->
  exists k' P', call_release s (global_fd_idx e) = Ok (with_pipes k' P' s) /\ waits_ok k' P' /\
    (forall b, b <> fd_inode f -> P' !! b = pipes s !! b) /\
    (forall p, pipes s !! fd_inode f = Some p -> exists p', P' !! fd_inode f = Some p' /\
      (i_type i = FT_PIPE -> producer (queue p') = None /\ consumer (queue p') = None /\
        (forall x, producer (queue p) = Some x \/ consumer (queue p) = Some x -> runnable k' x) /\
        reader_count p' = reader_count p - one_if (has (fd_flag f) O_RDONLY) /\
        writer_count p' = writer_count p - one_if (has (fd_flag f) O_WRONLY))).
Proof.
  intros Hs Hk Hf Hi. destruct (fo_inode _ _ Hs _ _ Hf) as (Hnull & i' & Hi' & Hio).
  assert (i' = i) as -> by congruence. unfold call_release. rewrite Hf.
  assert (Hskip : i_type i <> FT_PIPE -> exists k' P', Ok s = Ok (with_pipes k' P' s) /\ waits_ok k' P' /\
    (forall b, b <> fd_inode f -> P' !! b = pipes s !! b) /\
    (forall p, pipes s !! fd_inode f = Some p -> exists p', P' !! fd_inode f = Some p' /\
      (i_type i = FT_PIPE -> producer (queue p') = None /\ consumer (queue p') = None /\
        (forall x, producer (queue p) = Some x \/ consumer (queue p) = Some x -> runnable k' x) /\
        reader_count p' = reader_count p - one_if (has (fd_flag f) O_RDONLY) /\
        writer_count p' = writer_count p - one_if (has (fd_flag f) O_WRONLY)))).
  { intros Hn. exists (kern s), (pipes s). split_and!; [by destruct s|apply Hs|done|]. intros p Hp. exists p. by split. }
  destruct (f_op f) as [o|] eqn:Ho; [destruct (has_release o) eqn:Hr|]; [|apply Hskip; intros E..].
  2: { destruct (io_op _ _ _ _ _ Hio E) as [E' _]. rewrite Ho in E'. injection E' as ->. done. }
  2: { destruct (io_op _ _ _ _ _ Hio E) as [E' _]. congruence. }
  unfold release_end. rewrite Hi. ok_simpl. destruct (pipe_base i =? 0) eqn:Eb.
  { apply Hskip. intros E. destruct (io_op _ _ _ _ _ Hio E) as [_ E']. lia. }
  destruct (io_pipe _ _ _ _ _ Hio) as (p & Hp & Hends); [by apply (io_release _ _ _ _ _ Hio o)|lia|]. rewrite Hp. ok_simpl.
  destruct (pipe_release_ok (kern s) (pipes s) (fd_inode f) p (fd_flag f)) as (k' & q & -> & Q1 & Q2 & _ & Q3 & Q4); [apply Hs|done|].
  ok_simpl. eexists _, _. split; [done|]. cbn [fst snd]. split_and!; [apply Q4|intros b Hb; by rewrite lookup_insert_ne by auto|].
  intros p0 Hp0. assert (p0 = p) as -> by congruence. eexists. split; [by rewrite lookup_insert_eq|]. cbn [queue reader_count writer_count].
  intros Ht. destruct (Hends Ht) as [Er Ew]. split_and!; [done|done|intros x Hx; apply Q3; by right| |];
    apply drop_one; intros Eh; pose proof (nend_pos F s k e f _ Hk Hf Eh); pose proof (nend_bound (file_table s) F s (fd_inode f) O_RDONLY Hs);
     pose proof (nend_bound (file_table s) F s (fd_inode f) O_WRONLY Hs); lia.
Qed.

Lemma alike_count f n : alike f (set_count n f).
Proof. done. Qed.
Lemma alike_refl f : alike f f.
Proof. done. Qed.
#[local] Hint Resolve alike_count alike_refl : core.

Definition drop_entry (m : gmap Z file) (g : Z) (f : file) : gmap Z file :=
  if f_count f =? 1 then delete g m else <[g := set_count (f_count f - 1) f]> m.

(** An entry after the drop comes from one before. *)
Lemma drop_entry_inv m g f h f' : m !! g = Some f -> drop_entry m g f !! h = Some f' ->
  exists f0, m !! h = Some f0 /\ alike f0 f' /\ (h <> g -> f' = f0) /\ (h = g -> f_count f <> 1 /\ f' = set_count (f_count f - 1) f).
Proof.
  intros Hg. unfold drop_entry. destruct (f_count f =? 1) eqn:E.
  - intros [Hne Hh]%lookup_delete_Some. exists f'. split_and!; auto. intros ->. done.
  - intros [[<- <-]|[Hne Hh]]%lookup_insert_Some; eexists; (split_and!; [done|auto|..]); try done; try congruence. intros _. split; [lia|done].
Qed.

Lemma drop_entry_nfile m g f a : m !! g = Some f ->
  nfile (drop_entry m g f) a = nfile m a - one_if ((f_count f =? 1) && (fd_inode f =? a)).
Proof.
  intros Hg. unfold drop_entry. destruct (f_count f =? 1); [by apply nfile_delete|]. rewrite (nfile_alike _ _ f) by auto. cbn. lia.
Qed.

Lemma drop_entry_nend m F g f a bit : m !! g = Some f -> f_count f = 1 + nfd F g -> bit = O_RDONLY \/ bit = O_WRONLY ->
  nend (drop_entry m g f) F a bit = nend m F a bit.
Proof.
  intros Hg Hn Hb. unfold drop_entry. destruct (f_count f =? 1) eqn:E; [|by rewrite (nend_alike _ _ _ f) by auto].
  apply (nend_other _ _ _ g); [lia|]. intros h Hh. by rewrite lookup_delete_ne by auto.
Qed.

Section drop.
Context (F : gmap (Z * Z) fd_entry) (s : vfs) (k : Z * Z) (e : fd_entry) (f : file) (i : inode).
Hypothesis (Hs : files_ok F s) (Hk : F !! k = Some e) (Hf : file_table s !! global_fd_idx e = Some f)
  (Hi : inodes (icache s) !! fd_inode f = Some i).
Context (k' : kernel) (P' : gmap Z pipe) (c' : inode_cache) (i' : inode).
Hypothesis (Hc' : cache_inv c') (Hh' : hash_table c' = hash_table (icache s)) (Hi' : inodes c' = <[fd_inode f := i']> (inodes (icache s)))
  (Hcnt : i_open_cnts i' = i_open_cnts i - one_if (f_count f =? 1)) (Hty : i_type i' = i_type i)
  (Hbase : pipe_base i' = pipe_base i \/ (pipe_base i' = 0 /\ i_open_cnts i' = 0)) (Hw : waits_ok k' P')
  (Hother : forall b, b <> fd_inode f -> P' !! b = pipes s !! b)
  (Hsame : forall p, pipes s !! fd_inode f = Some p -> exists p', P' !! fd_inode f = Some p' /\
      (i_type i = FT_PIPE -> reader_count p' = reader_count p - one_if (has (fd_flag f) O_RDONLY) /\
        writer_count p' = writer_count p - one_if (has (fd_flag f) O_WRONLY))).

Let m' := drop_entry (file_table s) (global_fd_idx e) f.

Lemma drop_nfd g : nfd (delete k F) g = nfd F g - one_if (global_fd_idx e =? g).
Proof. by apply nfd_delete. Qed.

Lemma drop_count : f_count f = 1 + nfd (delete k F) (global_fd_idx e).
Proof. rewrite drop_nfd, Z.eqb_refl. destruct (fo_file _ _ Hs _ _ Hf) as (_ & -> & _). cbn. lia. Qed.

Lemma drop_inode h f' : m' !! h = Some f' -> fd_inode f' <> NULL /\
  exists j, inodes c' !! fd_inode f' = Some j /\ inode_ok m' (delete k F) P' f' j.
Proof.
  intros Hh. pose proof (nfile_pos _ _ _ Hh) as Hpos. destruct (drop_entry_inv _ _ _ _ _ Hf Hh) as (f0 & Hf0 & Hal & _ & _).
  destruct (fo_inode _ _ Hs _ _ Hf0) as (Hnull & j & Hj & Hio). pose proof Hal as (Ha & _). rewrite Ha in Hpos |- *. split; [done|].
  assert (Hn : nfile m' (fd_inode f0) = nfile (file_table s) (fd_inode f0) - one_if ((f_count f =? 1) && (fd_inode f =? fd_inode f0)))
    by (by apply drop_entry_nfile).
  assert (Hend : forall bit, bit = O_RDONLY \/ bit = O_WRONLY -> nend m' (delete k F) (fd_inode f0) bit = nend (file_table s) (delete k F) (fd_inode f0) bit).
  { intros bit Hb. apply drop_entry_nend; [done|exact drop_count|done]. }
  pose proof (io_users _ _ _ _ _ Hio) as Hu. rewrite Hi'. destruct (decide (fd_inode f = fd_inode f0)) as [E|E].
  - rewrite E in Hi, Hi', Hsame |- *. rewrite lookup_insert_eq. assert (j = i) as -> by congruence. exists i'. split; [done|].
    assert (Hf00 : one_if ((f_count f =? 1) && (fd_inode f =? fd_inode f0)) = one_if (f_count f =? 1)) by (by rewrite E, Z.eqb_refl, andb_true_r).
    assert (0 <= one_if (f_count f =? 1)) by (unfold one_if; destruct (_ =? _); lia).
    apply (inode_ok_step (file_table s) F (pipes s) m' (delete k F) P' f0 f' i i'); try done; [|lia|lia|].
    + destruct Hbase as [?|[_ H0]]; [done|]. lia.
    + intros p Hp _ _. destruct (Hsame p Hp) as (p' & Hp' & Hcs). exists p'. split; [done|]. intros Ht.
      rewrite !Hend by auto. rewrite <- E, !(end_dropped (file_table s) F k e f) by done. destruct (Hcs Ht). lia.
  - rewrite lookup_insert_ne by done. exists j. split; [done|].
    apply (inode_ok_step (file_table s) F (pipes s) m' (delete k F) P' f0 f' j j); try done; [|lia|].
    + rewrite Hn, (proj2 (Z.eqb_neq _ _) E), andb_false_r. cbn. lia.
    + intros p Hp _ _. exists p. rewrite Hother by auto. split; [done|]. intros _.
      rewrite !Hend by auto. rewrite !(end_kept (file_table s) F k e f) by done. lia.
Qed.

Lemma files_drop fds refs : files_ok (delete k F) (Vfs m' fds refs c' P' k').
Proof.
  split; cbn [file_table icache pipes kern]; [done| | | |exact drop_inode| |done].
  - apply (disk_update (icache s) c' (pipes s) P' (fd_inode f) i i'); try done; [apply Hs|tauto|]. intros b [p Hp].
    destruct (decide (b = fd_inode f)) as [->|Hb]; [destruct (Hsame p Hp) as (p' & Hp' & _); eauto|rewrite Hother by done; eauto].
  - intros k0 e0 [Hne H0]%lookup_delete_Some. destruct (fo_fd _ _ Hs _ _ H0) as [Hr [f0 Hf0]]. split; [done|]. unfold m', drop_entry.
    destruct (decide (global_fd_idx e0 = global_fd_idx e)) as [E|E].
    + rewrite E. destruct (f_count f =? 1) eqn:E1; [|rewrite lookup_insert_eq; eauto].
      assert (H1 : (delete k F) !! k0 = Some e0) by (by rewrite lookup_delete_ne by auto).
      pose proof (countm_pos (fun e0 => global_fd_idx e0 =? global_fd_idx e) (delete k F) k0 e0 H1 (proj2 (Z.eqb_eq _ _) E)).
      pose proof drop_count as Hd. unfold nfd in Hd. lia.
    + destruct (f_count f =? 1); [rewrite lookup_delete_ne by auto|rewrite lookup_insert_ne by auto]; eauto.
  - intros h f' Hh. destruct (drop_entry_inv _ _ _ _ _ Hf Hh) as (f0 & Hf0 & _ & Hne & Heq).
    destruct (fo_file _ _ Hs _ _ Hf0) as (R & C & Hpos). rewrite drop_nfd. destruct (decide (h = global_fd_idx e)) as [->|E].
    + destruct (Heq eq_refl) as [H1 ->]. assert (f0 = f) as -> by congruence. rewrite Z.eqb_refl. cbn. split_and!; lia.
    + rewrite (Hne E), (proj2 (Z.eqb_neq _ _)) by auto. cbn. split_and!; lia.
  - rewrite map_size_delete_Some by eauto. pose proof (fo_size _ _ Hs). lia.
Qed.
End drop.

(** What [sys_close] does before it frees the descriptor. *)
Lemma drop_ok F s k e f i : files_ok F s -> F !! k = Some e -> file_table s !! global_fd_idx e = Some f ->
  inodes (icache s) !! fd_inode f = Some i ->
  exists s1 s2 i', call_release s (global_fd_idx e) = Ok s1 /\ file_close s1 (global_fd_idx e) = Ok (0, s2) /\
    files_ok (delete k F) s2 /\ fd_tables s2 = fd_tables s /\ table_refs s2 = table_refs s /\
    file_table s2 = drop_entry (file_table s) (global_fd_idx e) f /\
    inodes (icache s2) = <[fd_inode f := i']> (inodes (icache s)) /\ i_open_cnts i' = i_open_cnts i - one_if (f_count f =? 1) /\
    (forall p, i_type i = FT_PIPE -> pipes s !! fd_inode f = Some p ->
      forall x, producer (queue p) = Some x \/ consumer (queue p) = Some x -> runnable (kern s2) x).
Proof.
  intros Hs Hk Hf Hi. destruct (call_release_ok F s k e f i Hs Hk Hf Hi) as (k' & P' & Hrel & Hw & Hother & Hsame).
  destruct (fo_inode _ _ Hs _ _ Hf) as (Hnull & j & Hj & Hio). assert (j = i) as -> by congruence.
  destruct (fo_file _ _ Hs _ _ Hf) as (_ & Hn & Hpos). pose proof (nfd_bound F s (global_fd_idx e) Hs).
  pose proof (io_users _ _ _ _ _ Hio) as Hu. pose proof (nfile_pos _ _ _ Hf) as Hnf.
  exists (with_pipes k' P' s). unfold file_close. cbn [file_table icache with_pipes]. rewrite Hf. cbn [set_count fd_inode f_count fd_flag].
  rewrite Hi, u32_small by lia. ok_simpl.
  set (i1 := if (i_open_cnts i =? 1) && _ then _ else i). set (i2 := if has (fd_flag f) O_RDWR || _ then _ else i1).
  assert (E1 : key_of_inode i1 = key_of_inode i /\ i_open_cnts i1 = i_open_cnts i /\ i_type i1 = i_type i /\ pipe_base i1 = pipe_base i)
    by (unfold i1; by destruct (_ && _)).
  assert (E2 : key_of_inode i2 = key_of_inode i /\ i_open_cnts i2 = i_open_cnts i /\ i_type i2 = i_type i /\ pipe_base i2 = pipe_base i)
    by (unfold i2; destruct (_ || _); [cbn; destruct E1 as (K & ?); split; [exact K|done]|done]).
  clearbody i1 i2. destruct E1 as (K1 & N1 & T1 & B1), E2 as (K2 & N2 & T2 & B2).
  assert (Hdrop : forall c' i' fds refs, cache_inv c' -> hash_table c' = hash_table (icache s) -> inodes c' = <[fd_inode f := i']> (inodes (icache s)) ->
    i_open_cnts i' = i_open_cnts i - one_if (f_count f =? 1) -> i_type i' = i_type i -> (pipe_base i' = pipe_base i \/ (pipe_base i' = 0 /\ i_open_cnts i' = 0)) ->
    files_ok (delete k F) (Vfs (drop_entry (file_table s) (global_fd_idx e) f) fds refs c' P' k')).
  { intros c' i' fds refs Hc' Hh' Hi' Hcnt Hty Hbase. apply (files_drop F s k e f i Hs Hk Hf Hi k' P' c' i'); try done.
    intros p Hp. destruct (Hsame p Hp) as (p' & Hp' & Hx). exists p'. split; [done|]. intros Ht. by destruct (Hx Ht) as (_ & _ & _ & ?). }
  assert (Hwk : forall p, i_type i = FT_PIPE -> pipes s !! fd_inode f = Some p ->
      forall x, producer (queue p) = Some x \/ consumer (queue p) = Some x -> runnable k' x).
  { intros p Ht Hp. destruct (Hsame p Hp) as (p' & _ & Hx). by destruct (Hx Ht) as (_ & _ & ? & _). }
  destruct (f_count f =? 1) eqn:E1; unfold drop_entry in *; rewrite E1 in *.
  - assert ((f_count f - 1 =? 0) = true) as -> by lia.
    destruct (inode_close_ok (set_inode (fd_inode f) i2 (icache s)) (fd_inode f) i2) as (c' & i' & -> & Hc' & Hh' & Hi' & Hcn & Hct & _ & Hcb); [|done| |lia|].
    { apply (set_inode_inv (icache s) _ i); [apply Hs|done|done|lia]. }
    { cbn. apply lookup_insert_eq. }
    ok_simpl. cbn [inodes set_inode] in Hi'. rewrite insert_insert_eq in Hi'. eexists _, i'. split; [done|]. split; [done|].
    split; [|split_and!; try done; cbn; lia].
    apply (Hdrop c' i'); [done|done|done|cbn; lia|congruence|]. destruct Hcb; [left; congruence|by right].
  - assert ((f_count f - 1 =? 0) = false) as -> by lia. eexists _, i1. split; [done|]. split; [done|].
    split; [|split_and!; try done; cbn; lia].
    apply (Hdrop _ i1); [|done|done|cbn; lia|done|by left].
    apply (set_inode_inv (icache s) _ i); [apply Hs|done|done|lia].
Qed.

(** ** Adding a descriptor of an open file *)
Section add.
Context (F : gmap (Z * Z) fd_entry) (s : vfs) (k : Z * Z) (e : fd_entry) (f : file) (i : inode) (P' : gmap Z pipe).
Hypothesis (Hs : files_ok F s) (Hk : F !! k = None) (Hr : 0 <= k.2 < MAX_FILES_OPEN_PER_PROC) (Hsz : Z.of_nat (size F) + 1 < 2 ^ 32)
  (Hf : file_table s !! global_fd_idx e = Some f) (Hi : inodes (icache s) !! fd_inode f = Some i) (Hw : waits_ok (kern s) P')
  (Hother : forall b, b <> fd_inode f -> P' !! b = pipes s !! b)
  (Hsame : forall p, pipes s !! fd_inode f = Some p -> exists p', P' !! fd_inode f = Some p' /\
      (i_type i = FT_PIPE -> reader_count p' = reader_count p + one_if (has (fd_flag f) O_RDONLY) /\
        writer_count p' = writer_count p + one_if (has (fd_flag f) O_WRONLY))).

Let m' := <[global_fd_idx e := set_count (f_count f + 1) f]> (file_table s).

Lemma add_inode h f' : m' !! h = Some f' -> fd_inode f' <> NULL /\
  exists j, inodes (icache s) !! fd_inode f' = Some j /\ inode_ok m' (<[k := e]> F) P' f' j.
Proof.
  intros Hh. assert (exists f0, file_table s !! h = Some f0 /\ alike f0 f') as (f0 & Hf0 & Hal).
  { apply lookup_insert_Some in Hh as [[<- <-]|[_ Hh]]; eauto. }
  destruct (fo_inode _ _ Hs _ _ Hf0) as (Hnull & j & Hj & Hio). pose proof Hal as (Ha & _). rewrite Ha. split; [done|]. exists j.
  split; [done|]. pose proof (io_users _ _ _ _ _ Hio).
  assert (Hend : forall bit, bit = O_RDONLY \/ bit = O_WRONLY ->
    nend m' (<[k := e]> F) (fd_inode f0) bit = nend (file_table s) F (fd_inode f0) bit + one_if ((fd_inode f =? fd_inode f0) && has (fd_flag f) bit)).
  { intros bit Hb. unfold m'. rewrite (nend_alike _ _ _ f), nend_insert by auto. unfold at_end. by rewrite Hf. }
  apply (inode_ok_step (file_table s) F (pipes s) m' _ P' f0 f' j j); try done; [|lia|].
  - unfold m'. rewrite (nfile_alike _ _ f) by auto. lia.
  - intros p Hp _ _. rewrite !Hend by auto. destruct (decide (fd_inode f = fd_inode f0)) as [E|E].
    + rewrite <- E in Hp |- *. rewrite Z.eqb_refl. destruct (Hsame p Hp) as (p' & Hp' & Hc). exists p'. split; [done|].
      assert (i = j) as -> by congruence. intros Ht. destruct (Hc Ht). cbn [andb]. lia.
    + exists p. rewrite Hother by auto. split; [done|]. intros _. rewrite (proj2 (Z.eqb_neq _ _) E). cbn. lia.
Qed.

Lemma files_add fds refs : files_ok (<[k := e]> F) (Vfs m' fds refs (icache s) P' (kern s)).
Proof.
  split; cbn [file_table icache pipes kern]; [apply Hs| | | |exact add_inode| |done].
  - intros a j Ha Hj. destruct (fo_disk _ _ Hs a j Ha Hj) as [H1 H2]. split; [done|]. intros H3 H4. destruct (H2 H3 H4) as [p Hp].
    destruct (decide (a = fd_inode f)) as [->|Hb]; [destruct (Hsame p Hp) as (p' & Hp' & _); eauto|rewrite Hother by done; eauto].
  - intros k0 e0 H0. assert (is_Some (file_table s !! global_fd_idx e0) /\ 0 <= k0.2 < MAX_FILES_OPEN_PER_PROC) as [Hf0 Hr0].
    { apply lookup_insert_Some in H0 as [[<- <-]|[_ H0]]; [eauto|]. by destruct (fo_fd _ _ Hs _ _ H0). }
    split; [done|]. unfold m'. destruct (decide (global_fd_idx e = global_fd_idx e0)) as [->|E]; [rewrite lookup_insert_eq|rewrite lookup_insert_ne by done]; eauto.
  - intros h f' Hh. rewrite nfd_insert by done. apply lookup_insert_Some in Hh as [[<- <-]|[Hne Hh]].
    + destruct (fo_file _ _ Hs _ _ Hf) as (R & C & Hpos). rewrite Z.eqb_refl. cbn. split_and!; lia.
    + destruct (fo_file _ _ Hs _ _ Hh) as (R & C & Hpos). rewrite (proj2 (Z.eqb_neq _ _)) by done. cbn. split_and!; lia.
  - rewrite map_size_insert_None by done. lia.
Qed.
End add.

Lemma add_ok F s k e f : files_ok F s -> F !! k = None -> 0 <= k.2 < MAX_FILES_OPEN_PER_PROC -> Z.of_nat (size F) + 1 < 2 ^ 32 ->
  file_table s !! global_fd_idx e = Some f ->
  exists s', add_descriptor s (global_fd_idx e) = Ok s' /\ files_ok (<[k := e]> F) s' /\ fd_tables s' = fd_tables s /\
    table_refs s' = table_refs s /\ icache s' = icache s /\ kern s' = kern s /\
    file_table s' = <[global_fd_idx e := set_count (f_count f + 1) f]> (file_table s).
Proof.
  intros Hs Hk Hr Hsz Hf. destruct (fo_inode _ _ Hs _ _ Hf) as (_ & i & Hi & Hio).
  destruct (fo_file _ _ Hs _ _ Hf) as (_ & Hn & Hpos). pose proof (countm_size (fun d => global_fd_idx d =? global_fd_idx e) F) as Hb.
  unfold add_descriptor. rewrite Hf. ok_simpl. cbn [icache with_files]. rewrite Hi. ok_simpl. cbn [pipes with_files kern].
  unfold nfd in Hn, Hpos. rewrite (u32_small (f_count f + 1)) by lia. case_bool_decide as Ht.
  - destruct (io_pipe _ _ _ _ _ Hio) as (p & Hp & Hends); [by rewrite Ht|by apply (io_op _ _ _ _ _ Hio)|]. rewrite Hp. ok_simpl.
    destruct (Hends Ht) as [Er Ew].
    assert (forall bit, 0 <= nend (file_table s) F (fd_inode f) bit /\ nend (file_table s) F (fd_inode f) bit + 1 < 2 ^ 32) as Hne.
    { intros bit. pose proof (countm_size (at_end (file_table s) (fd_inode f) bit) F). pose proof (countm_nonneg (at_end (file_table s) (fd_inode f) bit) F).
      unfold nend. lia. }
    rewrite !add_one by (rewrite ?Er, ?Ew; apply Hne). eexists. split; [done|]. split; [|by repeat split].
    apply (files_add F s k e f i); try done.
    + apply waits_counts; [apply Hs|done].
    + intros b Hb'. by rewrite lookup_insert_ne by auto.
    + intros p0 Hp0. assert (p0 = p) as -> by congruence. eexists. split; [by rewrite lookup_insert_eq|done].
  - eexists. split; [done|]. split; [|by repeat split]. apply (files_add F s k e f i); try done; [apply Hs|].
    intros p Hp. exists p. by split.
Qed.

(** ** The system calls *)
Lemma files_ok_ext F s s' : files_ok F s -> file_table s' = file_table s -> icache s' = icache s -> pipes s' = pipes s -> kern s' = kern s -> files_ok F s'.
Proof. intros [A B C D E G I] H1 H2 H3 H4. split; rewrite ?H1, ?H2, ?H3, ?H4; done. Qed.

Lemma open_file F s k e : files_ok F s -> F !! k = Some e ->
  exists f i, file_table s !! global_fd_idx e = Some f /\ inodes (icache s) !! fd_inode f = Some i.
Proof.
  intros Hs Hk. destruct (fo_fd _ _ Hs _ _ Hk) as (_ & f & Hf). destruct (fo_inode _ _ Hs _ _ Hf) as (_ & i & Hi & _). eauto.
Qed.

(** What closing descriptor [(t, fd)] of entry [f] does. *)
Record closed (s : vfs) (t fd : Z) (f : file) (s' : vfs) : Prop := {
  cl_ok : vfs_ok s';
  cl_fds : fd_tables s' = delete (t, fd) (fd_tables s);
  cl_refs : table_refs s' = table_refs s;
  cl_file : forall e, fd_tables s !! (t, fd) = Some e -> file_table s' = drop_entry (file_table s) (global_fd_idx e) f;
  cl_inode : forall i, inodes (icache s) !! fd_inode f = Some i -> exists i', inodes (icache s') = <[fd_inode f := i']> (inodes (icache s)) /\
    i_open_cnts i' = i_open_cnts i - one_if (f_count f =? 1) /\
    (forall p, i_type i = FT_PIPE -> pipes s !! fd_inode f = Some p ->
      forall x, producer (queue p) = Some x \/ consumer (queue p) = Some x -> runnable (kern s') x);
}.

Lemma sys_close_ok s t fd e f : vfs_ok s -> fd_tables s !! (t, fd) = Some e -> file_table s !! global_fd_idx e = Some f ->
  exists s', sys_close s t fd = Ok (0, s') /\ closed s t fd f s'.
Proof.
  intros [Hs Ht] He Hf. destruct (open_file _ _ _ _ Hs He) as (f' & i & Hf' & Hi). assert (f' = f) as -> by congruence.
  destruct (fo_fd _ _ Hs _ _ He) as [Hr _]. cbn [snd] in Hr. unfold MAX_FILES_OPEN_PER_PROC in Hr.
  unfold sys_close, MAX_FILES_OPEN_PER_PROC. rewrite (proj2 (Z.ltb_ge fd 0)), (proj2 (Z.leb_gt 32 fd)) by lia. cbn [orb]. rewrite He.
  destruct (drop_ok _ s (t, fd) e f i Hs He Hf Hi) as (s1 & s2 & i' & -> & H2 & Hs2 & Hfd & Hrf & Hft & Hin & Hcn & Hwk).
  ok_simpl. rewrite H2. ok_simpl. eexists. split; [done|]. split; cbn [fd_tables with_fds fst snd table_refs file_table icache kern].
  - split; [rewrite Hfd; by apply (files_ok_ext _ s2)|]. intros k e0 H0. cbn [table_refs with_fds fd_tables] in *. rewrite Hrf. rewrite Hfd in H0.
    apply lookup_delete_Some in H0 as [_ H0]. by apply (Ht k e0).
  - by rewrite Hfd.
  - done.
  - intros e0 H0. assert (e0 = e) as -> by congruence. done.
  - intros i0 H0. assert (i0 = i) as -> by congruence. eauto.
Qed.


Lemma tables_insert s s' t fd e : tables_ok s -> is_Some (table_refs s !! t) -> fd_tables s' = <[(t, fd) := e]> (fd_tables s) ->
  table_refs s' = table_refs s -> tables_ok s'.
Proof.
  intros Ht Hr Hf Hrf k e' Hk. rewrite Hf in Hk. rewrite Hrf. apply lookup_insert_Some in Hk as [[<- _]|[_ Hk]]; [done|by apply (Ht k e')].
Qed.

(** A new descriptor of an open file, in a free place. *)
Lemma install_ok s t fd e : vfs_ok s -> is_Some (table_refs s !! t) -> fd_tables s !! (t, fd) = None -> 0 <= fd < MAX_FILES_OPEN_PER_PROC ->
  Z.of_nat (size (fd_tables s)) + 1 < 2 ^ 32 -> is_Some (file_table s !! global_fd_idx e) ->
  exists s', add_descriptor (with_fds (<[(t, fd) := e]> (fd_tables s)) s) (global_fd_idx e) = Ok s' /\ vfs_ok s' /\
    fd_tables s' = <[(t, fd) := e]> (fd_tables s) /\ table_refs s' = table_refs s.
Proof.
  intros [Hs Ht] Href Hk Hr Hsz [f Hf]. set (s1 := with_fds _ s).
  destruct (add_ok (fd_tables s) s1 (t, fd) e f) as (s' & Ha & Hs' & Hfd & Hrf & _); try done; [by apply (files_ok_ext _ s)|].
  exists s'. split; [done|]. split; [|done]. split; [by rewrite Hfd|]. by apply (tables_insert s s' t fd e).
Qed.

(** [sys_dup2] on two different descriptors, the old one open. *)
Lemma dup2_ok s t old new e : vfs_ok s -> Z.of_nat (size (fd_tables s)) + 1 < 2 ^ 32 -> fd_tables s !! (t, old) = Some e ->
  0 <= new < MAX_FILES_OPEN_PER_PROC -> old <> new ->
  exists s', sys_dup2 s t old new = Ok (new, s') /\ vfs_ok s' /\
    fd_tables s' = <[(t, new) := Fd (global_fd_idx e) 0]> (fd_tables s) /\ table_refs s' = table_refs s.
Proof.
  intros Hs Hsz He Hnew Hne. destruct (fo_fd _ _ (proj1 Hs) _ _ He) as [Hold [f Hf]]. cbn in Hold.
  unfold sys_dup2. rewrite He, !(proj2 (Z.leb_gt _ _)), (proj2 (Z.eqb_neq _ _)) by (done || lia).
  assert (Href : is_Some (table_refs s !! t)) by (exact (proj2 Hs _ _ He)).
  assert (exists s1, match fd_tables s !! (t, new) with Some _ => (r ← sys_close s t new; Ok r.2) | None => Ok s end = Ok s1 /\ vfs_ok s1 /\
    fd_tables s1 = delete (t, new) (fd_tables s) /\ table_refs s1 = table_refs s) as (s1 & -> & Hs1 & Hfd & Hrf).
  { destruct (fd_tables s !! (t, new)) as [e1|] eqn:E1.
    - destruct (open_file _ _ _ _ (proj1 Hs) E1) as (f1 & _ & Hf1 & _).
      destruct (sys_close_ok s t new e1 f1 Hs E1 Hf1) as (s1 & -> & Hcl). exists s1. ok_simpl. destruct Hcl. by split_and!.
    - exists s. split_and!; try done. by rewrite delete_id. }
  assert (He1 : fd_tables s1 !! (t, old) = Some e) by (rewrite Hfd, lookup_delete_ne by congruence; done).
  ok_simpl. rewrite He1. ok_simpl.
  destruct (install_ok s1 t new (Fd (global_fd_idx e) 0)) as (s2 & Ha & Hs2 & Hfd2 & Hrf2); try done.
  - by rewrite Hrf.
  - by rewrite Hfd, lookup_delete_eq.
  - rewrite Hfd. destruct (fd_tables s !! (t, new)) eqn:E.
    + rewrite map_size_delete_Some by eauto. lia.
    + rewrite delete_id by done. lia.
  - destruct (fo_fd _ _ (proj1 Hs1) _ _ He1) as [_ H1]. exact H1.
  - cbn [global_fd_idx] in Ha. rewrite Ha. ok_simpl. exists s2. split_and!; [done|done| |congruence].
    by rewrite Hfd2, Hfd, insert_delete_eq.
Qed.


(** ** fork *)
Lemma copy_table_lookup m from to k : copy_table m from to !! k = if decide (k.1 = to /\ 0 <= k.2 < MAX_FILES_OPEN_PER_PROC) then m !! (from, k.2) else m !! k.
Proof.
  unfold copy_table. assert (H : forall l, foldr (fun fd m' => match m !! (from, fd) with Some e => <[(to, fd) := e]> m' | None => delete (to, fd) m' end) m l !! k =
    if decide (k.1 = to /\ k.2 ∈ l) then m !! (from, k.2) else m !! k).
  { induction l as [|fd l IH]; [by rewrite decide_False by (intros [_ []%not_elem_of_nil])|]. cbn [foldr].
    destruct (decide ((to, fd) = k)) as [<-|Hne].
    - rewrite decide_True by (cbn; split; [done|apply elem_of_cons; by left]). cbn [snd].
      destruct (m !! (from, fd)); [apply lookup_insert_eq|apply lookup_delete_eq].
    - transitivity (if decide (k.1 = to /\ k.2 ∈ l) then m !! (from, k.2) else m !! k).
      { destruct (m !! (from, fd)); [rewrite lookup_insert_ne by done|rewrite lookup_delete_ne by done]; exact IH. }
      destruct k as [a b]. cbn [fst snd] in *. apply decide_ext. rewrite elem_of_cons. split; [tauto|].
      intros [-> [->|?]]; [done|]. auto. }
  rewrite H. apply decide_ext. unfold all_fds. rewrite elem_of_seqZ. unfold MAX_FILES_OPEN_PER_PROC. lia.
Qed.

Lemma update_f_cnts_ok t l : forall F s, files_ok F s -> NoDup l -> Z.of_nat (size F) + Z.of_nat (length l) < 2 ^ 32 ->
  (forall fd, fd ∈ l -> F !! (t, fd) = None /\ 0 <= fd < MAX_FILES_OPEN_PER_PROC) ->
  (forall fd e, fd ∈ l -> fd_tables s !! (t, fd) = Some e -> is_Some (file_table s !! global_fd_idx e)) ->
  exists s' F', update_f_cnts s t l = Ok s' /\ files_ok F' s' /\ fd_tables s' = fd_tables s /\ table_refs s' = table_refs s /\
    forall k, F' !! k = if decide (k.1 = t /\ k.2 ∈ l) then fd_tables s !! k else F !! k.
Proof.
  induction l as [|fd l IH]; intros F s Hs Hnd Hsz Hfree Hopen; cbn [update_f_cnts].
  { exists s, F. split_and!; try done. intros k. by rewrite decide_False by (intros [_ []%not_elem_of_nil]). }
  apply NoDup_cons in Hnd as [Hni Hnd]. cbn [length] in Hsz. destruct (Hfree fd) as [Hn Hr]; [apply elem_of_cons; by left|].
  assert (forall k, k.1 = t /\ k.2 ∈ fd :: l <-> k = (t, fd) \/ (k.1 = t /\ k.2 ∈ l)) as Hmem.
  { intros [a b]. cbn. rewrite elem_of_cons. split; [intros [-> [->|?]]; auto|]. intros [[= -> ->]|[-> ?]]; auto. }
  assert (forall x, x ∈ l -> x ∈ fd :: l) as Hsub by (intros x Hx; apply elem_of_cons; by right).
  destruct (fd_tables s !! (t, fd)) as [e|] eqn:He.
  - destruct (Hopen fd e) as [f Hf]; [apply elem_of_cons; by left|done|].
    destruct (add_ok F s (t, fd) e f) as (s1 & -> & Hs1 & Hfd & Hrf & _ & _ & Hft); try done; [lia|]. ok_simpl.
    destruct (IH (<[(t, fd) := e]> F) s1) as (s' & F' & -> & Hs' & Hfd' & Hrf' & HF'); [done|done| | | |].
    + rewrite map_size_insert_None by done. lia.
    + intros x Hx. rewrite lookup_insert_ne by congruence. by apply Hfree, Hsub.
    + intros x e0 Hx H0. rewrite Hfd in H0. destruct (Hopen x e0 (Hsub x Hx) H0) as [f0 Hf0]. rewrite Hft.
      destruct (decide (global_fd_idx e = global_fd_idx e0)) as [->|E]; [rewrite lookup_insert_eq|rewrite lookup_insert_ne by done]; eauto.
    + exists s', F'. split_and!; [done|done|congruence|congruence|]. intros k. rewrite HF', Hfd. destruct (decide (k = (t, fd))) as [->|Hne].
      * rewrite decide_False by (cbn; tauto). rewrite lookup_insert_eq, decide_True by (by apply Hmem; left). done.
      * rewrite lookup_insert_ne by done. apply decide_ext. rewrite Hmem. tauto.
  - ok_simpl. destruct (IH F s) as (s' & F' & -> & Hs' & Hfd' & Hrf' & HF'); try done; [lia|by intros x Hx; apply Hfree, Hsub|by intros x e0 Hx; apply Hopen, Hsub|].
    exists s', F'. split_and!; try done. intros k. rewrite HF'. destruct (decide (k = (t, fd))) as [->|Hne].
    + rewrite decide_False by (cbn; tauto). rewrite decide_True by (by apply Hmem; left). congruence.
    + apply decide_ext. rewrite Hmem. tauto.
Qed.

Lemma in_all_fds fd : fd ∈ all_fds <-> 0 <= fd < MAX_FILES_OPEN_PER_PROC.
Proof. unfold all_fds. rewrite elem_of_seqZ. unfold MAX_FILES_OPEN_PER_PROC. lia. Qed.

Lemma all_fds_NoDup : NoDup all_fds.
Proof. apply NoDup_seqZ. Qed.

Lemma fork_ok s flags parent mem : vfs_ok s -> has flags CLONE_FILES = false -> table_refs s !! mem = None ->
  Z.of_nat (size (fd_tables s)) + 32 < 2 ^ 32 ->
  exists s', copy_files s flags parent mem = Ok (mem, s') /\ vfs_ok s' /\ table_refs s' = <[mem := 1]> (table_refs s) /\
    (forall fd, fd_tables s' !! (mem, fd) = fd_tables s !! (parent, fd)) /\
    (forall k, k.1 <> mem -> fd_tables s' !! k = fd_tables s !! k).
Proof.
  intros [Hs Ht] Hfl Hm Hsz. unfold copy_files. rewrite Hfl.
  assert (Hnew : forall fd, fd_tables s !! (mem, fd) = None).
  { intros fd. destruct (fd_tables s !! (mem, fd)) as [e|] eqn:E; [|done]. destruct (Ht _ _ E). cbn in *. congruence. }
  set (s1 := with_refs _ _).
  assert (Hlk : forall k, fd_tables s1 !! k = if decide (k.1 = mem /\ 0 <= k.2 < MAX_FILES_OPEN_PER_PROC) then fd_tables s !! (parent, k.2) else fd_tables s !! k)
    by (intros k; apply copy_table_lookup).
  destruct (update_f_cnts_ok mem all_fds (fd_tables s) s1) as (s' & F' & -> & Hs' & Hfd & Hrf & HF').
  - by apply (files_ok_ext _ s).
  - apply all_fds_NoDup.
  - unfold all_fds. rewrite length_seqZ. unfold MAX_FILES_OPEN_PER_PROC. lia.
  - intros fd Hin. split; [apply Hnew|by apply in_all_fds].
  - intros fd e Hin. rewrite Hlk. cbn [fst snd]. rewrite decide_True by (split; [done|by apply in_all_fds]). intros He.
    by destruct (fo_fd _ _ Hs _ _ He).
  - assert (F' = fd_tables s') as ->.
    { apply map_eq. intros k. rewrite HF', Hfd. case_decide as Hk; [done|]. rewrite Hlk, decide_False; [done|]. by rewrite <- in_all_fds. }
    assert (Hcopy : forall fd, fd_tables s' !! (mem, fd) = fd_tables s !! (parent, fd)).
    { intros fd. rewrite Hfd, Hlk. cbn [fst snd]. case_decide as Hd; [done|]. rewrite Hnew.
      destruct (fd_tables s !! (parent, fd)) as [e|] eqn:E; [|done]. destruct (fo_fd _ _ Hs _ _ E) as [Hr _]. cbn in Hr. tauto. }
    assert (Hrest : forall k, k.1 <> mem -> fd_tables s' !! k = fd_tables s !! k).
    { intros k Hk. by rewrite Hfd, Hlk, decide_False by tauto. }
    ok_simpl. exists s'. split_and!; try done. split; [done|]. intros k e Hk. rewrite Hrf. cbn [table_refs s1 with_refs].
    destruct (decide (k.1 = mem)) as [->|Hne]; [rewrite lookup_insert_eq; eauto|]. rewrite lookup_insert_ne by auto. rewrite Hrest in Hk by done.
    by apply (Ht k e).
Qed.

(** ** exit and exec *)
Lemma close_all_ok p t l : forall s, vfs_ok s ->
  exists s', close_all p s t l = Ok s' /\ vfs_ok s' /\ table_refs s' = table_refs s /\
    forall k, fd_tables s' !! k = e ← fd_tables s !! k; if decide (k.1 = t /\ k.2 ∈ l /\ p e = true) then None else Some e.
Proof.
  induction l as [|fd l IH]; intros s Hs; cbn [close_all].
  { exists s. split_and!; try done. intros k. destruct (fd_tables s !! k) as [e|]; cbn; [|done].
    by rewrite decide_False by (intros (_ & []%not_elem_of_nil & _)). }
  assert (exists s1, match fd_tables s !! (t, fd) with Some e => if p e then (r ← sys_close s t fd; Ok r.2) else Ok s | None => Ok s end = Ok s1 /\
    vfs_ok s1 /\ table_refs s1 = table_refs s /\
    forall k, fd_tables s1 !! k = e ← fd_tables s !! k; if decide (k = (t, fd) /\ p e = true) then None else Some e) as (s1 & -> & Hs1 & Hrf & Hfd).
  { destruct (fd_tables s !! (t, fd)) as [e|] eqn:He; [destruct (p e) eqn:Hp|].
    - destruct (open_file _ _ _ _ (proj1 Hs) He) as (f & _ & Hf & _). destruct (sys_close_ok s t fd e f Hs He Hf) as (s1 & -> & [A B C _ _]).
      ok_simpl. exists s1. split_and!; try done. intros k. rewrite B. destruct (decide (k = (t, fd))) as [->|Hne].
      + rewrite lookup_delete_eq, He. cbn. by rewrite decide_True by done.
      + rewrite lookup_delete_ne by auto. destruct (fd_tables s !! k) as [e0|]; cbn; [|done]. by rewrite decide_False by tauto.
    - exists s. split_and!; try done. intros k. destruct (fd_tables s !! k) as [e0|] eqn:E; cbn; [|done]. rewrite decide_False; [done|].
      intros [-> H1]. congruence.
    - exists s. split_and!; try done. intros k. destruct (fd_tables s !! k) as [e0|] eqn:E; cbn; [|done]. rewrite decide_False; [done|].
      intros [-> H1]. congruence. }
  ok_simpl. destruct (IH s1 Hs1) as (s' & -> & Hs' & Hrf' & Hfd'). exists s'. split_and!; [done|done|congruence|]. intros k. rewrite Hfd', Hfd.
  destruct (fd_tables s !! k) as [e|]; cbn; [|done]. destruct k as [a b]. cbn [fst snd].
  destruct (decide ((a, b) = (t, fd) /\ p e = true)) as [[[= -> ->] Hp]|Hn]; cbn.
  - by rewrite decide_True by (rewrite elem_of_cons; tauto).
  - apply decide_ext. rewrite elem_of_cons. split; [tauto|]. intros (-> & [->|?] & ?); [|done]. by destruct Hn.
Qed.

Lemma exec_ok s t : vfs_ok s -> exists s', close_on_exec s t = Ok s' /\ vfs_ok s' /\ table_refs s' = table_refs s /\
  forall k, fd_tables s' !! k = e ← fd_tables s !! k; if decide (k.1 = t /\ has (fd_flags e) FD_CLOEXEC = true) then None else Some e.
Proof.
  intros Hs. destruct (close_all_ok (fun e => has (fd_flags e) FD_CLOEXEC) t all_fds s Hs) as (s' & H1 & H2 & H3 & H4). exists s'.
  split_and!; try done. intros k. rewrite H4. destruct (fd_tables s !! k) as [e|] eqn:E; cbn; [|done]. apply decide_ext.
  destruct (fo_fd _ _ (proj1 Hs) _ _ E) as [Hr _]. rewrite in_all_fds. tauto.
Qed.

Lemma exit_files_ok s t n : vfs_ok s -> table_refs s !! t = Some n ->
  exists s', release_files s t = Ok s' /\ vfs_ok s' /\
    if 1 <? n then s' = with_refs (<[t := n - 1]> (table_refs s)) s
    else table_refs s' = delete t (table_refs s) /\ forall k, fd_tables s' !! k = if decide (k.1 = t) then None else fd_tables s !! k.
Proof.
  intros Hs Hn. unfold release_files. rewrite Hn. ok_simpl. destruct (1 <? n) eqn:E.
  - rewrite (proj2 (Z.ltb_lt _ _)) by lia. eexists. split; [done|]. split; [|done]. destruct Hs as [Hs Ht].
    split; [by apply (files_ok_ext _ s)|]. intros k e Hk. cbn [table_refs with_refs]. destruct (decide (t = k.1)) as [->|Hne];
      [rewrite lookup_insert_eq; eauto|rewrite lookup_insert_ne by done]. by apply (Ht k e).
  - rewrite (proj2 (Z.ltb_ge _ _)) by lia. destruct (close_all_ok (fun _ => true) t all_fds s Hs) as (s1 & -> & [Hs1 Ht1] & H3 & H4). ok_simpl.
    assert (Hfd : forall k, fd_tables s1 !! k = if decide (k.1 = t) then None else fd_tables s !! k).
    { intros k. rewrite H4. destruct (fd_tables s !! k) as [e|] eqn:E1; [|by destruct (decide (k.1 = t))]. cbn. apply decide_ext.
      destruct (fo_fd _ _ (proj1 Hs) _ _ E1) as [Hr _]. rewrite in_all_fds. tauto. }
    eexists. split; [done|]. split; [|split; [cbn; by rewrite H3|done]].
    split; [by apply (files_ok_ext _ s1)|]. intros k e Hk. cbn [table_refs with_refs fd_tables] in *. rewrite lookup_delete_ne; [by apply (Ht1 k e)|].
    intros Hkt. rewrite Hfd, decide_True in Hk by done. done.
Qed.


(** ** A new open file with one descriptor *)
Section new.
Context (F : gmap (Z * Z) fd_entry) (s : vfs) (k : Z * Z) (e : fd_entry) (f : file) (i' : inode) (c' : inode_cache) (P' : gmap Z pipe).
Hypothesis (Hs : files_ok F s) (Hg : file_table s !! global_fd_idx e = None) (Hgr : 3 <= global_fd_idx e < MAX_FILE_OPEN_IN_SYSTEM)
  (Hk : F !! k = None) (Hr : 0 <= k.2 < MAX_FILES_OPEN_PER_PROC) (Hsz : Z.of_nat (size F) + 1 < 2 ^ 32)
  (Hcnt : f_count f = 1) (Hnull : fd_inode f <> NULL) (Hc' : cache_inv c') (Hd' : disk_ok c' P') (Hi' : inodes c' !! fd_inode f = Some i')
  (Hkeep : forall b i, b <> fd_inode f -> 0 < nfile (file_table s) b -> inodes (icache s) !! b = Some i -> 0 < i_open_cnts i -> inodes c' !! b = Some i)
  (HkeepP : forall b, b <> fd_inode f -> P' !! b = pipes s !! b) (Hw : waits_ok (kern s) P').

Let m' := <[global_fd_idx e := f]> (file_table s).
Let F' := <[k := e]> F.

(** What has to hold of the file's own inode. *)
Hypothesis (Hself : inode_ok m' F' P' f i')
  (Hpeer : forall h f0, file_table s !! h = Some f0 -> fd_inode f0 = fd_inode f -> inode_ok m' F' P' f0 i').

Lemma new_nfd : nfd F (global_fd_idx e) = 0.
Proof. apply countm_zero. intros k0 e0 H0. apply Z.eqb_neq. intros E. destruct (fo_fd _ _ Hs _ _ H0) as (_ & f0 & Hf0). congruence. Qed.

Lemma new_nend m0 F0 k0 e0 f0 a bit : m0 !! global_fd_idx e0 = None -> nfd F0 (global_fd_idx e0) = 0 -> F0 !! k0 = None ->
  nend (<[global_fd_idx e0 := f0]> m0) (<[k0 := e0]> F0) a bit = nend m0 F0 a bit + one_if ((fd_inode f0 =? a) && has (fd_flag f0) bit).
Proof.
  intros H1 H2 H3. rewrite nend_insert by done. rewrite (nend_other m0 _ F0 (global_fd_idx e0)); [|done|intros h Hh; by rewrite lookup_insert_ne by auto].
  unfold at_end. by rewrite lookup_insert_eq.
Qed.

Lemma new_nfile a : nfile m' a = nfile (file_table s) a + one_if (fd_inode f =? a).
Proof. unfold m', nfile. by rewrite countm_insert by done. Qed.

Lemma files_new fds refs : files_ok F' (Vfs m' fds refs c' P' (kern s)).
Proof.
  split; cbn [file_table icache pipes kern]; [done|done| | | | |done].
  - intros k0 e0 H0. unfold m'. apply lookup_insert_Some in H0 as [[<- <-]|[_ H0]]; [rewrite lookup_insert_eq; eauto|].
    destruct (fo_fd _ _ Hs _ _ H0) as (R & f0 & Hf0). split; [done|].
    destruct (decide (global_fd_idx e = global_fd_idx e0)) as [E|E]; [congruence|rewrite lookup_insert_ne by done; eauto].
  - intros h f0 Hh. unfold F'. rewrite nfd_insert by done. apply lookup_insert_Some in Hh as [[<- <-]|[Hne Hh]].
    + rewrite new_nfd, Z.eqb_refl. cbn. split_and!; lia.
    + destruct (fo_file _ _ Hs _ _ Hh) as (R & C & Hpos). rewrite (proj2 (Z.eqb_neq _ _)) by done. cbn. split_and!; lia.
  - intros h f0 Hh. apply lookup_insert_Some in Hh as [[<- <-]|[Hne Hh]]; [eauto|].
    destruct (fo_inode _ _ Hs _ _ Hh) as (Hn0 & i & Hi & Hio). split; [done|].
    destruct (decide (fd_inode f0 = fd_inode f)) as [E|E]; [rewrite E; eauto|].
    pose proof (nfile_pos _ _ _ Hh). pose proof (io_users _ _ _ _ _ Hio).
    exists i. split; [apply Hkeep; try done; lia|]. apply (inode_ok_step (file_table s) F (pipes s) m' F' P' f0 f0 i i); try done; [|lia|].
    + rewrite new_nfile, (proj2 (Z.eqb_neq _ _)) by auto. cbn. lia.
    + intros p Hp _ _. exists p. rewrite HkeepP by done. split; [done|]. intros _. unfold m', F'.
      rewrite !new_nend by (done || apply new_nfd). rewrite (proj2 (Z.eqb_neq _ _)) by auto. cbn. lia.
  - unfold F'. rewrite map_size_insert_None by done. lia.
Qed.
End new.

(** ** Free places *)
Lemma free_slot_ok s : get_free_slot_in_global s <> -1 ->
  3 <= get_free_slot_in_global s < MAX_FILE_OPEN_IN_SYSTEM /\ file_table s !! get_free_slot_in_global s = None.
Proof.
  unfold get_free_slot_in_global. destruct (first_elem _ _) as [i|] eqn:E; [|done]. intros _.
  apply first_elem_in in E as [Hin Hi]. apply elem_of_seqZ in Hin. unfold MAX_FILE_OPEN_IN_SYSTEM in *.
  apply bool_decide_eq_true in Hi. split; [lia|done].
Qed.

Lemma free_fd_ok s t from i : 0 <= from -> free_fd s t from = Some i -> from <= i < MAX_FILES_OPEN_PER_PROC /\ fd_tables s !! (t, i) = None.
Proof.
  unfold free_fd. intros H0 E. apply first_elem_in in E as [Hin Hi]. apply elem_of_seqZ in Hin. unfold MAX_FILES_OPEN_PER_PROC in *.
  apply bool_decide_eq_true in Hi. split; [lia|done].
Qed.

(** ** Opening *)
Lemma nfile_cases F s a : files_ok F s -> nfile (file_table s) a = 0 \/
  exists g f, file_table s !! g = Some f /\ fd_inode f = a.
Proof.
  intros _. destruct (decide (map_Forall (fun _ f => fd_inode f <> a) (file_table s))) as [Hall|Hn].
  - left. apply countm_zero. intros g f Hf. apply Z.eqb_neq. exact (Hall g f Hf).
  - right. apply map_not_Forall in Hn as (g & f & Hf & Hne); [|apply _]. exists g, f. split; [done|]. by apply dec_stable.
Qed.

(** The inode of a new user, in terms of the one it was. *)
Lemma nfile_opened F s a i : files_ok F s -> inodes (icache s) !! a = Some i -> 0 <= i_open_cnts i -> nfile (file_table s) a <= i_open_cnts i.
Proof.
  intros Hs Hi H0. destruct (nfile_cases F s a Hs) as [->|(g & f & Hf & <-)]; [done|].
  destruct (fo_inode _ _ Hs _ _ Hf) as (_ & j & Hj & Hio). assert (j = i) as -> by congruence. apply (io_users _ _ _ _ _ Hio).
Qed.

Lemma nfile_unknown F s a : files_ok F s -> inodes (icache s) !! a = None -> nfile (file_table s) a = 0.
Proof.
  intros Hs Hi. destruct (nfile_cases F s a Hs) as [->|(g & f & Hf & <-)]; [done|].
  destruct (fo_inode _ _ Hs _ _ Hf) as (_ & j & Hj & _). congruence.
Qed.

Section open_ok.
Context (kernel_heap_start : Z) (read : inode -> inode) (is_tty : Z -> bool) (sb_magic : Z -> Z).

(** [read_inode] fills in what the disk says: the type is one of [decode_imode], and the
    words of a FIFO's inode that the buffer pointer shares are 0. *)
Hypothesis (read_key : forall i, key_of_inode (read i) = key_of_inode i) (read_cnt : forall i, i_open_cnts (read i) = i_open_cnts i)
  (read_type : forall i, i_type (read i) <> FT_PIPE) (read_base : forall i, is_pipe (i_type (read i)) = true -> pipe_base (read i) = 0).

Lemma file_ops_release a ty o : file_ops is_tty sb_magic a ty = Ok (Some o) -> has_release o = true -> is_pipe ty = true.
Proof.
  unfold file_ops. intros H Hr. destruct ty; try done; repeat case_match; simplify_eq; done.
Qed.

Lemma file_open_ok s t mem dev no flag fd s' : vfs_ok s -> is_Some (table_refs s !! t) ->
  (forall m, mem = Some m -> inodes (icache s) !! m = None /\ m <> NULL) ->
  (forall b i, inodes (icache s) !! b = Some i -> i_open_cnts i + 1 < 2 ^ 32) -> elem_nr (hash_table (icache s)) + 1 < 2 ^ 32 ->
  Z.of_nat (size (fd_tables s)) + 1 < 2 ^ 32 ->
  file_open kernel_heap_start (Some read) is_tty sb_magic s t mem dev no flag = Ok (fd, s') -> fd <> -1 ->
  vfs_ok s' /\ fd_tables s !! (t, fd) = None /\ table_refs s' = table_refs s /\
    fd_tables s' = <[(t, fd) := Fd (get_free_slot_in_global s) 0]> (fd_tables s).
Proof.
  intros [Hs Ht] Href Hmem Hmax Hnr Hsz. unfold file_open. destruct (get_free_slot_in_global s =? -1) eqn:Eg; [intros [= <- <-]; done|].
  destruct (free_slot_ok s) as [Hgr Hg]; [lia|]. set (g := get_free_slot_in_global s) in *. unfold file_open_at.
  destruct (inode_open _ _ _ _ _ _ _) as [[a c']| | |] eqn:Eo; try done. ok_simpl. cbn [fst snd].
  destruct (open_effect kernel_heap_start read read_key read_cnt (icache s) mem dev no a c' (fo_cache _ _ Hs) Hmem Hmax Hnr Eo) as (Hc' & Hnull & (i' & Hi' & Hfrom) & Hkeep & Helem).
  cbn [icache with_cache]. rewrite Hi'. ok_simpl. set (w := (_ || _) && _). destruct (w && write_deny i'); [intros [= <- <-]; done|].
  destruct (file_ops is_tty sb_magic a (i_type i')) as [o| | |] eqn:Eop; try done. ok_simpl. unfold pcb_fd_install.
  destruct (free_fd _ t 0) as [n|] eqn:Efd; [|intros [= <- <-]; done]. intros [= <- <-] _.
  assert (Hfree : 0 <= n < MAX_FILES_OPEN_PER_PROC /\ fd_tables s !! (t, n) = None).
  { apply free_fd_ok in Efd as [H1 H2]; [|done]. split; [done|]. by destruct w. }
  destruct Hfree as [Hn Hnone]. set (i2 := if w then set_write_deny true i' else i'). set (c2 := if w then set_inode a i2 c' else c').
  assert (Hty : i_type i2 = i_type i' /\ pipe_base i2 = pipe_base i' /\ i_open_cnts i2 = i_open_cnts i' /\ key_of_inode i2 = key_of_inode i') by (unfold i2; by destruct w).
  assert (Hcn : nfile (file_table s) a + 1 <= i_open_cnts i' < 2 ^ 32 /\ 0 <= i_open_cnts i' /\ i_type i' <> FT_PIPE /\ (is_pipe (i_type i') = true -> pipe_base i' <> 0 -> is_Some (pipes s !! a))).
  { destruct Hfrom as [(i & Ha & Hi & ->)|[Hi ->]].
    - destruct (ci_live _ (fo_cache _ _ Hs) a Ha) as (_ & y & Hy & H0). assert (y = i) as -> by congruence.
      pose proof (nfile_opened _ s a i Hs Hi (proj1 H0)). pose proof (Hmax a i Hi). cbn. destruct (fo_disk _ _ Hs a i Ha Hi). split_and!; (lia || done).
    - rewrite (nfile_unknown _ s a Hs Hi), read_cnt. cbn [i_open_cnts new_inode]. split_and!; try lia; [by apply read_type|]. intros H1 H2. by rewrite read_base in H2. }
  destruct Hty as (T1 & T2 & T3 & T4), Hcn as (N1 & N2 & N3 & N4).
  assert (Hi2 : inodes c2 !! a = Some i2) by (unfold c2, i2; destruct w; [apply lookup_insert_eq|done]).
  assert (Hinv2 : cache_inv c2) by (unfold c2; destruct w; [apply (set_inode_inv c' a i'); try done; lia|done]).
  assert (Hk2 : forall b, b <> a -> inodes c2 !! b = inodes c' !! b) by (intros b Hb; unfold c2; destruct w; [cbn; by rewrite lookup_insert_ne by auto|done]).
  assert (Hh2 : hash_table c2 = hash_table c') by (unfold c2; by destruct w).
  set (f := File 0 flag a 1 o). set (st := with_fds _ _).
  assert (Est : st = Vfs (<[g := f]> (file_table s)) (<[(t, n) := Fd g 0]> (fd_tables s)) (table_refs s) c2 (pipes s) (kern s)).
  { unfold st, c2, i2. destruct w; cbn; rewrite ?insert_insert_eq; done. }
  rewrite Est. clear Est. clear st. clearbody c2 i2. split; [|done]. split; [|by apply (tables_insert s _ t n (Fd g 0))]. cbn [fd_tables].
  assert (Hnf : nfile (<[g := f]> (file_table s)) a = nfile (file_table s) a + 1).
  { pose proof (new_nfile s (Fd g 0) f Hg a) as H. cbn [global_fd_idx fd_inode f] in H. by rewrite Z.eqb_refl in H. }
  assert (Hself : forall f0, fd_inode f0 = a -> (forall x, f_op f0 = Some x -> has_release x = true -> is_pipe (i_type i') = true) ->
    inode_ok (<[g := f]> (file_table s)) (<[(t, n) := Fd g 0]> (fd_tables s)) (pipes s) f0 i2).
  { intros f0 E Hrel. split; rewrite ?E, ?T1, ?T2, ?T3; try done; [lia|]. intros H1 H2. destruct (N4 H1 H2) as [p Hp]. exists p. by split. }
  apply (files_new (fd_tables s) s (t, n) (Fd g 0) f i2 c2 (pipes s)); try done.
  - intros b y Hb Hy. rewrite Hh2 in Hb. destruct (decide (b = a)) as [->|Hba]; [assert (y = i2) as -> by congruence; by rewrite T1, T2|].
    rewrite Hk2 in Hy by done. destruct (Helem b Hb) as [|[Hb' E]]; [done|]. rewrite E in Hy. by apply (fo_disk _ _ Hs b y).
  - intros b y Hba _ Hy Hpos. rewrite Hk2 by done. by apply Hkeep.
  - apply Hs.
  - apply Hself; [done|]. cbn [f_op f]. intros x -> Hx. by apply (file_ops_release a _ x).
  - intros h f0 Hf0 E. cbn [fd_inode f] in E. apply Hself; [done|]. intros x Hx Hrx. destruct (fo_inode _ _ Hs _ _ Hf0) as (_ & y & Hy & Hio). rewrite E in Hy.
    pose proof (io_release _ _ _ _ _ Hio x Hx Hrx). destruct Hfrom as [(i & _ & Hi & ->)|[Hi _]]; [|congruence]. cbn. by assert (y = i) as <- by congruence.
Qed.
End open_ok.

(** ** Making a pipe *)
Lemma nend_unused m F a bit : nfile m a = 0 -> nend m F a bit = 0.
Proof.
  intros H0. apply countm_zero. intros k e _. unfold at_end. destruct (m !! global_fd_idx e) as [f|] eqn:E; [|done].
  destruct (fd_inode f =? a) eqn:Ea; [|done]. pose proof (countm_pos (fun f => fd_inode f =? a) m _ f E Ea). unfold nfile in H0. lia.
Qed.

(** The new inode and its buffer, with one entry and then with two. *)
Lemma pipe_entries F s a i c' q k1 k2 r w : files_ok F s -> inodes (icache s) !! a = None -> a <> NULL ->
  i_type i = FT_PIPE -> pipe_base i <> 0 -> i_open_cnts i = 2 -> cache_inv c' -> hash_table c' = hash_table (icache s) ->
  inodes c' = <[a := i]> (inodes (icache s)) -> producer q = None -> consumer q = None ->
  file_table s !! r = None -> file_table s !! w = None -> r <> w -> 3 <= r < MAX_FILE_OPEN_IN_SYSTEM -> 3 <= w < MAX_FILE_OPEN_IN_SYSTEM ->
  F !! k1 = None -> F !! k2 = None -> k1 <> k2 -> 0 <= k1.2 < MAX_FILES_OPEN_PER_PROC -> 0 <= k2.2 < MAX_FILES_OPEN_PER_PROC ->
  Z.of_nat (size F) + 2 < 2 ^ 32 ->
  let fr := File 0 O_RDONLY a 1 (Some pipe_file_operations) in
  let fw := File 0 O_WRONLY a 1 (Some pipe_file_operations) in
  forall fds refs, files_ok (<[k2 := Fd w 0]> (<[k1 := Fd r 0]> F))
    (Vfs (<[w := fw]> (<[r := fr]> (file_table s))) fds refs c' (<[a := Pipe q 1 1]> (pipes s)) (kern s)).
Proof.
  intros Hs Ha Hnull Hty Hb Hcn Hc' Hh Hi' Q1 Q2 Hr Hw Hrw Hrr Hwr Hk1 Hk2 Hkk R1 R2 Hsz fr fw fds refs.
  assert (Hi : inodes c' !! a = Some i) by (rewrite Hi'; apply lookup_insert_eq).
  pose proof (nfile_unknown _ _ _ Hs Ha) as Hn0.
  assert (Hnot : a ∉ elems (hash_table (icache s))).
  { intros Hin. destruct (ci_live _ (fo_cache _ _ Hs) a Hin) as (_ & y & Hy & _). congruence. }
  assert (Hdisk : forall p, disk_ok c' (<[a := p]> (pipes s))).
  { intros p b y Hin Hy. rewrite Hh in Hin. assert (a <> b) by congruence. rewrite Hi', lookup_insert_ne in Hy by done.
    rewrite lookup_insert_ne by done. by apply (fo_disk _ _ Hs). }
  assert (Hkeep : forall b y, b <> a -> inodes (icache s) !! b = Some y -> inodes c' !! b = Some y).
  { intros b y Hne Hy. by rewrite Hi', lookup_insert_ne by auto. }
  assert (Hpipe : forall m F rc wc f, fd_inode f = a -> f_op f = Some pipe_file_operations -> nfile m a <= 2 -> nend m F a O_RDONLY = rc -> nend m F a O_WRONLY = wc ->
    inode_ok m F (<[a := Pipe q rc wc]> (pipes s)) f i).
  { intros m F0 rc wc f E Ho H1 H2 H3. split; rewrite ?E, ?Hcn; [lia|by rewrite Hty|done|]. intros _ _. exists (Pipe q rc wc). split; [apply lookup_insert_eq|].
    by rewrite H2, H3. }
  set (s1 := Vfs (<[r := fr]> (file_table s)) fds refs c' (<[a := Pipe q 1 0]> (pipes s)) (kern s)).
  pose proof (new_nfile s (Fd r 0) fr Hr a) as Hn1. pose proof (new_nfd _ s (Fd r 0) Hs Hr) as Hd1. cbn [global_fd_idx fd_inode fr] in Hn1, Hd1. rewrite Z.eqb_refl, Hn0 in Hn1.
  assert (He1 : forall bit, nend (<[r := fr]> (file_table s)) (<[k1 := Fd r 0]> F) a bit = one_if (has O_RDONLY bit)).
  { intros bit. pose proof (new_nend (file_table s) F k1 (Fd r 0) fr a bit Hr Hd1 Hk1) as H. cbn [global_fd_idx fd_inode fr fd_flag] in H.
    rewrite H, nend_unused, Z.eqb_refl by done. cbn. lia. }
  assert (Hs1 : files_ok (<[k1 := Fd r 0]> F) s1).
  { apply (files_new F s k1 (Fd r 0) fr i c' (<[a := Pipe q 1 0]> (pipes s))); try done; [lia| | |by apply waits_new; [apply Hs|..]| |].
    - intros b y Hne _ Hy _. by apply Hkeep.
    - intros b Hne. by rewrite lookup_insert_ne by auto.
    - apply Hpipe; try done; [cbn in *; lia|by rewrite He1..].
    - intros h f0 Hf0 E. pose proof (nfile_pos _ _ _ Hf0) as Hp. rewrite E in Hp. cbn in Hp. lia. }
  assert (Hw1 : file_table s1 !! w = None) by (cbn; by rewrite lookup_insert_ne by done).
  pose proof (new_nfile s1 (Fd w 0) fw Hw1 a) as Hn2. pose proof (new_nfd _ s1 (Fd w 0) Hs1 Hw1) as Hd2.
  cbn [global_fd_idx fd_inode fw file_table s1] in Hn2, Hd2. rewrite Z.eqb_refl, Hn1 in Hn2.
  assert (Hk2' : <[k1 := Fd r 0]> F !! k2 = None) by (by rewrite lookup_insert_ne).
  assert (He2 : forall bit, nend (<[w := fw]> (<[r := fr]> (file_table s))) (<[k2 := Fd w 0]> (<[k1 := Fd r 0]> F)) a bit = one_if (has O_RDONLY bit) + one_if (has O_WRONLY bit)).
  { intros bit. pose proof (new_nend (<[r := fr]> (file_table s)) (<[k1 := Fd r 0]> F) k2 (Fd w 0) fw a bit Hw1 Hd2 Hk2') as H.
    etransitivity; [exact H|]. cbn [fd_inode fw fd_flag]. by rewrite He1, Z.eqb_refl. }
  assert (Hok : forall f, fd_inode f = a -> f_op f = Some pipe_file_operations ->
    inode_ok (<[w := fw]> (<[r := fr]> (file_table s))) (<[k2 := Fd w 0]> (<[k1 := Fd r 0]> F)) (<[a := Pipe q 1 1]> (pipes s)) f i).
  { intros f E Ho. apply Hpipe; try done; [cbn in *; lia|by rewrite He2..]. }
  pose proof (files_new (<[k1 := Fd r 0]> F) s1 k2 (Fd w 0) fw i c' (<[a := Pipe q 1 1]> (pipes s))) as Hnew. cbn [global_fd_idx file_table s1 kern] in Hnew.
  apply Hnew; try done; clear Hnew.
  - rewrite map_size_insert_None by done. lia.
  - intros b Hne. cbn [pipes s1]. by rewrite !lookup_insert_ne by auto.
  - by apply waits_new; [apply Hs|..].
  - by apply Hok.
  - intros h f0 Hf0 E. apply Hok; [done|]. apply lookup_insert_Some in Hf0 as [[_ <-]|[_ Hf0]]; [done|].
    pose proof (nfile_pos _ _ _ Hf0) as Hp. rewrite E in Hp. cbn in Hp. lia.
Qed.

Lemma sys_pipe_ok s t mem page b x y s' : vfs_ok s -> is_Some (table_refs s !! t) ->
  (forall m, mem = Some m -> inodes (icache s) !! m = None /\ m <> NULL) -> (forall p, page = Some p -> p <> 0) ->
  Z.of_nat (size (fd_tables s)) + 2 < 2 ^ 32 -> sys_pipe s t mem page b = Ok (Some (x, y), s') ->
  vfs_ok s' /\ x <> y /\ fd_tables s !! (t, x) = None /\ fd_tables s !! (t, y) = None /\ table_refs s' = table_refs s /\
  exists r w, r <> w /\ file_table s !! r = None /\ file_table s !! w = None /\ fd_tables s' = <[(t, y) := Fd w 0]> (<[(t, x) := Fd r 0]> (fd_tables s)).
Proof.
  intros [Hs Ht] Href Hmem Hpage Hsz. unfold sys_pipe, make_anonymous_inode. destruct mem as [a|]; [|done]. destruct (Hmem a eq_refl) as [Ha Hnull].
  destruct page as [base|]; [|done]. pose proof (Hpage base eq_refl) as Hb. ok_simpl. cbn [inodes]. rewrite lookup_insert_eq. ok_simpl.
  set (i := set_open_cnts 2 _). set (c' := set_inode a i _). set (s0 := with_pipes _ _ _).
  set (r := get_free_slot_in_global s0). destruct (r =? -1) eqn:Er; [done|]. ok_simpl. cbn [negb]. ok_simpl.
  destruct (free_slot_ok s0) as [Hrr Hr]; [fold r; lia|]. fold r in Hrr, Hr.
  set (s1 := with_files (<[r := _]> _) s0). set (w := get_free_slot_in_global s1). destruct (w =? -1) eqn:Ew; [done|]. cbn [negb]. ok_simpl.
  destruct (free_slot_ok s1) as [Hwr Hw]; [fold w; lia|]. fold w in Hwr, Hw. cbn [file_table s1 with_files] in Hw. apply lookup_insert_None in Hw as [Hw Hrw].
  unfold pcb_fd_install. destruct (free_fd _ t 0) as [u|] eqn:Eu; [|done]. destruct (free_fd (_, _).2 t 0) as [v|] eqn:Ev; [|by rewrite orb_true_r].
  apply free_fd_ok in Eu as [Hu1 Hu2], Ev as [Hv1 Hv2]; try done. cbn [fst snd fd_tables with_fds] in *.
  apply lookup_insert_None in Hv2 as [Hv2 Huv]. destruct (negb _); [|done]. ok_simpl. intros [= <- <- <-].
  change (fd_tables s !! (t, u) = None) in Hu2. change (fd_tables s !! (t, v) = None) in Hv2.
  split_and!; try done; [|congruence|by exists r, w]. split.
  - apply (pipe_entries (fd_tables s) s a i c' (queue (init_pipe b)) (t, u) (t, v) r w); try done.
    + unfold c', set_inode. cbn [inodes hash_table lru_list freed_pages]. rewrite insert_insert_eq. apply new_inode_inv; [apply Hs|done].
    + unfold c', set_inode. cbn [inodes]. by rewrite insert_insert_eq.
  - apply (tables_insert (with_fds (<[(t, u) := Fd r 0]> (fd_tables s)) s) _ t v (Fd w 0)); try done. by apply (tables_insert s _ t u (Fd r 0)).
Qed.

(** ** fcntl *)
Lemma has_keep fl arg bit : bit = O_RDONLY \/ bit = O_WRONLY ->
  has (Z.lor (Z.ldiff fl (Z.lor O_APPEND O_NONBLOCK)) (Z.land arg (Z.lor O_APPEND O_NONBLOCK))) bit = has fl bit.
Proof.
  intros Hb. unfold has. do 2 f_equal. apply Z.bits_inj'. intros n Hn. rewrite !Z.land_spec, Z.lor_spec, Z.ldiff_spec, Z.land_spec.
  destruct (decide (n = 0 \/ n = 1)) as [[-> | ->]|Hne].
  - change (Z.testbit (Z.lor O_APPEND O_NONBLOCK) 0) with false. by rewrite andb_true_r, andb_false_r, orb_false_r.
  - change (Z.testbit (Z.lor O_APPEND O_NONBLOCK) 1) with false. by rewrite andb_true_r, andb_false_r, orb_false_r.
  - assert (Z.testbit bit n = false) as ->; [|by rewrite !andb_false_r].
    destruct Hb as [-> | ->]; [change O_RDONLY with (2 ^ 0)|change O_WRONLY with (2 ^ 1)]; rewrite Z.pow2_bits_eqb by lia; lia.
Qed.

(** An entry replaced by one with the same count and the same ends. *)
Lemma files_alike F s g f f' : files_ok F s -> file_table s !! g = Some f -> alike f f' -> f_count f' = f_count f ->
  files_ok F (with_files (<[g := f']> (file_table s)) s).
Proof.
  intros Hs Hf Hal Hc. assert (Hfrom : forall h f0, <[g := f']> (file_table s) !! h = Some f0 -> exists f1, file_table s !! h = Some f1 /\ alike f1 f0 /\ f_count f0 = f_count f1).
  { intros h f0 [[<- <-]|[_ Hh]]%lookup_insert_Some; eauto. }
  split; cbn [file_table icache pipes kern with_files]; try apply Hs.
  - intros k e He. destruct (fo_fd _ _ Hs _ _ He) as (R & f0 & Hf0). split; [done|].
    destruct (decide (g = global_fd_idx e)) as [<-|Hne]; [rewrite lookup_insert_eq|rewrite lookup_insert_ne by done]; eauto.
  - intros h f0 Hh. destruct (Hfrom h f0 Hh) as (f1 & Hf1 & _ & ->). by apply (fo_file _ _ Hs).
  - intros h f0 Hh. destruct (Hfrom h f0 Hh) as (f1 & Hf1 & Ha & _). destruct (fo_inode _ _ Hs _ _ Hf1) as (Hn & i & Hi & Hio).
    pose proof Ha as (E & _). rewrite E. split; [done|]. exists i. split; [done|]. pose proof (io_users _ _ _ _ _ Hio).
    apply (inode_ok_step (file_table s) F (pipes s) _ F (pipes s) f1 f0 i i); try done; [rewrite (nfile_alike _ _ f) by done; lia|lia|].
    intros p Hp _ _. exists p. split; [done|]. intros _. rewrite !(nend_alike _ _ _ f) by auto. lia.
Qed.

(** Only F_DUPFD on a pipe is left out: it does not count the new descriptor's end. *)
Lemma fcntl_ok s t fd cmd arg n s' : vfs_ok s -> 0 <= arg -> Z.of_nat (size (fd_tables s)) + 1 < 2 ^ 32 ->
  (forall e f i, cmd_of cmd = F_DUPFD -> fd_tables s !! (t, fd) = Some e -> file_table s !! global_fd_idx e = Some f ->
    inodes (icache s) !! fd_inode f = Some i -> i_type i <> FT_PIPE) ->
  sys_fcntl s t fd cmd arg = Ok (n, s') -> vfs_ok s'.
Proof.
  intros [Hs Ht] Harg Hsz Hnp. unfold sys_fcntl. destruct (_ || _); [by intros [= <- <-]|].
  destruct (fd_tables s !! (t, fd)) as [e|] eqn:He; [|by intros [= <- <-]]. destruct (open_file _ _ _ _ Hs He) as (f & i & Hf & Hi).
  destruct (cmd_of cmd) eqn:Ec; try by intros [= <- <-].
  - destruct (_ <=? arg); [by intros [= <- <-]|]. destruct (free_fd s t arg) as [x|] eqn:Ex; [|by intros [= <- <-]].
    rewrite Hf. ok_simpl. intros [= <- <-]. apply free_fd_ok in Ex as [R N]; [|done].
    destruct (fo_file _ _ Hs _ _ Hf) as (_ & Hc & _). pose proof (countm_size (fun d => global_fd_idx d =? global_fd_idx e) (fd_tables s)).
    pose proof (countm_nonneg (fun d => global_fd_idx d =? global_fd_idx e) (fd_tables s)). unfold nfd in Hc. rewrite u32_small by lia. split.
    + apply (files_add (fd_tables s) s (t, x) (Fd (global_fd_idx e) 0) f i (pipes s)); try done; [cbn; lia|apply Hs|].
      intros p Hp. exists p. split; [done|]. intros E. by destruct (Hnp e f i).
    + apply (tables_insert s _ t x (Fd (global_fd_idx e) 0)); try done. exact (Ht _ _ He).
  - intros [= <- <-]. split; [|apply (tables_insert s _ t fd (Fd (global_fd_idx e) (Z.land arg FD_CLOEXEC))); try done; exact (Ht _ _ He)].
    cbn [fd_tables with_fds]. apply (files_ok_ext _ s); [|done..]. set (e' := Fd _ _).
    assert (E : forall g, nfd (<[(t, fd) := e']> (fd_tables s)) g = nfd (fd_tables s) g) by (intros g; unfold nfd; rewrite (countm_update _ _ _ e) by done; cbn; lia).
    assert (E2 : forall m a bit, nend m (<[(t, fd) := e']> (fd_tables s)) a bit = nend m (fd_tables s) a bit).
    { intros m a bit. unfold nend. rewrite (countm_update _ _ _ e) by done. change (at_end m a bit e') with (at_end m a bit e). lia. }
    split; try apply Hs.
    + intros k0 e0 [[<- <-]|[_ H0]]%lookup_insert_Some; [exact (fo_fd _ _ Hs _ _ He)|exact (fo_fd _ _ Hs _ _ H0)].
    + intros g f0 Hg. rewrite E. by apply (fo_file _ _ Hs).
    + intros g f0 Hg. destruct (fo_inode _ _ Hs _ _ Hg) as (N & j & Hj & [U1 U2 U3 U4]). split; [done|]. exists j. split; [done|]. split; try done.
      intros H1 H2. destruct (U4 H1 H2) as (p & Hp & Hx). exists p. split; [done|]. by rewrite !E2.
    + rewrite map_size_insert_Some by eauto. apply Hs.
  - rewrite Hf. ok_simpl. by intros [= <- <-].
  - rewrite Hf. ok_simpl. intros [= <- <-]. split; [|exact Ht]. apply (files_alike _ s _ f); try done. repeat split; apply has_keep; auto.
Qed.

(** ** Any sequence of operations *)

(** [init_thread]: a new table without descriptors. *)
Definition new_table (s : vfs) (t : Z) : vfs := with_refs (<[t := 1]> (table_refs s)) s.

(** [filesys_init]: no open file. *)
Definition vfs_init (c : inode_cache) (k : kernel) : vfs := Vfs ∅ ∅ ∅ c ∅ k.

(** What the rest of the kernel may do in between: run, wait on and write to pipes, use
    more or fewer of the inodes' users that are not open files, and open FIFOs. *)
Record vfs_env (s s' : vfs) : Prop := {
  ve_files : file_table s' = file_table s;
  ve_fds : fd_tables s' = fd_tables s;
  ve_refs : table_refs s' = table_refs s;
  ve_cache : cache_inv (icache s');
  ve_disk : disk_ok (icache s') (pipes s');
  ve_waits : waits_ok (kern s') (pipes s');
  ve_inode : forall g f i, file_table s !! g = Some f -> inodes (icache s) !! fd_inode f = Some i ->
    exists i', inodes (icache s') !! fd_inode f = Some i' /\ i_type i' = i_type i /\
      nfile (file_table s) (fd_inode f) <= i_open_cnts i' < 2 ^ 32 /\
      (i_type i = FT_PIPE -> pipe_base i' = pipe_base i) /\
      (is_pipe (i_type i) = true -> pipe_base i' <> 0 -> exists p', pipes s' !! fd_inode f = Some p' /\
        (i_type i = FT_PIPE -> forall p, pipes s !! fd_inode f = Some p -> reader_count p' = reader_count p /\ writer_count p' = writer_count p));
}.

Lemma env_ok s s' : vfs_ok s -> vfs_env s s' -> vfs_ok s'.
Proof.
  intros [Hs Ht] [E1 E2 E3 E4 E5 E6 E7]. split; [|intros k e Hk; rewrite E3; rewrite E2 in Hk; by apply (Ht k e)]. rewrite E2.
  split; rewrite ?E1; try done; try apply Hs. intros g f Hf. destruct (fo_inode _ _ Hs _ _ Hf) as (Hn & i & Hi & [U1 U2 U3 U4]).
  split; [done|]. destruct (E7 g f i Hf Hi) as (i' & Hi' & T & U & B & P). exists i'. split; [done|]. split; rewrite ?T; try done.
  - intros H1. rewrite B by done. by apply U3.
  - intros H1 H2. destruct (P H1 H2) as (p' & Hp' & Hc). exists p'. split; [done|]. intros H3.
    destruct (U4 H1) as (p & Hp & Hends); [by apply U3|]. destruct (Hc H3 p Hp), (Hends H3). lia.
Qed.

Section steps.
Context (kernel_heap_start : Z) (read : inode -> inode) (is_tty : Z -> bool) (sb_magic : Z -> Z).

Definition fresh_mem (s : vfs) (mem : option Z) : Prop := forall m, mem = Some m -> inodes (icache s) !! m = None /\ m <> NULL.

Inductive vfs_step (s : vfs) : vfs -> Prop :=
  | vs_table t : table_refs s !! t = None -> vfs_step s (new_table s t)
  | vs_open t mem dev no flag fd s' : is_Some (table_refs s !! t) -> fresh_mem s mem ->
      (forall b i, inodes (icache s) !! b = Some i -> i_open_cnts i + 1 < 2 ^ 32) -> elem_nr (hash_table (icache s)) + 1 < 2 ^ 32 ->
      Z.of_nat (size (fd_tables s)) + 1 < 2 ^ 32 ->
      file_open kernel_heap_start (Some read) is_tty sb_magic s t mem dev no flag = Ok (fd, s') -> fd <> -1 -> vfs_step s s'
  | vs_pipe t mem page b x y s' : is_Some (table_refs s !! t) -> fresh_mem s mem -> (forall p, page = Some p -> p <> 0) ->
      Z.of_nat (size (fd_tables s)) + 2 < 2 ^ 32 -> sys_pipe s t mem page b = Ok (Some (x, y), s') -> vfs_step s s'
  | vs_close t fd n s' : sys_close s t fd = Ok (n, s') -> vfs_step s s'
  | vs_dup2 t old new n s' : 0 <= new -> Z.of_nat (size (fd_tables s)) + 1 < 2 ^ 32 -> sys_dup2 s t old new = Ok (n, s') -> vfs_step s s'
  | vs_fcntl t fd cmd arg n s' : 0 <= arg -> Z.of_nat (size (fd_tables s)) + 1 < 2 ^ 32 ->
      (forall e f i, cmd_of cmd = F_DUPFD -> fd_tables s !! (t, fd) = Some e -> file_table s !! global_fd_idx e = Some f ->
        inodes (icache s) !! fd_inode f = Some i -> i_type i <> FT_PIPE) ->
      sys_fcntl s t fd cmd arg = Ok (n, s') -> vfs_step s s'
  | vs_fork flags t mem c s' : is_Some (table_refs s !! t) -> table_refs s !! mem = None -> Z.of_nat (size (fd_tables s)) + 32 < 2 ^ 32 ->
      copy_files s flags t mem = Ok (c, s') -> vfs_step s s'
  | vs_exec t s' : close_on_exec s t = Ok s' -> vfs_step s s'
  | vs_exit t s' : release_files s t = Ok s' -> vfs_step s s'
  | vs_env s' : vfs_env s s' -> vfs_step s s'.

Hypothesis (read_key : forall i, key_of_inode (read i) = key_of_inode i) (read_cnt : forall i, i_open_cnts (read i) = i_open_cnts i)
  (read_type : forall i, i_type (read i) <> FT_PIPE) (read_base : forall i, is_pipe (i_type (read i)) = true -> pipe_base (read i) = 0).

Lemma refs_grow s t n : vfs_ok s -> vfs_ok (with_refs (<[t := n]> (table_refs s)) s).
Proof.
  intros [Hs Ht]. split; [by apply (files_ok_ext _ s)|]. intros k e Hk. cbn [table_refs with_refs].
  destruct (decide (t = k.1)) as [->|Hne]; [rewrite lookup_insert_eq; eauto|rewrite lookup_insert_ne by done]. by apply (Ht k e).
Qed.

Lemma vfs_step_ok s s' : vfs_ok s -> vfs_step s s' -> vfs_ok s'.
Proof.
  intros Hs Hst. destruct Hst as [t Hn|t mem dev no flag fd s' H1 H2 H3 H4 H5 H6 H7|t mem page b x y s' H1 H2 H3 H4 H5|t fd n s' H|t old new n s' H0 H1 H|t fd cmd arg n s' H0 H1 H2 H|flags t mem c s' [n Hn] H1 H2 H|t s' H|t s' H|s' H].
  - by apply refs_grow.
  - by apply (file_open_ok kernel_heap_start read is_tty sb_magic read_key read_cnt read_type read_base s t mem dev no flag fd s').
  - by apply (sys_pipe_ok s t mem page b x y s').
  - destruct (fd_tables s !! (t, fd)) as [e|] eqn:He.
    + destruct (open_file _ _ _ _ (proj1 Hs) He) as (f & _ & Hf & _). destruct (sys_close_ok s t fd e f Hs He Hf) as (s1 & H1 & Hcl).
      rewrite H1 in H. injection H as <- <-. apply Hcl.
    + unfold sys_close in H. rewrite He in H. by destruct (_ || _); injection H as <- <-.
  - destruct (fd_tables s !! (t, old)) as [e|] eqn:He; [|unfold sys_dup2 in H; rewrite He in H; destruct (_ <=? _); by injection H as <- <-].
    destruct (fo_fd _ _ (proj1 Hs) _ _ He) as [Hr _]. cbn in Hr. destruct (decide (new < MAX_FILES_OPEN_PER_PROC)) as [Hnew|Hnew].
    + destruct (decide (old = new)) as [->|Hne].
      * unfold sys_dup2 in H. rewrite He, !(proj2 (Z.leb_gt _ _)), Z.eqb_refl in H by lia. by injection H as <- <-.
      * destruct (dup2_ok s t old new e) as (s1 & E & Hs1 & _); try done. rewrite E in H. by injection H as _ <-.
    + unfold sys_dup2 in H. rewrite He, (proj2 (Z.leb_gt _ old)), (proj2 (Z.leb_le _ new)) in H by lia. by injection H as <- <-.
  - by apply (fcntl_ok s t fd cmd arg n).
  - destruct (has flags CLONE_FILES) eqn:Hfl.
    + unfold copy_files in H. rewrite Hfl, Hn in H. injection H as _ <-. by apply refs_grow.
    + destruct (fork_ok s flags t mem Hs Hfl H1 H2) as (s1 & E & Hs1 & _). rewrite E in H. by injection H as _ <-.
  - destruct (exec_ok s t Hs) as (s1 & E & Hs1 & _). rewrite E in H. by injection H as <-.
  - destruct (table_refs s !! t) as [n|] eqn:Hn; [|unfold release_files in H; by rewrite Hn in H].
    destruct (exit_files_ok s t n Hs Hn) as (s1 & E & Hs1 & _). rewrite E in H. by injection H as <-.
  - by apply (env_ok s).
Qed.

Lemma vfs_init_ok c k : cache_inv c -> disk_ok c ∅ -> sched_ok k -> vfs_ok (vfs_init c k).
Proof.
  intros Hc Hd Hk. split; [|intros x e Hx; cbn in Hx; by rewrite lookup_empty in Hx]. split; cbn; try done.
Qed.

End steps.

(** ** Examples and edge cases *)

(** Two regular files of an ext2 file system, in the cache; two processes. *)
Definition ex_reg (no : Z) : inode := Inode FT_REGULAR 0 no 1 0 false 0 0 0 0.
Definition ex_icache : inode_cache :=
  match (c ← inode_register_to_cache (Cache (Hashtable (replicate 32 []) 32 0) [] {[ 4096 := ex_reg 2; 8192 := ex_reg 3 ]} []) 4096;
         inode_register_to_cache c 8192) with
  | Ok c => c
  | _ => Cache (Hashtable (replicate 32 []) 32 0) [] ∅ []
  end.

Definition ex_open (s : vfs) (t no flag : Z) : res (Z * vfs) := file_open 0 None (fun _ => false) (fun _ => EXT2_MAGIC_NUMBER) s t None 1 no flag.
Definition ex_open_at (s : vfs) (t g no flag : Z) : res (Z * vfs) := file_open_at 0 None (fun _ => false) (fun _ => EXT2_MAGIC_NUMBER) s t g None 1 no flag.
Definition ex_vfs0 : vfs := new_table (new_table (vfs_init ex_icache ex_kernel) 100) 200.

(** The chosen slot is not reserved while [inode_open] reads the disk: when another task
    opens a file meanwhile both get the same entry, so that the first task's descriptor
    is of the second task's file, and the entry's count is 1 for two descriptors. *)
Lemma file_open_shares_slot : get_free_slot_in_global ex_vfs0 = 3 /\
  exists s1 s2, ex_open_at ex_vfs0 100 3 2 O_RDONLY = Ok (0, s1) /\ ex_open_at s1 200 3 3 O_RDONLY = Ok (0, s2) /\
    fd_tables s2 !! (100, 0) = Some (Fd 3 0) /\ fd_tables s2 !! (200, 0) = Some (Fd 3 0) /\
    (fd_inode <$> file_table s2 !! 3) = Some 8192 /\ (f_count <$> file_table s2 !! 3) = Some 1.
Proof. split; [by vm_compute|]. eexists _, _. split; [vm_compute; reflexivity|]. split; [vm_compute; reflexivity|]. by vm_compute. Qed.

(** A file that is being written and cannot be opened for writing again leaves its entry
    in use, with no descriptor. *)
Lemma denied_open_leaks : exists s1 s2, ex_open ex_vfs0 100 2 O_WRONLY = Ok (0, s1) /\ ex_open s1 200 2 O_WRONLY = Ok (-1, s2) /\
  (f_count <$> file_table s2 !! 4) = Some 1 /\ nfd (fd_tables s2) 4 = 0 /\ (i_open_cnts <$> inodes (icache s2) !! 4096) = Some 2.
Proof. eexists _, _. split; [vm_compute; reflexivity|]. split; [vm_compute; reflexivity|]. by vm_compute. Qed.

(** Closing one of two descriptors of a file open for writing lifts the write lock of the
    file, which a second task can then open for writing too. *)
Lemma close_lifts_write_lock : exists s1 s2 s3 s4, ex_open ex_vfs0 100 2 O_WRONLY = Ok (0, s1) /\ sys_dup2 s1 100 0 5 = Ok (5, s2) /\
  sys_close s2 100 5 = Ok (0, s3) /\ ex_open s3 200 2 O_WRONLY = Ok (0, s4) /\ nfile (file_table s4) 4096 = 2.
Proof. eexists _, _, _, _. do 4 (split; [vm_compute; reflexivity|]). by vm_compute. Qed.

(** F_DUPFD does not count the end of a pipe: with a descriptor of the writing end still
    open the pipe has no writer. *)
Definition ex_pipe : vfs := match sys_pipe ex_vfs0 100 (Some 12288) (Some 65536) [] with Ok r => r.2 | _ => ex_vfs0 end.

Lemma dupfd_uncounted : exists s1 s2, sys_fcntl ex_pipe 100 1 0 0 = Ok (2, s1) /\ sys_close s1 100 1 = Ok (0, s2) /\
  (writer_count <$> pipes s2 !! 12288) = Some 0 /\ nend (file_table s2) (fd_tables s2) 12288 O_WRONLY = 1.
Proof. eexists _, _. split; [vm_compute; reflexivity|]. split; [vm_compute; reflexivity|]. by vm_compute. Qed.

(** A read, write or seek on a descriptor that is not open stops the kernel. *)
Lemma unopened_fd_panics s t fd : fd_tables s !! (t, fd) = None -> fd_local2global s t fd = Panic.
Proof. unfold fd_local2global. by intros ->. Qed.

(** A process with a pipe at descriptors 0 and 1. *)
Definition ex_empty : vfs := vfs_init ex_cache ex_kernel.
Definition ex_ends : vfs := match sys_pipe (new_table ex_empty 100) 100 (Some 12288) (Some 65536) [] with Ok r => r.2 | _ => ex_empty end.

Lemma ex_disk : disk_ok ex_cache ∅.
Proof. intros a i Ha _. vm_compute in Ha. by apply not_elem_of_nil in Ha. Qed.

Lemma ex_empty_ok : vfs_ok ex_empty.
Proof. apply vfs_init_ok; [apply ex_cache_ok|exact ex_disk|exact ex_kernel_ok]. Qed.

Lemma ex_ends_run : sys_pipe (new_table ex_empty 100) 100 (Some 12288) (Some 65536) [] = Ok (Some (0, 1), ex_ends).
Proof. vm_compute. reflexivity. Qed.

Lemma ex_ends_ok : vfs_ok ex_ends.
Proof.
  apply (sys_pipe_ok (new_table ex_empty 100) 100 (Some 12288) (Some 65536) [] 0 1); [apply refs_grow, ex_empty_ok|by eexists| | |vm_compute; reflexivity|exact ex_ends_run].
  - intros m [= <-]. split; [by vm_compute|done].
  - intros p [= <-]. done.
Qed.




(** The pipe of the process duplicated: two descriptors of the writing end. *)
Definition ex_read (i : inode) : inode := Inode FT_REGULAR (i_mode i) (i_no i) (i_dev i) (i_open_cnts i) false 0 0 0 0.

